(* ===== verification/_CoqProject ===== *)
-Q . S2P
Prelude.v
Kernel.v
Format.v
Crc.v
Cbor.v
Qcow2State.v
Qcow2Alloc.v
Qcow2Cache.v
Qcow2Io.v
Qcow2Inv.v
Qcow2AllocProof.v
Qcow2Wf.v
Qcow2CacheProof.v
Qcow2WriteProof.v
Qcow2IoProof.v
Flat.v
Qcow2Refine.v
Qcow2InitProof.v
Qcow2BaseProof.v
Qcow2MissProof.v
Posix.v
CtlText.v
CtlImage.v
CtlCreateProof.v
Qcow2Theorems.v
Qcow2BaseTheorems.v
Qcow2MissTheorems.v
CtlExtractProof.v
CtlPackProof.v
CtlConvertProof.v
CtlImageTheorems.v
Log.v
LogProof.v
LogTheorems.v
Json.v
CtlTextProof.v
CtlLog.v
CtlLogProof.v
CtlLogTheorems.v
CtlLogRange.v
CtlLogText.v
CtlLogTextTheorems.v
Watch.v
WatchProof.v
WatchTheorems.v
CtlProto.v
CtlProtoTheorems.v
Device.v
DeviceProof.v
DeviceTheorems.v
Lifecycle.v
LifecycleProof.v
DetachProof.v
LifecycleTheorems.v
CtlDevice.v
CtlDeviceTheorems.v
Sysfs.v
Lz4.v
Lz4Ref.v
Lz4DecProof.v
Lz4DecRefine.v
Lz4EncProof.v
Lz4EncRefine.v
Lz4Theorems.v
