(* ===== verification/Prelude.v ===== *)
(** * Verification of lbd, the logging block device

    lbd is a Linux block driver ([src/src/lbd_main.c], [src/src/lbd_qcow2.c])
    whose disks are backed by an image of LZ4-compressed clusters, with a log of
    every write and trim, and a control tool ([src/src/lbdctl.c]).

    ** How the parts interact

    Devices are added and removed by ioctls of the control device.  A request of
    the block layer is queued and served by the worker of its device; it reaches
    the image ([lbd_qcow2_read], [lbd_qcow2_write], [lbd_qcow2_discard]) or a raw
    file; a write or trim is also recorded in the log, which is cut into segments
    named by TAI64N labels.  A closed
    segment is announced to the watchers: processes that opened the control
    device and sent a [watch] command in CBOR.  A read of a cluster neither the
    image nor its base layer holds is a miss: a process that sent
    [manage_misses] answers it with [continue] or [retry], and may [swap] the
    base layer in between.  [lbdctl] creates, converts, extracts and compacts
    images, lists logs, and speaks the protocol of the control device.

    ** Files

    - [Prelude]: machine integers as [Z] with their wrap-around, bytes, the
      state and error monad [M] ([Ok], [Err] an errno, [Panic] undefined
      behaviour), array access, lemmas and tactics shared by all files.
    - [Kernel]: what the driver uses of the kernel and of LZ4, as classes:
      [KernelOps] (files by handle; [KernelLaws] says what a healthy kernel
      does), [LZ4Ops]/[LZ4Laws], [CrcOps]; [simk] is an executable kernel with
      injected faults used by the witnesses.
    - [Format] ([lbd_qcow2_format.h]), [Crc] (the checksums of [lbdctl.c]),
      [Cbor] ([cbor_enc.h], [cbor_dec.h]).
    - [Qcow2State], [Qcow2Alloc], [Qcow2Cache], [Qcow2Io]: [lbd_qcow2.c] function
      by function, in the order of the source: records; extent allocator and
      free list; L2 cache, cluster cache, base layer; opening, closing,
      swapping, read, write and discard.
    - [Qcow2Inv] (the invariant: who owns each byte of the image, what each
      cache entry may hold), [Qcow2AllocProof], [Qcow2Wf], [Qcow2CacheProof],
      [Qcow2WriteProof], [Qcow2IoProof]: every operation preserves it.
      [Flat] and [Qcow2Refine]: the abstract disk, a function from offsets to
      bytes, and the relations [stored] and, with nobody to handle misses,
      [rep] between it and the driver state.
      [Qcow2InitProof]: opening an image establishes the invariant.
      [Qcow2BaseProof]: opening and swapping a base layer.  [Qcow2MissProof]:
      reads with a miss handler, whose answers are a list in the state, against
      an abstract account of them ([answered]).
      [Qcow2Theorems], [Qcow2BaseTheorems], [Qcow2MissTheorems]: the resulting
      theorems.
    - [Posix] (system calls and C library of the tool, with injected faults),
      [CtlImage] (create, convert, extract, compact, and what they print); [CtlCreateProof],
      [CtlExtractProof] (the tool reads what the driver stored), [CtlPackProof]
      and [CtlConvertProof] (what it packs is an image), [CtlImageTheorems].
    - [Log], [LogProof], [LogTheorems]: the log of [lbd_main.c].
    - [CtlLog], [CtlLogProof], [CtlLogTheorems]: the decoder of [lbdctl log];
      [CtlLogRange]: what it decodes fits the C types it is printed from.
      [CtlText]: how the tool prints numbers, sizes, dates, strings and hex dumps,
      used by all its commands; [CtlLogText]: the listing as text and as JSON.
      [Json]: JSON values and a reference reader of text; [CtlTextProof]: that
      reader, the calendar of POSIX and a reader of hex dumps against what is
      printed; [CtlLogTextTheorems]: the listing read back.
    - [Watch], [WatchProof], [WatchTheorems]: the control device of
      [lbd_main.c]; watchers and miss handlers live in a shared store, freeing
      one removes it, and reaching a freed one is [Panic].
    - [CtlProto], [CtlProtoTheorems]: [lbdctl watch], [miss-handler], [swap], with
      the text they print.
    - [Device], [DeviceProof], [DeviceTheorems]: the block device of [lbd_main.c]:
      open and close, the queue and its worker as a step relation, the request
      paths.  [serves] is what a store promises to the request layer; the image
      and the raw file both discharge it.
    - [Lifecycle], [LifecycleProof], [DetachProof], [LifecycleTheorems]: adding,
      describing and removing devices.  Devices live in a heap, the [idr] table
      maps indices to them, and a ledger records the kernel objects each holds;
      the environment of an add says what every call that can fail answers;
      loading and unloading the module is there, too.
    - [CtlDevice], [CtlDeviceTheorems]: [lbdctl add], [remove] and [list] against
      that driver, with the text they print, and the dispatch of [main].
    - [Sysfs]: the sysfs attributes of a device as text.
    - [Lz4] (the compressor and decompressor of [lz4.c], as the program calls
      them, on memory where every access is checked), [Lz4Ref] (the block format:
      a reference decoder on lists, and what a compressor may write),
      [Lz4DecProof] and [Lz4DecRefine] (the copy loops, then the two decoding
      loops against the reference), [Lz4EncProof] and [Lz4EncRefine] (the search
      for matches, then what is written), [Lz4Theorems], which also shows that
      this code is a codec as the class [LZ4Laws] of [Kernel] asks.

    ** What the theorems show

    - The image is a disk: reads return, writes update and discards zero the
      array of bytes the state represents ([read_refines], [write_refines],
      [discard_refines]); a write is
      durable ([write_survives_reopen]); space is never handed out twice
      ([alloc_space_fresh]); a created image opens empty ([create_opens_empty]).
      A base layer, opened or swapped in, shows through where the image has no
      cluster of its own ([base_layer_refines]).  With a miss handler a read
      returns what the answers make of it ([read_asks_handler]), so a base can
      be fetched when it is first needed ([base_fetched_on_miss]).
    - The tool and the driver agree on images: [extract_reads_disk],
      [convert_extract_roundtrip] (the statistics printed are true, too),
      [compact_keeps_disk].
    - A device is that disk with a log ([device_is_disk], [raw_device_is_disk]);
      requests are served in order ([requests_in_order]); the log replays to the
      disk ([log_replays_disk]); what fails is not logged
      ([failed_io_not_logged]).
    - Adding a device is all or nothing ([add_all_or_nothing]), no sequence of
      calls leaks or reaches a freed device ([lifecycle_safe]), and a device
      detached and attached again is the same disk ([detach_attach_same_disk]);
      unloading leaves nothing behind.
      What the tool adds it lists, as text and as JSON, and can remove
      ([tool_add_list_remove]); the counters in sysfs tell what was served ([counters_shown]).
    - The log is complete and readable: the JSON that [lbdctl log] prints for the
      segments of a device reads back as the operations of the device
      ([device_log_json]); for any file it is one document ([log_json_document])
      that carries all that was decoded ([log_json_reads_back]).  Logging is
      robust: [log_faults_safe], [log_reader_terminates].
    - The control device: no use after free in any interleaving
      ([ctl_memory_safe]), every miss is answered, every rotation delivered, the
      ring is a bounded queue; commands and events round-trip between driver
      and tool, up to the JSON the tool prints ([protocol_roundtrip]).
    - The checksums are the standard CRCs and detect a changed byte.
    - LZ4: decompression undoes compression ([compress_decompress]); the
      decompressor is the reference decoder on every input, valid or malicious
      ([decompress_equals_reference]); the compressor stays within its buffers
      and its bound ([compress_bounds]); the contract the other theorems assume
      of the codec is met by this code ([code_meets_contract]).
    - Behaviours that look unintended are stated as theorems too:
      [partial_trim_loses_write], [read_sleeps_on_miss_queue],
      [read_pop_race], [add_efault_window].

    ** Bounds and fuel

    Loops over the bytes of a request take the number of bytes as fuel: every
    iteration moves at least one byte.  The free-list scan has the source's own
    limit of 8.  The decoders of [lbdctl log] take the length of the input as
    fuel and [log_reader_terminates] shows it is never exhausted; the same holds
    for the command parser, each key reading at least one byte.  The loops of LZ4 take the size of
    their input, and running out of fuel is [Panic], which its theorems exclude.
    Image theorems ask that the image ends below 2^62, the range of the offset
    mask; those of LZ4 that sizes are [int]s and that no buffer wraps around the
    address space.

    ** Not modelled

    The interfaces of [lz4.c] the program does not call: streaming, dictionaries,
    partial decoding, and its code for 32-bit or big-endian machines.  Locks and memory ordering:
    each call is a step, and the control device is modelled step by step where
    it drops its locks.  The usage text and messages on standard error.  The Go client library
    and the packaging. *)
From Stdlib Require Export ZArith Lia Strings.Byte.
From Stdlib Require String.
From stdpp Require Export base list numbers option.
Export String.StringSyntax.

Declare Scope lbd_scope.
Delimit Scope lbd_scope with lbd.
#[global] Open Scope Z_scope.
#[global] Open Scope lbd_scope.

(** ** Machine integers: [Z] with the wrap-around of each width written out. *)
Definition u8 (z : Z) : Z := z mod 2 ^ 8.
Definition u32 (z : Z) : Z := z mod 2 ^ 32.
Definition u64 (z : Z) : Z := z mod 2 ^ 64.
Definition s32 (z : Z) : Z := (z + 2 ^ 31) mod 2 ^ 32 - 2 ^ 31.
Definition s64 (z : Z) : Z := (z + 2 ^ 63) mod 2 ^ 64 - 2 ^ 63.
Definition U64_MAX : Z := 2 ^ 64 - 1.

(** ** Error numbers (the negative return values of the kernel functions). *)
Definition EIO : Z := 5.
Definition ENXIO : Z := 6.
Definition EAGAIN : Z := 11.
Definition ENOMEM : Z := 12.
Definition EFAULT : Z := 14.
Definition EBUSY : Z := 16.
Definition ENODEV : Z := 19.
Definition EINVAL : Z := 22.
Definition ENOTTY : Z := 25.
Definition ENOSPC : Z := 28.
Definition ENODATA : Z := 61.
Definition EOPNOTSUPP : Z := 95.

(** ** Bytes *)
Abbreviation bytes := (list byte).

(** The value of a byte and the C cast [(u8)z]. *)
Definition b2z (b : byte) : Z := Z.of_N (Byte.to_N b).
Definition z2b (z : Z) : byte := default x00 (Byte.of_N (Z.to_N (z mod 256))).

#[global] Instance byte_eq_dec : EqDecision byte := Byte.byte_eq_dec.

(** Length as a [Z]: the [size_t] of the source. *)
Definition zlen {A} (l : list A) : Z := Z.of_nat (length l).

(** A C string literal as its bytes (without the terminating NUL). *)
Definition str (s : String.string) : bytes := String.list_byte_of_string s.
Arguments str s%_string_scope.

(** [%d] and [%llu]: 20 digits are enough for 64 bits. *)
Fixpoint dec_digits (fuel : nat) (n : Z) (acc : bytes) : bytes :=
  match fuel with
  | O => acc
  | S f => let acc' := z2b (48 + n mod 10) :: acc in
           if n <? 10 then acc' else dec_digits f (n / 10) acc'
  end.
Definition dec (n : Z) : bytes := if n <? 0 then z2b 45 :: dec_digits 20 (- n) [] else dec_digits 20 n [].
Definition newline : bytes := [x0a].

(** [%0<n>llx]: the [n] low hexadecimal digits, most significant first. *)
Definition hex_digit (v : Z) : byte := z2b (if v <? 10 then 48 + v else 87 + v).
Fixpoint hexn (n : nat) (v : Z) : bytes :=
  match n with
  | O => []
  | S n' => hexn n' (v / 16) ++ [hex_digit (v mod 16)]
  end.

(** A C string: the bytes before the first NUL. *)
Fixpoint cstr (s : bytes) : bytes :=
  match s with b :: s' => if b2z b =? 0 then [] else b :: cstr s' | [] => [] end.

(** [n] zero bytes, as [memset(_, 0, n)] leaves them. *)
Definition zeros (n : Z) : bytes := replicate (Z.to_nat n) x00.

(** Reading [n] bytes at [pos]; short at the end of the list. *)
Definition read_at (f : bytes) (pos n : Z) : bytes :=
  take (Z.to_nat n) (drop (Z.to_nat pos) f).

(** Overwriting a buffer or a file at [pos], zero-filling a gap after the end. *)
Definition write_at (f : bytes) (pos : Z) (d : bytes) : bytes :=
  match d with
  | [] => f
  | _ => take (Z.to_nat pos) (f ++ zeros (pos - zlen f)) ++ d
           ++ drop (Z.to_nat pos + length d) f
  end.

(** [bytes_at f p d]: the bytes [d] are stored in [f] from offset [p] on. *)
Definition bytes_at (f : bytes) (p : Z) (d : bytes) : Prop :=
  ∀ i, (i < length d)%nat → f !! (Z.to_nat p + i)%nat = d !! i.

(** ** Results of code that can fail: a value, a C error code, or undefined
    behaviour (a NULL or out-of-bounds access). *)
Inductive res (A : Type) : Type :=
| Ok (a : A)
| Err (e : Z)
| Panic.
Arguments Ok {A} a.
Arguments Err {A} e.
Arguments Panic {A}.

(** ** The state and error monad of the stateful components. *)
Definition M (S A : Type) : Type := S → res A * S.

#[global] Instance M_ret S : MRet (M S) := λ A a s, (Ok a, s).
#[global] Instance M_bind S : MBind (M S) := λ A B f m s,
  match m s with
  | (Ok a, s') => f a s'
  | (Err e, s') => (Err e, s')
  | (Panic, s') => (Panic, s')
  end.

Definition throw {S A} (e : Z) : M S A := λ s, (Err e, s).
Definition panic {S A} : M S A := λ s, (Panic, s).
Definition get {S} : M S S := λ s, (Ok s, s).
Definition modify {S} (f : S → S) : M S unit := λ s, (Ok tt, f s).

(** Run a call and keep its error as a value (a result the caller ignores or
    inspects); undefined behaviour still propagates. *)
Definition try {S A} (m : M S A) : M S (res A) := λ s,
  match m s with
  | (Panic, s') => (Panic, s')
  | (r, s') => (Ok r, s')
  end.

(** Array indexing of the source: out of range is undefined behaviour. *)
Definition arr_get {S A} (l : list A) (i : Z) : M S A :=
  if decide (0 ≤ i) then
    match l !! Z.to_nat i with
    | Some x => mret x
    | None => panic
    end
  else panic.

(** ** Tactics and hint databases *)
Create HintDb lbd discriminated.
Create Rewrite HintDb len.

(** Unfold a monadic program into its state-passing form. *)
Ltac munfold :=
  unfold mbind, mret, M_bind, M_ret, throw, panic, get, modify, try in *; cbn beta iota in *.

(** Close a goal on lengths of lists. *)
Ltac len := unfold zlen in *; autorewrite with len in *; try lia.

(** Case split on the boolean comparison of integers at the head of the goal. *)
Ltac zcase :=
  match goal with
  | |- context [Z.eqb ?a ?b] => destruct (Z.eqb_spec a b)
  | |- context [Z.ltb ?a ?b] => destruct (Z.ltb_spec a b)
  | |- context [Z.leb ?a ?b] => destruct (Z.leb_spec a b)
  end.

(** Evaluate the comparisons of closed integers in the goal. *)
Ltac zconst :=
  repeat match goal with
  | |- context [?t] =>
      lazymatch t with
      | Z.eqb _ _ => idtac | Z.ltb _ _ => idtac | Z.leb _ _ => idtac
      | Z.gtb _ _ => idtac | Z.geb _ _ => idtac
      end;
      let r := eval vm_compute in t in
      lazymatch r with true => idtac | false => idtac end;
      change t with r; cbn [negb andb orb]; cbv iota
  end.

(** ** Generic lemmas *)

(** *** Running monadic programs *)
Lemma bind_ok {S A B} (m : M S A) (f : A → M S B) s a s' :
  m s = (Ok a, s') → (m ≫= f) s = f a s'.
Proof. intros H. unfold mbind, M_bind. by rewrite H. Qed.

Lemma bind_err {S A B} (m : M S A) (f : A → M S B) s e s' :
  m s = (Err e, s') → (m ≫= f) s = (Err e, s').
Proof. intros H. unfold mbind, M_bind. by rewrite H. Qed.

Lemma bind_panic {S A B} (m : M S A) (f : A → M S B) s s' :
  m s = (Panic, s') → (m ≫= f) s = (Panic, s').
Proof. intros H. unfold mbind, M_bind. by rewrite H. Qed.

Lemma bind_ret {S A B} (a : A) (f : A → M S B) s : (mret a ≫= f) s = f a s.
Proof. done. Qed.

Lemma bind_bind {S A B C} (m : M S A) (f : A → M S B) (g : B → M S C) s :
  ((m ≫= f) ≫= g) s = (m ≫= (λ a, f a ≫= g)) s.
Proof. unfold mbind, M_bind. by destruct (m s) as [[] ?]. Qed.

Lemma try_ok {S A} (m : M S A) s a s' : m s = (Ok a, s') → try m s = (Ok (Ok a), s').
Proof. intros H. unfold try. by rewrite H. Qed.

Lemma try_err {S A} (m : M S A) s e s' : m s = (Err e, s') → try m s = (Ok (Err e), s').
Proof. intros H. unfold try. by rewrite H. Qed.

(** Run the first call of the program in the goal, whose result is [H]. *)
Ltac mstep H := rewrite (bind_ok _ _ _ _ _ H); cbn beta iota zeta.

(** *** Programs without undefined behaviour whose errors are errno values *)
Definition tame {S A} (m : M S A) : Prop := ∀ s,
  match (m s).1 with Ok _ => True | Err e => e < 0 | Panic => False end.

Lemma tame_ret {S A} (a : A) : tame (mret a : M S A).
Proof. done. Qed.
Lemma tame_throw {S A} e : e < 0 → tame (throw e : M S A).
Proof. by intros He s. Qed.
Lemma tame_get {S} : tame (get : M S S).
Proof. done. Qed.
Lemma tame_modify {S} (f : S → S) : tame (modify f).
Proof. done. Qed.
Lemma tame_bind {S A B} (m : M S A) (f : A → M S B) : tame m → (∀ a, tame (f a)) → tame (m ≫= f).
Proof.
  intros Hm Hf s. specialize (Hm s). unfold mbind, M_bind.
  destruct (m s) as [[a|e|] s']; [apply Hf|done|done].
Qed.
Lemma tame_try {S A} (m : M S A) : tame m → tame (try m).
Proof. intros Hm s. specialize (Hm s). unfold try. by destruct (m s) as [[a|e|] s']. Qed.
#[export] Hint Resolve tame_ret tame_get tame_modify tame_bind tame_try : lbd.

(** Take a program apart and show that every part is tame. *)
Ltac tame :=
  repeat (intros || lazymatch goal with
  | |- tame (_ ≫= _) => apply tame_bind
  | |- tame (mret _) => apply tame_ret
  | |- tame (throw _) => apply tame_throw; first [done | solve [eauto with lbd]]
  | |- tame (if ?b then _ else _) => destruct b
  | |- tame (match ?x with _ => _ end) => destruct x
  | |- tame (let _ := _ in _) => cbv zeta
  | |- tame _ => solve [eauto with lbd]
  end).

(** *** Programs that keep a part of the state *)
Definition keeping {S A B} (f : S → B) (m : M S A) : Prop := ∀ s, f (m s).2 = f s.

Lemma keeping_bind {S A B C} (g : S → C) (m : M S A) (f : A → M S B) :
  keeping g m → (∀ a, keeping g (f a)) → keeping g (m ≫= f).
Proof.
  intros Hm Hf s. specialize (Hm s). unfold mbind, M_bind.
  destruct (m s) as [[a|e|] s']; [by rewrite Hf|done|done].
Qed.
Lemma keeping_try {S A C} (g : S → C) (m : M S A) : keeping g m → keeping g (try m).
Proof. intros Hm s. specialize (Hm s). unfold try. by destruct (m s) as [[a|e|] s']. Qed.

(** Take a program apart; its calls are left when no lemma applies. *)
Ltac keeping :=
  repeat (intros || lazymatch goal with
  | |- keeping _ (_ ≫= _) => apply keeping_bind
  | |- keeping _ (try _) => apply keeping_try
  | |- keeping _ (if ?b then _ else _) => destruct b
  | |- keeping _ (match ?x with _ => _ end) => destruct x
  | |- keeping _ (let _ := _ in _) => cbv zeta
  | |- keeping _ _ => first [done | solve [eauto with lbd]]
  end).

(** The last step of a program that succeeds. *)
Lemma bind_inv {S A B} (m : M S A) (f : A → M S B) s b s' : (m ≫= f) s = (Ok b, s') →
  ∃ a s1, m s = (Ok a, s1) ∧ f a s1 = (Ok b, s').
Proof. unfold mbind, M_bind. destruct (m s) as [[a|e|] s1]; [|done|done]. intros E. by exists a, s1. Qed.

Lemma length_zeros n : length (zeros n) = Z.to_nat n.
Proof. apply length_replicate. Qed.

Lemma zlen_zeros n : 0 ≤ n → zlen (zeros n) = n.
Proof. intros. unfold zlen. rewrite length_zeros. lia. Qed.

#[export] Hint Rewrite @length_app @length_take @length_drop @length_replicate
  @length_insert @length_fmap length_zeros @length_nil @length_cons @length_seq : len.

(** *** Machine integers *)
Lemma u64_small z : 0 ≤ z < 2 ^ 64 → u64 z = z.
Proof. apply Z.mod_small. Qed.

Lemma u32_small z : 0 ≤ z < 2 ^ 32 → u32 z = z.
Proof. apply Z.mod_small. Qed.

Lemma s64_small z : - 2 ^ 63 ≤ z < 2 ^ 63 → s64 z = z.
Proof. intros H. unfold s64. rewrite Z.mod_small by lia. lia. Qed.

Lemma s32_small z : - 2 ^ 31 ≤ z < 2 ^ 31 → s32 z = z.
Proof. intros H. unfold s32. rewrite Z.mod_small by lia. lia. Qed.

Lemma u64_range z : 0 ≤ u64 z < 2 ^ 64.
Proof. apply Z.mod_pos_bound; lia. Qed.

Lemma u32_range z : 0 ≤ u32 z < 2 ^ 32.
Proof. apply Z.mod_pos_bound; lia. Qed.

(** *** Bytes *)
Lemma b2z_range b : 0 ≤ b2z b < 256.
Proof. unfold b2z. pose proof (Byte.to_N_bounded b). lia. Qed.

Lemma b2z_z2b z : b2z (z2b z) = z mod 256.
Proof.
  unfold b2z, z2b. pose proof (Z.mod_pos_bound z 256 ltac:(lia)) as H.
  destruct (Byte.of_N (Z.to_N (z mod 256))) as [b|] eqn:E; simpl.
  - apply Byte.to_of_N in E. rewrite E. lia.
  - apply Byte.of_N_None_iff in E. lia.
Qed.

Lemma b2z_inj a b : b2z a = b2z b → a = b.
Proof.
  intros H. apply N2Z.inj in H.
  pose proof (Byte.of_to_N a) as Ha. pose proof (Byte.of_to_N b) as Hb.
  rewrite H in Ha. congruence.
Qed.

Lemma z2b_b2z b : z2b (b2z b) = b.
Proof. apply b2z_inj. rewrite b2z_z2b. apply Z.mod_small, b2z_range. Qed.

(** Adding a byte below a shifted value. *)
Lemma lor_shiftl_add a b k : 0 ≤ k → 0 ≤ b < 2 ^ k →
  Z.lor (Z.shiftl a k) b = a * 2 ^ k + b.
Proof.
  intros Hk Hb. rewrite <- Z.add_lor_land.
  - rewrite Z.shiftl_mul_pow2 by done.
    assert (Z.land (a * 2 ^ k) b = 0) as ->; [|lia].
    apply Z.bits_inj'. intros n Hn. rewrite Z.land_spec, Z.bits_0.
    destruct (decide (n < k)).
    + rewrite Z.mul_pow2_bits_low by lia. done.
    + rewrite <- (Z.mod_small b (2 ^ k)) by done.
      rewrite Z.mod_pow2_bits_high by lia. apply andb_false_r.
Qed.

(** *** Reading and writing lists of bytes *)
Lemma zlen_nonneg {A} (l : list A) : 0 ≤ zlen l.
Proof. unfold zlen; lia. Qed.

Lemma zlen_app {A} (l k : list A) : zlen (l ++ k) = zlen l + zlen k.
Proof. unfold zlen. rewrite length_app. lia. Qed.

Lemma lookup_write_at f p d i : 0 ≤ p →
  write_at f p d !! i =
    if decide (Z.to_nat p ≤ i < Z.to_nat p + length d)%nat then d !! (i - Z.to_nat p)%nat
    else if decide (i < Z.to_nat p ∧ length f ≤ i ∧ d ≠ [])%nat then Some x00
    else f !! i.
Proof.
  intros Hp. unfold write_at. destruct d as [|b d'].
  { simpl. case_decide; [lia|]. case_decide as Hc; [|done]. by destruct Hc as (?&?&?). }
  set (d := b :: d'). assert (Hd : length d = S (length d')) by done.
  assert (Hlt : length (take (Z.to_nat p) (f ++ zeros (p - zlen f))) = Z.to_nat p) by len.
  case_decide as H1; [|case_decide as H2].
  - rewrite lookup_app_r by lia. rewrite lookup_app_l by lia. f_equal; lia.
  - rewrite lookup_app_l by lia. rewrite lookup_take_lt by lia.
    rewrite lookup_app_r by lia. apply lookup_replicate_2. len.
  - destruct (decide (i < Z.to_nat p)%nat).
    + rewrite lookup_app_l by lia. rewrite lookup_take_lt by lia.
      destruct (decide (i < length f)%nat); [by rewrite lookup_app_l|].
      exfalso; apply H2; split_and!; [lia..|done].
    + rewrite lookup_app_r by lia. rewrite lookup_app_r by lia.
      rewrite lookup_drop. f_equal; lia.
Qed.

Lemma zlen_write_at f p d : 0 ≤ p →
  zlen (write_at f p d) = if decide (d = []) then zlen f else Z.max (zlen f) (p + zlen d).
Proof.
  intros Hp. unfold write_at. case_decide as H; [by subst|].
  destruct d as [|b d]; [done|]. len.
Qed.

Lemma write_at_end f d : write_at f (zlen f) d = f ++ d.
Proof.
  unfold write_at. destruct d as [|x d]; [by rewrite app_nil_r|]. unfold zlen. rewrite Nat2Z.id.
  rewrite Z.sub_diag. change (zeros 0) with (@nil byte). rewrite app_nil_r, firstn_all.
  rewrite drop_ge by lia. by rewrite app_nil_r.
Qed.

Lemma zlen_write_at_ge f p d : 0 ≤ p → zlen f ≤ zlen (write_at f p d).
Proof. intros. rewrite zlen_write_at by done. case_decide; lia. Qed.

Lemma bytes_at_write_same f p d : 0 ≤ p → bytes_at (write_at f p d) p d.
Proof.
  intros Hp i Hi. rewrite lookup_write_at by done.
  rewrite decide_True by lia. f_equal; lia.
Qed.

Lemma bytes_at_bound f p d i : bytes_at f p d → (i < length d)%nat →
  (Z.to_nat p + i < length f)%nat.
Proof.
  intros H Hi. apply lookup_lt_is_Some. rewrite (H i Hi). by apply lookup_lt_is_Some.
Qed.

Lemma bytes_at_len f p d : 0 ≤ p → bytes_at f p d → d ≠ [] → p + zlen d ≤ zlen f.
Proof.
  intros Hp H Hd. destruct d as [|b d]; [done|].
  pose proof (bytes_at_bound f p (b :: d) (length d) H ltac:(simpl; lia)).
  unfold zlen; simpl in *. lia.
Qed.

Lemma bytes_at_write_disj f p d q e : 0 ≤ p → 0 ≤ q →
  bytes_at f p d → (q + zlen e ≤ p ∨ p + zlen d ≤ q) →
  bytes_at (write_at f q e) p d.
Proof.
  intros Hp Hq H Hdisj i Hi. rewrite lookup_write_at by done.
  pose proof (bytes_at_bound f p d i H Hi).
  unfold zlen in *.
  rewrite decide_False by lia. rewrite decide_False by (intros (?&?&?); lia).
  by apply H.
Qed.

Lemma read_at_bytes_at f p d : bytes_at f p d → read_at f p (zlen d) = d.
Proof.
  intros H. unfold read_at, zlen. rewrite Nat2Z.id.
  apply list_eq. intros i. destruct (decide (i < length d)%nat) as [Hi|Hi].
  - rewrite lookup_take_lt, lookup_drop by done. by apply H.
  - rewrite lookup_take_ge by lia. symmetry. apply lookup_ge_None. lia.
Qed.

Lemma bytes_at_read_at f p n : 0 ≤ p → 0 ≤ n → p + n ≤ zlen f →
  bytes_at f p (read_at f p n).
Proof.
  intros Hp Hn Hl i Hi. unfold read_at in *.
  rewrite length_take in Hi. rewrite lookup_take_lt by lia. by rewrite lookup_drop.
Qed.

Lemma zlen_read_at f p n : 0 ≤ p → 0 ≤ n → p + n ≤ zlen f → zlen (read_at f p n) = n.
Proof. intros. unfold read_at. len. Qed.

Lemma bytes_at_app f p d e : 0 ≤ p →
  bytes_at f p (d ++ e) ↔ bytes_at f p d ∧ bytes_at f (p + zlen d) e.
Proof.
  intros Hp. unfold bytes_at, zlen. split.
  - intros H. split; intros i Hi.
    + rewrite H by (rewrite length_app; lia). by rewrite lookup_app_l.
    + replace (Z.to_nat (p + Z.of_nat (length d)) + i)%nat
        with (Z.to_nat p + (length d + i))%nat by lia.
      rewrite H by (rewrite length_app; lia). rewrite lookup_app_r by lia. f_equal; lia.
  - intros [Hd He] i Hi. rewrite length_app in Hi.
    destruct (decide (i < length d)%nat).
    + rewrite lookup_app_l by done. by apply Hd.
    + rewrite lookup_app_r by lia. rewrite <- He by lia. f_equal; lia.
Qed.

Lemma bytes_at_sub f p d o n : 0 ≤ p → 0 ≤ o → 0 ≤ n → o + n ≤ zlen d →
  bytes_at f p d → bytes_at f (p + o) (read_at d o n).
Proof.
  intros Hp Ho Hn Hl H i Hi. unfold read_at in *. rewrite length_take in Hi.
  rewrite lookup_take_lt by lia. rewrite lookup_drop, <- H by (unfold zlen in *; rewrite length_drop in *; lia).
  f_equal; lia.
Qed.

Lemma bytes_at_full d : bytes_at d 0 d.
Proof. intros i Hi. done. Qed.

#[export] Hint Resolve bytes_at_write_same bytes_at_full zlen_nonneg : lbd.
