(* ===== verification/Kernel.v ===== *)
(** * Interfaces to the code the driver calls but does not contain

    The Linux VFS ([kernel_read], [kernel_write]), the allocator ([kvmalloc]),
    the kernel's [crc32c] and the vendored LZ4 codec are parameters: an
    operations class the definitions use and a laws class that states the
    documented behaviour the theorems rely on.  [simk], [rle_lz4] and [table_crc]
    are concrete instances: they show the laws can hold together and let
    witnesses run the model.  The laws of the codec are proved of the vendored
    code in [Lz4Theorems]. *)
From S2P Require Import Prelude.

(** ** Files and memory of the kernel *)

(** The files the block layer of one device works on: its backing file and the
    read-only base file, known by its path. *)
Inductive fh : Type :=
| Backing
| BaseFile (path : bytes).

#[global] Instance fh_eq_dec : EqDecision fh.
Proof. solve_decision. Defined.

(** The result of [filp_open]: an errno, or an open file of which the code asks
    whether it is a regular file and whether it is the backing file itself. *)
Inductive open_res : Type :=
| OErr (e : Z)
| OFile (is_reg same_inode : bool).

(** [kernel_read k h pos len] returns the byte count (or a negative errno) and
    the bytes read; [kernel_write] the byte count or errno; [kvmalloc] whether
    the allocation succeeded; [content] what the file holds. *)
Class KernelOps (K : Type) : Type := {
  kernel_read : K → fh → Z → Z → Z * bytes * K;
  kernel_write : K → fh → Z → bytes → Z * K;
  kvmalloc : K → Z → bool * K;
  filp_open : K → bytes → open_res * K;
  content : K → fh → bytes
}.

(** What a read and a write may do, faults included, and what they do on a
    [healthy] system: transfer every byte asked for. *)
Class KernelLaws (K : Type) `{KernelOps K} : Type := {
  healthy : K → Prop;
  kernel_read_content k h pos len r d k' h' :
    kernel_read k h pos len = (r, d, k') → content k' h' = content k h';
  kernel_read_result k h pos len r d k' :
    kernel_read k h pos len = (r, d, k') →
    r < 0 ∨ (0 ≤ r ≤ len ∧ zlen d = r ∧ d = read_at (content k h) pos r);
  kernel_write_other k h pos d r k' h' :
    kernel_write k h pos d = (r, k') → h' ≠ h → content k' h' = content k h';
  kernel_write_result k h pos d r k' :
    kernel_write k h pos d = (r, k') →
    (r < 0 ∧ content k' h = content k h) ∨
    (0 ≤ r ≤ zlen d ∧ content k' h = write_at (content k h) pos (take (Z.to_nat r) d));
  kvmalloc_content k n b k' h' :
    kvmalloc k n = (b, k') → content k' h' = content k h';
  filp_open_content k p o k' h' :
    filp_open k p = (o, k') → content k' h' = content k h';
  filp_open_errno k p e k' : filp_open k p = (OErr e, k') → e < 0;
  healthy_read k h pos len :
    healthy k → 0 ≤ pos → 0 ≤ len → pos + len ≤ zlen (content k h) →
    ∃ k', kernel_read k h pos len = (len, read_at (content k h) pos len, k') ∧ healthy k';
  healthy_write k h pos d :
    healthy k → 0 ≤ pos → pos + zlen d < 2 ^ 62 + 2 ^ 32 →
    ∃ k', kernel_write k h pos d = (zlen d, k') ∧ healthy k'
            ∧ content k' h = write_at (content k h) pos d;
  healthy_alloc k n :
    healthy k → ∃ k', kvmalloc k n = (true, k') ∧ healthy k'
}.

(** *** A concrete kernel: two files and a queue of faults to inject *)
Inductive io_fault : Type :=
| FOk
| FShort (n : Z)
| FErr (e : positive).

Record simk : Type := Simk {
  sim_backing : bytes;
  sim_base : list (bytes * bytes);
  sim_faults : list io_fault
}.

Definition sim_next (k : simk) : io_fault * simk :=
  match sim_faults k with
  | [] => (FOk, k)
  | x :: fs => (x, Simk (sim_backing k) (sim_base k) fs)
  end.

Fixpoint assoc_file (p : bytes) (l : list (bytes * bytes)) : bytes :=
  match l with
  | [] => []
  | (p', c) :: l' => if decide (p = p') then c else assoc_file p l'
  end.

Definition sim_content (k : simk) (h : fh) : bytes :=
  match h with
  | Backing => sim_backing k
  | BaseFile p => assoc_file p (sim_base k)
  end.

Definition sim_read (k : simk) (h : fh) (pos len : Z) : Z * bytes * simk :=
  let '(f, k') := sim_next k in
  let n := match f with FShort n => Z.min n len | _ => len end in
  let d := if zlen (sim_content k h) <=? pos then [] else read_at (sim_content k h) pos n in
  match f with
  | FErr e => (Z.neg e, [], k')
  | _ => if decide (pos < 0 ∨ n < 0) then (- EINVAL, [], k') else (zlen d, d, k')
  end.

Definition sim_store (k : simk) (h : fh) (c : bytes) : simk :=
  match h with
  | Backing => Simk c (sim_base k) (sim_faults k)
  | BaseFile p => Simk (sim_backing k) ((p, c) :: sim_base k) (sim_faults k)
  end.

Definition sim_write (k : simk) (h : fh) (pos : Z) (d : bytes) : Z * simk :=
  let '(f, k') := sim_next k in
  if decide (pos < 0) then (- EINVAL, k') else
  match f with
  | FErr e => (Z.neg e, k')
  | FShort n => let d' := take (Z.to_nat n) d in
                (zlen d', sim_store k' h (write_at (sim_content k h) pos d'))
  | FOk => (zlen d, sim_store k' h (write_at (sim_content k h) pos d))
  end.

Definition sim_alloc (k : simk) (n : Z) : bool * simk :=
  let '(f, k') := sim_next k in
  (match f with FOk => true | _ => false end, k').

Definition sim_open (k : simk) (p : bytes) : open_res * simk :=
  let '(f, k') := sim_next k in
  match f with
  | FErr e => (OErr (Z.neg e), k')
  | _ => if decide (p ∈ (sim_base k).*1) then (OFile true false, k') else (OErr (- 2), k')
  end.

#[global] Instance simk_ops : KernelOps simk := {
  kernel_read := sim_read; kernel_write := sim_write;
  kvmalloc := sim_alloc; filp_open := sim_open; content := sim_content
}.

Lemma sim_next_content k h : sim_content (sim_next k).2 h = sim_content k h.
Proof. unfold sim_next. destruct (sim_faults k), h; done. Qed.

Lemma sim_store_content k h c h' :
  sim_content (sim_store k h c) h' = if decide (h' = h) then c else sim_content k h'.
Proof.
  destruct h as [|p], h' as [|p']; simpl; repeat case_decide; congruence.
Qed.

Lemma read_at_short f p n : 0 ≤ n → read_at f p (zlen (read_at f p n)) = read_at f p n.
Proof.
  intros Hn. unfold read_at, zlen. rewrite Nat2Z.id, length_take.
  rewrite <- take_take. by rewrite (take_ge (drop _ _) (length _)).
Qed.

Lemma sim_read_result k h pos len r d k' :
  sim_read k h pos len = (r, d, k') →
  r < 0 ∨ (0 ≤ r ≤ len ∧ zlen d = r ∧ d = read_at (sim_content k h) pos r).
Proof.
  unfold sim_read. destruct (sim_next k) as [f k1]. intros E.
  destruct f as [|n0|e]; [case_decide..|]; simplify_eq; try (left; unfold EINVAL; lia).
  all: right; destruct (Z.leb_spec (zlen (sim_content k h)) pos).
  all: split_and!; try done; try (by rewrite read_at_short by lia).
  all: unfold read_at; len.
Qed.

Lemma sim_write_result k h pos d r k' :
  sim_write k h pos d = (r, k') →
  (r < 0 ∧ ∀ h', sim_content k' h' = sim_content k h') ∨
  (0 ≤ r ≤ zlen d ∧ ∀ h', sim_content k' h' =
     if decide (h' = h) then write_at (sim_content k h) pos (take (Z.to_nat r) d)
     else sim_content k h').
Proof.
  unfold sim_write. pose proof (λ h, sim_next_content k h) as Hn.
  destruct (sim_next k) as [f k1]; simpl in Hn. intros E.
  case_decide; [simplify_eq; left; split; [unfold EINVAL; lia|done]|].
  destruct f as [|n|e]; simplify_eq; [right|right|left; split; [lia|done]].
  - split; [len|]. intros h'. rewrite sim_store_content. unfold zlen. rewrite Nat2Z.id, firstn_all.
    case_decide; [done|apply Hn].
  - split; [len|]. intros h'. rewrite sim_store_content. unfold zlen.
    rewrite Nat2Z.id, length_take. case_decide; [|apply Hn].
    f_equal. rewrite <- take_take. by rewrite (take_ge d (length d)).
Qed.

#[global] Instance simk_laws : KernelLaws simk.
Proof.
  refine {| healthy := λ k, sim_faults k = [] |}; simpl.
  - intros k h pos len r d k' h'. unfold sim_read. pose proof (sim_next_content k h').
    destruct (sim_next k) as [f k1]. destruct f; [case_decide..|]; intros; by simplify_eq/=.
  - apply sim_read_result.
  - intros k h pos d r k' h' E Hne. destruct (sim_write_result _ _ _ _ _ _ E) as [[_ H]|[_ H]]; [done|].
    rewrite H. by case_decide.
  - intros k h pos d r k' E. destruct (sim_write_result _ _ _ _ _ _ E) as [[Hr H]|[Hr H]].
    + left; auto.
    + right. rewrite H. by rewrite decide_True.
  - intros k n b k' h'. unfold sim_alloc. pose proof (sim_next_content k h').
    destruct (sim_next k); simpl in *; intros; by simplify_eq.
  - intros k p o k' h'. unfold sim_open. pose proof (sim_next_content k h').
    destruct (sim_next k) as [f k1]; simpl in *; destruct f; [case_decide..|]; intros; by simplify_eq.
  - intros k p e k'. unfold sim_open. destruct (sim_next k) as [f k1]; destruct f; [case_decide..|];
      intros; simplify_eq; lia.
  - intros k h pos len Hk Hp Hl Hle. exists k. unfold sim_read, sim_next. rewrite Hk.
    rewrite decide_False by lia. split; [|done].
    destruct (Z.leb_spec (zlen (sim_content k h)) pos).
    + replace len with 0 by lia. unfold read_at. by rewrite take_0.
    + by rewrite zlen_read_at by lia.
  - intros k h pos d Hk Hp Hle. unfold sim_write, sim_next. rewrite Hk, decide_False by lia.
    eexists; split; [done|]. split; [by destruct h|].
    rewrite sim_store_content. by rewrite decide_True.
  - intros k n Hk. exists k. unfold sim_alloc, sim_next. rewrite Hk. done.
Defined.

(** ** LZ4 *)

(** [LZ4_compressBound] of [src/src/lz4/lz4.h]. *)
Definition LZ4_MAX_INPUT_SIZE : Z := 0x7E000000.
Definition LZ4_compressBound (isize : Z) : Z :=
  if u32 isize >? LZ4_MAX_INPUT_SIZE then 0 else isize + isize / 255 + 16.

(** [LZ4_compress src cap] is the compressed block, [[]] when the call returns
    0 (failure); [LZ4_decompress_safe src cap] the decompressed bytes, [None]
    when the call returns a negative value. *)
Class LZ4Ops : Type := {
  LZ4_compress : bytes → Z → bytes;
  LZ4_decompress_safe : bytes → Z → option bytes
}.

(** The documented contract: the output fits the destination, compression with
    a destination of [LZ4_compressBound] bytes succeeds, and decompression of a
    compressed block into a large enough buffer gives the source. *)
Class LZ4Laws `{LZ4Ops} : Prop := {
  lz4_bound src cap : zlen (LZ4_compress src cap) ≤ Z.max 0 cap;
  lz4_succeeds src : zlen src ≤ LZ4_MAX_INPUT_SIZE →
    LZ4_compress src (LZ4_compressBound (zlen src)) ≠ [];
  lz4_roundtrip src cap n : LZ4_compress src cap ≠ [] → zlen src ≤ n < 2 ^ 31 →
    LZ4_decompress_safe (LZ4_compress src cap) n = Some src;
  lz4_decompress_len src n d : LZ4_decompress_safe src n = Some d → zlen d ≤ Z.max 0 n
}.

(** A codec for the witnesses: a block of one repeated byte compresses to six
    bytes, any other is stored after a tag byte. *)
Definition rle_compress (src : bytes) (cap : Z) : bytes :=
  let stored := if decide (zlen src + 1 ≤ cap) then x00 :: src else [] in
  match src with
  | [] => stored
  | b :: _ =>
      if decide (6 ≤ cap ∧ zlen src < 2 ^ 32 ∧ Forall (eq b) src)
      then x01 :: b :: [z2b (Z.shiftr (zlen src) 24); z2b (Z.shiftr (zlen src) 16);
                        z2b (Z.shiftr (zlen src) 8); z2b (zlen src)] else stored
  end.

Definition rle_decompress (src : bytes) (cap : Z) : option bytes :=
  match src with
  | x00 :: d => if decide (zlen d ≤ cap) then Some d else None
  | [x01; b; n3; n2; n1; n0] =>
      let n := ((b2z n3 * 256 + b2z n2) * 256 + b2z n1) * 256 + b2z n0 in
      if decide (n ≤ cap) then Some (replicate (Z.to_nat n) b) else None
  | _ => None
  end.

#[global] Instance rle_lz4 : LZ4Ops := {
  LZ4_compress := rle_compress; LZ4_decompress_safe := rle_decompress
}.

Lemma rle_count n : 0 ≤ n < 2 ^ 32 →
  ((b2z (z2b (Z.shiftr n 24)) * 256 + b2z (z2b (Z.shiftr n 16))) * 256
    + b2z (z2b (Z.shiftr n 8))) * 256 + b2z (z2b n) = n.
Proof.
  intros Hn. rewrite !b2z_z2b, !Z.shiftr_div_pow2 by lia.
  change (2 ^ 24) with (256 * (256 * 256)). change (2 ^ 16) with (256 * 256).
  change (2 ^ 8) with 256. rewrite <- !Z.div_div by lia.
  set (a := n / 256). set (b := a / 256). set (c := b / 256).
  assert (0 ≤ c < 256).
  { unfold c, b, a. rewrite !Z.div_div by lia.
    split; [apply Z.div_pos; lia|apply Z.div_lt_upper_bound; lia]. }
  rewrite (Z.mod_small c) by done.
  pose proof (Z.div_mod n 256). pose proof (Z.div_mod a 256). pose proof (Z.div_mod b 256).
  fold a in H0. fold b in H1. fold c in H2. lia.
Qed.

#[global] Instance rle_lz4_laws : LZ4Laws.
Proof.
  split; simpl.
  - intros src cap. unfold rle_compress. destruct src; repeat case_decide; len.
  - intros src Hs. unfold rle_compress, LZ4_compressBound, LZ4_MAX_INPUT_SIZE in *. pose proof (zlen_nonneg src).
    rewrite u32_small by lia. destruct (Z.gtb_spec (zlen src) 0x7E000000); [lia|].
    assert (0 ≤ zlen src / 255) by (apply Z.div_pos; lia).
    rewrite (decide_True (P := zlen src + 1 ≤ _)) by lia. by destruct src; [|case_decide].
  - intros src cap n. assert (Hst : zlen src ≤ n → (if decide (zlen src + 1 ≤ cap) then x00 :: src else []) ≠ [] →
      rle_decompress (if decide (zlen src + 1 ≤ cap) then x00 :: src else []) n = Some src).
    { intros Hn. case_decide; [|done]. intros _. simpl. by rewrite decide_True. }
    unfold rle_compress. destruct src as [|b src]; [intros ? [? _]; auto|].
    destruct (decide (6 ≤ cap ∧ _)) as [(Hc & Hlt & Hall)|]; [|intros ? [? _]; auto]. intros _ [Hn _].
    set (s := b :: src) in *. unfold rle_decompress. rewrite rle_count by (split; [apply zlen_nonneg|done]).
    rewrite decide_True by done. f_equal. unfold zlen. rewrite Nat2Z.id.
    apply replicate_as_elem_of. split; [done|].
    intros x Hx. symmetry. revert x Hx. by apply list.Forall_forall.
  - intros src n d. unfold rle_decompress. destruct src as [|t src]; [done|].
    destruct t; try done; [case_decide; [|done]; intros [= <-]; lia|].
    repeat (destruct src as [|? src]; try done). case_decide; [|done]. intros [= <-]. len.
Qed.

(** ** CRC32C of the kernel: [crc32c(seed, data, len)] *)
Class CrcOps : Type := { crc32c : Z → bytes → Z }.
Class CrcLaws `{CrcOps} : Prop := {
  crc32c_range seed d : 0 ≤ crc32c seed d < 2 ^ 32
}.

(** The expression [~crc32c(~0, raw, n)] of the L2 trailers. *)
Definition crc32c_trailer `{CrcOps} (raw : bytes) : Z :=
  u32 (Z.lnot (crc32c (u32 (Z.lnot 0)) raw)).
