(* ===== verification/Format.v ===== *)
(** * The on-disk format of qcow2-lz4 images ([src/src/lbd_qcow2_format.h])

    Big-endian accessors at explicit byte offsets, the header fields, the flags
    of an L2 entry.  The userspace bodies of the byte-order helpers are the ones
    translated: they spell out the shifts; the kernel bodies ([be64_to_cpu] on
    a [memcpy]) compute the same values. *)
From S2P Require Import Prelude.

(** ** Constants *)
Definition LBD_QCOW2_MAGIC : Z := 0x4C42444351573200.
Definition LBD_QCOW2_VERSION : Z := 2.
Definition LBD_QCOW2_COMP_LZ4 : Z := 1.
Definition LBD_QCOW2_HEADER_SIZE : Z := 4096.
Definition LBD_QCOW2_L2_TRAILER_SIZE : Z := 8.

Definition LBD_QCOW2_OFF_MAGIC : Z := 0.
Definition LBD_QCOW2_OFF_VERSION : Z := 8.
Definition LBD_QCOW2_OFF_CLUSTER_BITS : Z := 12.
Definition LBD_QCOW2_OFF_VIRTUAL_SIZE : Z := 16.
Definition LBD_QCOW2_OFF_L1_TABLE_OFFSET : Z := 24.
Definition LBD_QCOW2_OFF_L1_SIZE : Z := 32.
Definition LBD_QCOW2_OFF_ALLOC_OFFSET : Z := 36.
Definition LBD_QCOW2_OFF_COMP_TYPE : Z := 44.
Definition LBD_QCOW2_OFF_FREE_LIST : Z := 48.

Definition LBD_QCOW2_FREE_TOMBSTONE : Z := 0xDEADF4EE.
Definition LBD_QCOW2_L2_COMPRESSED : Z := Z.shiftl 1 63.
Definition LBD_QCOW2_L2_OFFSET_MASK : Z := 0x3FFFFFFFFFFFFFFF.

(** ** Byte-order helpers *)

(** [p[i]] of a buffer. *)
Definition byte_of (buf : bytes) (i : Z) : Z := b2z (nth (Z.to_nat i) buf x00).

Definition _qcow2_get64 (buf : bytes) (off : Z) : Z :=
  let p := λ i, byte_of buf (off + i) in
  Z.lor (Z.lor (Z.lor (Z.lor (Z.lor (Z.lor (Z.lor
    (Z.shiftl (p 0) 56) (Z.shiftl (p 1) 48)) (Z.shiftl (p 2) 40))
    (Z.shiftl (p 3) 32)) (Z.shiftl (p 4) 24)) (Z.shiftl (p 5) 16))
    (Z.shiftl (p 6) 8)) (p 7).

Definition _qcow2_get32 (buf : bytes) (off : Z) : Z :=
  let p := λ i, byte_of buf (off + i) in
  Z.lor (Z.lor (Z.lor (Z.shiftl (p 0) 24) (Z.shiftl (p 1) 16)) (Z.shiftl (p 2) 8)) (p 3).

Definition _qcow2_get16 (buf : bytes) (off : Z) : Z :=
  let p := λ i, byte_of buf (off + i) in
  Z.lor (Z.shiftl (p 0) 8) (p 1).

(** The bytes the [put] helpers store, most significant first. *)
Definition be64 (val : Z) : bytes :=
  [z2b (Z.shiftr val 56); z2b (Z.shiftr val 48); z2b (Z.shiftr val 40);
   z2b (Z.shiftr val 32); z2b (Z.shiftr val 24); z2b (Z.shiftr val 16);
   z2b (Z.shiftr val 8); z2b val].

Definition be32 (val : Z) : bytes :=
  [z2b (Z.shiftr val 24); z2b (Z.shiftr val 16); z2b (Z.shiftr val 8); z2b val].

Definition be16 (val : Z) : bytes := [z2b (Z.shiftr val 8); z2b val].

Definition _qcow2_put64 (buf : bytes) (off val : Z) : bytes := write_at buf off (be64 val).
Definition _qcow2_put32 (buf : bytes) (off val : Z) : bytes := write_at buf off (be32 val).
Definition _qcow2_put16 (buf : bytes) (off val : Z) : bytes := write_at buf off (be16 val).

(** ** Header accessors *)
Definition lbd_qcow2_hdr_magic (h : bytes) : Z := _qcow2_get64 h LBD_QCOW2_OFF_MAGIC.
Definition lbd_qcow2_hdr_version (h : bytes) : Z := _qcow2_get32 h LBD_QCOW2_OFF_VERSION.
Definition lbd_qcow2_hdr_cluster_bits (h : bytes) : Z := _qcow2_get32 h LBD_QCOW2_OFF_CLUSTER_BITS.
Definition lbd_qcow2_hdr_virtual_size (h : bytes) : Z := _qcow2_get64 h LBD_QCOW2_OFF_VIRTUAL_SIZE.
Definition lbd_qcow2_hdr_l1_table_offset (h : bytes) : Z := _qcow2_get64 h LBD_QCOW2_OFF_L1_TABLE_OFFSET.
Definition lbd_qcow2_hdr_l1_size (h : bytes) : Z := _qcow2_get32 h LBD_QCOW2_OFF_L1_SIZE.
Definition lbd_qcow2_hdr_alloc_offset (h : bytes) : Z := _qcow2_get64 h LBD_QCOW2_OFF_ALLOC_OFFSET.
Definition lbd_qcow2_hdr_comp_type (h : bytes) : Z := _qcow2_get32 h LBD_QCOW2_OFF_COMP_TYPE.
Definition lbd_qcow2_hdr_free_list (h : bytes) : Z := _qcow2_get64 h LBD_QCOW2_OFF_FREE_LIST.

Definition lbd_qcow2_hdr_set_magic (h : bytes) (v : Z) : bytes := _qcow2_put64 h LBD_QCOW2_OFF_MAGIC v.
Definition lbd_qcow2_hdr_set_version (h : bytes) (v : Z) : bytes := _qcow2_put32 h LBD_QCOW2_OFF_VERSION v.
Definition lbd_qcow2_hdr_set_cluster_bits (h : bytes) (v : Z) : bytes := _qcow2_put32 h LBD_QCOW2_OFF_CLUSTER_BITS v.
Definition lbd_qcow2_hdr_set_virtual_size (h : bytes) (v : Z) : bytes := _qcow2_put64 h LBD_QCOW2_OFF_VIRTUAL_SIZE v.
Definition lbd_qcow2_hdr_set_l1_table_offset (h : bytes) (v : Z) : bytes := _qcow2_put64 h LBD_QCOW2_OFF_L1_TABLE_OFFSET v.
Definition lbd_qcow2_hdr_set_l1_size (h : bytes) (v : Z) : bytes := _qcow2_put32 h LBD_QCOW2_OFF_L1_SIZE v.
Definition lbd_qcow2_hdr_set_alloc_offset (h : bytes) (v : Z) : bytes := _qcow2_put64 h LBD_QCOW2_OFF_ALLOC_OFFSET v.
Definition lbd_qcow2_hdr_set_comp_type (h : bytes) (v : Z) : bytes := _qcow2_put32 h LBD_QCOW2_OFF_COMP_TYPE v.
Definition lbd_qcow2_hdr_set_free_list (h : bytes) (v : Z) : bytes := _qcow2_put64 h LBD_QCOW2_OFF_FREE_LIST v.

(** ** Lemmas *)

(** The value of a big-endian byte string. *)
Fixpoint be_val (l : bytes) (acc : Z) : Z :=
  match l with
  | [] => acc
  | b :: l' => be_val l' (acc * 256 + b2z b)
  end.

Lemma horner_step x b k j : 0 ≤ k → j = k + 8 →
  Z.lor (Z.shiftl x j) (Z.shiftl (b2z b) k) = Z.shiftl (x * 256 + b2z b) k.
Proof.
  intros Hk ->. rewrite Z.add_comm, <- Z.shiftl_shiftl by lia.
  rewrite <- Z.shiftl_lor. f_equal. pose proof (b2z_range b).
  rewrite lor_shiftl_add by lia. done.
Qed.

(** The shift-and-or form of eight bytes is their big-endian value. *)
Lemma get64_val b0 b1 b2 b3 b4 b5 b6 b7 :
  Z.lor (Z.lor (Z.lor (Z.lor (Z.lor (Z.lor (Z.lor
    (Z.shiftl (b2z b0) 56) (Z.shiftl (b2z b1) 48)) (Z.shiftl (b2z b2) 40))
    (Z.shiftl (b2z b3) 32)) (Z.shiftl (b2z b4) 24)) (Z.shiftl (b2z b5) 16))
    (Z.shiftl (b2z b6) 8)) (b2z b7) = be_val [b0; b1; b2; b3; b4; b5; b6; b7] 0.
Proof.
  rewrite (horner_step (b2z b0) b1 48) by lia.
  rewrite (horner_step _ b2 40) by lia. rewrite (horner_step _ b3 32) by lia.
  rewrite (horner_step _ b4 24) by lia. rewrite (horner_step _ b5 16) by lia.
  rewrite (horner_step _ b6 8) by lia.
  rewrite <- (Z.shiftl_0_r (b2z b7)), (horner_step _ b7 0) by lia.
  rewrite Z.shiftl_0_r. simpl. f_equal; lia.
Qed.

Lemma get32_val b0 b1 b2 b3 :
  Z.lor (Z.lor (Z.lor (Z.shiftl (b2z b0) 24) (Z.shiftl (b2z b1) 16)) (Z.shiftl (b2z b2) 8))
    (b2z b3) = be_val [b0; b1; b2; b3] 0.
Proof.
  rewrite (horner_step (b2z b0) b1 16) by lia. rewrite (horner_step _ b2 8) by lia.
  rewrite <- (Z.shiftl_0_r (b2z b3)), (horner_step _ b3 0) by lia.
  rewrite Z.shiftl_0_r. simpl. f_equal; lia.
Qed.

Lemma byte_step v k j : 0 ≤ k → j = k + 8 →
  (Z.shiftr v j) * 256 + b2z (z2b (Z.shiftr v k)) = Z.shiftr v k.
Proof.
  intros Hk ->. rewrite b2z_z2b, <- Z.shiftr_shiftr by lia.
  rewrite (Z.shiftr_div_pow2 _ 8) by lia. change (2 ^ 8) with 256.
  pose proof (Z.div_mod (Z.shiftr v k) 256). lia.
Qed.

Lemma be_val_be64 v : 0 ≤ v < 2 ^ 64 → be_val (be64 v) 0 = v.
Proof.
  intros Hv. unfold be64, be_val.
  assert (H : Z.shiftr v 64 = 0) by (rewrite Z.shiftr_div_pow2 by lia; apply Z.div_small; lia).
  rewrite <- H. rewrite (byte_step v 56), (byte_step v 48), (byte_step v 40),
    (byte_step v 32), (byte_step v 24), (byte_step v 16), (byte_step v 8) by lia.
  pose proof (byte_step v 0 8 ltac:(lia) eq_refl) as E. rewrite Z.shiftr_0_r in E. exact E.
Qed.

Lemma be_val_be32 v : 0 ≤ v < 2 ^ 32 → be_val (be32 v) 0 = v.
Proof.
  intros Hv. unfold be32, be_val.
  assert (H : Z.shiftr v 32 = 0) by (rewrite Z.shiftr_div_pow2 by lia; apply Z.div_small; lia).
  rewrite <- H. rewrite (byte_step v 24), (byte_step v 16), (byte_step v 8) by lia.
  pose proof (byte_step v 0 8 ltac:(lia) eq_refl) as E. rewrite Z.shiftr_0_r in E. exact E.
Qed.

Lemma be_val_bound l acc : 0 ≤ acc →
  0 ≤ be_val l acc < (acc + 1) * 2 ^ (8 * zlen l).
Proof.
  revert acc. induction l as [|b l IH]; intros acc Hacc.
  { simpl. change (8 * zlen (@nil byte)) with 0. lia. }
  simpl. pose proof (b2z_range b). destruct (IH (acc * 256 + b2z b)) as [H1 H2]; [lia|].
  split; [done|]. eapply Z.lt_le_trans; [exact H2|].
  replace (8 * zlen (b :: l)) with (8 + 8 * zlen l) by (unfold zlen; simpl; lia).
  rewrite Z.pow_add_r by (unfold zlen; lia). change (2 ^ 8) with 256.
  assert (0 < 2 ^ (8 * zlen l)) by (apply Z.pow_pos_nonneg; unfold zlen; lia). nia.
Qed.

Lemma nth_bytes_at f p d i : 0 ≤ p → bytes_at f p d → (i < length d)%nat →
  nth (Z.to_nat (p + Z.of_nat i)) f x00 = nth i d x00.
Proof.
  intros Hp H Hi. specialize (H i Hi).
  replace (Z.to_nat (p + Z.of_nat i)) with (Z.to_nat p + i)%nat by lia.
  rewrite !nth_lookup, H. done.
Qed.

Lemma byte_of_bytes_at f p d i : 0 ≤ p → bytes_at f p d → 0 ≤ i < zlen d →
  byte_of f (p + i) = b2z (nth (Z.to_nat i) d x00).
Proof.
  intros Hp H Hi. unfold byte_of, zlen in *.
  rewrite <- (nth_bytes_at f p d (Z.to_nat i)) by (done || lia). do 2 f_equal. lia.
Qed.

(** Reading back eight (four) bytes stored anywhere in a buffer. *)
Lemma get64_bytes_at f p v : 0 ≤ p → 0 ≤ v < 2 ^ 64 → bytes_at f p (be64 v) →
  _qcow2_get64 f p = v.
Proof.
  intros Hp Hv H. unfold _qcow2_get64.
  rewrite !(byte_of_bytes_at f p (be64 v)) by (done || (unfold zlen; simpl; lia)).
  simpl nth. rewrite get64_val. by apply (be_val_be64 v).
Qed.

Lemma get32_bytes_at f p v : 0 ≤ p → 0 ≤ v < 2 ^ 32 → bytes_at f p (be32 v) →
  _qcow2_get32 f p = v.
Proof.
  intros Hp Hv H. unfold _qcow2_get32.
  rewrite !(byte_of_bytes_at f p (be32 v)) by (done || (unfold zlen; simpl; lia)).
  simpl nth. rewrite get32_val. by apply (be_val_be32 v).
Qed.

Lemma get64_range f p : 0 ≤ _qcow2_get64 f p < 2 ^ 64.
Proof.
  unfold _qcow2_get64, byte_of. rewrite get64_val.
  apply (be_val_bound [_; _; _; _; _; _; _; _] 0); lia.
Qed.

Lemma get32_range f p : 0 ≤ _qcow2_get32 f p < 2 ^ 32.
Proof.
  unfold _qcow2_get32, byte_of. rewrite get32_val.
  apply (be_val_bound [_; _; _; _] 0); lia.
Qed.

Lemma length_be64 v : length (be64 v) = 8%nat. Proof. done. Qed.
Lemma length_be32 v : length (be32 v) = 4%nat. Proof. done. Qed.
#[export] Hint Rewrite length_be64 length_be32 : len.

(** *** Flags of L2 entries *)
Lemma offset_mask_ones : LBD_QCOW2_L2_OFFSET_MASK = Z.ones 62.
Proof. reflexivity. Qed.

Lemma compressed_entry_phys p : 0 ≤ p < 2 ^ 62 →
  Z.land (Z.lor LBD_QCOW2_L2_COMPRESSED p) LBD_QCOW2_L2_OFFSET_MASK = p.
Proof.
  intros Hp. rewrite offset_mask_ones. change LBD_QCOW2_L2_COMPRESSED with (Z.shiftl 2 62).
  rewrite lor_shiftl_add by lia. rewrite Z.land_ones by lia.
  rewrite Z.add_comm, Z.mod_add by lia. by apply Z.mod_small.
Qed.

Lemma plain_entry_phys p : 0 ≤ p < 2 ^ 62 → Z.land p LBD_QCOW2_L2_OFFSET_MASK = p.
Proof. intros Hp. rewrite offset_mask_ones, Z.land_ones by lia. by apply Z.mod_small. Qed.

Lemma compressed_entry_flag p : 0 ≤ p < 2 ^ 62 →
  Z.land (Z.lor LBD_QCOW2_L2_COMPRESSED p) LBD_QCOW2_L2_COMPRESSED ≠ 0.
Proof.
  intros Hp H. apply (f_equal (λ z, Z.testbit z 63)) in H.
  rewrite Z.land_spec, Z.lor_spec, Z.bits_0 in H. done.
Qed.

Lemma plain_entry_flag p : 0 ≤ p < 2 ^ 62 → Z.land p LBD_QCOW2_L2_COMPRESSED = 0.
Proof.
  intros Hp. apply Z.bits_inj'. intros n Hn. rewrite Z.land_spec, Z.bits_0.
  destruct (decide (n = 63)) as [->|].
  - rewrite <- (Z.mod_small p (2 ^ 62)) by lia. rewrite Z.mod_pow2_bits_high by lia. done.
  - unfold LBD_QCOW2_L2_COMPRESSED. rewrite Z.shiftl_1_l, Z.pow2_bits_false by lia.
    apply andb_false_r.
Qed.

Lemma compressed_entry_range p : 0 ≤ p < 2 ^ 62 →
  2 ^ 63 ≤ Z.lor LBD_QCOW2_L2_COMPRESSED p < 2 ^ 64.
Proof.
  intros Hp. change LBD_QCOW2_L2_COMPRESSED with (Z.shiftl 2 62).
  rewrite lor_shiftl_add by lia. lia.
Qed.
