(* ===== verification/Crc.v ===== *)
(** * CRC32 and CRC32C of the control tool ([src/src/lbdctl.c])

    The tool computes both checksums with a 256-entry table.  The table-driven
    code is proved equal to the bit-by-bit definition of the CRC, and the
    checksum is proved to detect every change confined to one byte. *)
From Stdlib Require Import Btauto.
From S2P Require Import Prelude Kernel.

(** ** Definitions *)

Definition crc32_poly : Z := 0xEDB88320.
Definition crc32c_poly : Z := 0x82F63B78.

(** [c = (c >> 1) ^ (poly & (-(c & 1)))], the body of the inner loop. *)
Definition crc_step (poly c : Z) : Z :=
  Z.lxor (Z.shiftr c 1) (Z.land poly (u32 (- (Z.land c 1)))).

(** The table [crc32_init]/[crc32c_init] fill: entry [i] is eight steps from [i]. *)
Definition crc_table (poly : Z) : list Z :=
  (λ i, Nat.iter 8 (crc_step poly) (Z.of_nat i)) <$> seq 0 256.

Definition crc32_init : list Z := crc_table crc32_poly.
Definition crc32c_init : list Z := crc_table crc32c_poly.

(** One byte of the main loop: [crc = table[(crc ^ p[i]) & 0xFF] ^ (crc >> 8)]. *)
Definition crc_update (table : list Z) (crc : Z) (b : byte) : Z :=
  Z.lxor (nth (Z.to_nat (Z.land (Z.lxor crc (b2z b)) 0xFF)) table 0) (Z.shiftr crc 8).

Definition crc_calc (table : list Z) (buf : bytes) : Z :=
  Z.lxor (foldl (crc_update table) 0xFFFFFFFF buf) 0xFFFFFFFF.

Definition crc32_calc (buf : bytes) : Z := crc_calc crc32_init buf.
Definition crc32c_calc (buf : bytes) : Z := crc_calc crc32c_init buf.

(** The reference: shift the message in one bit at a time. *)
Definition crc_byte (poly crc : Z) (b : byte) : Z :=
  Nat.iter 8 (crc_step poly) (Z.lxor crc (b2z b)).

Definition crc_ref (poly : Z) (buf : bytes) : Z :=
  Z.lxor (foldl (crc_byte poly) 0xFFFFFFFF buf) 0xFFFFFFFF.

(** ** Lemmas *)

(** Values of the checksum register and the polynomials: 32-bit words. *)
Definition is_u32 (z : Z) : Prop := 0 ≤ z < 2 ^ 32.

Lemma is_u32_bits z : is_u32 z ↔ (0 ≤ z ∧ ∀ n, 32 ≤ n → Z.testbit z n = false).
Proof.
  unfold is_u32. split.
  - intros H. split; [lia|]. intros n Hn.
    rewrite <- (Z.mod_small z (2 ^ 32)) by lia. by apply Z.mod_pow2_bits_high.
  - intros [H0 H]. split; [done|].
    assert (z = z mod 2 ^ 32) as ->; [|apply Z.mod_pos_bound; lia].
    apply Z.bits_inj'. intros n Hn. destruct (decide (n < 32)).
    + by rewrite Z.mod_pow2_bits_low.
    + rewrite Z.mod_pow2_bits_high by lia. apply H; lia.
Qed.

Lemma lxor_u32 a b : is_u32 a → is_u32 b → is_u32 (Z.lxor a b).
Proof.
  rewrite !is_u32_bits. intros [Ha Ha'] [Hb Hb']. split; [by apply Z.lxor_nonneg|].
  intros n Hn. by rewrite Z.lxor_spec, Ha', Hb'.
Qed.

Lemma shiftr_u32 a k : 0 ≤ k → is_u32 a → is_u32 (Z.shiftr a k).
Proof.
  rewrite !is_u32_bits. intros Hk [Ha Ha']. split; [by apply Z.shiftr_nonneg|].
  intros n Hn. rewrite Z.shiftr_spec by lia. apply Ha'. lia.
Qed.

Lemma b2z_u32 b : is_u32 (b2z b).
Proof. unfold is_u32. pose proof (b2z_range b). lia. Qed.

(** The step as a case distinction on the low bit. *)
Lemma crc_step_bit poly c : is_u32 poly →
  crc_step poly c = Z.lxor (Z.shiftr c 1) (if Z.testbit c 0 then poly else 0).
Proof.
  intros Hp. unfold crc_step. f_equal.
  assert (Z.land c 1 = Z.b2z (Z.testbit c 0)) as ->.
  { rewrite Z.bit0_mod. apply (Z.land_ones c 1); lia. }
  destruct (Z.testbit c 0); simpl Z.b2z; [|by rewrite Z.land_0_r].
  transitivity (Z.land poly (Z.ones 32)); [done|]. rewrite Z.land_ones by lia. by apply Z.mod_small.
Qed.

Lemma crc_step_u32 poly c : is_u32 poly → is_u32 c → is_u32 (crc_step poly c).
Proof.
  intros Hp Hc. rewrite crc_step_bit by done.
  apply lxor_u32; [apply shiftr_u32; [lia|done]|]. destruct (Z.testbit c 0); [done|unfold is_u32; lia].
Qed.

(** The step is linear over exclusive or. *)
Lemma crc_step_lxor poly a b : is_u32 poly →
  crc_step poly (Z.lxor a b) = Z.lxor (crc_step poly a) (crc_step poly b).
Proof.
  intros Hp. rewrite !crc_step_bit by done. rewrite Z.shiftr_lxor, Z.lxor_spec.
  apply Z.bits_inj'. intros n Hn. rewrite !Z.lxor_spec.
  destruct (Z.testbit a 0), (Z.testbit b 0); simpl; rewrite ?Z.bits_0; by btauto.
Qed.

Lemma crc_steps_lxor poly n a b : is_u32 poly →
  Nat.iter n (crc_step poly) (Z.lxor a b) =
  Z.lxor (Nat.iter n (crc_step poly) a) (Nat.iter n (crc_step poly) b).
Proof. intros Hp. induction n; simpl; [done|]. by rewrite IHn, crc_step_lxor. Qed.

(** Zero low bits are only shifted out. *)
Lemma crc_steps_shift poly n h : is_u32 poly →
  Nat.iter n (crc_step poly) (Z.shiftl h (Z.of_nat n)) = h.
Proof.
  intros Hp. revert h. induction n; intros h; [by apply Z.shiftl_0_r|].
  rewrite Nat.iter_succ_r, crc_step_bit by done.
  rewrite Z.shiftl_spec_low by lia. rewrite Z.lxor_0_r.
  rewrite Z.shiftr_shiftl_l by lia. replace (Z.of_nat (S n) - 1) with (Z.of_nat n) by lia. apply IHn.
Qed.

(** The table entry and the shifted register recombine to eight steps. *)
Lemma crc_table_lookup poly x : 0 ≤ x < 256 →
  nth (Z.to_nat x) (crc_table poly) 0 = Nat.iter 8 (crc_step poly) x.
Proof.
  intros Hx. rewrite nth_lookup. unfold crc_table. rewrite list_lookup_fmap, lookup_seq_lt by lia.
  by replace (0 + Z.to_nat x)%nat with (Z.to_nat x) by lia; cbn -[Nat.iter]; rewrite Z2Nat.id by lia.
Qed.

Lemma split_low_byte c : c = Z.lxor (Z.land c 0xFF) (Z.shiftl (Z.shiftr c 8) 8).
Proof.
  apply Z.bits_inj'. intros n Hn. rewrite Z.lxor_spec, Z.land_spec.
  change 0xFF with (Z.ones 8). destruct (decide (n < 8)).
  - rewrite Z.shiftl_spec_low by lia. rewrite Z.ones_spec_low by lia. by btauto.
  - rewrite Z.ones_spec_high by lia. rewrite Z.shiftl_spec by lia.
    rewrite Z.shiftr_spec by lia. replace (n - 8 + 8) with n by lia. by btauto.
Qed.

Lemma crc_update_byte poly crc b : is_u32 poly →
  crc_update (crc_table poly) crc b = crc_byte poly crc b.
Proof.
  intros Hp. unfold crc_update, crc_byte.
  rewrite (split_low_byte (Z.lxor crc (b2z b))) at 2. rewrite crc_steps_lxor by done.
  rewrite crc_table_lookup.
  - f_equal. rewrite crc_steps_shift by done. rewrite Z.shiftr_lxor.
    pose proof (b2z_range b). rewrite (Z.shiftr_div_pow2 (b2z b)) by lia.
    by rewrite (Z.div_small (b2z b)), Z.lxor_0_r by lia.
  - change 0xFF with (Z.ones 8). rewrite Z.land_ones by lia. apply Z.mod_pos_bound. lia.
Qed.

Lemma crc_calc_ref poly buf : is_u32 poly → crc_calc (crc_table poly) buf = crc_ref poly buf.
Proof.
  intros Hp. unfold crc_calc, crc_ref. f_equal. generalize 0xFFFFFFFF. intros c.
  revert c. induction buf as [|b buf IH]; intros c; [done|]. simpl. by rewrite crc_update_byte.
Qed.

(** A polynomial with its top bit set makes the step invertible. *)
Lemma crc_step_inj poly a b : is_u32 poly → Z.testbit poly 31 = true →
  is_u32 a → is_u32 b → crc_step poly a = crc_step poly b → a = b.
Proof.
  intros Hp H31 Ha Hb. rewrite !crc_step_bit by done. intros E.
  assert (H0 : Z.testbit a 0 = Z.testbit b 0).
  { apply (f_equal (λ z, Z.testbit z 31)) in E. rewrite !Z.lxor_spec, !Z.shiftr_spec in E by lia.
    apply is_u32_bits in Ha as [_ Ha]. apply is_u32_bits in Hb as [_ Hb].
    rewrite Ha, Hb in E by lia.
    destruct (Z.testbit a 0), (Z.testbit b 0); rewrite ?H31, ?Z.bits_0 in E; done. }
  rewrite H0 in E. apply Z.bits_inj'. intros n Hn.
  destruct (decide (n = 0)) as [->|]; [done|].
  apply (f_equal (λ z, Z.testbit z (n - 1))) in E.
  rewrite !Z.lxor_spec, !Z.shiftr_spec in E by lia. replace (n - 1 + 1) with n in E by lia.
  by destruct (Z.testbit a n), (Z.testbit b n), (Z.testbit (if Z.testbit b 0 then poly else 0) (n - 1)).
Qed.

Lemma crc_steps_u32 poly n c : is_u32 poly → is_u32 c → is_u32 (Nat.iter n (crc_step poly) c).
Proof. intros Hp Hc. induction n; [done|]. simpl. by apply crc_step_u32. Qed.

Lemma crc_steps_inj poly n a b : is_u32 poly → Z.testbit poly 31 = true →
  is_u32 a → is_u32 b → Nat.iter n (crc_step poly) a = Nat.iter n (crc_step poly) b → a = b.
Proof.
  intros Hp H31 Ha Hb. induction n; [done|]. simpl. intros E. apply IHn.
  by apply (crc_step_inj poly); [..|apply crc_steps_u32|apply crc_steps_u32|].
Qed.

Lemma lxor_byte_u32 c b : is_u32 c → is_u32 (Z.lxor c (b2z b)).
Proof. intros. apply lxor_u32; [done|apply b2z_u32]. Qed.

Lemma crc_byte_u32 poly c b : is_u32 poly → is_u32 c → is_u32 (crc_byte poly c b).
Proof. intros. by apply crc_steps_u32, lxor_byte_u32. Qed.
#[export] Hint Resolve crc_byte_u32 lxor_byte_u32 : lbd.

Lemma crc_byte_inj poly a b x y : is_u32 poly → Z.testbit poly 31 = true →
  is_u32 a → is_u32 b → crc_byte poly a x = crc_byte poly b y → Z.lxor a (b2z x) = Z.lxor b (b2z y).
Proof.
  intros Hp H31 Ha Hb. unfold crc_byte. intros E.
  by apply (crc_steps_inj poly 8) in E; [|auto with lbd..].
Qed.

Lemma crc_fold_inj poly buf a b : is_u32 poly → Z.testbit poly 31 = true →
  is_u32 a → is_u32 b → foldl (crc_byte poly) a buf = foldl (crc_byte poly) b buf → a = b.
Proof.
  intros Hp H31. revert a b. induction buf as [|x buf IH]; intros a b Ha Hb E; [done|].
  cbn [foldl] in E. apply IH in E; [|by auto with lbd..]. apply crc_byte_inj in E; [|done..].
  apply (f_equal (λ z, Z.lxor z (b2z x))) in E.
  by rewrite !Z.lxor_assoc, Z.lxor_nilpotent, !Z.lxor_0_r in E.
Qed.

Lemma crc_fold_u32 poly buf c : is_u32 poly → is_u32 c → is_u32 (foldl (crc_byte poly) c buf).
Proof.
  intros Hp. revert c. induction buf as [|b buf IH]; intros c Hc; [done|]. simpl.
  by apply IH, crc_byte_u32.
Qed.

Lemma crc_ref_u32 poly buf : is_u32 poly → is_u32 (crc_ref poly buf).
Proof. intros Hp. apply lxor_u32; [by apply crc_fold_u32|]; unfold is_u32; lia. Qed.

Lemma crc_ref_detects poly p a b s : is_u32 poly → Z.testbit poly 31 = true →
  a ≠ b → crc_ref poly (p ++ a :: s) ≠ crc_ref poly (p ++ b :: s).
Proof.
  intros Hp H31 Hne E. apply Hne. unfold crc_ref in E.
  apply (f_equal (λ z, Z.lxor z 0xFFFFFFFF)) in E.
  rewrite !Z.lxor_assoc, Z.lxor_nilpotent, !Z.lxor_0_r, !foldl_app in E. cbn [foldl] in E.
  set (c := foldl (crc_byte poly) 0xFFFFFFFF p) in *.
  assert (Hc : is_u32 c) by (apply crc_fold_u32; [done|unfold is_u32; lia]).
  apply crc_fold_inj in E; [|by auto with lbd..]. apply crc_byte_inj in E; [|done..].
  apply (f_equal (Z.lxor c)) in E.
  rewrite <- !Z.lxor_assoc, Z.lxor_nilpotent, !Z.lxor_0_l in E. by apply b2z_inj.
Qed.

Lemma crc32_poly_u32 : is_u32 crc32_poly. Proof. unfold is_u32, crc32_poly; lia. Qed.
Lemma crc32c_poly_u32 : is_u32 crc32c_poly. Proof. unfold is_u32, crc32c_poly; lia. Qed.
#[export] Hint Resolve crc32_poly_u32 crc32c_poly_u32 : lbd.

(** ** Theorems *)

(** C35: the table-driven [crc32_calc] and [crc32c_calc] compute the bit-by-bit
    CRC with the IEEE 802.3 and the Castagnoli polynomial on every buffer. *)
Theorem crc_table_driven_correct buf :
  crc32_calc buf = crc_ref crc32_poly buf ∧ crc32c_calc buf = crc_ref crc32c_poly buf.
Proof. split; apply crc_calc_ref; auto with lbd. Qed.

(** A log entry or L2 table altered in a single byte never keeps its checksum. *)
Theorem crc_detects_byte_change p s a b : a ≠ b →
  crc32_calc (p ++ a :: s) ≠ crc32_calc (p ++ b :: s) ∧
  crc32c_calc (p ++ a :: s) ≠ crc32c_calc (p ++ b :: s).
Proof.
  intros Hne. unfold crc32_calc, crc32c_calc, crc32_init, crc32c_init.
  rewrite !crc_calc_ref by auto with lbd. split; apply crc_ref_detects; auto with lbd.
Qed.

Lemma crc_detects_byte_change_witness :
  x31 ≠ x32 ∧ crc32_calc [x31] ≠ crc32_calc [x32] ∧ crc32c_calc [x31] ≠ crc32c_calc [x32].
Proof. split; [done|]. apply (crc_detects_byte_change [] [] x31 x32). done. Defined.

(** The check values of the two algorithms. *)
Example crc32_check : crc32_calc (str "123456789") = 0xCBF43926.
Proof. vm_compute. reflexivity. Qed.
Example crc32c_check : crc32c_calc (str "123456789") = 0xE3069283.
Proof. vm_compute. reflexivity. Qed.

(** The kernel's [crc32c] of the model's witnesses: seed, then eight bit steps
    per byte, without a final complement. *)
#[global] Instance table_crc : CrcOps := { crc32c := λ seed d, u32 (foldl (crc_update crc32c_init) seed d) }.
#[global] Instance table_crc_laws : CrcLaws.
Proof. split. intros. apply u32_range. Qed.
