(* ===== verification/Cbor.v ===== *)
(** * The CBOR encoder and decoder of the driver
      ([src/src/cbor_enc.h], [src/src/cbor_dec.h])

    The encoder writes into a fixed buffer with a sticky error; the decoder
    walks a buffer with a cursor.  Decoding what was encoded gives the value
    back, whatever follows in the buffer, and the decoder never reads outside
    the buffer it was given. *)
From S2P Require Import Prelude Format.

(** ** Encoder ([cbor_enc.h]) *)
Record cbor_enc : Type := CborEnc {
  enc_buf : bytes;     (** [u8 *buf], [cap] bytes *)
  enc_pos : Z;
  enc_cap : Z;
  enc_err : Z          (** sticky [-ENOSPC] *)
}.

Definition cbor_enc_init (buf : bytes) (cap : Z) : cbor_enc := CborEnc buf 0 cap 0.

Definition cbor_enc_len (e : cbor_enc) : Z := enc_pos e.

(** Write one byte, set sticky error on overflow. *)
Definition cbor_put (e : cbor_enc) (b : byte) : cbor_enc :=
  if negb (enc_err e =? 0) then e
  else if enc_pos e >=? enc_cap e then CborEnc (enc_buf e) (enc_pos e) (enc_cap e) (- ENOSPC)
  else CborEnc (<[Z.to_nat (enc_pos e) := b]> (enc_buf e)) (enc_pos e + 1) (enc_cap e) 0.

(** A head: major type in the top three bits and a value, shortest form. *)
Definition cbor_enc_head (e : cbor_enc) (major val : Z) : cbor_enc :=
  let mt := u8 (Z.shiftl major 5) in
  if val <? 24 then
    cbor_put e (z2b (Z.lor mt (u8 val)))
  else if val <=? 0xFF then
    cbor_put (cbor_put e (z2b (Z.lor mt 24))) (z2b val)
  else if val <=? 0xFFFF then
    cbor_put (cbor_put (cbor_put e (z2b (Z.lor mt 25))) (z2b (Z.shiftr val 8))) (z2b val)
  else if val <=? 0xFFFFFFFF then
    let e := cbor_put e (z2b (Z.lor mt 26)) in
    let e := cbor_put e (z2b (Z.shiftr val 24)) in
    let e := cbor_put e (z2b (Z.shiftr val 16)) in
    let e := cbor_put e (z2b (Z.shiftr val 8)) in
    cbor_put e (z2b val)
  else
    let e := cbor_put e (z2b (Z.lor mt 27)) in
    let e := cbor_put e (z2b (Z.shiftr val 56)) in
    let e := cbor_put e (z2b (Z.shiftr val 48)) in
    let e := cbor_put e (z2b (Z.shiftr val 40)) in
    let e := cbor_put e (z2b (Z.shiftr val 32)) in
    let e := cbor_put e (z2b (Z.shiftr val 24)) in
    let e := cbor_put e (z2b (Z.shiftr val 16)) in
    let e := cbor_put e (z2b (Z.shiftr val 8)) in
    cbor_put e (z2b val).

Definition cbor_enc_map (e : cbor_enc) (count : Z) : cbor_enc := cbor_enc_head e 5 count.
Definition cbor_enc_uint (e : cbor_enc) (val : Z) : cbor_enc := cbor_enc_head e 0 val.
Definition cbor_enc_text (e : cbor_enc) (s : bytes) : cbor_enc :=
  foldl cbor_put (cbor_enc_head e 3 (zlen s)) s.
(** [cbor_enc_text_key(e, key)]: the text up to the terminating NUL. *)
Definition cbor_enc_text_key (e : cbor_enc) (key : bytes) : cbor_enc :=
  cbor_enc_text e key.
Definition cbor_enc_bytes_hdr (e : cbor_enc) (len : Z) : cbor_enc := cbor_enc_head e 2 len.

(** ** Decoder ([cbor_dec.h]) *)
Record cbor_dec : Type := CborDec {
  dec_buf : bytes;
  dec_pos : Z;
  dec_len : Z
}.

Definition cbor_dec_init (buf : bytes) (len : Z) : cbor_dec := CborDec buf 0 len.

Definition dec_advance (n : Z) : M cbor_dec unit :=
  modify (λ d, CborDec (dec_buf d) (dec_pos d + n) (dec_len d)).

(** [d->buf[d->pos + i]], an out-of-bounds access being undefined behaviour. *)
Definition dec_byte (i : Z) : M cbor_dec Z :=
  d ← get; b ← arr_get (dec_buf d) (dec_pos d + i); mret (b2z b).

(** [if (d->pos + n > d->len) return -EINVAL]. *)
Definition dec_need (n : Z) : M cbor_dec unit :=
  d ← get; if u64 (dec_pos d + n) >? dec_len d then throw (- EINVAL) else mret tt.

(** The argument value that follows an initial byte with additional info [ai]. *)
Definition cbor_dec_arg (major ai : Z) : M cbor_dec (Z * Z) :=
  if ai <? 24 then mret (major, ai)
  else if ai =? 24 then
    dec_need 1;; v ← dec_byte 0; dec_advance 1;; mret (major, v)
  else if ai =? 25 then
    dec_need 2;; b0 ← dec_byte 0; b1 ← dec_byte 1; dec_advance 2;;
    mret (major, Z.lor (Z.shiftl b0 8) b1)
  else if ai =? 26 then
    dec_need 4;;
    b0 ← dec_byte 0; b1 ← dec_byte 1; b2 ← dec_byte 2; b3 ← dec_byte 3; dec_advance 4;;
    mret (major, Z.lor (Z.lor (Z.lor (Z.shiftl b0 24) (Z.shiftl b1 16)) (Z.shiftl b2 8)) b3)
  else if ai =? 27 then
    dec_need 8;;
    b0 ← dec_byte 0; b1 ← dec_byte 1; b2 ← dec_byte 2; b3 ← dec_byte 3;
    b4 ← dec_byte 4; b5 ← dec_byte 5; b6 ← dec_byte 6; b7 ← dec_byte 7; dec_advance 8;;
    mret (major, Z.lor (Z.lor (Z.lor (Z.lor (Z.lor (Z.lor (Z.lor
      (Z.shiftl b0 56) (Z.shiftl b1 48)) (Z.shiftl b2 40)) (Z.shiftl b3 32))
      (Z.shiftl b4 24)) (Z.shiftl b5 16)) (Z.shiftl b6 8)) b7)
  else throw (- EINVAL).

(** Read a head: major type and argument value. *)
Definition cbor_dec_head : M cbor_dec (Z * Z) :=
  d ← get;
  if dec_pos d >=? dec_len d then throw (- EINVAL) else
  ib ← dec_byte 0; dec_advance 1;;
  cbor_dec_arg (Z.shiftr ib 5) (Z.land ib 0x1F).

Definition cbor_dec_map : M cbor_dec Z :=
  '(major, count) ← cbor_dec_head;
  if negb (major =? 5) then throw (- EINVAL) else mret count.

Definition cbor_dec_uint : M cbor_dec Z :=
  '(major, val) ← cbor_dec_head;
  if negb (major =? 0) then throw (- EINVAL) else mret val.

(** [memcpy(buf, d->buf + d->pos, slen)]: reading past the buffer is undefined. *)
Definition dec_memcpy (slen : Z) : M cbor_dec bytes :=
  d ← get;
  if dec_pos d + slen >? zlen (dec_buf d) then panic
  else mret (read_at (dec_buf d) (dec_pos d) slen).

(** Read a text string into a buffer of [cap] bytes, NUL included. *)
Definition cbor_dec_text (cap : Z) : M cbor_dec bytes :=
  '(major, slen) ← cbor_dec_head;
  if negb (major =? 3) then throw (- EINVAL)
  else if slen >=? cap then throw (- EINVAL)
  else dec_need slen;; s ← dec_memcpy slen; dec_advance slen;; mret s.

(** ** Specification: the bytes of a head *)
Definition head_bytes (major val : Z) : bytes :=
  let mt := u8 (Z.shiftl major 5) in
  if val <? 24 then [z2b (Z.lor mt (u8 val))]
  else if val <=? 0xFF then [z2b (Z.lor mt 24); z2b val]
  else if val <=? 0xFFFF then z2b (Z.lor mt 25) :: be16 val
  else if val <=? 0xFFFFFFFF then z2b (Z.lor mt 26) :: be32 val
  else z2b (Z.lor mt 27) :: be64 val.

Definition text_bytes (s : bytes) : bytes := head_bytes 3 (zlen s) ++ s.

(** What the encoder has produced so far. *)
Definition enc_out (e : cbor_enc) : bytes := take (Z.to_nat (enc_pos e)) (enc_buf e).

(** A well-formed encoder: the cursor is inside the buffer. *)
Definition enc_wf (e : cbor_enc) : Prop :=
  zlen (enc_buf e) = enc_cap e ∧ 0 ≤ enc_pos e ≤ enc_cap e.

(** ** Lemmas on the encoder *)
Definition puts (e : cbor_enc) (l : bytes) : cbor_enc := foldl cbor_put e l.

Lemma cbor_enc_head_puts e m v : cbor_enc_head e m v = puts e (head_bytes m v).
Proof.
  unfold cbor_enc_head, head_bytes, puts, be16, be32, be64. cbv zeta.
  do 4 (match goal with |- (if ?c then _ else _) = _ => destruct c end; [cbn [foldl]; reflexivity|]).
  cbn [foldl]. reflexivity.
Qed.

Lemma cbor_enc_text_puts e s : cbor_enc_text e s = puts e (text_bytes s).
Proof. unfold cbor_enc_text, text_bytes, puts. rewrite cbor_enc_head_puts, foldl_app. done. Qed.

Lemma puts_app e l1 l2 : puts e (l1 ++ l2) = puts (puts e l1) l2.
Proof. apply foldl_app. Qed.

Lemma cbor_put_wf e b : enc_wf e → enc_wf (cbor_put e b) ∧ enc_cap (cbor_put e b) = enc_cap e.
Proof.
  intros [H1 H2]. unfold cbor_put. case_match; [done|].
  destruct (Z.geb_spec (enc_pos e) (enc_cap e)); split; try done; unfold enc_wf; simpl.
  split; [by len|lia].
Qed.

Lemma puts_wf e l : enc_wf e → enc_wf (puts e l) ∧ enc_cap (puts e l) = enc_cap e.
Proof.
  revert e. induction l as [|b l IH]; intros e H; [done|]. simpl.
  destruct (cbor_put_wf e b H) as [H1 H2]. destruct (IH _ H1) as [H3 H4]. by rewrite H4, H2.
Qed.

(** Bytes that fit are appended to the output. *)
Lemma puts_fits e l : enc_wf e → enc_err e = 0 → enc_pos e + zlen l ≤ enc_cap e →
  enc_err (puts e l) = 0 ∧ enc_pos (puts e l) = enc_pos e + zlen l ∧
  enc_out (puts e l) = enc_out e ++ l.
Proof.
  revert e. induction l as [|b l IH]; intros e Hwf He Hfit.
  { simpl. rewrite app_nil_r. unfold zlen; simpl. split_and!; [done|lia|done]. }
  change (puts e (b :: l)) with (puts (cbor_put e b) l).
  destruct (cbor_put_wf e b Hwf) as [Hwf' Hcap]. destruct Hwf as [Hl Hp].
  assert (E : cbor_put e b = CborEnc (<[Z.to_nat (enc_pos e) := b]> (enc_buf e)) (enc_pos e + 1) (enc_cap e) 0).
  { unfold cbor_put. rewrite He. simpl. destruct (Z.geb_spec (enc_pos e) (enc_cap e)); [|done].
    unfold zlen in Hfit; simpl in Hfit. lia. }
  destruct (IH (cbor_put e b)) as (H1 & H2 & H3); [done|by rewrite E| |].
  { rewrite E; simpl. unfold zlen in *; simpl in Hfit. lia. }
  split_and!; [done| |].
  - rewrite H2, E. unfold zlen; simpl. lia.
  - rewrite H3, E. unfold enc_out; simpl.
    replace (Z.to_nat (enc_pos e + 1)) with (S (Z.to_nat (enc_pos e))) by lia.
    rewrite (take_S_r _ _ b); [|apply list_lookup_insert_eq; unfold zlen in *; simpl in Hfit; lia].
    rewrite take_insert_ge by lia. by rewrite <- app_assoc.
Qed.

(** Bytes that do not fit leave the sticky error. *)
Lemma puts_sticky e l : enc_err e ≠ 0 → puts e l = e.
Proof.
  revert e. induction l as [|b l IH]; intros e H; [done|]. simpl.
  assert (cbor_put e b = e) as ->; [|auto]. unfold cbor_put.
  destruct (Z.eqb_spec (enc_err e) 0); done.
Qed.

Lemma puts_overflow e l : enc_wf e → enc_err e = 0 → enc_cap e < enc_pos e + zlen l →
  enc_err (puts e l) = - ENOSPC.
Proof.
  revert e. induction l as [|b l IH]; intros e Hwf He Hover.
  { destruct Hwf. unfold zlen in Hover; simpl in Hover. lia. }
  change (puts e (b :: l)) with (puts (cbor_put e b) l).
  destruct (cbor_put_wf e b Hwf) as [Hwf' Hcap].
  unfold cbor_put in *. rewrite He in *. simpl in *.
  destruct (Z.geb_spec (enc_pos e) (enc_cap e)).
  - by rewrite puts_sticky by done.
  - apply IH; [done|done|]. simpl. unfold zlen in *; simpl in *. lia.
Qed.

Lemma length_head_bytes m v : 0 ≤ v → 1 ≤ zlen (head_bytes m v) ≤ 9.
Proof. intros. unfold head_bytes. repeat case_match; unfold zlen; simpl; lia. Qed.

(** ** Lemmas on the decoder *)

(** The decoder stands on [l], with [suf] after it. *)
Definition dec_at (d : cbor_dec) (l suf : bytes) : Prop :=
  0 ≤ dec_pos d ∧ dec_len d = zlen (dec_buf d) ∧ dec_len d < 2 ^ 63 ∧
  drop (Z.to_nat (dec_pos d)) (dec_buf d) = l ++ suf ∧ dec_pos d ≤ dec_len d.

Lemma dec_at_lookup d l suf i b : dec_at d l suf → l !! i = Some b →
  dec_byte (Z.of_nat i) d = (Ok (b2z b), d).
Proof.
  intros (H0 & Hl & _ & Hd & _) Hi. unfold dec_byte, arr_get. munfold.
  rewrite decide_True by lia.
  assert (dec_buf d !! Z.to_nat (dec_pos d + Z.of_nat i) = Some b) as ->; [|done].
  replace (Z.to_nat (dec_pos d + Z.of_nat i)) with (Z.to_nat (dec_pos d) + i)%nat by lia.
  rewrite <- lookup_drop, Hd. by apply lookup_app_l_Some.
Qed.

Definition dec_skip (d : cbor_dec) (n : Z) : cbor_dec :=
  CborDec (dec_buf d) (dec_pos d + n) (dec_len d).

Lemma dec_at_skip d l1 l2 suf : dec_at d (l1 ++ l2) suf → dec_at (dec_skip d (zlen l1)) l2 suf.
Proof.
  intros (H0 & Hl & Hs & Hd & Hp). unfold dec_at, dec_skip; simpl. rewrite <- app_assoc in Hd.
  split_and!; [pose proof (zlen_nonneg l1); lia|done|done| |].
  - replace (Z.to_nat (dec_pos d + zlen l1)) with (Z.to_nat (dec_pos d) + length l1)%nat
      by (unfold zlen; lia).
    rewrite <- drop_drop, Hd. by apply drop_app_length.
  - apply (f_equal length) in Hd. rewrite length_drop, !length_app in Hd. unfold zlen in *. lia.
Qed.

Lemma dec_at_need d l suf n : dec_at d l suf → 0 ≤ n ≤ zlen l → dec_need n d = (Ok tt, d).
Proof.
  intros (H0 & Hl & Hs & Hd & Hp) Hn. unfold dec_need. munfold.
  apply (f_equal length) in Hd. rewrite length_drop, !length_app in Hd. unfold zlen in *.
  rewrite u64_small by lia.
  destruct (Z.gtb_spec (dec_pos d + n) (dec_len d)); [lia|done].
Qed.

Lemma dec_at_first d b l suf : dec_at d (b :: l) suf → (dec_pos d >=? dec_len d) = false.
Proof.
  intros (H0 & Hl & Hs & Hd & Hp). apply (f_equal length) in Hd.
  rewrite length_drop in Hd. simpl in Hd. unfold zlen in *.
  destruct (Z.geb_spec (dec_pos d) (dec_len d)); [lia|done].
Qed.

Lemma head_byte_split m x : 0 ≤ m < 8 → 0 ≤ x < 32 →
  Z.shiftr (b2z (z2b (Z.lor (u8 (Z.shiftl m 5)) x))) 5 = m ∧
  Z.land (b2z (z2b (Z.lor (u8 (Z.shiftl m 5)) x))) 0x1F = x.
Proof.
  intros Hm Hx. unfold u8. change (2 ^ 8) with 256.
  assert (Hmt : Z.shiftl m 5 mod 256 = Z.shiftl m 5).
  { rewrite Z.shiftl_mul_pow2 by lia. apply Z.mod_small. lia. }
  rewrite Hmt, lor_shiftl_add, b2z_z2b, Z.mod_small by lia.
  split.
  - rewrite Z.shiftr_div_pow2 by lia. rewrite Z.div_add_l by lia.
    rewrite Z.div_small by lia. lia.
  - change 0x1F with (Z.ones 5). rewrite Z.land_ones by lia.
    rewrite Z.add_comm, Z.mod_add by lia. by apply Z.mod_small.
Qed.

Lemma b2z_byte v : 0 ≤ v < 256 → b2z (z2b v) = v.
Proof. intros. rewrite b2z_z2b. by apply Z.mod_small. Qed.

Lemma dec_get_at (d : cbor_dec) : get d = (Ok d, d). Proof. done. Qed.

Lemma dec_advance_at n d : dec_advance n d = (Ok tt, dec_skip d n).
Proof. done. Qed.

Lemma dec_skip_skip d a b : dec_skip (dec_skip d a) b = dec_skip d (a + b).
Proof. unfold dec_skip; simpl. f_equal. lia. Qed.

(** Step over the bytes the decoder stands on, one [dec_byte] at a time. *)
Ltac dec_bytes H :=
  repeat match goal with
  | |- (dec_byte ?i ≫= _) _ = _ =>
      mstep (dec_at_lookup _ _ _ (Z.to_nat i) _ H eq_refl)
  | |- (dec_advance ?n ≫= _) ?d = _ => mstep (dec_advance_at n d)
  end.

Lemma be64_bytes v : 0 ≤ v < 2 ^ 64 →
  Z.lor (Z.lor (Z.lor (Z.lor (Z.lor (Z.lor (Z.lor
    (Z.shiftl (b2z (z2b (Z.shiftr v 56))) 56) (Z.shiftl (b2z (z2b (Z.shiftr v 48))) 48))
    (Z.shiftl (b2z (z2b (Z.shiftr v 40))) 40)) (Z.shiftl (b2z (z2b (Z.shiftr v 32))) 32))
    (Z.shiftl (b2z (z2b (Z.shiftr v 24))) 24)) (Z.shiftl (b2z (z2b (Z.shiftr v 16))) 16))
    (Z.shiftl (b2z (z2b (Z.shiftr v 8))) 8)) (b2z (z2b v)) = v.
Proof. intros Hv. rewrite get64_val. by apply (be_val_be64 v). Qed.

Lemma be32_bytes v : 0 ≤ v < 2 ^ 32 →
  Z.lor (Z.lor (Z.lor (Z.shiftl (b2z (z2b (Z.shiftr v 24))) 24)
    (Z.shiftl (b2z (z2b (Z.shiftr v 16))) 16)) (Z.shiftl (b2z (z2b (Z.shiftr v 8))) 8))
    (b2z (z2b v)) = v.
Proof. intros Hv. rewrite get32_val. by apply (be_val_be32 v). Qed.

Lemma be16_bytes v : 0 ≤ v < 2 ^ 16 →
  Z.lor (Z.shiftl (b2z (z2b (Z.shiftr v 8))) 8) (b2z (z2b v)) = v.
Proof.
  intros Hv. rewrite !b2z_z2b, Z.shiftr_div_pow2 by lia. change (2 ^ 8) with 256.
  pose proof (Z.mod_pos_bound v 256 ltac:(lia)). rewrite lor_shiftl_add by lia.
  rewrite (Z.mod_small (v / 256)).
  - pose proof (Z.div_mod v 256). change (2 ^ 8) with 256. lia.
  - split; [apply Z.div_pos; lia|apply Z.div_lt_upper_bound; lia].
Qed.

(** The initial byte is split into major type and additional info. *)
Lemma dec_head_first d m x l suf : 0 ≤ m < 8 → 0 ≤ x < 32 →
  dec_at d (z2b (Z.lor (u8 (Z.shiftl m 5)) x) :: l) suf →
  cbor_dec_head d = cbor_dec_arg m x (dec_skip d 1) ∧ dec_at (dec_skip d 1) l suf.
Proof.
  intros Hm Hx H. split; [|by apply (dec_at_skip d [_]) in H].
  unfold cbor_dec_head. mstep (dec_get_at d). rewrite (dec_at_first _ _ _ _ H). dec_bytes H.
  by destruct (head_byte_split m x Hm Hx) as [-> ->].
Qed.

Ltac dec_arg H n :=
  unfold cbor_dec_arg; zconst;
  mstep (dec_at_need _ _ _ n H ltac:(unfold zlen; rewrite ?length_app; simpl; lia));
  dec_bytes H; rewrite dec_skip_skip.

(** Decoding a head gives back its major type and value. *)
Lemma dec_head_at d m v l suf : 0 ≤ m < 8 → 0 ≤ v < 2 ^ 64 →
  dec_at d (head_bytes m v ++ l) suf →
  cbor_dec_head d = (Ok (m, v), dec_skip d (zlen (head_bytes m v))).
Proof.
  intros Hm Hv. unfold head_bytes. cbv zeta.
  destruct (Z.ltb_spec v 24); [|destruct (Z.leb_spec v 0xFF);
    [|destruct (Z.leb_spec v 0xFFFF); [|destruct (Z.leb_spec v 0xFFFFFFFF)]]]; cbn [app]; intros H'.
  all: match type of H' with dec_at _ (z2b (Z.lor _ ?x) :: _) _ =>
    assert (Hx : 0 ≤ x < 32) by (unfold u8; rewrite ?Z.mod_small; lia);
    destruct (dec_head_first _ _ _ _ _ Hm Hx H') as [-> Hr] end.
  - unfold u8. rewrite Z.mod_small by lia. unfold cbor_dec_arg.
    destruct (Z.ltb_spec v 24); [done|lia].
  - dec_arg Hr 1. by rewrite b2z_byte by lia.
  - unfold be16 in *. dec_arg Hr 2. by rewrite be16_bytes by lia.
  - unfold be32 in *. dec_arg Hr 4. by rewrite be32_bytes by lia.
  - unfold be64 in *. dec_arg Hr 8. by rewrite be64_bytes by lia.
Qed.

(** Moving over one item and standing on the next. *)
Lemma dec_uint_at d v l suf : 0 ≤ v < 2 ^ 64 → dec_at d (head_bytes 0 v ++ l) suf →
  cbor_dec_uint d = (Ok v, dec_skip d (zlen (head_bytes 0 v))) ∧
  dec_at (dec_skip d (zlen (head_bytes 0 v))) l suf.
Proof.
  intros Hv H. split; [|by apply dec_at_skip in H].
  unfold cbor_dec_uint. mstep (dec_head_at d 0 v l suf ltac:(lia) Hv H). done.
Qed.

Lemma dec_map_at d v l suf : 0 ≤ v < 2 ^ 64 → dec_at d (head_bytes 5 v ++ l) suf →
  cbor_dec_map d = (Ok v, dec_skip d (zlen (head_bytes 5 v))) ∧
  dec_at (dec_skip d (zlen (head_bytes 5 v))) l suf.
Proof.
  intros Hv H. split; [|by apply dec_at_skip in H].
  unfold cbor_dec_map. mstep (dec_head_at d 5 v l suf ltac:(lia) Hv H). done.
Qed.

Lemma dec_at_memcpy d s l suf : dec_at d (s ++ l) suf → dec_memcpy (zlen s) d = (Ok s, d).
Proof.
  intros (H0 & Hl & Hs & Hd & Hp). unfold dec_memcpy. mstep (dec_get_at d).
  assert (Hlen := f_equal length Hd). rewrite length_drop, !length_app in Hlen.
  destruct (Z.gtb_spec (dec_pos d + zlen s) (zlen (dec_buf d))); [unfold zlen in *; lia|].
  unfold read_at. rewrite Hd. unfold zlen. rewrite Nat2Z.id, <- app_assoc.
  by rewrite take_app_length.
Qed.

Lemma dec_text_at d s l suf cap : zlen s < cap → zlen s < 2 ^ 63 →
  dec_at d (text_bytes s ++ l) suf →
  cbor_dec_text cap d = (Ok s, dec_skip d (zlen (text_bytes s))) ∧
  dec_at (dec_skip d (zlen (text_bytes s))) l suf.
Proof.
  intros Hc Hs H. split; [|by apply dec_at_skip in H].
  unfold cbor_dec_text, text_bytes in *. rewrite <- app_assoc in H.
  mstep (dec_head_at d 3 (zlen s) _ suf ltac:(lia) ltac:(pose proof (zlen_nonneg s); lia) H).
  apply dec_at_skip in H. zconst.
  destruct (Z.geb_spec (zlen s) cap); [lia|].
  assert (Hn : 0 ≤ zlen s ≤ zlen (s ++ l)) by (unfold zlen; rewrite length_app; lia).
  mstep (dec_at_need _ _ _ (zlen s) H Hn). mstep (dec_at_memcpy _ _ _ _ H).
  set (d1 := dec_skip _ _). mstep (dec_advance_at (zlen s) d1). unfold d1.
  rewrite dec_skip_skip. unfold zlen. by rewrite length_app, Nat2Z.inj_add.
Qed.

(** ** Memory safety: from a cursor inside the buffer the decoder stays inside *)
Definition dec_wf (d : cbor_dec) : Prop :=
  0 ≤ dec_pos d ≤ dec_len d ∧ dec_len d ≤ zlen (dec_buf d) ∧ dec_len d < 2 ^ 63.

(** [r] is no undefined behaviour, the cursor moved forward inside the same buffer. *)
Definition dec_safe {A} (d : cbor_dec) (o : res A * cbor_dec) (P : A → Prop) : Prop :=
  dec_wf o.2 ∧ dec_buf o.2 = dec_buf d ∧ dec_len o.2 = dec_len d ∧ dec_pos d ≤ dec_pos o.2 ∧
  match o.1 with
  | Ok a => dec_pos d < dec_pos o.2 ∧ P a
  | Err e => e = - EINVAL
  | Panic => False
  end.

Lemma dec_byte_wf d i : dec_wf d → 0 ≤ i → dec_pos d + i < dec_len d →
  ∃ b, dec_byte i d = (Ok (b2z b), d).
Proof.
  intros (H1 & H2 & H3) Hi Hlt. unfold dec_byte, arr_get. munfold.
  rewrite decide_True by lia.
  destruct (lookup_lt_is_Some_2 (dec_buf d) (Z.to_nat (dec_pos d + i))) as [b Hb];
    [unfold zlen in *; lia|]. exists b. by rewrite Hb.
Qed.

Lemma dec_skip_wf d n : dec_wf d → 0 ≤ n → dec_pos d + n ≤ dec_len d → dec_wf (dec_skip d n).
Proof. unfold dec_wf, dec_skip; simpl. lia. Qed.

Lemma dec_need_wf d n : dec_wf d → 0 ≤ n < 2 ^ 63 →
  (dec_need n d = (Ok tt, d) ∧ dec_pos d + n ≤ dec_len d) ∨ dec_need n d = (Err (- EINVAL), d).
Proof.
  intros (H1 & H2 & H3) Hn. unfold dec_need. munfold. rewrite u64_small by lia.
  destruct (Z.gtb_spec (dec_pos d + n) (dec_len d)); [by right|left; split; [done|lia]].
Qed.

Ltac dec_run Hwf :=
  repeat match goal with
  | |- context [(dec_byte ?i ≫= _) ?d] =>
      let b := fresh "b" in let E := fresh "E" in
      destruct (dec_byte_wf d i Hwf ltac:(lia) ltac:(lia)) as [b E]; mstep E; clear E
  | |- context [(dec_advance ?n ≫= _) ?d] => mstep (dec_advance_at n d)
  end.

Lemma cbor_dec_arg_safe d m ai : dec_wf d →
  let o := cbor_dec_arg m ai d in
  dec_wf o.2 ∧ dec_buf o.2 = dec_buf d ∧ dec_len o.2 = dec_len d ∧ dec_pos d ≤ dec_pos o.2 ∧
  match o.1 with
  | Ok (m', v) => m' = m ∧ (0 ≤ ai → 0 ≤ v < 2 ^ 64)
  | Err e => e = - EINVAL
  | Panic => False
  end.
Proof.
  intros Hwf. unfold cbor_dec_arg. cbv zeta.
  destruct (Z.ltb_spec ai 24). { simpl. split_and!; try done. intros. lia. }
  repeat match goal with
  | |- context [if ai =? ?k then _ else _] => destruct (Z.eqb_spec ai k)
  end; [..|simpl; by split_and!].
  all: match goal with |- context [(dec_need ?n ≫= _) ?d0] =>
    destruct (dec_need_wf d0 n Hwf ltac:(lia)) as [[E Hle]|E];
    [mstep E|rewrite (bind_err _ _ _ _ _ E); simpl; by split_and!] end.
  all: dec_run Hwf; simpl; split_and!; try done; try lia; try (by apply dec_skip_wf); intros _.
  - pose proof (b2z_range b). lia.
  - pose proof (b2z_range b); pose proof (b2z_range b0). rewrite lor_shiftl_add by lia. lia.
  - rewrite get32_val. pose proof (be_val_bound [b; b0; b1; b2] 0 ltac:(lia)) as Hb.
    unfold zlen in Hb; simpl in Hb |- *. lia.
  - rewrite get64_val. pose proof (be_val_bound [b; b0; b1; b2; b3; b4; b5; b6] 0 ltac:(lia)) as Hb.
    unfold zlen in Hb; simpl in Hb |- *. lia.
Qed.

Lemma cbor_dec_head_safe d : dec_wf d →
  dec_safe d (cbor_dec_head d) (λ mv, 0 ≤ mv.1 < 8 ∧ 0 ≤ mv.2 < 2 ^ 64).
Proof.
  intros Hwf. unfold cbor_dec_head, dec_safe. mstep (dec_get_at d).
  destruct (Z.geb_spec (dec_pos d) (dec_len d)); [simpl; split_and!; done || lia|].
  dec_run Hwf. pose proof (dec_skip_wf d 1 Hwf ltac:(lia) ltac:(lia)) as Hwf1.
  pose proof (cbor_dec_arg_safe (dec_skip d 1) (Z.shiftr (b2z b) 5) (Z.land (b2z b) 0x1F) Hwf1)
    as (H1 & H2 & H3 & H4 & H5).
  split_and!; try done; [simpl in H4; lia|].
  destruct (cbor_dec_arg _ _ _) as [[[m v]|e|] d']; simpl in *; [|done..].
  destruct H5 as [-> H5]. split; [lia|]. pose proof (b2z_range b).
  split; [|apply H5; apply Z.land_nonneg; lia].
  rewrite Z.shiftr_div_pow2 by lia. split; [apply Z.div_pos; lia|apply Z.div_lt_upper_bound; lia].
Qed.

Lemma dec_safe_bind {A B} d (m : M cbor_dec A) (f : A → M cbor_dec B) P Q :
  dec_safe d (m d) P →
  (∀ a d', dec_wf d' → dec_buf d' = dec_buf d → dec_len d' = dec_len d → dec_pos d < dec_pos d' →
     P a → dec_safe d (f a d') Q) →
  dec_safe d ((m ≫= f) d) Q.
Proof.
  intros (H1 & H2 & H3 & H4 & H5) Hf. unfold mbind, M_bind.
  destruct (m d) as [[a|e|] d']; simpl in *; [|done..].
  destruct H5 as [H5 H6]. by apply Hf.
Qed.

Lemma cbor_dec_uint_safe d : dec_wf d → dec_safe d (cbor_dec_uint d) (λ v, 0 ≤ v < 2 ^ 64).
Proof.
  intros Hwf. eapply dec_safe_bind; [by apply cbor_dec_head_safe|].
  intros [m v] d' Hwf' Hb Hl Hp [Hm Hv]; simpl in *. unfold dec_safe.
  destruct (Z.eqb_spec m 0); simpl; split_and!; done || lia.
Qed.

Lemma cbor_dec_map_safe d : dec_wf d → dec_safe d (cbor_dec_map d) (λ v, 0 ≤ v < 2 ^ 64).
Proof.
  intros Hwf. eapply dec_safe_bind; [by apply cbor_dec_head_safe|].
  intros [m v] d' Hwf' Hb Hl Hp [Hm Hv]; simpl in *. unfold dec_safe.
  destruct (Z.eqb_spec m 5); simpl; split_and!; done || lia.
Qed.

(** The text fits in the destination with its terminating NUL. *)
Lemma cbor_dec_text_safe d cap : dec_wf d → cap < 2 ^ 63 →
  dec_safe d (cbor_dec_text cap d) (λ s, zlen s < cap).
Proof.
  intros Hwf Hcap. eapply dec_safe_bind; [by apply cbor_dec_head_safe|].
  intros [m v] d' Hwf' Hb Hl Hp [Hm Hv]; simpl in *. unfold dec_safe.
  destruct (Z.eqb_spec m 3); simpl; [|split_and!; done || lia].
  destruct (Z.geb_spec v cap); [simpl; split_and!; done || lia|].
  destruct (dec_need_wf d' v Hwf' ltac:(lia)) as [[E Hle]|E];
    [mstep E|rewrite (bind_err _ _ _ _ _ E); simpl; split_and!; done || lia].
  assert (E2 : dec_memcpy v d' = (Ok (read_at (dec_buf d') (dec_pos d') v), d')).
  { unfold dec_memcpy. mstep (dec_get_at d').
    destruct (Z.gtb_spec (dec_pos d' + v) (zlen (dec_buf d'))); [|done]. destruct Hwf' as (?&?&?). lia. }
  mstep E2. mstep (dec_advance_at v d'). simpl.
  pose proof (dec_skip_wf d' v Hwf' ltac:(lia) ltac:(lia)).
  destruct Hwf' as (?&?&?).
  split_and!; try done; try lia. rewrite zlen_read_at by lia. lia.
Qed.
