(* ===== verification/Qcow2State.v ===== *)
(** * State of the qcow2-lz4 backing store
      ([src/src/lbd_qcow2.h], fields of [struct lbd_device] in [src/src/lbd.h])

    One record per C struct, one updater per field the code assigns, and the
    calls into the kernel interface lifted to the state monad.  A pointer to a
    cache entry is its index in the cache array.  Memory that is only scratch
    ([comp_buf], [read_buf], the temporary [disk_l2]) has no field; its
    allocation does, through [kalloc]. *)
From S2P Require Import Prelude Kernel Format.

Definition LBD_QCOW2_L2_CACHE_SIZE : nat := 16.
Definition LBD_QCOW2_CL_CACHE_SIZE : nat := 16.

(** ** Cache entries *)

(** [table] holds the [l2_entries] host-endian entries; the unused trailing
    slot of the allocated cluster is never read. *)
Record lbd_l2_cache_entry : Type := L2E {
  l1_index : Z;
  l2_valid : bool;
  l2_dirty : bool;
  l2_lru : Z;
  table : list Z
}.

Record lbd_cl_cache_entry : Type := CLE {
  cluster_index : Z;
  cl_valid : bool;
  cl_dirty : bool;
  cl_lru : Z;
  data : bytes
}.

(** ** The read-only base layer *)
Record lbd_qcow2_base : Type := Base {
  b_file : fh;
  b_is_qcow2 : bool;
  b_size : Z;
  b_cluster_bits : Z;
  b_cluster_size : Z;
  b_l2_entries : Z;
  b_l1_table : list Z;
  b_l1_size : Z;
  b_l1_offset : Z;
  b_l2_cache : list lbd_l2_cache_entry;
  b_lru_tick : Z
}.

(** ** Per-device qcow2 state *)
Record lbd_qcow2 : Type := Qcow2 {
  cluster_bits : Z;
  cluster_size : Z;
  l2_entries : Z;
  virtual_size : Z;
  l1_table : list Z;
  l1_size : Z;
  l1_offset : Z;
  alloc_offset : Z;
  free_list_head : Z;
  l2_cache : list lbd_l2_cache_entry;
  cl_cache : list lbd_cl_cache_entry;
  lru_tick : Z
}.

(** ** Allocation and read statistics ([atomic64_t] of [struct lbd_device]) *)
Record qstats : Type := Stats {
  stat_reads : Z;
  stat_read_bytes : Z;
  stat_alloc_reused : Z;
  stat_alloc_new : Z;
  stat_alloc_freed : Z;
  stat_compressed : Z;
  stat_uncompressed : Z
}.

(** What userspace answers to a block miss ([enum lbd_miss_action]); before it
    answers it may have swapped the base layer. *)
Inductive lbd_miss_action : Type := LBD_MISS_CONTINUE | LBD_MISS_RETRY.
Record miss_reply : Type := Reply { reply_swaps : list bytes; reply_action : lbd_miss_action }.

(** ** The device as the qcow2 layer sees it

    [miss_handler] is whether a handler is registered (always [false] when the
    module is built without [CONFIG_LBD_MISS_HANDLER]); [miss_replies] is the
    sequence of answers userspace will give. *)
Record qdev (K : Type) : Type := Qdev {
  kern : K;
  qcow2 : lbd_qcow2;
  base : option lbd_qcow2_base;
  base_path : bytes;
  miss_handler : bool;
  miss_replies : list miss_reply;
  stats : qstats
}.
Arguments Qdev {K}.
Arguments kern {K}.
Arguments qcow2 {K}.
Arguments base {K}.
Arguments base_path {K}.
Arguments miss_handler {K}.
Arguments miss_replies {K}.
Arguments stats {K}.

(** ** Field updates *)
Definition set_l1_table (t : list Z) (q : lbd_qcow2) : lbd_qcow2 :=
  Qcow2 (cluster_bits q) (cluster_size q) (l2_entries q) (virtual_size q) t (l1_size q)
    (l1_offset q) (alloc_offset q) (free_list_head q) (l2_cache q) (cl_cache q) (lru_tick q).
Definition set_alloc_offset (v : Z) (q : lbd_qcow2) : lbd_qcow2 :=
  Qcow2 (cluster_bits q) (cluster_size q) (l2_entries q) (virtual_size q) (l1_table q) (l1_size q)
    (l1_offset q) v (free_list_head q) (l2_cache q) (cl_cache q) (lru_tick q).
Definition set_free_list_head (v : Z) (q : lbd_qcow2) : lbd_qcow2 :=
  Qcow2 (cluster_bits q) (cluster_size q) (l2_entries q) (virtual_size q) (l1_table q) (l1_size q)
    (l1_offset q) (alloc_offset q) v (l2_cache q) (cl_cache q) (lru_tick q).
Definition set_l2_cache (c : list lbd_l2_cache_entry) (q : lbd_qcow2) : lbd_qcow2 :=
  Qcow2 (cluster_bits q) (cluster_size q) (l2_entries q) (virtual_size q) (l1_table q) (l1_size q)
    (l1_offset q) (alloc_offset q) (free_list_head q) c (cl_cache q) (lru_tick q).
Definition set_cl_cache (c : list lbd_cl_cache_entry) (q : lbd_qcow2) : lbd_qcow2 :=
  Qcow2 (cluster_bits q) (cluster_size q) (l2_entries q) (virtual_size q) (l1_table q) (l1_size q)
    (l1_offset q) (alloc_offset q) (free_list_head q) (l2_cache q) c (lru_tick q).
Definition set_lru_tick (v : Z) (q : lbd_qcow2) : lbd_qcow2 :=
  Qcow2 (cluster_bits q) (cluster_size q) (l2_entries q) (virtual_size q) (l1_table q) (l1_size q)
    (l1_offset q) (alloc_offset q) (free_list_head q) (l2_cache q) (cl_cache q) v.
Definition set_l1 (t : list Z) (size off : Z) (q : lbd_qcow2) : lbd_qcow2 :=
  Qcow2 (cluster_bits q) (cluster_size q) (l2_entries q) (virtual_size q) t size
    off (alloc_offset q) (free_list_head q) (l2_cache q) (cl_cache q) (lru_tick q).

Definition l2e_set_valid (v : bool) (e : lbd_l2_cache_entry) : lbd_l2_cache_entry :=
  L2E (l1_index e) v (l2_dirty e) (l2_lru e) (table e).
Definition l2e_set_dirty (v : bool) (e : lbd_l2_cache_entry) : lbd_l2_cache_entry :=
  L2E (l1_index e) (l2_valid e) v (l2_lru e) (table e).
Definition l2e_set_lru (v : Z) (e : lbd_l2_cache_entry) : lbd_l2_cache_entry :=
  L2E (l1_index e) (l2_valid e) (l2_dirty e) v (table e).
Definition l2e_set_table (t : list Z) (e : lbd_l2_cache_entry) : lbd_l2_cache_entry :=
  L2E (l1_index e) (l2_valid e) (l2_dirty e) (l2_lru e) t.
(** [best->l1_index = i; best->dirty = false; best->lru = tick]. *)
Definition l2e_claim (i tick : Z) (e : lbd_l2_cache_entry) : lbd_l2_cache_entry :=
  L2E i (l2_valid e) false tick (table e).

Definition cle_set_valid (v : bool) (e : lbd_cl_cache_entry) : lbd_cl_cache_entry :=
  CLE (cluster_index e) v (cl_dirty e) (cl_lru e) (data e).
Definition cle_set_lru (v : Z) (e : lbd_cl_cache_entry) : lbd_cl_cache_entry :=
  CLE (cluster_index e) (cl_valid e) (cl_dirty e) v (data e).
Definition cle_set_data (d : bytes) (e : lbd_cl_cache_entry) : lbd_cl_cache_entry :=
  CLE (cluster_index e) (cl_valid e) (cl_dirty e) (cl_lru e) d.
(** [ce->cluster_index = i; ce->lru = tick; ce->dirty = false]. *)
Definition cle_claim (i tick : Z) (e : lbd_cl_cache_entry) : lbd_cl_cache_entry :=
  CLE i (cl_valid e) false tick (data e).

Definition b_set_cache (c : list lbd_l2_cache_entry) (b : lbd_qcow2_base) : lbd_qcow2_base :=
  Base (b_file b) (b_is_qcow2 b) (b_size b) (b_cluster_bits b) (b_cluster_size b) (b_l2_entries b)
    (b_l1_table b) (b_l1_size b) (b_l1_offset b) c (b_lru_tick b).
Definition b_set_tick (v : Z) (b : lbd_qcow2_base) : lbd_qcow2_base :=
  Base (b_file b) (b_is_qcow2 b) (b_size b) (b_cluster_bits b) (b_cluster_size b) (b_l2_entries b)
    (b_l1_table b) (b_l1_size b) (b_l1_offset b) (b_l2_cache b) v.

(** [atomic64_inc] on each counter. *)
Definition inc_reused (s : qstats) : qstats :=
  Stats (stat_reads s) (stat_read_bytes s) (s64 (stat_alloc_reused s + 1)) (stat_alloc_new s)
    (stat_alloc_freed s) (stat_compressed s) (stat_uncompressed s).
Definition inc_new (s : qstats) : qstats :=
  Stats (stat_reads s) (stat_read_bytes s) (stat_alloc_reused s) (s64 (stat_alloc_new s + 1))
    (stat_alloc_freed s) (stat_compressed s) (stat_uncompressed s).
Definition inc_freed (s : qstats) : qstats :=
  Stats (stat_reads s) (stat_read_bytes s) (stat_alloc_reused s) (stat_alloc_new s)
    (s64 (stat_alloc_freed s + 1)) (stat_compressed s) (stat_uncompressed s).
Definition inc_compressed (s : qstats) : qstats :=
  Stats (stat_reads s) (stat_read_bytes s) (stat_alloc_reused s) (stat_alloc_new s)
    (stat_alloc_freed s) (s64 (stat_compressed s + 1)) (stat_uncompressed s).
Definition inc_uncompressed (s : qstats) : qstats :=
  Stats (stat_reads s) (stat_read_bytes s) (stat_alloc_reused s) (stat_alloc_new s)
    (stat_alloc_freed s) (stat_compressed s) (s64 (stat_uncompressed s + 1)).
Definition add_read (n : Z) (s : qstats) : qstats :=
  Stats (s64 (stat_reads s + 1)) (s64 (stat_read_bytes s + n)) (stat_alloc_reused s)
    (stat_alloc_new s) (stat_alloc_freed s) (stat_compressed s) (stat_uncompressed s).

Section Lift.
Context {K : Type}.

Definition set_kern (k : K) (d : qdev K) : qdev K :=
  Qdev k (qcow2 d) (base d) (base_path d) (miss_handler d) (miss_replies d) (stats d).
Definition set_q (q : lbd_qcow2) (d : qdev K) : qdev K :=
  Qdev (kern d) q (base d) (base_path d) (miss_handler d) (miss_replies d) (stats d).
Definition set_base (b : option lbd_qcow2_base) (d : qdev K) : qdev K :=
  Qdev (kern d) (qcow2 d) b (base_path d) (miss_handler d) (miss_replies d) (stats d).
Definition set_base_path (p : bytes) (d : qdev K) : qdev K :=
  Qdev (kern d) (qcow2 d) (base d) p (miss_handler d) (miss_replies d) (stats d).
Definition set_replies (r : list miss_reply) (d : qdev K) : qdev K :=
  Qdev (kern d) (qcow2 d) (base d) (base_path d) (miss_handler d) r (stats d).
Definition set_miss_handler (b : bool) (d : qdev K) : qdev K :=
  Qdev (kern d) (qcow2 d) (base d) (base_path d) b (miss_replies d) (stats d).
Definition set_stats (s : qstats) (d : qdev K) : qdev K :=
  Qdev (kern d) (qcow2 d) (base d) (base_path d) (miss_handler d) (miss_replies d) s.

(** Update the [struct lbd_qcow2], the counters. *)
Definition upd_q (f : lbd_qcow2 → lbd_qcow2) : M (qdev K) unit := modify (λ d, set_q (f (qcow2 d)) d).
Definition upd_stats (f : qstats → qstats) : M (qdev K) unit :=
  modify (λ d, set_stats (f (stats d)) d).

(** [q->l2_cache[k]], [q->cl_cache[k]] through a pointer [k]. *)
Definition get_l2 (k : nat) : M (qdev K) lbd_l2_cache_entry :=
  d ← get; match l2_cache (qcow2 d) !! k with Some e => mret e | None => panic end.
Definition upd_l2 (k : nat) (f : lbd_l2_cache_entry → lbd_l2_cache_entry) : M (qdev K) unit :=
  upd_q (λ q, set_l2_cache (alter f k (l2_cache q)) q).
Definition get_cl (k : nat) : M (qdev K) lbd_cl_cache_entry :=
  d ← get; match cl_cache (qcow2 d) !! k with Some e => mret e | None => panic end.
Definition upd_cl (k : nat) (f : lbd_cl_cache_entry → lbd_cl_cache_entry) : M (qdev K) unit :=
  upd_q (λ q, set_cl_cache (alter f k (cl_cache q)) q).

Context `{KernelOps K}.

Definition kread (h : fh) (pos len : Z) : M (qdev K) (Z * bytes) := λ d,
  let '(r, b, k) := kernel_read (kern d) h pos len in (Ok (r, b), set_kern k d).
Definition kwrite (h : fh) (pos : Z) (b : bytes) : M (qdev K) Z := λ d,
  let '(r, k) := kernel_write (kern d) h pos b in (Ok r, set_kern k d).
Definition kalloc (n : Z) : M (qdev K) bool := λ d,
  let '(b, k) := kvmalloc (kern d) n in (Ok b, set_kern k d).

End Lift.

(** [return ret < 0 ? ret : -EIO]. *)
Definition io_err (ret : Z) : Z := if ret <? 0 then ret else - EIO.

(** The kernel's [ALIGN(x, 4096)] on a [size_t]. *)
Definition ALIGN4096 (x : Z) : Z := u64 (Z.land (x + 4095) (Z.lnot 4095)).
