(* ===== verification/Qcow2Alloc.v ===== *)
(** * Space allocation in the image: the append cursor and the on-disk free
      list ([src/src/lbd_qcow2.c], helpers) *)
From S2P Require Import Prelude Kernel Format Qcow2State.

Section Alloc.
Context {K : Type} `{KernelOps K}.
Local Abbreviation MQ := (M (qdev K)).

(** [q->lru_tick++]. *)
Definition lbd_qcow2_lru_tick : MQ Z :=
  d ← get;
  upd_q (set_lru_tick (u64 (lru_tick (qcow2 d) + 1)));;
  mret (lru_tick (qcow2 d)).

(** Write header's alloc_offset field to disk. *)
Definition lbd_qcow2_write_alloc_offset : MQ unit :=
  d ← get;
  ret ← kwrite Backing LBD_QCOW2_OFF_ALLOC_OFFSET (be64 (alloc_offset (qcow2 d)));
  if negb (ret =? 8) then throw (io_err ret) else mret tt.

(** Write header's free_list_head field to disk. *)
Definition lbd_qcow2_write_free_list_head : MQ unit :=
  d ← get;
  ret ← kwrite Backing LBD_QCOW2_OFF_FREE_LIST (be64 (free_list_head (qcow2 d)));
  if negb (ret =? 8) then throw (io_err ret) else mret tt.

(** On-disk allocation size of an existing L2 entry, 0 on error. *)
Definition lbd_qcow2_read_old_alloc_size (l2_entry : Z) : MQ Z :=
  d ← get;
  if l2_entry =? 0 then mret 0
  else if negb (Z.land l2_entry LBD_QCOW2_L2_COMPRESSED =? 0) then
    let phys := Z.land l2_entry LBD_QCOW2_L2_OFFSET_MASK in
    '(ret, comp_size_be) ← kread Backing phys 4;
    if negb (ret =? 4) then mret 0
    else let comp_size := _qcow2_get32 comp_size_be 0 in
         mret (ALIGN4096 (4 + comp_size))
  else mret (cluster_size (qcow2 d)).

(** The 16 bytes of a free-list entry. *)
Definition tombstone_bytes (extent_size next : Z) : bytes :=
  be32 LBD_QCOW2_FREE_TOMBSTONE ++ be32 (u32 extent_size) ++ be64 next.

(** Write a tombstone at a physical offset, prepending to the free list. *)
Definition lbd_qcow2_free_extent (phys_offset extent_size : Z) : MQ unit :=
  d ← get;
  let buf := tombstone_bytes extent_size (free_list_head (qcow2 d)) in
  ret ← kwrite Backing phys_offset buf;
  if negb (ret =? 16) then throw (io_err ret)
  else
    upd_q (set_free_list_head phys_offset);;
    upd_stats inc_freed;;
    lbd_qcow2_write_free_list_head.

Definition LBD_QCOW2_FREE_SCAN_LIMIT : nat := 8.
Definition LBD_QCOW2_FREE_ENTRY_MIN : Z := 16.

(** [append:] take the space at the append cursor. *)
Definition alloc_append (needed : Z) : MQ Z :=
  d ← get;
  let out_phys := alloc_offset (qcow2 d) in
  upd_q (set_alloc_offset (s64 (out_phys + needed)));;
  upd_stats inc_new;;
  mret out_phys.

(** The entry at [cur] is large enough: after it was unlinked, give back the
    remainder and hand out its start. *)
Definition alloc_split (needed cur remainder : Z) : MQ Z :=
  (if remainder >=? LBD_QCOW2_FREE_ENTRY_MIN then
     err ← try (lbd_qcow2_free_extent (cur + needed) remainder);
     match err with
     | Ok _ => mret tt
     | _ => try lbd_qcow2_write_free_list_head;; mret tt
     end
   else try lbd_qcow2_write_free_list_head;; mret tt);;
  upd_stats inc_reused;;
  mret cur.

(** The scan of the free list; [fuel] counts the entries still allowed. *)
Fixpoint alloc_scan (fuel : nat) (needed prev_phys cur : Z) (is_first : bool) : MQ Z :=
  match fuel with
  | O => alloc_append needed
  | S fuel' =>
      if cur =? 0 then alloc_append needed else
      '(ret, buf) ← kread Backing cur 16;
      if negb (ret =? 16) then alloc_append needed else
      if negb (_qcow2_get32 buf 0 =? LBD_QCOW2_FREE_TOMBSTONE) then alloc_append needed else
      let extent_size := _qcow2_get32 buf 4 in
      let next_free := _qcow2_get64 buf 8 in
      if extent_size >=? needed then
        let remainder := extent_size - needed in
        if is_first then
          upd_q (set_free_list_head (s64 next_free));;
          alloc_split needed cur remainder
        else
          ret ← kwrite Backing (prev_phys + 8) (be64 next_free);
          if negb (ret =? 8) then alloc_append needed
          else alloc_split needed cur remainder
      else alloc_scan fuel' needed cur (s64 next_free) false
  end.

(** Allocate [needed] bytes from the free list or by appending. *)
Definition lbd_qcow2_alloc_space (needed : Z) : MQ Z :=
  d ← get;
  alloc_scan LBD_QCOW2_FREE_SCAN_LIMIT needed 0 (free_list_head (qcow2 d)) true.

End Alloc.
