(* ===== verification/Qcow2Cache.v ===== *)
(** * L2 cache, cluster cache and base layer reads ([src/src/lbd_qcow2.c]) *)
From S2P Require Import Prelude Kernel Format Qcow2State Qcow2Alloc.

(** ** The cache scans shared by the three caches *)

(** First entry satisfying [p]: the hit loops. *)
Fixpoint find_idx {A} (p : A → bool) (l : list A) : option nat :=
  match l with
  | [] => None
  | x :: l' => if p x then Some O else S <$> find_idx p l'
  end.

(** The victim loop: the first invalid entry, else the one with the smallest
    [lru] below [oldest]; [None] is the NULL the code would dereference. *)
Fixpoint victim_scan {A} (valid : A → bool) (lru : A → Z) (l : list A) (i : nat)
    (best : option nat) (oldest : Z) : option nat :=
  match l with
  | [] => best
  | e :: l' =>
      if negb (valid e) then Some i
      else if lru e <? oldest then victim_scan valid lru l' (S i) (Some i) (lru e)
      else victim_scan valid lru l' (S i) best oldest
  end.

Section Cache.
Context {K : Type} `{KernelOps K} `{LZ4Ops} `{CrcOps}.
Local Abbreviation MQ := (M (qdev K)).

(** ** L2 tables on disk *)

(** The cluster written for a table: big-endian entries, zero fill, and the
    CRC32C of everything before it in the last four bytes. *)
Definition l2_disk (cs : Z) (tbl : list Z) : bytes :=
  let raw := flat_map be64 tbl ++ zeros (cs - 8 * zlen tbl) in
  write_at raw (cs - 4) (be32 (crc32c_trailer (read_at raw 0 (cs - 4)))).

(** The stored checksum matches the computed one. *)
Definition l2_crc_ok (cs : Z) (raw : bytes) : bool :=
  _qcow2_get32 raw (cs - 4) =? crc32c_trailer (read_at raw 0 (cs - 4)).

(** Host-endian entries of a cluster read from disk. *)
Definition be64_array (n : Z) (raw : bytes) : list Z :=
  (λ j, _qcow2_get64 raw (8 * Z.of_nat j)) <$> seq 0 (Z.to_nat n).

(** ** L2 cache *)

(** Flush a dirty entry before evicting; a failed write is only a warning. *)
Definition l2_evict (k : nat) : MQ unit :=
  best ← get_l2 k;
  if l2_valid best && l2_dirty best then
    d ← get;
    l2_phys ← arr_get (l1_table (qcow2 d)) (l1_index best);
    (if negb (l2_phys =? 0) then
       ok ← kalloc (cluster_size (qcow2 d));
       if (ok : bool) then
         ret ← kwrite Backing (s64 l2_phys) (l2_disk (cluster_size (qcow2 d)) (table best));
         mret tt
       else mret tt
     else mret tt);;
    upd_l2 k (l2e_set_dirty false)
  else mret tt.

(** Mark the claimed entry invalid and return NULL. *)
Definition l2_fail (k : nat) : MQ (option nat) := upd_l2 k (l2e_set_valid false);; mret None.

Definition l2_done (k : nat) (t : list Z) : MQ (option nat) :=
  upd_l2 k (l2e_set_table t);; upd_l2 k (l2e_set_valid true);; mret (Some k).

(** Load L2 table [l1_index] from disk into entry [k]. *)
Definition l2_load (k : nat) (l1_index : Z) : MQ (option nat) :=
  tick ← lbd_qcow2_lru_tick;
  upd_l2 k (l2e_claim l1_index tick);;
  d ← get;
  let q := qcow2 d in
  l2_phys ← (if l1_index <? l1_size q then arr_get (l1_table q) l1_index else mret 0);
  if negb (l2_phys =? 0) then
    ok ← kalloc (cluster_size q);
    if negb ok then l2_fail k else
    '(ret, raw) ← kread Backing (s64 l2_phys) (cluster_size q);
    if negb (ret =? cluster_size q) then l2_fail k else
    if negb (l2_crc_ok (cluster_size q) raw) then l2_fail k else
    l2_done k (be64_array (l2_entries q) raw)
  else
    l2_done k (replicate (Z.to_nat (l2_entries q)) 0).

(** Find or load an L2 table, return a pointer to its cache entry or NULL. *)
Definition lbd_qcow2_l2_get (idx : Z) : MQ (option nat) :=
  d ← get;
  match find_idx (λ e, l2_valid e && (l1_index e =? idx)) (l2_cache (qcow2 d)) with
  | Some k =>
      tick ← lbd_qcow2_lru_tick; upd_l2 k (l2e_set_lru tick);; mret (Some k)
  | None =>
      match victim_scan l2_valid l2_lru (l2_cache (qcow2 d)) 0 None U64_MAX with
      | None => panic
      | Some k => l2_evict k;; l2_load k idx
      end
  end.

(** Flush a specific dirty L2 entry to disk. *)
Definition lbd_qcow2_l2_flush (k : nat) : MQ unit :=
  e ← get_l2 k;
  if negb (l2_valid e) || negb (l2_dirty e) then mret tt else
  d ← get;
  let q := qcow2 d in
  l2_phys ← arr_get (l1_table q) (l1_index e);
  if l2_phys =? 0 then throw (- EIO) else
  ok ← kalloc (cluster_size q);
  if negb ok then throw (- ENOMEM) else
  ret ← kwrite Backing (s64 l2_phys) (l2_disk (cluster_size q) (table e));
  if negb (ret =? cluster_size q) then throw (io_err ret) else
  upd_l2 k (l2e_set_dirty false).

(** Allocate a new L2 table on disk if needed. *)
Definition lbd_qcow2_l2_alloc (idx : Z) : MQ unit :=
  d ← get;
  let q := qcow2 d in
  if idx >=? l1_size q then throw (- ENOSPC) else
  cur ← arr_get (l1_table q) idx;
  if negb (cur =? 0) then mret tt else
  let phys := alloc_offset q in
  upd_q (λ q, set_l1_table (<[Z.to_nat idx := u64 phys]> (l1_table q)) q);;
  upd_q (set_alloc_offset (s64 (phys + cluster_size q)));;
  ok ← kalloc (cluster_size q);
  if negb ok then throw (- ENOMEM) else
  ret ← kwrite Backing (s64 (u64 phys)) (l2_disk (cluster_size q) (replicate (Z.to_nat (l2_entries q)) 0));
  if negb (ret =? cluster_size q) then throw (io_err ret) else
  ret ← kwrite Backing (l1_offset q + idx * 8) (be64 (u64 phys));
  if negb (ret =? 8) then throw (io_err ret) else mret tt.

(** ** Cluster cache *)

Definition lbd_qcow2_cl_find (ci : Z) : MQ (option nat) :=
  d ← get;
  match find_idx (λ e, cl_valid e && (cluster_index e =? ci)) (cl_cache (qcow2 d)) with
  | Some k => tick ← lbd_qcow2_lru_tick; upd_cl k (cle_set_lru tick);; mret (Some k)
  | None => mret None
  end.

Definition lbd_qcow2_cl_invalidate (ci : Z) : MQ unit :=
  d ← get;
  match find_idx (λ e, cl_valid e && (cluster_index e =? ci)) (cl_cache (qcow2 d)) with
  | Some k => upd_cl k (cle_set_valid false)
  | None => mret tt
  end.

Definition lbd_qcow2_cl_alloc_entry : MQ nat :=
  d ← get;
  match victim_scan cl_valid cl_lru (cl_cache (qcow2 d)) 0 None U64_MAX with
  | None => panic
  | Some k => upd_cl k (cle_set_valid false);; mret k
  end.

(** Claim a free entry for cluster [ci]. *)
Definition cl_claim (ci : Z) : MQ nat :=
  k ← lbd_qcow2_cl_alloc_entry;
  tick ← lbd_qcow2_lru_tick;
  upd_cl k (cle_claim ci tick);;
  mret k.

Definition cl_fill (k : nat) (b : bytes) : MQ unit :=
  upd_cl k (cle_set_data b);; upd_cl k (cle_set_valid true).

(** A zeroed cache entry for the write path when the cluster is unallocated. *)
Definition lbd_qcow2_cl_get_zero (ci : Z) : MQ nat :=
  ce ← lbd_qcow2_cl_find ci;
  match ce with
  | Some k => mret k
  | None =>
      d ← get;
      k ← cl_claim ci;
      cl_fill k (zeros (cluster_size (qcow2 d)));; mret k
  end.

(** ** Base layer *)

Definition get_base : MQ lbd_qcow2_base :=
  d ← get; match base d with Some b => mret b | None => panic end.
Definition upd_base (f : lbd_qcow2_base → lbd_qcow2_base) : MQ unit :=
  modify (λ d, set_base (f <$> base d) d).
Definition upd_bl2 (k : nat) (f : lbd_l2_cache_entry → lbd_l2_cache_entry) : MQ unit :=
  upd_base (λ b, b_set_cache (alter f k (b_l2_cache b)) b).

Definition lbd_qcow2_base_lru_tick : MQ Z :=
  b ← get_base;
  upd_base (b_set_tick (u64 (b_lru_tick b + 1)));;
  mret (b_lru_tick b).

Definition bl2_fail (k : nat) : MQ (option nat) := upd_bl2 k (l2e_set_valid false);; mret None.
Definition bl2_done (k : nat) (t : list Z) : MQ (option nat) :=
  upd_bl2 k (l2e_set_table t);; upd_bl2 k (l2e_set_valid true);; mret (Some k).

Definition base_l2_load (k : nat) (l1_index : Z) : MQ (option nat) :=
  tick ← lbd_qcow2_base_lru_tick;
  upd_bl2 k (l2e_claim l1_index tick);;
  b ← get_base;
  l2_phys ← (if l1_index <? b_l1_size b then arr_get (b_l1_table b) l1_index else mret 0);
  if negb (l2_phys =? 0) then
    ok ← kalloc (b_cluster_size b);
    if negb ok then bl2_fail k else
    '(ret, raw) ← kread (b_file b) (s64 l2_phys) (b_cluster_size b);
    if negb (ret =? b_cluster_size b) then bl2_fail k else
    if negb (l2_crc_ok (b_cluster_size b) raw) then bl2_fail k else
    bl2_done k (be64_array (b_l2_entries b) raw)
  else
    bl2_done k (replicate (Z.to_nat (b_l2_entries b)) 0).

(** Find or load an L2 table of the base layer into its cache. *)
Definition lbd_qcow2_base_l2_get (idx : Z) : MQ (option nat) :=
  b ← get_base;
  match find_idx (λ e, l2_valid e && (l1_index e =? idx)) (b_l2_cache b) with
  | Some k =>
      tick ← lbd_qcow2_base_lru_tick; upd_bl2 k (l2e_set_lru tick);; mret (Some k)
  | None =>
      match victim_scan l2_valid l2_lru (b_l2_cache b) 0 None U64_MAX with
      | None => panic
      | Some k => base_l2_load k idx
      end
  end.

(** Outcome of reading a cluster from a layer: 0 with the data, 1, or an errno. *)
Inductive base_rd : Type :=
| BData (b : bytes)
| BUnalloc
| BError (e : Z).

(** Read the cluster an L2 entry of the file [h] points to. *)
Definition read_entry (h : fh) (cs l2_entry : Z) : MQ base_rd :=
  let phys_offset := Z.land l2_entry LBD_QCOW2_L2_OFFSET_MASK in
  if negb (Z.land l2_entry LBD_QCOW2_L2_COMPRESSED =? 0) then
    '(ret, comp_size_be) ← kread h phys_offset 4;
    if negb (ret =? 4) then mret (BError (io_err ret)) else
    let comp_size := _qcow2_get32 comp_size_be 0 in
    if comp_size >? u32 (LZ4_compressBound cs) then mret (BError (- EIO)) else
    '(ret, comp) ← kread h (phys_offset + 4) comp_size;
    if negb (ret =? comp_size) then mret (BError (io_err ret)) else
    match LZ4_decompress_safe comp cs with
    | Some b => if zlen b =? cs then mret (BData b) else mret (BError (- EIO))
    | None => mret (BError (- EIO))
    end
  else
    '(ret, b) ← kread h phys_offset cs;
    if negb (ret =? cs) then mret (BError (io_err ret)) else mret (BData b).

(** Read a full cluster from the base layer. *)
Definition lbd_qcow2_base_read_cluster (ci : Z) : MQ base_rd :=
  b ← get_base;
  d ← get;
  let cs := cluster_size (qcow2 d) in
  if negb (b_is_qcow2 b) then
    let pos := s64 (u64 (ci * cs)) in
    if u64 (pos + cs) >? b_size b then mret BUnalloc else
    '(ret, r) ← kread (b_file b) pos cs;
    if negb (ret =? cs) then mret (BError (io_err ret)) else mret (BData r)
  else
    let l1_idx := u32 (ci / b_l2_entries b) in
    let l2_idx := u32 (ci mod b_l2_entries b) in
    l2e ← lbd_qcow2_base_l2_get l1_idx;
    match l2e with
    | None => mret (BError (- EIO))
    | Some k =>
        b ← get_base;
        e ← match b_l2_cache b !! k with Some e => mret e | None => panic end;
        l2_entry ← arr_get (table e) l2_idx;
        if l2_entry =? 0 then mret BUnalloc else read_entry (b_file b) cs l2_entry
    end.

(** ** Loading a cluster *)

(** The pointer [lbd_qcow2_cl_load] returns: NULL, [ERR_PTR(-ENODATA)], an entry. *)
Inductive cl_ptr : Type :=
| CNull
| CMiss
| CAt (k : nat).

(** Load a cluster into the cache from disk via L2 lookup. *)
Definition lbd_qcow2_cl_load (ci : Z) : MQ cl_ptr :=
  ce ← lbd_qcow2_cl_find ci;
  match ce with
  | Some k => mret (CAt k)
  | None =>
      d ← get;
      let q := qcow2 d in
      let cs := cluster_size q in
      let l1_idx := u32 (ci / l2_entries q) in
      let l2_idx := u32 (ci mod l2_entries q) in
      l2e ← lbd_qcow2_l2_get l1_idx;
      match l2e with
      | None => mret CNull
      | Some k2 =>
          e ← get_l2 k2;
          l2_entry ← arr_get (table e) l2_idx;
          k ← cl_claim ci;
          if l2_entry =? 0 then
            d ← get;
            match base d with
            | Some _ =>
                r ← lbd_qcow2_base_read_cluster ci;
                match r with
                | BUnalloc =>
                    if miss_handler d then mret CMiss
                    else cl_fill k (zeros cs);; mret (CAt k)
                | BError _ => mret CNull
                | BData b => cl_fill k b;; mret (CAt k)
                end
            | None =>
                if miss_handler d then mret CMiss
                else cl_fill k (zeros cs);; mret (CAt k)
            end
          else
            r ← read_entry Backing cs l2_entry;
            match r with
            | BData b => cl_fill k b;; mret (CAt k)
            | _ => mret CNull
            end
      end
  end.

(** Flush all dirty L2 cache entries to disk; errors are ignored. *)
Definition lbd_qcow2_flush_all_l2 : MQ unit :=
  foldr (λ k rest,
    e ← get_l2 k;
    (if l2_valid e && l2_dirty e then try (lbd_qcow2_l2_flush k);; mret tt else mret tt);;
    rest) (mret tt) (seq 0 LBD_QCOW2_L2_CACHE_SIZE).

End Cache.
