(* ===== verification/Qcow2Io.v ===== *)
(** * Init, read, write, discard and base swapping of the qcow2-lz4 store
      ([src/src/lbd_qcow2.c]) *)
From S2P Require Import Prelude Kernel Format Qcow2State Qcow2Alloc Qcow2Cache.

Definition SECTOR_SHIFT : Z := 9.

(** A block request: start sector and the segments of its bios.  For a read
    only the lengths of the segments matter. *)
Record request : Type := Rq { rq_pos : Z; rq_segs : list bytes }.
Definition blk_rq_bytes (rq : request) : Z := zlen (concat (rq_segs rq)).

Section Io.
Context {K : Type} `{KernelOps K} `{LZ4Ops} `{CrcOps}.
Local Abbreviation MQ := (M (qdev K)).

(** ** Init and destroy *)

Definition alloc_or (n e : Z) : MQ unit :=
  ok ← kalloc n; if (ok : bool) then mret tt else throw e.

(** [for (i = 0; i < n; i++) kvmalloc(...)]. *)
Fixpoint alloc_many (n : nat) (size e : Z) : MQ unit :=
  match n with O => mret tt | S n' => alloc_or size e;; alloc_many n' size e end.

Definition l2_blank : list lbd_l2_cache_entry :=
  replicate LBD_QCOW2_L2_CACHE_SIZE (L2E 0 false false 0 []).
Definition cl_blank (cs : Z) : list lbd_cl_cache_entry :=
  replicate LBD_QCOW2_CL_CACHE_SIZE (CLE 0 false false 0 (zeros cs)).

(** [(cluster_size - LBD_QCOW2_L2_TRAILER_SIZE) / sizeof(u64)]. *)
Definition l2_entries_of (cs : Z) : Z := (cs - LBD_QCOW2_L2_TRAILER_SIZE) / 8.

(** Parse and check the header, load the L1 table, allocate the caches. *)
Definition lbd_qcow2_init : MQ unit :=
  alloc_or LBD_QCOW2_HEADER_SIZE (- ENOMEM);;
  '(ret, hdr) ← kread Backing 0 LBD_QCOW2_HEADER_SIZE;
  if negb (ret =? LBD_QCOW2_HEADER_SIZE) then throw (io_err ret) else
  if negb (lbd_qcow2_hdr_magic hdr =? LBD_QCOW2_MAGIC) then throw (- EINVAL) else
  if negb (lbd_qcow2_hdr_version hdr =? LBD_QCOW2_VERSION) then throw (- EINVAL) else
  let bits := lbd_qcow2_hdr_cluster_bits hdr in
  if (bits <? 12) || (bits >? 24) then throw (- EINVAL) else
  let cs := Z.shiftl 1 bits in
  let size := lbd_qcow2_hdr_l1_size hdr in
  let off := s64 (lbd_qcow2_hdr_l1_table_offset hdr) in
  alloc_or (size * 8) (- ENOMEM);;
  alloc_or (size * 8) (- ENOMEM);;
  '(ret, disk_l1) ← kread Backing off (size * 8);
  if negb (ret =? size * 8) then throw (io_err ret) else
  alloc_many LBD_QCOW2_L2_CACHE_SIZE cs (- ENOMEM);;
  alloc_many LBD_QCOW2_CL_CACHE_SIZE cs (- ENOMEM);;
  alloc_or (LZ4_compressBound cs) (- ENOMEM);;
  alloc_or (LZ4_compressBound cs) (- ENOMEM);;
  upd_q (λ _, Qcow2 bits cs (l2_entries_of cs) (lbd_qcow2_hdr_virtual_size hdr)
    (be64_array size disk_l1) size off
    (s64 (lbd_qcow2_hdr_alloc_offset hdr)) (s64 (lbd_qcow2_hdr_free_list hdr))
    l2_blank (cl_blank cs) 0).

(** Flush the dirty L2 entries, write the final cursor and list head. *)
Definition lbd_qcow2_destroy : MQ unit :=
  lbd_qcow2_flush_all_l2;;
  try lbd_qcow2_write_alloc_offset;;
  try lbd_qcow2_write_free_list_head;;
  upd_q (set_l1_table []).

(** ** Base layer: open, swap *)

(** A base that starts with the magic number: header, geometry and L1 table. *)
Definition base_init_image (q : lbd_qcow2) (f : fh) : MQ unit :=
  alloc_or LBD_QCOW2_HEADER_SIZE (- ENOMEM);;
  '(ret, hdr) ← kread f 0 LBD_QCOW2_HEADER_SIZE;
  if negb (ret =? LBD_QCOW2_HEADER_SIZE) then throw (io_err ret) else
  if negb (lbd_qcow2_hdr_version hdr =? LBD_QCOW2_VERSION) then throw (- EINVAL) else
  let bits := lbd_qcow2_hdr_cluster_bits hdr in
  if negb (bits =? cluster_bits q) then throw (- EINVAL) else
  let cs := Z.shiftl 1 bits in
  let vsize := lbd_qcow2_hdr_virtual_size hdr in
  let off := s64 (lbd_qcow2_hdr_l1_table_offset hdr) in
  let size := lbd_qcow2_hdr_l1_size hdr in
  if negb (vsize =? virtual_size q) then throw (- EINVAL) else
  alloc_or (size * 8) (- ENOMEM);;
  alloc_or (size * 8) (- ENOMEM);;
  '(ret, disk_l1) ← kread f off (size * 8);
  if negb (ret =? size * 8) then throw (io_err ret) else
  alloc_many LBD_QCOW2_L2_CACHE_SIZE cs (- ENOMEM);;
  alloc_or (LZ4_compressBound cs) (- ENOMEM);;
  modify (set_base (Some (Base f true vsize bits cs (l2_entries_of cs)
    (be64_array size disk_l1) size off l2_blank 0))).

(** Any other base is a raw one of the same size. *)
Definition base_init_raw (q : lbd_qcow2) (f : fh) (fsize : Z) : MQ unit :=
  if negb (fsize =? virtual_size q) then throw (- EINVAL) else
  modify (set_base (Some (Base f false fsize 0 0 0 [] 0 0 l2_blank 0))).

Definition lbd_qcow2_base_init (path : bytes) : MQ unit :=
  d0 ← get;
  let q := qcow2 d0 in
  let f := BaseFile path in
  o ← (λ d, let '(o, k) := filp_open (kern d) path in (Ok o, set_kern k d));
  match o with
  | OErr e => throw e
  | OFile is_reg same_inode =>
      d ← get;
      let fsize := zlen (content (kern d) f) in
      if negb is_reg then throw (- EINVAL) else
      if fsize =? 0 then throw (- EINVAL) else
      if (same_inode : bool) then throw (- EINVAL) else
      alloc_or 0 (- ENOMEM);;
      '(ret, magic) ← kread f 0 8;
      if negb (ret =? 8) then throw (io_err ret) else
      if _qcow2_get64 magic 0 =? LBD_QCOW2_MAGIC then base_init_image q f else base_init_raw q f fsize
  end.

(** [lbd_qcow2_base_destroy] followed by [dev->base = NULL]. *)
Definition lbd_qcow2_base_destroy : MQ unit := modify (set_base None).

(** Re-read the primary's header cursor, list head and L1 table from disk. *)
Definition lbd_qcow2_reload_l1 : MQ unit :=
  alloc_or LBD_QCOW2_HEADER_SIZE (- ENOMEM);;
  '(ret, hdr) ← kread Backing 0 LBD_QCOW2_HEADER_SIZE;
  if negb (ret =? LBD_QCOW2_HEADER_SIZE) then throw (io_err ret) else
  let new_l1_offset := s64 (lbd_qcow2_hdr_l1_table_offset hdr) in
  let new_l1_size := lbd_qcow2_hdr_l1_size hdr in
  upd_q (set_alloc_offset (s64 (lbd_qcow2_hdr_alloc_offset hdr)));;
  upd_q (set_free_list_head (s64 (lbd_qcow2_hdr_free_list hdr)));;
  alloc_or (new_l1_size * 8) (- ENOMEM);;
  alloc_or (new_l1_size * 8) (- ENOMEM);;
  '(ret, disk_l1) ← kread Backing new_l1_offset (new_l1_size * 8);
  if negb (ret =? new_l1_size * 8) then throw (io_err ret) else
  upd_q (set_l1 (be64_array new_l1_size disk_l1) new_l1_size new_l1_offset).

(** Invalidate all caches (primary and base). *)
Definition lbd_qcow2_invalidate_all_caches : MQ unit :=
  upd_q (λ q, set_cl_cache (cle_set_valid false <$> cl_cache q) q);;
  upd_q (λ q, set_l2_cache (l2e_set_valid false <$> l2_cache q) q);;
  upd_base (λ b, if b_is_qcow2 b
                 then b_set_cache (l2e_set_valid false <$> b_l2_cache b) b else b).

Definition lbd_qcow2_swap_base (new_path : bytes) : MQ unit :=
  lbd_qcow2_flush_all_l2;;
  lbd_qcow2_base_destroy;;
  lbd_qcow2_base_init new_path;;
  lbd_qcow2_reload_l1;;
  lbd_qcow2_invalidate_all_caches;;
  modify (set_base_path (take 255 new_path)).

(** ** Block misses *)

(** Post the miss and wait: userspace may swap the base before it answers; when
    it closes the control file instead, [lbd_ctl_release] clears the handler and
    completes the miss with CONTINUE. *)
Definition lbd_qcow2_handle_miss : MQ lbd_miss_action :=
  d ← get;
  if negb (miss_handler d) then mret LBD_MISS_CONTINUE else
  match miss_replies d with
  | [] => modify (set_miss_handler false);; mret LBD_MISS_CONTINUE
  | r :: rs =>
      modify (set_replies rs);;
      foldr (λ p rest, try (lbd_qcow2_swap_base p);; rest) (mret tt) (reply_swaps r);;
      mret (reply_action r)
  end.

(** Invalidate cached entries for a cluster before retry. *)
Definition lbd_qcow2_invalidate_for_retry (ci : Z) : MQ unit :=
  upd_q (λ q, set_cl_cache ((λ e, if cl_valid e && (cluster_index e =? ci)
                                  then cle_set_valid false e else e) <$> cl_cache q) q);;
  upd_base (λ b, if b_is_qcow2 b
    then b_set_cache ((λ e, if l2_valid e && (l1_index e =? u32 (ci / b_l2_entries b))
                            then l2e_set_valid false e else e) <$> b_l2_cache b) b
    else b).

(** ** Read path *)

(** Load one cluster for a read: [None] is the zero fill after a miss that
    userspace did not resolve within [retries] retries. *)
Fixpoint read_cluster (retries : nat) (ci : Z) : MQ (option bytes) :=
  ce ← lbd_qcow2_cl_load ci;
  match ce with
  | CMiss =>
      action ← lbd_qcow2_handle_miss;
      match action, retries with
      | LBD_MISS_RETRY, S n => lbd_qcow2_invalidate_for_retry ci;; read_cluster n ci
      | _, _ => mret None
      end
  | CNull => throw (- EIO)
  | CAt k => e ← get_cl k; mret (Some (data e))
  end.

(** Cluster index, offset in it and length of the next chunk. *)
Definition chunk_at (q : lbd_qcow2) (guest_offset remaining : Z) : Z * Z * Z :=
  let off_in_cluster := Z.land guest_offset (cluster_size q - 1) in
  (Z.shiftr guest_offset (cluster_bits q), off_in_cluster,
   Z.min remaining (cluster_size q - off_in_cluster)).

(** The [while (remaining > 0)] loop over one segment; a chunk is at least one
    byte, so [fuel] equal to the length of the segment is enough. *)
Fixpoint read_chunks (fuel : nat) (guest_offset remaining : Z) : MQ bytes :=
  match fuel with
  | O => mret []
  | S fuel' =>
      if remaining <=? 0 then mret [] else
      d ← get;
      let '(ci, off, n) := chunk_at (qcow2 d) guest_offset remaining in
      c ← read_cluster 3 ci;
      let chunk := match c with Some b => read_at b off n | None => zeros n end in
      rest ← read_chunks fuel' (guest_offset + n) (remaining - n);
      mret (chunk ++ rest)
  end.

Fixpoint read_segs (guest_offset : Z) (segs : list bytes) : MQ (list bytes) :=
  match segs with
  | [] => mret []
  | s :: segs' =>
      b ← read_chunks (length s) guest_offset (zlen s);
      rest ← read_segs (guest_offset + zlen s) segs';
      mret (b :: rest)
  end.

(** The bytes each segment of the request receives. *)
Definition lbd_qcow2_read (rq : request) : MQ (list bytes) :=
  r ← read_segs (Z.shiftl (rq_pos rq) SECTOR_SHIFT) (rq_segs rq);
  upd_stats (add_read (blk_rq_bytes rq));;
  mret r.

(** ** Write path *)

(** Reuse the old extent in place, or free it and allocate; [strict] is whether
    a failure to free is returned (write) or ignored (discard). *)
Definition choose_space (strict : bool) (old_entry old_alloc new_alloc : Z) : MQ Z :=
  if (old_alloc >? 0) && (new_alloc <=? old_alloc) then
    upd_stats inc_reused;;
    mret (Z.land old_entry LBD_QCOW2_L2_OFFSET_MASK)
  else
    (if old_alloc >? 0 then
       let old_phys := Z.land old_entry LBD_QCOW2_L2_OFFSET_MASK in
       if strict then lbd_qcow2_free_extent old_phys old_alloc
       else try (lbd_qcow2_free_extent old_phys old_alloc);; mret tt
     else mret tt);;
    lbd_qcow2_alloc_space new_alloc.

(** [l2e->table[l2_idx] = v; l2e->dirty = true]. *)
Definition set_entry (k2 : nat) (l2_idx v : Z) : MQ unit :=
  upd_l2 k2 (λ e, l2e_set_dirty true (l2e_set_table (<[Z.to_nat l2_idx := v]> (table e)) e)).

(** Compress the cached cluster, write it out and point its L2 entry to it. *)
Definition store_cluster (strict : bool) (k k2 : nat) (l2_idx old_entry old_alloc : Z) : MQ unit :=
  ce ← get_cl k;
  d ← get;
  let cs := cluster_size (qcow2 d) in
  let comp := LZ4_compress (data ce) (LZ4_compressBound cs) in
  let comp_len := zlen comp in
  if (comp_len >? 0) && (u32 comp_len <? cs - 4) then
    phys ← choose_space strict old_entry old_alloc (ALIGN4096 (4 + comp_len));
    ret ← kwrite Backing phys (be32 comp_len);
    if negb (ret =? 4) then throw (io_err ret) else
    ret ← kwrite Backing (phys + 4) comp;
    if negb (ret =? comp_len) then throw (io_err ret) else
    set_entry k2 l2_idx (Z.lor LBD_QCOW2_L2_COMPRESSED (u64 phys));;
    upd_stats inc_compressed
  else
    phys ← choose_space strict old_entry old_alloc cs;
    ret ← kwrite Backing phys (data ce);
    if negb (ret =? cs) then throw (io_err ret) else
    set_entry k2 l2_idx (u64 phys);;
    upd_stats inc_uncompressed.

(** One iteration of the write loop: read-modify-write of cluster [ci]. *)
Definition write_cluster (ci off : Z) (chunk : bytes) : MQ unit :=
  d ← get;
  let q := qcow2 d in
  let l1_idx := u32 (ci / l2_entries q) in
  let l2_idx := u32 (ci mod l2_entries q) in
  lbd_qcow2_l2_alloc l1_idx;;
  ce ← lbd_qcow2_cl_load ci;
  k ← match ce with
      | CMiss => lbd_qcow2_cl_get_zero ci
      | CNull => throw (- EIO)
      | CAt k => mret k
      end;
  l2e ← lbd_qcow2_l2_get l1_idx;
  match l2e with
  | None => throw (- EIO)
  | Some k2 =>
      e ← get_l2 k2;
      old_entry ← arr_get (table e) l2_idx;
      old_alloc ← lbd_qcow2_read_old_alloc_size old_entry;
      upd_cl k (λ e, cle_set_data (write_at (data e) off chunk) e);;
      store_cluster true k k2 l2_idx old_entry old_alloc;;
      lbd_qcow2_l2_flush k2;;
      lbd_qcow2_write_alloc_offset
  end.

(** The [while (offset < total_len)] loop; at least one byte per iteration. *)
Fixpoint write_chunks (fuel : nat) (guest_offset : Z) (buf : bytes) : MQ unit :=
  match fuel with
  | O => mret tt
  | S fuel' =>
      if zlen buf <=? 0 then mret tt else
      d ← get;
      let '(ci, off, n) := chunk_at (qcow2 d) guest_offset (zlen buf) in
      write_cluster ci off (read_at buf 0 n);;
      write_chunks fuel' (guest_offset + n) (drop (Z.to_nat n) buf)
  end.

Definition lbd_qcow2_write (rq : request) : MQ unit :=
  let write_data := concat (rq_segs rq) in
  alloc_or (zlen write_data) (- ENOMEM);;
  write_chunks (length write_data) (Z.shiftl (rq_pos rq) SECTOR_SHIFT) write_data.

(** ** Discard path *)

(** Full-cluster trim: drop the mapping and free the extent. *)
Definition discard_full (ci : Z) : MQ unit :=
  d ← get;
  let q := qcow2 d in
  let l1_idx := u32 (ci / l2_entries q) in
  let l2_idx := u32 (ci mod l2_entries q) in
  l2_phys ← (if l1_idx <? l1_size q then arr_get (l1_table q) l1_idx else mret 0);
  (if negb (l2_phys =? 0) then
     l2e ← lbd_qcow2_l2_get l1_idx;
     match l2e with
     | None => mret tt
     | Some k2 =>
         e ← get_l2 k2;
         old_l2 ← arr_get (table e) l2_idx;
         if old_l2 =? 0 then mret tt else
         old_sz ← lbd_qcow2_read_old_alloc_size old_l2;
         (if old_sz >? 0
          then try (lbd_qcow2_free_extent (Z.land old_l2 LBD_QCOW2_L2_OFFSET_MASK) old_sz);; mret tt
          else mret tt);;
         set_entry k2 l2_idx 0;;
         lbd_qcow2_l2_flush k2
     end
   else mret tt);;
  lbd_qcow2_cl_invalidate ci.

(** Partial-cluster trim: read-modify-write with zeros. *)
Definition discard_partial (ci off n : Z) : MQ unit :=
  d ← get;
  let q := qcow2 d in
  let l1_idx := u32 (ci / l2_entries q) in
  let l2_idx := u32 (ci mod l2_entries q) in
  lbd_qcow2_l2_alloc l1_idx;;
  ce ← lbd_qcow2_cl_load ci;
  match ce with
  | CMiss => mret tt
  | CNull => throw (- EIO)
  | CAt k =>
      l2e ← lbd_qcow2_l2_get l1_idx;
      match l2e with
      | None => throw (- EIO)
      | Some k2 =>
          e ← get_l2 k2;
          old_l2 ← arr_get (table e) l2_idx;
          if old_l2 =? 0 then mret tt else
          upd_cl k (λ e, cle_set_data (write_at (data e) off (zeros n)) e);;
          old_alloc ← lbd_qcow2_read_old_alloc_size old_l2;
          store_cluster false k k2 l2_idx old_l2 old_alloc;;
          lbd_qcow2_l2_flush k2;;
          lbd_qcow2_write_alloc_offset
      end
  end.

(** The [while (remaining > 0)] loop; [fuel] as for reads. *)
Fixpoint discard_chunks (fuel : nat) (guest_offset remaining : Z) : MQ unit :=
  match fuel with
  | O => mret tt
  | S fuel' =>
      if remaining <=? 0 then mret tt else
      d ← get;
      let '(ci, off, n) := chunk_at (qcow2 d) guest_offset remaining in
      (if (off =? 0) && (n =? cluster_size (qcow2 d)) then discard_full ci
       else discard_partial ci off n);;
      discard_chunks fuel' (guest_offset + n) (remaining - n)
  end.

Definition lbd_qcow2_discard (pos_sector nbytes : Z) : MQ unit :=
  discard_chunks (Z.to_nat nbytes) (Z.shiftl pos_sector SECTOR_SHIFT) nbytes.

End Io.
