(* ===== verification/Qcow2Inv.v ===== *)
(** * Invariant of the qcow2-lz4 store

    Which byte of the image belongs to which structure is recorded by a ghost
    map [own] from file offsets to tags.  Because [own] is a function, two
    structures never overlap.  [space_ok] is the invariant of the allocator,
    [wf] the invariant of the whole store; [view] is the abstract state, the
    contents of every guest cluster. *)
From S2P Require Import Prelude Kernel Format Qcow2State Qcow2Alloc Qcow2Cache Qcow2Io.

(** ** Ghost state *)
Inductive tag : Type :=
| TMeta            (** fixed header fields *)
| TAlloc           (** header field alloc_offset *)
| THead            (** header field free_list *)
| TL1              (** the L1 table *)
| TL2 (i : Z)      (** the L2 table of L1 entry [i] *)
| TData (ci : Z)   (** the extent of guest cluster [ci] *)
| TFree (off : Z)  (** the free extent that starts at [off] *)
| TNone.           (** beyond the append cursor *)

(** Tags of bytes the allocator may overwrite. *)
Definition mutable (t : tag) : Prop :=
  match t with TFree _ | TNone | THead | TAlloc => True | _ => False end.

(** Tags of unused bytes. *)
Definition freeish (t : tag) : Prop := match t with TFree _ | TNone => True | _ => False end.

Definition retag (own : Z → tag) (p n : Z) (t : tag) : Z → tag :=
  λ o, if decide (p ≤ o < p + n) then t else own o.

(** Every byte of [p, p+n) has tag [t]. *)
Definition owns (own : Z → tag) (p n : Z) (t : tag) : Prop := ∀ o, p ≤ o < p + n → own o = t.

(** From [own] to [own'] the range [p, p+n) of unused bytes becomes [t]; apart
    from it only unused bytes change their tags. *)
Definition carve (own own' : Z → tag) (p n : Z) (t : tag) : Prop := ∀ o,
  (p ≤ o < p + n → own' o = t ∧ freeish (own o)) ∧
  (¬ (p ≤ o < p + n) → own' o = own o ∨ freeish (own o) ∧ freeish (own' o)).

(** Stored bytes whose tags do not satisfy [T] survive from [f] to [f']. *)
Definition keeps (own : Z → tag) (T : tag → Prop) (f f' : bytes) : Prop :=
  ∀ p d, 0 ≤ p → (∀ o, p ≤ o < p + zlen d → ¬ T (own o)) → bytes_at f p d → bytes_at f' p d.

(** ** The free list *)
Definition fl_head (fl : list (Z * Z)) : Z := match fl with [] => 0 | (o, _) :: _ => o end.

(** The tombstones of [fl] are stored in [f], each naming the next one. *)
Fixpoint chain (f : bytes) (fl : list (Z * Z)) : Prop :=
  match fl with
  | [] => True
  | (off, sz) :: fl' => bytes_at f off (tombstone_bytes sz (fl_head fl')) ∧ chain f fl'
  end.

Record space_ok (f : bytes) (alloc head : Z) (own : Z → tag) (fl : list (Z * Z)) : Prop := {
  sp_alloc : 4096 ≤ alloc ≤ 2 ^ 62;
  sp_none o : alloc ≤ o → own o = TNone;
  sp_head : head = fl_head fl;
  sp_chain : chain f fl;
  sp_free off sz : (off, sz) ∈ fl → 0 < off ∧ 16 ≤ sz < 2 ^ 32 ∧ owns own off sz (TFree off);
  sp_nodup : NoDup fl.*1;
  sp_hdr_alloc : owns own 36 8 TAlloc;
  sp_hdr_head : owns own 48 8 THead
}.

(** ** Lemmas on ownership *)

Lemma keeps_refl own T f : keeps own T f f.
Proof. intros p d _ _ H. exact H. Qed.

Lemma keeps_trans own T f1 f2 f3 : keeps own T f1 f2 → keeps own T f2 f3 → keeps own T f1 f3.
Proof. intros H1 H2 p d Hp Ho H. apply H2; [done|done|]. by apply H1. Qed.

Lemma keeps_weaken own own' (T T' : tag → Prop) f f' :
  keeps own T f f' → (∀ o, T (own o) → T' (own' o)) → keeps own' T' f f'.
Proof. intros H Ht p d Hp Ho Hb. apply H; [done| |done]. intros o Hr HT. by apply (Ho o Hr), Ht. Qed.

(** A write into bytes that all satisfy [T]. *)
Lemma keeps_write own (T : tag → Prop) f q e : 0 ≤ q →
  (∀ o, q ≤ o < q + zlen e → T (own o)) → keeps own T f (write_at f q e).
Proof.
  intros Hq HT p d Hp Ho H.
  destruct (decide (zlen d = 0)) as [E|]. { destruct d; [|done]. intros i Hi. simpl in Hi. lia. }
  destruct (decide (zlen e = 0)) as [E|]. { by destruct e. }
  pose proof (zlen_nonneg d). pose proof (zlen_nonneg e).
  apply bytes_at_write_disj; [done..|].
  destruct (decide (q + zlen e ≤ p)); [by left|]. right.
  destruct (decide (p + zlen d ≤ q)); [done|]. exfalso.
  apply (Ho (Z.max p q)); [lia|]. apply HT. lia.
Qed.

Lemma retag_in own p n t : owns (retag own p n t) p n t.
Proof. intros o Ho. unfold retag. by rewrite decide_True. Qed.

Lemma retag_out own p n t o : ¬ (p ≤ o < p + n) → retag own p n t o = own o.
Proof. intros Ho. unfold retag. by rewrite decide_False. Qed.

(** Two regions with different tags are apart. *)
Lemma owns_disjoint own p n q m t u : owns own p n t → owns own q m u → t ≠ u →
  0 < n → 0 < m → p + n ≤ q ∨ q + m ≤ p.
Proof.
  intros H1 H2 Hne Hn Hm.
  destruct (decide (p + n ≤ q)); [by left|]. destruct (decide (q + m ≤ p)); [by right|].
  exfalso. apply Hne. rewrite <- (H1 (Z.max p q)), <- (H2 (Z.max p q)) by lia. done.
Qed.

Lemma retag_owns_other own p n t q m u :
  owns own q m u → (∀ o, p ≤ o < p + n → own o ≠ u) → owns (retag own p n t) q m u.
Proof.
  intros H Hne o Ho. unfold retag. case_decide as Hd; [|by apply H].
  exfalso. apply (Hne o Hd). by apply H.
Qed.

Lemma keeps_bytes own T f f' p d t : keeps own T f f' → 0 ≤ p → owns own p (zlen d) t →
  ¬ T t → bytes_at f p d → bytes_at f' p d.
Proof. intros Hk Hp Ho Ht Hb. apply Hk; [done| |done]. intros o Hr. by rewrite Ho. Qed.

(** ** Alignment *)
Lemma ALIGN4096_spec x : 0 ≤ x < 2 ^ 63 →
  x ≤ ALIGN4096 x < x + 4096 ∧ ∃ k, ALIGN4096 x = 4096 * k.
Proof.
  intros Hx. unfold ALIGN4096.
  assert (E : Z.land (x + 4095) (Z.lnot 4095) = 4096 * ((x + 4095) / 4096)).
  { transitivity (Z.ldiff (x + 4095) (Z.ones 12)); [by rewrite Z.ldiff_land|].
    rewrite Z.ldiff_ones_r by lia. rewrite Z.shiftl_mul_pow2, Z.shiftr_div_pow2 by lia.
    change (2 ^ 12) with 4096. lia. }
  rewrite E. pose proof (Z.div_mod (x + 4095) 4096). pose proof (Z.mod_pos_bound (x + 4095) 4096).
  rewrite u64_small by lia. split; [lia|]. by eexists.
Qed.

(** ** The chain of free extents *)
Lemma chain_app f l1 l2 : chain f (l1 ++ l2) → chain f l2.
Proof. induction l1 as [|[o s] l1 IH]; [done|]. intros [_ Hc]. by apply IH. Qed.

Lemma zlen_tombstone sz next : zlen (tombstone_bytes sz next) = 16.
Proof. done. Qed.

Lemma chain_mono f f' fl :
  (∀ o s d, (o, s) ∈ fl → zlen d = 16 → bytes_at f o d → bytes_at f' o d) →
  chain f fl → chain f' fl.
Proof.
  induction fl as [|[o s] fl IH]; [done|]. intros Hm [H1 H2]. split.
  - apply (Hm o s); [left|done|done].
  - apply IH; [|done]. intros o' s' d Hin. apply (Hm o' s'). by right.
Qed.

(** Unlinking [y] by overwriting the next pointer of its predecessor [x]. *)
Lemma chain_unlink f f' pre xo xs y post :
  chain f (pre ++ (xo, xs) :: y :: post) →
  (∀ o s d, (o, s) ∈ pre ++ post → zlen d = 16 → bytes_at f o d → bytes_at f' o d) →
  bytes_at f' xo (tombstone_bytes xs (fl_head post)) →
  chain f' (pre ++ (xo, xs) :: post).
Proof.
  induction pre as [|[o s] pre IH]; intros Hc Hm Hx.
  - destruct Hc as (_ & Hc). split; [done|]. destruct y as [yo ys]. destruct Hc as [_ Hc].
    eapply chain_mono; [|done]. intros o s d Hin. by apply (Hm o s).
  - destruct Hc as (H1 & Hc). split.
    + apply (Hm o s); [left|done|]. by destruct pre as [|[? ?] ?].
    + apply IH; [done| |done]. intros o' s' d Hin. apply (Hm o' s'). by right.
Qed.

Lemma tombstone_fields f off sz next : 0 ≤ off → 0 ≤ sz < 2 ^ 32 → 0 ≤ next < 2 ^ 64 →
  bytes_at f off (tombstone_bytes sz next) →
  let buf := read_at f off 16 in
  _qcow2_get32 buf 0 = LBD_QCOW2_FREE_TOMBSTONE ∧ _qcow2_get32 buf 4 = sz
  ∧ _qcow2_get64 buf 8 = next.
Proof.
  intros Ho Hs Hn H. cbv zeta.
  replace (read_at f off 16) with (tombstone_bytes sz next)
    by (symmetry; exact (read_at_bytes_at _ _ _ H)).
  pose proof (bytes_at_full (tombstone_bytes sz next)) as Hb. unfold tombstone_bytes in Hb at 2.
  apply bytes_at_app in Hb as [H1 Hb]; [|lia]. apply bytes_at_app in Hb as [H2 H3]; [|done].
  rewrite u32_small in H2 by done.
  split_and!; [apply get32_bytes_at; [lia|done|done]..|apply get64_bytes_at; [lia|done|done]].
Qed.

Lemma chain_head_range f own a h fl : space_ok f a h own fl → 0 ≤ fl_head fl < 2 ^ 62.
Proof.
  intros [Ha Hnone _ _ Hf _ _ _]. destruct fl as [|[o s] fl]; simpl; [lia|].
  destruct (Hf o s) as (? & ? & Ho); [left|]. split; [lia|].
  destruct (decide (o < a)); [lia|]. pose proof (Ho o ltac:(lia)) as E.
  rewrite Hnone in E by lia. done.
Qed.
