(* ===== verification/Qcow2AllocProof.v ===== *)
(** * Correctness of the space allocator

    On a healthy file the operations of [Qcow2Alloc] never fail, keep the
    allocator invariant, hand out bytes nobody owns and leave every owned byte
    of the image as it was. *)
From S2P Require Import Prelude Kernel Format Qcow2State Qcow2Alloc Qcow2Cache Qcow2Io Qcow2Inv.

Section AllocProof.
Context {K : Type} `{KernelLaws K}.
Local Abbreviation disk d := (content (kern d) Backing).

(** ** Calls into a healthy kernel *)

(** Nothing but the image, the cursor, the list head and the counters changes. *)
Record same_dev (d d' : qdev K) : Prop := {
  sd_healthy : healthy (kern d');
  sd_files p : content (kern d') (BaseFile p) = content (kern d) (BaseFile p);
  sd_q : qcow2 d' = set_alloc_offset (alloc_offset (qcow2 d'))
                      (set_free_list_head (free_list_head (qcow2 d')) (qcow2 d));
  sd_base : base d' = base d;
  sd_path : base_path d' = base_path d;
  sd_miss : miss_handler d' = miss_handler d;
  sd_replies : miss_replies d' = miss_replies d
}.

Lemma same_dev_refl d : healthy (kern d) → same_dev d d.
Proof. intros Hh. split; try done. by destruct d as [? []]. Qed.

Lemma same_dev_trans d1 d2 d3 : same_dev d1 d2 → same_dev d2 d3 → same_dev d1 d3.
Proof.
  intros [] []. split; try congruence; try done.
  rewrite sd_q1, sd_q0. by destruct (qcow2 d1).
Qed.

(** The kernel state moved, the files did not. *)
Definition quiet (d : qdev K) (k' : K) : Prop :=
  healthy k' ∧ ∀ h, content k' h = content (kern d) h.

Lemma same_dev_quiet d k' : quiet d k' → same_dev d (set_kern k' d).
Proof. intros [Hh Hc]. split; simpl; try done; by destruct (qcow2 d). Qed.

Lemma kread_ok h pos len d : healthy (kern d) → 0 ≤ pos → 0 ≤ len →
  pos + len ≤ zlen (content (kern d) h) →
  ∃ k', kread h pos len d = (Ok (len, read_at (content (kern d) h) pos len), set_kern k' d)
        ∧ quiet d k'.
Proof.
  intros Hh Hp Hl Hle. destruct (healthy_read (kern d) h pos len) as (k' & E & Hk'); [done..|].
  exists k'. unfold kread. rewrite E. split; [done|]. split; [done|].
  intros h'. by apply (kernel_read_content _ _ _ _ _ _ _ _ E).
Qed.

(** Reading bytes known to be stored. *)
Lemma kread_at h pos b d n : healthy (kern d) → 0 ≤ pos → n = zlen b → 0 < n →
  bytes_at (content (kern d) h) pos b →
  ∃ k', kread h pos n d = (Ok (n, b), set_kern k' d) ∧ quiet d k'.
Proof.
  intros Hh Hp -> Hn Hb. assert (b ≠ []) by (by intros ->).
  destruct (kread_ok h pos (zlen b) d) as (k' & E & Q); [done|done|lia|by apply bytes_at_len|].
  exists k'. split; [|done]. rewrite E. by rewrite (read_at_bytes_at _ _ _ Hb).
Qed.

Lemma kwrite_ok pos b d : healthy (kern d) → 0 ≤ pos → pos + zlen b < 2 ^ 62 + 2 ^ 32 →
  ∃ k', kwrite Backing pos b d = (Ok (zlen b), set_kern k' d) ∧ healthy k'
        ∧ content k' Backing = write_at (disk d) pos b
        ∧ ∀ p, content k' (BaseFile p) = content (kern d) (BaseFile p).
Proof.
  intros Hh Hp Hle. destruct (healthy_write (kern d) Backing pos b) as (k' & E & Hk' & Hc); [done..|].
  exists k'. unfold kwrite. rewrite E. split_and!; [done..|].
  intros p. by apply (kernel_write_other _ _ _ _ _ _ _ E).
Qed.

Lemma kalloc_ok n d : healthy (kern d) →
  ∃ k', kalloc n d = (Ok true, set_kern k' d) ∧ quiet d k'.
Proof.
  intros Hh. destruct (healthy_alloc (kern d) n Hh) as (k' & E & Hk').
  exists k'. unfold kalloc. rewrite E. split; [done|]. split; [done|].
  intros h'. by apply (kvmalloc_content _ _ _ _ _ E).
Qed.

(** ** Header fields *)
Lemma write_free_list_head_ok d : healthy (kern d) →
  ∃ k', lbd_qcow2_write_free_list_head d = (Ok tt, set_kern k' d) ∧ healthy k'
        ∧ content k' Backing = write_at (disk d) 48 (be64 (free_list_head (qcow2 d)))
        ∧ ∀ p, content k' (BaseFile p) = content (kern d) (BaseFile p).
Proof.
  intros Hh. destruct (kwrite_ok 48 (be64 (free_list_head (qcow2 d))) d) as (k' & E & R);
    [done|lia|unfold zlen; simpl; lia|].
  exists k'. split; [|done]. unfold lbd_qcow2_write_free_list_head.
  rewrite (bind_ok _ _ d d d) by done. change LBD_QCOW2_OFF_FREE_LIST with 48. by mstep E.
Qed.

Lemma write_alloc_offset_ok d : healthy (kern d) →
  ∃ k', lbd_qcow2_write_alloc_offset d = (Ok tt, set_kern k' d) ∧ healthy k'
        ∧ content k' Backing = write_at (disk d) 36 (be64 (alloc_offset (qcow2 d)))
        ∧ ∀ p, content k' (BaseFile p) = content (kern d) (BaseFile p).
Proof.
  intros Hh. destruct (kwrite_ok 36 (be64 (alloc_offset (qcow2 d))) d) as (k' & E & R);
    [done|lia|unfold zlen; simpl; lia|].
  exists k'. split; [|done]. unfold lbd_qcow2_write_alloc_offset.
  rewrite (bind_ok _ _ d d d) by done. change LBD_QCOW2_OFF_ALLOC_OFFSET with 36. by mstep E.
Qed.

(** ** The invariant of the allocator on a device *)
Definition space (d : qdev K) (own : Z → tag) (fl : list (Z * Z)) : Prop :=
  space_ok (disk d) (alloc_offset (qcow2 d)) (free_list_head (qcow2 d)) own fl.

(** A free extent is not touched by writes elsewhere. *)
Lemma space_mono f f' a h own fl (T : tag → Prop) :
  space_ok f a h own fl → keeps own T f f' → (∀ o, ¬ T (TFree o)) → space_ok f' a h own fl.
Proof.
  intros [] Hk HT. split; try done. eapply chain_mono; [|done].
  intros o s d Hin Hd. destruct (sp_free o s Hin) as (? & ? & Ho).
  apply (keeps_bytes _ _ _ _ _ _ (TFree o) Hk); [lia| |done].
  intros x Hx. apply Ho. lia.
Qed.

(** The offset of a listed extent determines its tag. *)
Lemma space_tag_inj f a h own fl o s o' s' x : space_ok f a h own fl →
  (o, s) ∈ fl → (o', s') ∈ fl → o ≤ x < o + s → o' ≤ x < o' + s' → o = o'.
Proof.
  intros Hs H1 H2 Hx Hx'. destruct (sp_free _ _ _ _ _ Hs _ _ H1) as (_ & _ & E1).
  destruct (sp_free _ _ _ _ _ Hs _ _ H2) as (_ & _ & E2).
  specialize (E1 x Hx). specialize (E2 x Hx'). congruence.
Qed.

Lemma free_below_alloc f a h own fl o s : space_ok f a h own fl → (o, s) ∈ fl →
  0 < o ∧ 16 ≤ s < 2 ^ 32 ∧ o + s ≤ a.
Proof.
  intros Hs Hin. destruct (sp_free _ _ _ _ _ Hs _ _ Hin) as (H1 & H2 & Ho). split_and!; try lia.
  destruct (decide (o + s ≤ a)); [done|]. pose proof (Ho (Z.max o (o + s - 1)) ltac:(lia)) as E.
  rewrite (sp_none _ _ _ _ _ Hs) in E by lia. done.
Qed.

(** *** Prepending an extent that no listed extent overlaps *)
Lemma space_push f f' a h own fl p sz :
  space_ok f a h own fl → 0 < p → 16 ≤ sz < 2 ^ 32 → p + sz ≤ a →
  (∀ o, p ≤ o < p + sz → own o ≠ TAlloc ∧ own o ≠ THead
        ∧ ∀ q s, (q, s) ∈ fl → own o ≠ TFree q) →
  f' = write_at (write_at f p (tombstone_bytes sz h)) 48 (be64 p) →
  space_ok f' a p (retag own p sz (TFree p)) ((p, sz) :: fl).
Proof.
  intros Hs Hp Hsz Hle Hdis ->. pose proof Hs as [Ha Hnone Hh Hc Hf Hnd Hta Hth].
  assert (Hp48 : p + 16 ≤ 48 ∨ 56 ≤ p).
  { destruct (decide (p + 16 ≤ 48)); [by left|]. destruct (decide (56 ≤ p)); [by right|].
    exfalso. destruct (Hdis (Z.max p 48)) as (_ & Hx & _); [lia|]. apply Hx, Hth. lia. }
  assert (Hfree : ∀ q s, (q, s) ∈ fl → owns (retag own p sz (TFree p)) q s (TFree q)).
  { intros q s Hin. apply retag_owns_other; [by apply Hf|]. intros o Ho. by apply (Hdis o Ho) with s. }
  split; try done.
  - intros o Ho. rewrite retag_out by lia. by apply Hnone.
  - split.
    + apply bytes_at_write_disj; [lia..| |]; [rewrite <- Hh; apply bytes_at_write_same; lia|].
      unfold zlen; simpl; lia.
    + eapply chain_mono; [|done]. intros q s d Hin Hd Hb.
      destruct (free_below_alloc _ _ _ _ _ _ _ Hs Hin) as (? & ? & ?).
      destruct (Hf q s Hin) as (_ & _ & Ho).
      apply bytes_at_write_disj; [lia..| |].
      * apply bytes_at_write_disj; [lia..|done|]. rewrite Hd, zlen_tombstone.
        destruct (decide (p + 16 ≤ q)); [by left|]. destruct (decide (q + 16 ≤ p)); [by right|].
        exfalso. destruct (Hdis (Z.max p q)) as (_ & _ & Hx); [lia|].
        apply (Hx q s Hin), Ho. lia.
      * rewrite Hd. change (zlen (be64 p)) with 8.
        destruct (decide (56 ≤ q)); [lia|]. destruct (decide (q + 16 ≤ 48)); [lia|]. exfalso.
        pose proof (Ho (Z.max 48 q) ltac:(lia)) as E. rewrite Hth in E by lia. done.
  - intros q s [[= -> ->]|Hin]%elem_of_cons; [split_and!; [lia..|apply retag_in]|].
    destruct (Hf q s Hin) as (? & ? & _). split_and!; [lia..|by apply Hfree].
  - rewrite fmap_cons. apply list.NoDup_cons. split; [|done]. intros [[q s] [Hq Hin]]%list_elem_of_fmap.
    simpl in Hq. subst q. destruct (Hf p s Hin) as (_ & ? & Ho).
    destruct (Hdis p) as (_ & _ & Hx); [lia|]. apply (Hx p s Hin), Ho. lia.
  - apply retag_owns_other; [done|]. intros o Ho. by apply Hdis.
  - apply retag_owns_other; [done|]. intros o Ho. by apply Hdis.
Qed.

(** Running [lbd_qcow2_free_extent]. *)
Lemma free_extent_run d p sz : healthy (kern d) → 0 < p → p ≤ 2 ^ 62 →
  ∃ d', lbd_qcow2_free_extent p sz d = (Ok tt, d') ∧ same_dev d d'
    ∧ qcow2 d' = set_free_list_head p (qcow2 d)
    ∧ disk d' = write_at (write_at (disk d) p (tombstone_bytes sz (free_list_head (qcow2 d)))) 48 (be64 p).
Proof.
  intros Hh Hp Hle.
  destruct (kwrite_ok p (tombstone_bytes sz (free_list_head (qcow2 d))) d) as (k1 & E1 & H1 & C1 & F1);
    [done|lia|rewrite zlen_tombstone; lia|].
  set (d1 := set_stats (inc_freed (stats d)) (set_q (set_free_list_head p (qcow2 d)) (set_kern k1 d))).
  destruct (write_free_list_head_ok d1 H1) as (k2 & E2 & H2 & C2 & F2).
  exists (set_kern k2 d1). split_and!.
  - unfold lbd_qcow2_free_extent. rewrite (bind_ok _ _ d d d) by done. mstep E1. exact E2.
  - split; simpl; try done; intros q; by rewrite F2, <- F1.
  - done.
  - simpl. rewrite C2. simpl. by rewrite C1.
Qed.

Lemma free_extent_spec d own fl p sz :
  healthy (kern d) → space d own fl → 0 < p → 16 ≤ sz < 2 ^ 32 → p + sz ≤ alloc_offset (qcow2 d) →
  (∀ o, p ≤ o < p + sz → own o ≠ TAlloc ∧ own o ≠ THead
        ∧ ∀ q s, (q, s) ∈ fl → own o ≠ TFree q) →
  ∃ d', lbd_qcow2_free_extent p sz d = (Ok tt, d') ∧ same_dev d d'
    ∧ qcow2 d' = set_free_list_head p (qcow2 d)
    ∧ disk d' = write_at (write_at (disk d) p (tombstone_bytes sz (free_list_head (qcow2 d)))) 48 (be64 p)
    ∧ space d' (retag own p sz (TFree p)) ((p, sz) :: fl).
Proof.
  intros Hh Hs Hp Hsz Hle Hdis. pose proof (sp_alloc _ _ _ _ _ Hs).
  destruct (free_extent_run d p sz Hh Hp) as (d' & E & Hd & Hq & Hf); [lia|].
  exists d'. split_and!; [done..|]. unfold space. rewrite Hq. simpl. by eapply space_push.
Qed.

(** ** Allocation *)

(** What an allocation of [n] bytes for the owner [t] at [p] guarantees. *)
Record alloc_post (d : qdev K) (own : Z → tag) (n : Z) (t : tag) (p : Z)
    (d' : qdev K) (own' : Z → tag) (fl' : list (Z * Z)) : Prop := {
  ap_dev : same_dev d d';
  ap_space : space d' own' fl';
  ap_head : bytes_at (disk d') 48 (be64 (free_list_head (qcow2 d')));
  ap_pos : 0 < p;
  ap_own : carve own own' p n t;
  ap_alloc : alloc_offset (qcow2 d) ≤ alloc_offset (qcow2 d') ≤ alloc_offset (qcow2 d) + n;
  ap_keeps : keeps own mutable (disk d) (disk d')
}.

Lemma space_retag f a h own fl p n t :
  space_ok f a h own fl → p + n ≤ a →
  (∀ o, p ≤ o < p + n → own o ≠ TAlloc ∧ own o ≠ THead
        ∧ ∀ q s, (q, s) ∈ fl → own o ≠ TFree q) →
  space_ok f a h (retag own p n t) fl.
Proof.
  intros [] Hle Hdis. split; try done.
  - intros o Ho. rewrite retag_out by lia. auto.
  - intros q s Hin. destruct (sp_free q s Hin) as (? & ? & Ho). split_and!; [lia..|].
    apply retag_owns_other; [done|]. intros o Hr. destruct (Hdis o Hr) as (_ & _ & Hx). by apply (Hx q s).
  - apply retag_owns_other; [done|]. intros o Hr. by apply Hdis.
  - apply retag_owns_other; [done|]. intros o Hr. by apply Hdis.
Qed.

Lemma keeps_head own f f' v : owns own 48 8 THead → f' = write_at f 48 (be64 v) → keeps own mutable f f'.
Proof.
  intros Hth ->. apply keeps_write; [lia|]. intros o Ho. change (zlen (be64 v)) with 8 in Ho.
  by rewrite Hth.
Qed.

Lemma alloc_append_spec d own fl needed t :
  healthy (kern d) → space d own fl → bytes_at (disk d) 48 (be64 (free_list_head (qcow2 d))) →
  0 < needed → alloc_offset (qcow2 d) + needed ≤ 2 ^ 62 →
  ∃ p d' own' fl', alloc_append needed d = (Ok p, d') ∧ alloc_post d own needed t p d' own' fl'.
Proof.
  intros Hh Hs Hhd Hn Hle. pose proof Hs as [Ha Hnone]. simpl in *.
  set (a := alloc_offset (qcow2 d)) in *.
  exists a, (set_stats (inc_new (stats d)) (set_q (set_alloc_offset (s64 (a + needed)) (qcow2 d)) d)),
    (retag own a needed t), fl. split; [reflexivity|].
  rewrite s64_small by lia. split; simpl; try done; try lia.
  - destruct Hs. split; simpl; try done; [lia|..].
    + intros o Ho. rewrite retag_out by lia. apply Hnone. lia.
    + intros q s Hin. destruct (sp_free q s Hin) as (? & ? & Ho). split_and!; [lia..|].
      apply retag_owns_other; [done|]. intros o Hr. by rewrite Hnone by lia.
    + apply retag_owns_other; [done|]. intros o Hr. by rewrite Hnone by lia.
    + apply retag_owns_other; [done|]. intros o Hr. by rewrite Hnone by lia.
  - intros o. split; intros Ho; [|left; by apply retag_out].
    split; [by apply retag_in|]. by rewrite Hnone by lia.
  - apply keeps_refl.
Qed.

(** An extent [cur, sz) that was just unlinked is split and handed out. *)
Lemma alloc_split_spec d own fl cur sz needed t :
  healthy (kern d) → space d own fl → 0 < needed ≤ sz → sz < 2 ^ 32 → 0 < cur →
  cur + sz ≤ alloc_offset (qcow2 d) → owns own cur sz (TFree cur) →
  (∀ s, (cur, s) ∉ fl) →
  ∃ d' own' fl', alloc_split needed cur (sz - needed) d = (Ok cur, d')
    ∧ alloc_post d own needed t cur d' own' fl'.
Proof.
  intros Hh Hs Hn Hsz Hcur Hle Ho Hni. pose proof Hs as [Ha Hnone Hhd Hc Hf Hnd Hta Hth].
  assert (Hdis : ∀ o, cur ≤ o < cur + sz → own o ≠ TAlloc ∧ own o ≠ THead
        ∧ ∀ q s, (q, s) ∈ fl → own o ≠ TFree q).
  { intros o Hr. pose proof (Ho o Hr) as Eo. split_and!; [congruence..|]. intros q s Hin E. rewrite Eo in E. injection E as ->; by apply (Hni s). }
  unfold alloc_split. rewrite Z.geb_leb. destruct (Z.leb_spec LBD_QCOW2_FREE_ENTRY_MIN (sz - needed)) as [Hm|Hm].
  - unfold LBD_QCOW2_FREE_ENTRY_MIN in Hm.
    destruct (free_extent_spec d own fl (cur + needed) (sz - needed)) as (d1 & E1 & Hd1 & Hq1 & Hf1 & Hs1);
      [done|done|lia|lia|lia|intros o Hr; apply Hdis; lia|].
    set (own1 := retag own (cur + needed) (sz - needed) (TFree (cur + needed))) in *.
    eexists _, (retag own1 cur needed t), _. split.
    { rewrite (bind_ok _ _ d tt d1). 2:{ mstep (try_ok _ _ _ _ E1). done. } reflexivity. }
    assert (Hown1 : ∀ o, cur ≤ o < cur + needed → own1 o = TFree cur).
    { intros o Hr. unfold own1. rewrite retag_out by lia. apply Ho. lia. }
    split; simpl; try done.
    + by destruct Hd1; split.
    + eapply space_retag; [exact Hs1|simpl; rewrite Hq1; simpl; lia|]. intros o Hr. pose proof (Hown1 o Hr) as Eo.
      split_and!; [congruence..|]. intros q s Hin E; rewrite Eo in E; injection E as ->. apply elem_of_cons in Hin as [[= ? ?]|Hin]; [lia|].
      by apply (Hni s).
    + rewrite Hf1, Hq1. apply bytes_at_write_same. lia.
    + intros o. split; intros Hr.
      * split; [by apply retag_in|]. by rewrite Ho by lia.
      * rewrite retag_out by done. unfold own1, retag. case_decide; [|by left]. right.
        by rewrite Ho by lia.
    + rewrite Hq1. simpl. lia.
    + rewrite Hf1. eapply keeps_trans; [|by eapply keeps_head].
      apply keeps_write; [lia|]. intros o Hr. rewrite zlen_tombstone in Hr. by rewrite Ho by lia.
  - destruct (write_free_list_head_ok d Hh) as (k1 & E1 & Hk1 & C1 & F1).
    eexists _, (retag own cur needed t), fl. split.
    { rewrite (bind_ok _ _ d tt (set_kern k1 d)). 2:{ mstep (try_ok _ _ _ _ E1). done. } reflexivity. }
    split; simpl; try done.
    + split; simpl; try done; by destruct (qcow2 d).
    + eapply space_retag; [|simpl; lia|intros o Hr; apply Hdis; lia]. simpl. rewrite C1.
      eapply (space_mono _ _ _ _ _ _ (λ t, t = THead)); [done| |done].
      apply keeps_write; [lia|]. intros o Hr. change (zlen (be64 _)) with 8 in Hr. by apply Hth.
    + rewrite C1. apply bytes_at_write_same. lia.
    + intros o. split; intros Hr; [|left; by apply retag_out].
      split; [by apply retag_in|]. by rewrite Ho by lia.
    + lia.
    + by eapply keeps_head.
Qed.

Lemma alloc_post_trans d d1 own n t p d' own' fl' :
  same_dev d d1 → alloc_offset (qcow2 d1) = alloc_offset (qcow2 d) →
  keeps own mutable (disk d) (disk d1) →
  alloc_post d1 own n t p d' own' fl' → alloc_post d own n t p d' own' fl'.
Proof.
  intros Hd Ha Hk []. split; try done; [by eapply same_dev_trans|by rewrite <- Ha|by eapply keeps_trans].
Qed.

Lemma quiet_keeps d k' own : quiet d k' → keeps own mutable (disk d) (content k' Backing).
Proof. intros [_ Hc]. rewrite Hc. apply keeps_refl. Qed.

Lemma space_quiet d k' own fl : quiet d k' → space d own fl → space (set_kern k' d) own fl.
Proof. intros [_ Hc]. unfold space. simpl. by rewrite Hc. Qed.

(** Removing a listed extent. *)
Lemma space_remove f f' a h h' own pre x post :
  space_ok f a h own (pre ++ x :: post) → chain f' (pre ++ post) → h' = fl_head (pre ++ post) →
  space_ok f' a h' own (pre ++ post).
Proof.
  intros [] Hc Hh. split; try done.
  - intros o s Hin. apply sp_free. apply elem_of_app in Hin as [?|?]; apply elem_of_app; [by left|].
    right. by right.
  - rewrite fmap_app in *. rewrite fmap_cons in sp_nodup.
    apply list.NoDup_app in sp_nodup as (H1 & H2 & H3%list.NoDup_cons). apply list.NoDup_app.
    split_and!; [done| |by apply H3]. intros y Hy Hy'. apply (H2 y Hy). by right.
Qed.

Lemma space_fresh f a h own pre o sz post s :
  space_ok f a h own (pre ++ (o, sz) :: post) → (o, s) ∉ pre ++ post.
Proof.
  intros [] Hin. rewrite fmap_app, fmap_cons in sp_nodup.
  apply list.NoDup_app in sp_nodup as (_ & H2 & [H3 _]%list.NoDup_cons).
  apply elem_of_app in Hin as [Hin|Hin]; apply (list_elem_of_fmap_2 fst) in Hin; [|done].
  apply (H2 o Hin). by left.
Qed.

(** The unlink step of the scan when the entry is not the first. *)
Lemma unlink_spec d own pre po ps cur sz post :
  healthy (kern d) → space d own (pre ++ (po, ps) :: (cur, sz) :: post) →
  ∃ k', kwrite Backing (po + 8) (be64 (fl_head post)) d = (Ok 8, set_kern k' d)
    ∧ same_dev d (set_kern k' d) ∧ keeps own mutable (disk d) (content k' Backing)
    ∧ space (set_kern k' d) own (pre ++ (po, ps) :: post).
Proof.
  intros Hh Hs. set (x := (cur, sz)) in *.
  assert (Hp : (po, ps) ∈ pre ++ (po, ps) :: x :: post) by (apply elem_of_app; right; left).
  destruct (free_below_alloc _ _ _ _ _ _ _ Hs Hp) as (? & ? & ?).
  pose proof (sp_alloc _ _ _ _ _ Hs) as Ha. destruct (sp_free _ _ _ _ _ Hs _ _ Hp) as (_ & _ & Ho).
  destruct (kwrite_ok (po + 8) (be64 (fl_head post)) d) as (k' & E & Hk' & C & F);
    [done|lia|change (zlen (be64 _)) with 8; lia|].
  assert (Hk : keeps own (λ t, t = TFree po) (disk d) (content k' Backing)).
  { rewrite C. apply keeps_write; [lia|]. intros o Hr. change (zlen (be64 _)) with 8 in Hr. apply Ho. lia. }
  exists k'. split; [exact E|]. split; [split; simpl; try done; by destruct (qcow2 d)|].
  split; [by eapply keeps_weaken; [exact Hk|intros o ->]|].
  unfold space; simpl. rewrite (cons_middle (po, ps) pre post), app_assoc.
  eapply (space_remove (disk d) _ _ _ _ _ _ x post).
  - rewrite <- app_assoc. exact Hs.
  - rewrite <- app_assoc. eapply chain_unlink; [exact (sp_chain _ _ _ _ _ Hs)| |].
    + intros o s b Hin Hb. assert (Hin' : (o, s) ∈ pre ++ (po, ps) :: x :: post).
      { apply elem_of_app. apply elem_of_app in Hin as [?|?]; [by left|right]. by do 2 right. }
      destruct (sp_free _ _ _ _ _ Hs _ _ Hin') as (? & ? & Ho').
      apply (keeps_bytes _ _ _ _ _ _ (TFree o) Hk); [lia|intros y Hy; apply Ho'; lia|].
      intros [= ->]. revert Hin. rewrite <- (app_nil_l post).
      pose proof (space_fresh _ _ _ _ pre po ps (x :: post) s Hs) as Hfr. intros Hin. apply Hfr.
      apply elem_of_app in Hin as [?|?]; apply elem_of_app; [by left|right; by right].
    + pose proof (sp_chain _ _ _ _ _ Hs) as Hc. apply chain_app in Hc as [Hc _].
      unfold tombstone_bytes in *. rewrite !app_assoc in *.
      apply bytes_at_app in Hc as [Hc _]; [|lia]. apply bytes_at_app; [lia|]. rewrite C.
      split; [apply bytes_at_write_disj; [lia..|done|right; done]|]. apply (bytes_at_write_same (disk d) (po + 8)). lia.
  - rewrite (sp_head _ _ _ _ _ Hs). by destruct pre as [|[? ?] ?].
Qed.

Lemma alloc_scan_spec fuel needed t : 0 < needed → ∀ d own pre rest prev,
  healthy (kern d) → space d own (pre ++ rest) →
  bytes_at (disk d) 48 (be64 (free_list_head (qcow2 d))) →
  alloc_offset (qcow2 d) + needed ≤ 2 ^ 62 →
  (pre = [] ∨ ∃ pre' s, pre = pre' ++ [(prev, s)]) →
  ∃ p d' own' fl',
    alloc_scan fuel needed prev (fl_head rest) (bool_decide (pre = [])) d = (Ok p, d')
    ∧ alloc_post d own needed t p d' own' fl'.
Proof.
  intros Hn. induction fuel as [|fuel IH]; intros d own pre rest prev Hh Hs Hhd Hle Hpre;
    [by eapply alloc_append_spec|].
  cbn [alloc_scan]. destruct rest as [|[cur sz] post]; [by eapply alloc_append_spec|].
  assert (Hin : (cur, sz) ∈ pre ++ (cur, sz) :: post) by (apply elem_of_app; right; left).
  destruct (free_below_alloc _ _ _ _ _ _ _ Hs Hin) as (Hc0 & Hsz & Hca).
  pose proof (sp_alloc _ _ _ _ _ Hs) as Ha.
  destruct (sp_free _ _ _ _ _ Hs _ _ Hin) as (_ & _ & Ho).
  pose proof (sp_chain _ _ _ _ _ Hs) as [Htomb Hchain]%chain_app.
  assert (Hnext : 0 ≤ fl_head post < 2 ^ 62).
  { destruct post as [|[o s] post']; simpl; [lia|].
    destruct (free_below_alloc _ _ _ _ _ o s Hs) as (? & ? & ?); [|lia].
    apply elem_of_app; right; right; left. }
  change (fl_head ((cur, sz) :: post)) with cur. rewrite (proj2 (Z.eqb_neq cur 0)) by lia.
  destruct (kread_at Backing cur (tombstone_bytes sz (fl_head post)) d 16 Hh ltac:(lia) eq_refl ltac:(lia) Htomb) as (k1 & E1 & Q1).
  mstep E1. change (negb (16 =? 16)) with false. cbv iota.
  destruct (tombstone_fields (tombstone_bytes sz (fl_head post)) 0 sz (fl_head post)) as (T1 & T2 & T3);
    [lia|lia|lia|apply bytes_at_full|].
  change (read_at _ 0 16) with (tombstone_bytes sz (fl_head post)) in T1, T2, T3.
  rewrite T1, T2, T3. rewrite Z.eqb_refl. cbn [negb]. rewrite Z.geb_leb.
  set (d1 := set_kern k1 d). pose proof (same_dev_quiet d k1 Q1) as S1.
  pose proof (space_quiet d k1 _ _ Q1 Hs) as Hs1. pose proof (quiet_keeps d k1 own Q1) as K1.
  destruct (Z.leb_spec needed sz) as [Hfit|Hfit].
  - case_bool_decide as Hp.
    + subst pre. rewrite app_nil_l in *. rewrite s64_small by lia.
      set (d2 := set_q (set_free_list_head (fl_head post) (qcow2 d1)) d1).
      rewrite (bind_ok _ _ d1 tt d2) by done.
      destruct (alloc_split_spec d2 own post cur sz needed t) as (d' & own' & fl' & E & P);
        [apply S1| |lia|lia|lia|done|done|intros s; exact (space_fresh _ _ _ _ [] cur sz post s Hs)|].
      { apply (space_remove _ _ _ _ _ _ [] (cur, sz) post Hs1); [|done].
        apply (chain_app _ [(cur, sz)]), (sp_chain _ _ _ _ _ Hs1). }
      exists cur, d', own', fl'. split; [exact E|].
      eapply (alloc_post_trans d d2); [| |exact K1|exact P]; [|done].
      destruct S1; split; try done.
    + destruct Hpre as [?|(pre' & s & ->)]; [done|].
      rewrite <- app_assoc in Hs1. destruct (unlink_spec d1 own pre' prev s cur sz post) as (k2 & E2 & S2 & K2 & Hs2);
        [apply Q1|done|].
      mstep E2. change (negb (8 =? 8)) with false. cbv iota.
      destruct (alloc_split_spec (set_kern k2 d1) own (pre' ++ (prev, s) :: post) cur sz needed t)
        as (d' & own' & fl' & E & P); [apply S2|exact Hs2|lia|lia|lia|done|done| |].
      { intros s'. pose proof (space_fresh _ _ _ _ _ _ _ _ s' Hs) as Hf. by rewrite <- app_assoc in Hf. }
      exists cur, d', own', fl'. split; [exact E|].
      apply (alloc_post_trans d (set_kern k2 d1)); [|done| |exact P];
        [by eapply same_dev_trans|by eapply keeps_trans].
  - rewrite s64_small by lia.
    destruct (IH d1 own (pre ++ [(cur, sz)]) post cur) as (p & d' & own' & fl' & E & P).
    + apply Q1.
    + by rewrite <- app_assoc.
    + simpl. destruct Q1 as [_ ->]. done.
    + done.
    + right. by exists pre, sz.
    + exists p, d', own', fl'. rewrite bool_decide_false in E by (by destruct pre).
      split; [exact E|]. by apply (alloc_post_trans d d1).
Qed.

Lemma alloc_space_spec d own fl needed t :
  healthy (kern d) → space d own fl → bytes_at (disk d) 48 (be64 (free_list_head (qcow2 d))) →
  0 < needed → alloc_offset (qcow2 d) + needed ≤ 2 ^ 62 →
  ∃ p d' own' fl', lbd_qcow2_alloc_space needed d = (Ok p, d') ∧ alloc_post d own needed t p d' own' fl'.
Proof.
  intros Hh Hs Hhd Hn Hle. unfold lbd_qcow2_alloc_space. rewrite (bind_ok _ _ d d d) by done.
  rewrite (sp_head _ _ _ _ _ Hs). eapply (alloc_scan_spec _ needed t Hn d own [] fl 0); auto.
Qed.

End AllocProof.
