(* ===== verification/Qcow2Wf.v ===== *)
(** * Well-formed qcow2-lz4 stores

    [wf_disk] relates the image to the abstract state, [cache_ok] is the
    invariant of the three LRU caches, [base_rep] relates a base file to the
    clusters it provides; [wf] puts them together. *)
From S2P Require Import Prelude Kernel Format Qcow2State Qcow2Alloc Qcow2Cache Qcow2Io Qcow2Inv.
From S2P Require Import Qcow2AllocProof.

(** ** LRU caches *)

(** [key] is unique among the valid entries, every valid entry satisfies
    [good], and no entry was used later than [tick]. *)
Record cache_ok {A} (valid : A → bool) (lru key : A → Z) (good : A → Prop) (tick : Z)
    (l : list A) : Prop := {
  ca_len : length l = 16%nat;
  ca_lru k e : l !! k = Some e → 0 ≤ lru e ≤ tick;
  ca_good k e : l !! k = Some e → valid e = true → good e;
  ca_unique k k' e e' : l !! k = Some e → l !! k' = Some e' → valid e = true → valid e' = true →
    key e = key e' → k = k'
}.

Lemma find_idx_some {A} (p : A → bool) l k : find_idx p l = Some k →
  ∃ e, l !! k = Some e ∧ p e = true.
Proof.
  revert k. induction l as [|x l IH]; intros k; [done|]. simpl. destruct (p x) eqn:Hp.
  - intros [= <-]. by exists x.
  - intros (k' & E & ->)%fmap_Some. by apply IH.
Qed.

Lemma find_idx_none {A} (p : A → bool) l k e : find_idx p l = None → l !! k = Some e → p e = false.
Proof.
  revert k. induction l as [|x l IH]; intros k; [done|]. simpl. destruct (p x) eqn:Hp; [done|].
  intros E%fmap_None. destruct k; simpl; [by intros [= ->]|by apply IH].
Qed.

Lemma victim_scan_spec {A} (valid : A → bool) lru l i best oldest :
  (∀ k, best = Some k → (k < i + length l)%nat) →
  (best = None → oldest = U64_MAX ∧ l ≠ [] ∧ ∀ e, e ∈ l → lru e < U64_MAX) →
  ∃ k, victim_scan valid lru l i best oldest = Some k ∧ (k < i + length l)%nat.
Proof.
  revert i best oldest. induction l as [|x l IH]; intros i best oldest Hb Hn; simpl.
  { destruct best as [k|]; [exists k; split; [done|by apply Hb]|]. destruct Hn as (_ & Hne & _); done. }
  destruct (valid x); simpl; [|exists i; split; [done|lia]].
  destruct (Z.ltb_spec (lru x) oldest).
  - destruct (IH (S i) (Some i) (lru x)) as (k & E & Hk); [intros k [= <-]; lia|done|].
    exists k. split; [done|]. lia.
  - destruct best as [k0|].
    + destruct (IH (S i) (Some k0) oldest) as (k & E & Hk); [|done|exists k; split; [done|lia]].
      intros k [= <-]. specialize (Hb k0 eq_refl). simpl in Hb. lia.
    + destruct Hn as (-> & _ & Hl); [done|]. specialize (Hl x ltac:(left)). lia.
Qed.

Section CacheOk.
Context {A : Type} (valid : A → bool) (lru key : A → Z).
Local Abbreviation ok := (cache_ok valid lru key).

Lemma cache_victim good tick l : ok good tick l → tick < U64_MAX →
  ∃ k e, victim_scan valid lru l 0 None U64_MAX = Some k ∧ l !! k = Some e.
Proof.
  intros [Hlen Hlru _ _] Ht. destruct (victim_scan_spec valid lru l 0 None U64_MAX) as (k & E & Hk).
  - done.
  - intros _. split_and!; [done|by destruct l|]. intros e [k Hk]%list_elem_of_lookup.
    specialize (Hlru k e Hk). lia.
  - simpl in Hk. apply lookup_lt_is_Some in Hk as [e He]. by exists k, e.
Qed.

Lemma cache_weaken good good' tick tick' l : tick ≤ tick' → (∀ e, good e → good' e) →
  ok good tick l → ok good' tick' l.
Proof.
  intros Ht Hg []. split; [done| |by eauto|done]. intros k e He. specialize (ca_lru0 k e He). lia.
Qed.

(** Replacing entry [k]: by an invalid entry, or by a valid one whose key no
    other valid entry has. *)
Lemma cache_put good good' tick tick' l k e' :
  ok good tick l → tick ≤ tick' → 0 ≤ lru e' ≤ tick' →
  (∀ i e, i ≠ k → l !! i = Some e → valid e = true → good e → good' e) →
  (valid e' = true → good' e' ∧ ∀ i e, i ≠ k → l !! i = Some e → valid e = true → key e ≠ key e') →
  ok good' tick' (<[k := e']> l).
Proof.
  intros [Hlen Hlru Hgood Huq] Ht Hl Hoth Hnew. split.
  - by rewrite length_insert.
  - intros i e [(-> & <- & _)|[Hne He]]%list_lookup_insert_Some; [done|]. specialize (Hlru i e He). lia.
  - intros i e [(-> & <- & _)|[Hne He]]%list_lookup_insert_Some Hv; [by apply Hnew|].
    eapply Hoth; eauto.
  - intros i j e1 e2 [(-> & <- & _)|[Hne He]]%list_lookup_insert_Some
      [(-> & <- & _)|[Hne' He']]%list_lookup_insert_Some Hv Hv' Hk; [done|..].
    + exfalso. destruct (Hnew Hv) as [_ Hu]. by apply (Hu j e2).
    + exfalso. destruct (Hnew Hv') as [_ Hu]. by apply (Hu i e1).
    + by eapply Huq.
Qed.

(** Rewriting entry [k] without changing its key. *)
Lemma cache_touch good good' tick tick' l k e e' :
  ok good tick l → l !! k = Some e → tick ≤ tick' → 0 ≤ lru e' ≤ tick' →
  (valid e' = true → valid e = true ∧ key e' = key e ∧ good' e') →
  (∀ i e1, i ≠ k → l !! i = Some e1 → valid e1 = true → good e1 → good' e1) →
  ok good' tick' (<[k := e']> l).
Proof.
  intros Hok He Ht Hl Hv Hoth. eapply cache_put; eauto. intros Hv'.
  destruct (Hv Hv') as (Hve & Hk & Hg). split; [done|]. intros i e1 Hne He1 Hv1 Heq.
  apply Hne. eapply (ca_unique _ _ _ _ _ _ Hok); eauto. congruence.
Qed.
End CacheOk.

Lemma alter_insert_some {A} (f : A → A) (l : list A) k e : l !! k = Some e →
  alter f k l = <[k := f e]> l.
Proof.
  intros He. apply list_eq. intros i. destruct (decide (i = k)) as [->|Hne].
  - rewrite list_lookup_alter_eq, He. rewrite list_lookup_insert_eq; [done|by eapply lookup_lt_Some].
  - by rewrite list_lookup_alter_ne, list_lookup_insert_ne.
Qed.

(** ** L2 tables on disk *)
Section L2Disk.
Context `{CrcLaws}.

Lemma length_be64s l : length (flat_map be64 l) = (8 * length l)%nat.
Proof. induction l; [done|]. simpl. rewrite IHl. lia. Qed.

Lemma zlen_be64s l : zlen (flat_map be64 l) = 8 * zlen l.
Proof. unfold zlen. rewrite length_be64s. lia. Qed.

(** Entry [j] of a serialised table. *)
Lemma be64s_at l j e : l !! j = Some e →
  bytes_at (flat_map be64 l) (8 * Z.of_nat j) (be64 e).
Proof.
  revert j. induction l as [|x l IH]; intros [|j] He; try done.
  - injection He as <-. intros i Hi. by apply (lookup_app_l (be64 x)).
  - simpl in He. intros i Hi. rewrite <- (IH j He i Hi).
    change (flat_map be64 (x :: l)) with (be64 x ++ flat_map be64 l).
    replace (Z.to_nat (8 * Z.of_nat (S j)) + i)%nat
      with (length (be64 x) + (Z.to_nat (8 * Z.of_nat j) + i))%nat by (rewrite length_be64; lia).
    rewrite lookup_app_r by lia. f_equal. lia.
Qed.

Definition l2_shape (cs : Z) (t : list Z) : Prop :=
  8 ≤ cs ∧ 8 * zlen t ≤ cs - 8 ∧ Forall (λ e, 0 ≤ e < 2 ^ 64) t.

Lemma zlen_l2_raw cs t : l2_shape cs t → zlen (flat_map be64 t ++ zeros (cs - 8 * zlen t)) = cs.
Proof. intros (H1 & H2 & _). unfold zlen in *. rewrite length_app, length_be64s, length_zeros. lia. Qed.

Lemma zlen_l2_disk cs t : l2_shape cs t → zlen (l2_disk cs t) = cs.
Proof.
  intros Hs. pose proof Hs as (H1 & _). unfold l2_disk. rewrite zlen_write_at by lia.
  rewrite decide_False by done. rewrite zlen_l2_raw by done. change (zlen (be32 _)) with 4. lia.
Qed.

(** The prefix the checksum covers is not changed by storing the checksum. *)
Lemma read_at_write_before f p d n : 0 ≤ n ≤ p → p ≤ zlen f → read_at (write_at f p d) 0 n = read_at f 0 n.
Proof.
  intros Hn Hp. apply list_eq. intros i. unfold read_at. rewrite !drop_0.
  destruct (decide (i < Z.to_nat n)%nat); [|by rewrite !lookup_take_ge by lia].
  rewrite !lookup_take_lt, lookup_write_at by lia. rewrite decide_False by lia.
  rewrite decide_False; [done|]. unfold zlen in *. lia.
Qed.

Lemma l2_disk_crc cs t : l2_shape cs t → l2_crc_ok cs (l2_disk cs t) = true.
Proof.
  intros Hs. pose proof Hs as (H1 & _). pose proof (zlen_l2_raw cs t Hs) as Hl.
  unfold l2_crc_ok. apply Z.eqb_eq. unfold l2_disk at 1 2.
  rewrite read_at_write_before by lia.
  apply get32_bytes_at; [lia|apply u32_range|]. apply bytes_at_write_same. lia.
Qed.

Lemma l2_disk_entries cs t : l2_shape cs t → be64_array (zlen t) (l2_disk cs t) = t.
Proof.
  intros Hs. pose proof Hs as (H1 & H2 & H3). apply list_eq. intros j. unfold be64_array, zlen.
  rewrite Nat2Z.id, list_lookup_fmap. destruct (t !! j) as [e|] eqn:He.
  - pose proof (lookup_lt_Some _ _ _ He). rewrite lookup_seq_lt by done. simpl. f_equal.
    unfold zlen in *. apply get64_bytes_at; [lia|by apply (Forall_lookup_1 _ _ _ _ H3 He)|].
    apply bytes_at_write_disj; [lia|lia| |right; change (zlen (be64 e)) with 8; lia].
    intros i Hi. rewrite <- (be64s_at t j e He i Hi). apply lookup_app_l.
    rewrite length_be64s. rewrite length_be64 in Hi. lia.
  - apply lookup_ge_None in He. by rewrite lookup_seq_ge by done.
Qed.
End L2Disk.

(** ** The abstract state and the image *)

(** Ghost state: owners of bytes, free list, current L2 tables, contents of the
    guest clusters, contents the base layer provides ([None]: unallocated). *)
Record ghost : Type := Ghost {
  g_own : Z → tag;
  g_fl : list (Z * Z);
  g_tbl : Z → list Z;
  g_view : Z → bytes;
  g_bv : Z → option bytes
}.

Definition fupd {A} (f : Z → A) (i : Z) (v : A) : Z → A := λ j, if decide (j = i) then v else f j.

Lemma fupd_eq {A} (f : Z → A) i v : fupd f i v i = v.
Proof. unfold fupd. by rewrite decide_True. Qed.
Lemma fupd_ne {A} (f : Z → A) i v j : j ≠ i → fupd f i v j = f j.
Proof. intros. unfold fupd. by rewrite decide_False. Qed.

(** The L1 entry [i], the L2 entry of cluster [ci], its physical offset. *)
Definition l1_at (q : lbd_qcow2) (i : Z) : Z := default 0 (l1_table q !! Z.to_nat i).
Definition ent (n : Z) (tbl : Z → list Z) (ci : Z) : Z :=
  default 0 (tbl (ci / n) !! Z.to_nat (ci mod n)).
Definition phys_of (e : Z) : Z := Z.land e LBD_QCOW2_L2_OFFSET_MASK.

(** Geometry established by [lbd_qcow2_init]. *)
Record geom (q : lbd_qcow2) : Prop := {
  ge_bits : 12 ≤ cluster_bits q ≤ 24;
  ge_cs : cluster_size q = 2 ^ cluster_bits q;
  ge_l2n : l2_entries q = l2_entries_of (cluster_size q);
  ge_l1 : zlen (l1_table q) = l1_size q;
  ge_l1_size : 0 ≤ l1_size q < 2 ^ 32
}.

(** The first 36 bytes of the header. *)
Definition header36 (q : lbd_qcow2) : bytes :=
  be64 LBD_QCOW2_MAGIC ++ be32 LBD_QCOW2_VERSION ++ be32 (cluster_bits q)
    ++ be64 (virtual_size q) ++ be64 (l1_offset q) ++ be32 (l1_size q).

Section Wf.
Context {K : Type} `{KernelLaws K} `{LZ4Laws} `{CrcLaws}.
Local Abbreviation disk d := (content (kern d) Backing).

(** L2 entry [e] of the file [f] stores the cluster [b] in an extent of [sz] bytes. *)
Definition entry_holds (f : bytes) (cs e : Z) (b : bytes) (sz : Z) : Prop :=
  0 < phys_of e < 2 ^ 62 ∧ zlen b = cs ∧
  if Z.land e LBD_QCOW2_L2_COMPRESSED =? 0 then bytes_at f (phys_of e) b ∧ sz = cs
  else ∃ c, 0 < zlen c ≤ u32 (LZ4_compressBound cs) ∧ bytes_at f (phys_of e) (be32 (zlen c) ++ c)
            ∧ LZ4_decompress_safe c cs = Some b ∧ sz = ALIGN4096 (4 + zlen c).

(** The L1 and L2 tables of the file [f] describe [tbl]. *)
Definition l2_stored (f : bytes) (cs l1e : Z) (t : list Z) : Prop :=
  l2_shape cs t ∧ zlen t = l2_entries_of cs ∧
  (l1e = 0 → t = replicate (Z.to_nat (l2_entries_of cs)) 0) ∧
  (l1e ≠ 0 → 0 < l1e < 2 ^ 62 ∧ bytes_at f l1e (l2_disk cs t)).

(** Owners whose bytes an operation on the clusters of [hole] leaves alone. *)
Definition kept (hole : Z → Prop) (t : tag) : Prop :=
  match t with TMeta | TL1 | TL2 _ => True | TData ci => ¬ hole ci | _ => False end.

(** The image [f] of the store [q] holds the abstract state [g]; the clusters in
    [hole] are in the middle of an update and exempt. *)
Record wf_disk (hole : Z → Prop) (f : bytes) (q : lbd_qcow2) (g : ghost) : Prop := {
  wd_space : space_ok f (alloc_offset q) (free_list_head q) (g_own g) (g_fl g);
  wd_head : bytes_at f 48 (be64 (free_list_head q));
  wd_meta : bytes_at f 0 (header36 q) ∧ owns (g_own g) 0 36 TMeta;
  wd_comp : bytes_at f 44 (be32 LBD_QCOW2_COMP_LZ4) ∧ owns (g_own g) 44 4 TMeta;
  wd_pad : ∃ pad, zlen pad = 4040 ∧ bytes_at f 56 pad ∧ owns (g_own g) 56 4040 TMeta;
  wd_l1off : 0 ≤ l1_offset q ∧ l1_offset q + 8 * l1_size q ≤ 2 ^ 62;
  wd_l1own : owns (g_own g) (l1_offset q) (8 * l1_size q) TL1;
  wd_l1disk i : 0 ≤ i < l1_size q → bytes_at f (l1_offset q + i * 8) (be64 (l1_at q i));
  wd_l2own i : 0 ≤ i → l1_at q i ≠ 0 → owns (g_own g) (l1_at q i) (cluster_size q) (TL2 i);
  wd_l2 i : 0 ≤ i → l2_stored f (cluster_size q) (l1_at q i) (g_tbl g i);
  wd_data ci : 0 ≤ ci → ¬ hole ci → ent (l2_entries q) (g_tbl g) ci ≠ 0 →
    ∃ sz, entry_holds f (cluster_size q) (ent (l2_entries q) (g_tbl g) ci) (g_view g ci) sz
          ∧ owns (g_own g) (phys_of (ent (l2_entries q) (g_tbl g) ci)) sz (TData ci);
  wd_zero ci : 0 ≤ ci → ¬ hole ci → ent (l2_entries q) (g_tbl g) ci = 0 →
    g_view g ci = default (zeros (cluster_size q)) (g_bv g ci);
  wd_view ci : 0 ≤ ci → zlen (g_view g ci) = cluster_size q;
  wd_bv ci b : g_bv g ci = Some b → zlen b = cluster_size q
}.

(** ** The base layer *)
Definition l2e_ok (tbl : Z → list Z) (e : lbd_l2_cache_entry) : Prop :=
  l2_dirty e = false ∧ 0 ≤ l1_index e ∧ table e = tbl (l1_index e).

Definition base_l1_at (b : lbd_qcow2_base) (i : Z) : Z := default 0 (b_l1_table b !! Z.to_nat i).

(** The base file [f] opened as [b] provides the clusters [bv]. *)
Definition base_rep (f : bytes) (cs : Z) (b : lbd_qcow2_base) (bv : Z → option bytes) : Prop :=
  if b_is_qcow2 b then
    ∃ btbl, b_cluster_size b = cs ∧ b_l2_entries b = l2_entries_of cs
      ∧ zlen (b_l1_table b) = b_l1_size b
      ∧ (∀ i, 0 ≤ i → l2_stored f cs (base_l1_at b i) (btbl i))
      ∧ (∀ ci, 0 ≤ ci →
           let e := ent (l2_entries_of cs) btbl ci in
           if e =? 0 then bv ci = None
           else ∃ c sz, bv ci = Some c ∧ entry_holds f cs e c sz)
      ∧ cache_ok l2_valid l2_lru l1_index (l2e_ok btbl) (b_lru_tick b) (b_l2_cache b)
  else
    b_size b = zlen f
    ∧ ∀ ci, 0 ≤ ci → bv ci = if ci * cs + cs >? b_size b then None
                              else Some (read_at f (ci * cs) cs).

Definition base_ok (d : qdev K) (g : ghost) : Prop :=
  match base d with
  | None => ∀ ci, g_bv g ci = None
  | Some b => (∃ p, b_file b = BaseFile p)
              ∧ base_rep (content (kern d) (b_file b)) (cluster_size (qcow2 d)) b (g_bv g)
              ∧ 0 ≤ b_lru_tick b
  end.

(** ** The invariant of a device *)
Definition l2c_ok (q : lbd_qcow2) (tbl : Z → list Z) : Prop :=
  cache_ok l2_valid l2_lru l1_index (l2e_ok tbl) (lru_tick q) (l2_cache q).
Definition cle_ok (view : Z → bytes) (e : lbd_cl_cache_entry) : Prop :=
  0 ≤ cluster_index e ∧ data e = view (cluster_index e).
Definition clc_ok (q : lbd_qcow2) (view : Z → bytes) : Prop :=
  cache_ok cl_valid cl_lru cluster_index (cle_ok view) (lru_tick q) (cl_cache q).

Record wf (d : qdev K) (g : ghost) : Prop := {
  wf_healthy : healthy (kern d);
  wf_geom : geom (qcow2 d);
  wf_img : wf_disk (λ _, False) (disk d) (qcow2 d) g;
  wf_base : base_ok d g;
  wf_l2c : l2c_ok (qcow2 d) (g_tbl g);
  wf_clc : clc_ok (qcow2 d) (g_view g);
  wf_tick : 0 ≤ lru_tick (qcow2 d)
}.

(** Room for [n] more cluster operations: image offsets stay below 2^62 and the
    64-bit LRU counters do not reach their maximum. *)
Definition room (d : qdev K) (n : Z) : Prop :=
  0 ≤ n ∧ alloc_offset (qcow2 d) + 2 * cluster_size (qcow2 d) * n ≤ 2 ^ 62
  ∧ lru_tick (qcow2 d) + 4 * n < U64_MAX
  ∧ match base d with None => True | Some b => b_lru_tick b + n < U64_MAX end.

(** The cluster index [ci] is addressable. *)
Definition ci_ok (q : lbd_qcow2) (ci : Z) : Prop :=
  0 ≤ ci < l1_size q * l2_entries q ∧ (ci + 1) * cluster_size q ≤ 2 ^ 62.

(** ** Lemmas *)
Lemma geom_cs q : geom q → 4096 ≤ cluster_size q ≤ 2 ^ 24.
Proof.
  intros [Hb Hc _ _ _]. rewrite Hc. change 4096 with (2 ^ 12).
  split; apply Z.pow_le_mono_r; lia.
Qed.

Lemma cs_multiple q : geom q → ∃ m, cluster_size q = 4096 * m.
Proof.
  intros [Hb Hc _ _ _]. exists (2 ^ (cluster_bits q - 12)). rewrite Hc.
  change 4096 with (2 ^ 12). rewrite <- Z.pow_add_r by lia. f_equal; lia.
Qed.

Lemma l2n_bounds q : geom q → 511 ≤ l2_entries q < 2 ^ 22 ∧ 8 * l2_entries q ≤ cluster_size q - 8.
Proof.
  intros Hg. pose proof (geom_cs q Hg). rewrite (ge_l2n q Hg). unfold l2_entries_of, LBD_QCOW2_L2_TRAILER_SIZE.
  pose proof (Z.div_mod (cluster_size q - 8) 8). pose proof (Z.mod_pos_bound (cluster_size q - 8) 8). lia.
Qed.

(** Splitting a cluster index as the code does, without truncation. *)
Lemma ci_split q ci : geom q → ci_ok q ci →
  u32 (ci / l2_entries q) = ci / l2_entries q ∧ u32 (ci mod l2_entries q) = ci mod l2_entries q
  ∧ 0 ≤ ci / l2_entries q < l1_size q ∧ 0 ≤ ci mod l2_entries q < l2_entries q.
Proof.
  intros Hg [Hci _]. pose proof (l2n_bounds q Hg). pose proof (ge_l1_size q Hg).
  pose proof (Z.mod_pos_bound ci (l2_entries q) ltac:(lia)).
  assert (0 ≤ ci / l2_entries q < l1_size q).
  { split; [apply Z.div_pos; lia|apply Z.div_lt_upper_bound; lia]. }
  rewrite !u32_small by lia. done.
Qed.

(** Geometry and tables do not change. *)
Definition same_geo (q q' : lbd_qcow2) : Prop :=
  cluster_bits q' = cluster_bits q ∧ cluster_size q' = cluster_size q ∧ l2_entries q' = l2_entries q
  ∧ virtual_size q' = virtual_size q ∧ l1_table q' = l1_table q ∧ l1_size q' = l1_size q
  ∧ l1_offset q' = l1_offset q.

Lemma geom_same q q' : same_geo q q' → geom q → geom q'.
Proof. intros (? & ? & ? & ? & ? & ? & ?) []. split; congruence. Qed.

Lemma header36_same q q' : same_geo q q' → header36 q' = header36 q.
Proof. intros (? & ? & ? & ? & ? & ? & ?). unfold header36. congruence. Qed.

Lemma owns_kept own own' hole p n t : owns own p n t → kept hole t →
  (∀ o, kept hole (own o) → own' o = own o) → owns own' p n t.
Proof. intros Ho Hk Hs o Hr. rewrite Hs; rewrite (Ho o Hr); done. Qed.

Lemma entry_holds_mono f f' cs e b sz own (T : tag → Prop) ci :
  keeps own T f f' → ¬ T (TData ci) → owns own (phys_of e) sz (TData ci) →
  cs < 2 ^ 62 → entry_holds f cs e b sz → entry_holds f' cs e b sz.
Proof.
  intros Hk Hh Ho Hcs (Hp & Hl & He). split_and!; [lia..|done|].
  destruct (Z.land e LBD_QCOW2_L2_COMPRESSED =? 0).
  - destruct He as [He ->]. split; [|done].
    eapply keeps_bytes; [done|lia|by rewrite Hl|done|done].
  - destruct He as (c & Hc & Hb & Hd & Hsz). exists c. split; [done|]. split; [|done].
    eapply (keeps_bytes _ _ _ _ _ _ (TData ci)); [done|lia| |done|done]. intros o Hr. apply Ho.
    assert (zlen c < 2 ^ 32) by (pose proof (u32_range (LZ4_compressBound cs)); lia).
    destruct (ALIGN4096_spec (4 + zlen c)) as [? _]; [lia|].
    unfold zlen in *. rewrite length_app, length_be32 in Hr. lia.
Qed.

(** The frame rule of the store: whatever leaves the kept bytes and their owners
    alone preserves [wf_disk]. *)
Lemma wf_disk_frame hole f q g f' q' own' fl' :
  geom q → wf_disk hole f q g → same_geo q q' →
  space_ok f' (alloc_offset q') (free_list_head q') own' fl' →
  bytes_at f' 48 (be64 (free_list_head q')) →
  (∀ o, kept hole (g_own g o) → own' o = g_own g o) →
  keeps (g_own g) (λ t, ¬ kept hole t) f f' →
  wf_disk hole f' q' (Ghost own' fl' (g_tbl g) (g_view g) (g_bv g)).
Proof.
  intros Hg [] Hq Hs Hh Ho Hk. pose proof Hq as (Q1 & Q2 & Q3 & Q4 & Q5 & Q6 & Q7).
  pose proof (geom_cs q Hg) as Hcs.
  assert (HT : ∀ p d t, 0 ≤ p → owns (g_own g) p (zlen d) t → kept hole t →
            bytes_at f p d → bytes_at f' p d).
  { intros p d t Hp Hon Ht. eapply keeps_bytes; eauto. }
  assert (Hl1 : ∀ i, l1_at q' i = l1_at q i) by (intros i; unfold l1_at; by rewrite Q5).
  split; simpl; rewrite ?Q2, ?Q3, ?Q6, ?Q7; try done.
  - destruct wd_meta0 as [Hb Hon]. rewrite (header36_same q q' Hq). split; [|by eapply owns_kept].
    by eapply HT.
  - destruct wd_comp0 as [Hb Hon]. split; [by eapply HT|by eapply owns_kept].
  - destruct wd_pad0 as (pad & Hl & Hb & Hon). exists pad. split_and!; [done| |by eapply owns_kept].
    eapply HT; [|by rewrite Hl|done|done]. lia.
  - by eapply owns_kept.
  - intros i Hi. rewrite Hl1. eapply (HT _ _ TL1); [lia| |done|by apply wd_l1disk0].
    intros o Hr. apply wd_l1own0. change (zlen (be64 _)) with 8 in Hr. lia.
  - intros i Hi. rewrite Hl1. intros Hne. eapply owns_kept; [by apply wd_l2own0|done|done].
  - intros i Hi. rewrite Hl1. destruct (wd_l2 _ _ _ _ ltac:(done) i Hi) as (Hsh & Hlen & Hz & Hnz).
    split_and!; try done. intros Hne. destruct (Hnz Hne) as [Hr Hb]. split; [done|].
    eapply (HT _ _ (TL2 i)); [lia| |done|done]. rewrite zlen_l2_disk by done. by apply wd_l2own0.
  - intros ci Hci Hh' He. destruct (wd_data0 ci Hci Hh' He) as (sz & Hen & Hon). exists sz.
    split; [|by eapply owns_kept]. eapply entry_holds_mono; [exact Hk|intros Hn; by apply Hn|done|lia|done].
Qed.
End Wf.
