(* ===== verification/Qcow2CacheProof.v ===== *)
(** * Correctness of the caches and of loading a cluster

    On a well-formed device [lbd_qcow2_l2_get] returns the current L2 table and
    [lbd_qcow2_cl_load] the current contents of a cluster, whatever the caches
    hold, and both keep the invariant. *)
From S2P Require Import Prelude Kernel Format Qcow2State Qcow2Alloc Qcow2Cache Qcow2Io Qcow2Inv.
From S2P Require Import Qcow2AllocProof Qcow2Wf.

Lemma alter_insert_same {A} (f : A → A) (l : list A) k x : (k < length l)%nat →
  alter f k (<[k := x]> l) = <[k := f x]> l.
Proof.
  intros Hk. rewrite (alter_insert_some f _ k x) by (by apply list_lookup_insert_eq).
  by rewrite list_insert_insert_eq.
Qed.

Section CacheProof.
Context {K : Type} `{KernelLaws K} `{LZ4Laws} `{CrcLaws}.
Local Abbreviation disk d := (content (kern d) Backing).
Implicit Types d : qdev K.

(** ** Frame of the operations that only fill caches *)
Definition base_step (b b' : option lbd_qcow2_base) (m : Z) : Prop :=
  match b, b' with
  | None, None => True
  | Some b, Some b' => b' = b_set_cache (b_l2_cache b') (b_set_tick (b_lru_tick b') b)
                       ∧ b_lru_tick b ≤ b_lru_tick b' ≤ b_lru_tick b + m
  | _, _ => False
  end.

Record cached (d d' : qdev K) (n m : Z) : Prop := {
  cs_quiet : quiet d (kern d');
  cs_q : qcow2 d' = set_l2_cache (l2_cache (qcow2 d')) (set_cl_cache (cl_cache (qcow2 d'))
                      (set_lru_tick (lru_tick (qcow2 d')) (qcow2 d)));
  cs_tick : lru_tick (qcow2 d) ≤ lru_tick (qcow2 d') ≤ lru_tick (qcow2 d) + n;
  cs_base : base_step (base d) (base d') m;
  cs_path : base_path d' = base_path d;
  cs_miss : miss_handler d' = miss_handler d;
  cs_replies : miss_replies d' = miss_replies d;
  cs_stats : stats d' = stats d
}.

Lemma base_step_refl b m : 0 ≤ m → base_step b b m.
Proof. intros Hm. destruct b as [[]|]; simpl; [|done]. split; [done|lia]. Qed.

Lemma base_step_trans b1 b2 b3 m1 m2 :
  base_step b1 b2 m1 → base_step b2 b3 m2 → base_step b1 b3 (m1 + m2).
Proof.
  destruct b1, b2, b3; simpl; try done. intros [-> ?] [-> ?]. split; [done|]. simpl in *. lia.
Qed.

Lemma cached_refl d n m : healthy (kern d) → 0 ≤ n → 0 ≤ m → cached d d n m.
Proof.
  intros Hh Hn Hm. split; try done; [by destruct (qcow2 d)|lia|by apply base_step_refl].
Qed.

Lemma cached_trans d1 d2 d3 n1 m1 n2 m2 :
  cached d1 d2 n1 m1 → cached d2 d3 n2 m2 → cached d1 d3 (n1 + n2) (m1 + m2).
Proof.
  intros [[Q1 Q1'] C1] [[Q2 Q2'] C2]. split; try congruence.
  - split; [done|]. intros h. by rewrite Q2', Q1'.
  - rewrite C2, C1. by destruct (qcow2 d1).
  - lia.
  - by eapply base_step_trans.
Qed.

Lemma cached_weaken d d' n m n' m' : cached d d' n m → n ≤ n' → m ≤ m' → cached d d' n' m'.
Proof.
  intros [] Hn Hm. split; try done; [lia|]. destruct (base d), (base d'); simpl in *; try done.
  destruct cs_base0. split; [done|lia].
Qed.

Lemma cached_geo d d' n m : cached d d' n m → same_geo (qcow2 d) (qcow2 d')
  ∧ alloc_offset (qcow2 d') = alloc_offset (qcow2 d) ∧ free_list_head (qcow2 d') = free_list_head (qcow2 d).
Proof. intros [_ E _ _ _ _ _ _]. rewrite E. by destruct (qcow2 d). Qed.

Lemma ghost_eta g : Ghost (g_own g) (g_fl g) (g_tbl g) (g_view g) (g_bv g) = g.
Proof. by destruct g. Qed.

Lemma wf_disk_same hole f q q' g : geom q → wf_disk hole f q g → same_geo q q' →
  alloc_offset q' = alloc_offset q → free_list_head q' = free_list_head q → wf_disk hole f q' g.
Proof.
  intros Hg Hw Hq Ha Hh. rewrite <- (ghost_eta g).
  eapply wf_disk_frame; [done|done|done|rewrite Ha, Hh; by apply (wd_space _ _ _ _ Hw)| |done|apply keeps_refl].
  rewrite Hh. apply (wd_head _ _ _ _ Hw).
Qed.

Lemma wf_cached d d' g n m : wf d g → cached d d' n m →
  l2c_ok (qcow2 d') (g_tbl g) → clc_ok (qcow2 d') (g_view g) → base_ok d' g → wf d' g.
Proof.
  intros [] Hc H1' H2' H3'. destruct (cached_geo _ _ _ _ Hc) as (Hq & Ha & Hh). destruct Hc as [[Q1 Q2]].
  split; try done; [by eapply geom_same| |lia].
  rewrite Q2. by eapply wf_disk_same.
Qed.

(** The base layer of a device whose base and files did not change. *)
Lemma base_ok_same d d' g g' : base d' = base d → (∀ h, content (kern d') (BaseFile h) = content (kern d) (BaseFile h)) →
  cluster_size (qcow2 d') = cluster_size (qcow2 d) → g_bv g' = g_bv g → base_ok d g → base_ok d' g'.
Proof.
  intros Hb Hc Hq Hg. unfold base_ok. rewrite Hb, Hg, Hq. destruct (base d) as [b|]; [|done].
  intros ([p Hp] & Hr & Ht). rewrite Hp in *. rewrite Hc. split; [by exists p|done].
Qed.

Lemma clc_mono q q' view : cl_cache q' = cl_cache q → lru_tick q ≤ lru_tick q' → clc_ok q view → clc_ok q' view.
Proof. intros E Ht. unfold clc_ok. rewrite E. by apply cache_weaken. Qed.

Lemma l2c_mono q q' tbl : l2_cache q' = l2_cache q → lru_tick q ≤ lru_tick q' → l2c_ok q tbl → l2c_ok q' tbl.
Proof. intros E Ht. unfold l2c_ok. rewrite E. by apply cache_weaken. Qed.

(** ** L2 cache *)
Lemma lru_tick_ok d : 0 ≤ lru_tick (qcow2 d) < U64_MAX →
  lbd_qcow2_lru_tick d
  = (Ok (lru_tick (qcow2 d)), set_q (set_lru_tick (lru_tick (qcow2 d) + 1) (qcow2 d)) d).
Proof.
  intros Ht. unfold U64_MAX in Ht. unfold lbd_qcow2_lru_tick, upd_q, modify. munfold.
  by rewrite u64_small by lia.
Qed.

Lemma l1_lookup q i : geom q → 0 ≤ i < l1_size q → l1_table q !! Z.to_nat i = Some (l1_at q i).
Proof.
  intros Hg Hi. unfold l1_at. pose proof (ge_l1 q Hg). unfold zlen in *.
  destruct (lookup_lt_is_Some_2 (l1_table q) (Z.to_nat i)) as [x ->]; [lia|done].
Qed.

Lemma arr_get_ok {S A} (l : list A) i x (s : S) : 0 ≤ i → l !! Z.to_nat i = Some x →
  arr_get l i s = (Ok x, s).
Proof. intros Hi Hx. unfold arr_get. rewrite decide_True by done. by rewrite Hx. Qed.

Lemma wf_quiet d g : wf d g → quiet d (kern d).
Proof. intros Hwf. split; [apply (wf_healthy _ _ Hwf)|done]. Qed.

(** The entry a load into slot [k] leaves. *)
Definition l2_slot (d : qdev K) (k' : K) (k : nat) (e : lbd_l2_cache_entry) : qdev K :=
  set_kern k' (set_q (set_l2_cache (<[k := e]> (l2_cache (qcow2 d)))
                       (set_lru_tick (lru_tick (qcow2 d) + 1) (qcow2 d))) d).

Lemma l2_load_run d g k e0 idx : wf d g → l2_cache (qcow2 d) !! k = Some e0 → 0 ≤ idx →
  lru_tick (qcow2 d) < U64_MAX →
  ∃ k', quiet d k' ∧ l2_load k idx d
    = (Ok (Some k), l2_slot d k' k (L2E idx true false (lru_tick (qcow2 d)) (g_tbl g idx))).
Proof.
  intros Hwf He Hi Ht. pose proof (wf_geom _ _ Hwf) as Hg. pose proof (wf_tick _ _ Hwf).
  pose proof (geom_cs _ Hg) as Hcs. pose proof (lookup_lt_Some _ _ _ He) as Hk.
  destruct (wd_l2 _ _ _ _ (wf_img _ _ Hwf) idx Hi) as (Hsh & Hlen & Hz & Hnz).
  unfold l2_load. rewrite (bind_ok _ _ _ _ _ (lru_tick_ok d ltac:(lia))).
  set (t := lru_tick (qcow2 d)) in *.
  set (q1 := set_lru_tick (t + 1) (qcow2 d)).
  set (d1 := set_q (set_l2_cache (alter (l2e_claim idx t) k (l2_cache (qcow2 d))) q1) d).
  rewrite (bind_ok _ _ _ tt d1) by done. rewrite (bind_ok _ _ d1 d1 d1) by done. cbv zeta.
  rewrite (bind_ok _ _ d1 (l1_at (qcow2 d) idx) d1).
  2:{ change (l1_size (qcow2 d1)) with (l1_size (qcow2 d)). change (l1_table (qcow2 d1)) with (l1_table (qcow2 d)).
      destruct (Z.ltb_spec idx (l1_size (qcow2 d))).
      - apply arr_get_ok; [done|]. by apply l1_lookup.
      - unfold l1_at. rewrite lookup_ge_None_2; [done|].
        pose proof (ge_l1 _ Hg). unfold zlen in *. lia. }
  assert (Hdone : ∀ k' tb, (l2_done k tb (set_kern k' d1) : res (option nat) * qdev K)
     = (Ok (Some k), l2_slot d k' k (L2E idx true false t tb))).
  { intros k' tb. unfold l2_done, upd_l2, upd_q, modify. munfold. unfold l2_slot. fold t. fold q1.
    simpl. rewrite (alter_insert_some _ _ k e0 He), !alter_insert_same by done.
    done. }
  destruct (Z.eqb_spec (l1_at (qcow2 d) idx) 0) as [E|E]; cbn [negb]; cbv iota.
  - exists (kern d). split; [by eapply wf_quiet|].
    rewrite (Hz E). change (l2_entries (qcow2 d1)) with (l2_entries (qcow2 d)).
    rewrite (ge_l2n _ Hg). exact (Hdone (kern d) _).
  - destruct (Hnz E) as [Hr Hb].
    destruct (kalloc_ok (cluster_size (qcow2 d1)) d1 (wf_healthy _ _ Hwf)) as (k1 & E1 & Q1).
    mstep E1.
    destruct (kread_at Backing (l1_at (qcow2 d) idx) (l2_disk (cluster_size (qcow2 d)) (g_tbl g idx))
      (set_kern k1 d1) (cluster_size (qcow2 d))) as (k2 & E2 & Q2);
      [apply Q1|lia|by rewrite zlen_l2_disk|lia|simpl; destruct Q1 as [_ ->]; done|].
    rewrite s64_small by lia.
    change (cluster_size (qcow2 d1)) with (cluster_size (qcow2 d)). cbn [negb].
    mstep E2. rewrite Z.eqb_refl. cbn [negb]. rewrite l2_disk_crc by done. cbn [negb].
    change (l2_entries (qcow2 d1)) with (l2_entries (qcow2 d)).
    rewrite (ge_l2n _ Hg), <- Hlen, l2_disk_entries by done.
    exists k2. split; [|exact (Hdone k2 _)].
    destruct Q1 as [_ Q1]. destruct Q2 as [Q2 Q2']. split; [done|]. intros h. rewrite Q2'. simpl. by rewrite Q1.
Qed.

(** What [lbd_qcow2_l2_get] returns: a slot holding the current table. *)
Record l2_at (d : qdev K) (g : ghost) (idx : Z) (k : nat) (e : lbd_l2_cache_entry) : Prop := {
  la_slot : l2_cache (qcow2 d) !! k = Some e;
  la_valid : l2_valid e = true;
  la_dirty : l2_dirty e = false;
  la_key : l1_index e = idx;
  la_table : table e = g_tbl g idx
}.

Lemma cached_l2 d k' l : quiet d k' →
  cached d (set_kern k' (set_q (set_l2_cache l (set_lru_tick (lru_tick (qcow2 d) + 1) (qcow2 d))) d)) 1 0.
Proof.
  intros Q. split; simpl; try done; try lia; by apply base_step_refl.
Qed.

Lemma l2_put_wf d g k' k e0 e : wf d g → quiet d k' → l2_cache (qcow2 d) !! k = Some e0 →
  l2_valid e = true → l2_dirty e = false → 0 ≤ l1_index e → table e = g_tbl g (l1_index e) →
  0 ≤ l2_lru e ≤ lru_tick (qcow2 d) →
  (∀ i e', i ≠ k → l2_cache (qcow2 d) !! i = Some e' → l2_valid e' = true → l1_index e' ≠ l1_index e) →
  wf (l2_slot d k' k e) g ∧ l2_at (l2_slot d k' k e) g (l1_index e) k e.
Proof.
  intros Hwf Q He Hv Hd Hi Ht Hl Hu. pose proof (wf_tick _ _ Hwf). split.
  - eapply wf_cached; [done|by apply cached_l2|..].
    + eapply cache_put; [apply (wf_l2c _ _ Hwf)|simpl; lia|simpl; lia|done|]. intros _.
      split; [done|]. intros i e' Hne. simpl. intros ? ? ?. by eapply Hu.
    + eapply clc_mono; [..|apply (wf_clc _ _ Hwf)]; [done|simpl; lia].
    + eapply base_ok_same; [..|apply (wf_base _ _ Hwf)]; try done. intros p. apply Q.
  - split; try done. simpl. apply list_lookup_insert_eq. by eapply lookup_lt_Some.
Qed.

Lemma l2_get_spec d g idx : wf d g → 0 ≤ idx → lru_tick (qcow2 d) < U64_MAX →
  ∃ k e d', lbd_qcow2_l2_get idx d = (Ok (Some k), d') ∧ wf d' g ∧ cached d d' 1 0
    ∧ cl_cache (qcow2 d') = cl_cache (qcow2 d) ∧ base d' = base d ∧ l2_at d' g idx k e.
Proof.
  intros Hwf Hi Ht. pose proof (wf_tick _ _ Hwf). pose proof (wf_l2c _ _ Hwf) as Hl2.
  unfold lbd_qcow2_l2_get. rewrite (bind_ok _ _ d d d) by done.
  destruct (find_idx _ _) as [k|] eqn:Hf.
  - apply find_idx_some in Hf as (e & He & [Hv Hk%Z.eqb_eq]%andb_true_iff).
    rewrite (bind_ok _ _ _ _ _ (lru_tick_ok d ltac:(lia))).
    destruct (ca_good _ _ _ _ _ _ Hl2 k e He Hv) as (Hd & Hi' & Htb).
    destruct (l2_put_wf d g (kern d) k e (l2e_set_lru (lru_tick (qcow2 d)) e)) as [Hw Hat];
      try done; try (simpl; lia); try (by eapply wf_quiet).
    { simpl. intros i e' Hne He' Hv' Heq. apply Hne. by eapply (ca_unique _ _ _ _ _ _ Hl2). }
    eexists k, _, (l2_slot d (kern d) k _).
    rewrite (bind_ok _ _ _ tt (l2_slot d (kern d) k (l2e_set_lru (lru_tick (qcow2 d)) e))).
    2:{ unfold upd_l2, upd_q, modify, l2_slot. simpl. by rewrite (alter_insert_some _ _ k e He). }
    simpl in Hat. rewrite Hk in Hat. split_and!; [done|exact Hw| |done|done|exact Hat].
    apply cached_l2. by eapply wf_quiet.
  - destruct (cache_victim _ _ _ _ _ _ Hl2) as (k & e & Hvic & He); [done|]. rewrite Hvic.
    rewrite (bind_ok _ _ d tt d).
    2:{ unfold l2_evict, get_l2. rewrite (bind_ok _ _ d e d).
        2:{ rewrite (bind_ok _ _ d d d) by done. by rewrite He. }
        destruct (l2_valid e) eqn:Hv; [|done]. destruct (ca_good _ _ _ _ _ _ Hl2 k e He Hv) as (-> & _). done. }
    destruct (l2_load_run d g k e idx Hwf He Hi Ht) as (k' & Q & E).
    destruct (l2_put_wf d g k' k e (L2E idx true false (lru_tick (qcow2 d)) (g_tbl g idx))) as [Hw Hat];
      try done; try (simpl; lia).
    { simpl. intros i e' Hne He' Hv' Heq. pose proof (find_idx_none _ _ _ _ Hf He') as Hn. simpl in Hn.
      rewrite Hv', Heq, Z.eqb_refl in Hn. done. }
    eexists k, _, _. split; [exact E|]. split_and!; [exact Hw|by apply cached_l2|done|done|exact Hat].
Qed.

(** ** Reading the cluster of an L2 entry *)
Lemma read_entry_ok h cs e b sz d : healthy (kern d) → 4096 ≤ cs ≤ 2 ^ 24 →
  entry_holds (content (kern d) h) cs e b sz →
  ∃ k', read_entry h cs e d = (Ok (BData b), set_kern k' d) ∧ quiet d k'.
Proof.
  intros Hh Hcs (Hp & Hl & He). unfold read_entry. fold (phys_of e). cbv zeta.
  destruct (Z.land e LBD_QCOW2_L2_COMPRESSED =? 0); cbn [negb].
  - destruct He as [Hb _].
    destruct (kread_at h (phys_of e) b d cs) as (k1 & E1 & Q1); [done|lia|done|lia|done|].
    exists k1. split; [|done]. mstep E1. by rewrite Z.eqb_refl.
  - destruct He as (c & Hc & [Hb1 Hb2]%bytes_at_app & Hd & _); [|lia].
    destruct (kread_at h (phys_of e) (be32 (zlen c)) d 4) as (k1 & E1 & [Q1 Q1']); [done|lia|done|lia|done|].
    mstep E1. rewrite Z.eqb_refl. cbn [negb].
    pose proof (u32_range (LZ4_compressBound cs)) as Hu.
    rewrite (get32_bytes_at _ 0 (zlen c)) by (lia || apply bytes_at_full).
    rewrite (Z.gtb_ltb), (proj2 (Z.ltb_ge _ _)) by lia.
    destruct (kread_at h (phys_of e + 4) c (set_kern k1 d) (zlen c)) as (k2 & E2 & [Q2 Q2']);
      [done|lia|done|lia|by simpl; rewrite Q1'|].
    mstep E2. rewrite Z.eqb_refl. cbn [negb]. rewrite Hd, Hl, Z.eqb_refl.
    exists k2. split; [done|]. split; [done|]. intros h'. rewrite Q2'. simpl. by rewrite Q1'.
Qed.

(** ** Base layer *)
Section Base.
Context (b : lbd_qcow2_base) (btbl : Z → list Z) (cs : Z) (p : bytes).
Context (Hcs : 4096 ≤ cs ≤ 2 ^ 24) (Hfile : b_file b = BaseFile p).
Context (Hbcs : b_cluster_size b = cs) (Hbn : b_l2_entries b = l2_entries_of cs).
Context (Hl1 : zlen (b_l1_table b) = b_l1_size b).
Context (Hcache : cache_ok l2_valid l2_lru l1_index (l2e_ok btbl) (b_lru_tick b) (b_l2_cache b)).
Context (Htick : 0 ≤ b_lru_tick b < U64_MAX).

Definition base_slot (d : qdev K) (k' : K) (k : nat) (e : lbd_l2_cache_entry) : qdev K :=
  set_kern k' (set_base (Some (b_set_cache (<[k := e]> (b_l2_cache b))
                                (b_set_tick (b_lru_tick b + 1) b))) d).

Lemma base_tick_ok d : base d = Some b →
  lbd_qcow2_base_lru_tick d = (Ok (b_lru_tick b), set_base (Some (b_set_tick (b_lru_tick b + 1) b)) d).
Proof.
  intros Hb. unfold U64_MAX in Htick. unfold lbd_qcow2_base_lru_tick, get_base, upd_base, modify. munfold.
  rewrite Hb. simpl. rewrite Hb. simpl. by rewrite u64_small by lia.
Qed.

Lemma base_l2_load_run d k e0 idx : healthy (kern d) → base d = Some b →
  b_l2_cache b !! k = Some e0 → 0 ≤ idx →
  l2_stored (content (kern d) (b_file b)) cs (base_l1_at b idx) (btbl idx) →
  ∃ k', quiet d k' ∧ base_l2_load k idx d
    = (Ok (Some k), base_slot d k' k (L2E idx true false (b_lru_tick b) (btbl idx))).
Proof.
  intros Hh Hb He Hi (Hsh & Hlen & Hz & Hnz). pose proof (lookup_lt_Some _ _ _ He) as Hk.
  unfold base_l2_load. rewrite (bind_ok _ _ _ _ _ (base_tick_ok d Hb)).
  set (t := b_lru_tick b) in *.
  set (b1 := b_set_cache (<[k := l2e_claim idx t e0]> (b_l2_cache b)) (b_set_tick (t + 1) b)).
  set (d1 := set_base (Some b1) d).
  rewrite (bind_ok _ _ _ tt d1).
  2:{ unfold upd_bl2, upd_base, modify. simpl. by rewrite (alter_insert_some _ _ k e0 He). }
  rewrite (bind_ok _ _ d1 b1 d1) by done.
  rewrite (bind_ok _ _ d1 (base_l1_at b idx) d1).
  2:{ change (b_l1_size b1) with (b_l1_size b). change (b_l1_table b1) with (b_l1_table b).
      unfold base_l1_at. unfold zlen in Hl1. destruct (Z.ltb_spec idx (b_l1_size b)).
      - destruct (lookup_lt_is_Some_2 (b_l1_table b) (Z.to_nat idx)) as [x Hx]; [lia|].
        rewrite Hx. by apply arr_get_ok.
      - rewrite lookup_ge_None_2; [done|lia]. }
  assert (Hdone : ∀ k' tb, (bl2_done k tb (set_kern k' d1) : res (option nat) * qdev K)
     = (Ok (Some k), base_slot d k' k (L2E idx true false t tb))).
  { intros k' tb. unfold bl2_done, upd_bl2, upd_base, modify. munfold. unfold base_slot. simpl.
    by rewrite !alter_insert_same by done. }
  change (b_l2_entries b1) with (b_l2_entries b). change (b_cluster_size b1) with (b_cluster_size b).
  change (b_file b1) with (b_file b). rewrite Hbn, Hbcs.
  destruct (Z.eqb_spec (base_l1_at b idx) 0) as [E|E]; cbn [negb]; cbv iota.
  - exists (kern d). split; [done|]. rewrite (Hz E). exact (Hdone (kern d) _).
  - destruct (Hnz E) as [Hr Hbt].
    destruct (kalloc_ok cs d1 Hh) as (k1 & E1 & [Q1 Q1']). mstep E1. cbn [negb].
    destruct (kread_at (b_file b) (base_l1_at b idx) (l2_disk cs (btbl idx)) (set_kern k1 d1) cs)
      as (k2 & E2 & [Q2 Q2']); [done|lia|by rewrite zlen_l2_disk|lia|by simpl; rewrite Q1'|].
    rewrite s64_small by lia. mstep E2. rewrite Z.eqb_refl. cbn [negb].
    rewrite l2_disk_crc by done. cbn [negb]. rewrite <- Hlen, l2_disk_entries by done.
    exists k2. split; [|exact (Hdone k2 _)]. split; [done|]. intros h. rewrite Q2'. simpl. by rewrite Q1'.
Qed.

Lemma base_put_ok k e0 e : b_l2_cache b !! k = Some e0 →
  l2_valid e = true → l2_dirty e = false → 0 ≤ l1_index e → table e = btbl (l1_index e) →
  0 ≤ l2_lru e ≤ b_lru_tick b →
  (∀ i e', i ≠ k → b_l2_cache b !! i = Some e' → l2_valid e' = true → l1_index e' ≠ l1_index e) →
  cache_ok l2_valid l2_lru l1_index (l2e_ok btbl) (b_lru_tick b + 1) (<[k := e]> (b_l2_cache b)).
Proof.
  intros He Hv Hd Hi Ht Hl Hu. eapply cache_put; [exact Hcache|lia|lia|done|]. intros _. done.
Qed.

Lemma base_l2_get_spec d idx : healthy (kern d) → base d = Some b → 0 ≤ idx →
  l2_stored (content (kern d) (b_file b)) cs (base_l1_at b idx) (btbl idx) →
  ∃ k e k', lbd_qcow2_base_l2_get idx d = (Ok (Some k), base_slot d k' k e) ∧ quiet d k'
    ∧ table e = btbl idx ∧ (k < length (b_l2_cache b))%nat
    ∧ cache_ok l2_valid l2_lru l1_index (l2e_ok btbl) (b_lru_tick b + 1) (<[k := e]> (b_l2_cache b)).
Proof.
  intros Hh Hb Hi Hst. unfold lbd_qcow2_base_l2_get, get_base.
  rewrite (bind_ok _ _ d b d). 2:{ munfold. by rewrite Hb. }
  destruct (find_idx _ _) as [k|] eqn:Hf.
  - apply find_idx_some in Hf as (e & He & [Hv Hk%Z.eqb_eq]%andb_true_iff).
    rewrite (bind_ok _ _ _ _ _ (base_tick_ok d Hb)).
    destruct (ca_good _ _ _ _ _ _ Hcache k e He Hv) as (Hd & Hi' & Htb).
    exists k, (l2e_set_lru (b_lru_tick b) e), (kern d). split_and!.
    + rewrite (bind_ok _ _ _ tt (base_slot d (kern d) k (l2e_set_lru (b_lru_tick b) e))); [done|].
      unfold upd_bl2, upd_base, modify, base_slot. simpl. by rewrite (alter_insert_some _ _ k e He).
    + done.
    + simpl. by rewrite Htb, Hk.
    + by eapply lookup_lt_Some.
    + eapply base_put_ok; try done; [simpl; lia|]. intros i e' Hne He' Hv' Heq.
      apply Hne. by eapply (ca_unique _ _ _ _ _ _ Hcache).
  - destruct (cache_victim _ _ _ _ _ _ Hcache) as (k & e & Hvic & He); [lia|]. rewrite Hvic.
    destruct (base_l2_load_run d k e idx Hh Hb He Hi Hst) as (k' & Q & E).
    eexists k, _, k'. split; [exact E|]. split; [done|]. split_and!; [done|by eapply lookup_lt_Some|].
    eapply base_put_ok; try done; [simpl; lia|]. intros i e' Hne He' Hv' Heq.
    pose proof (find_idx_none _ _ _ _ Hf He') as Hn. simpl in Hn, Heq.
    rewrite Hv', Heq, Z.eqb_refl in Hn. done.
Qed.
End Base.

Lemma ent_lookup cs (q : lbd_qcow2) tbl ci f l1e : geom q → cs = cluster_size q → 0 ≤ ci →
  l2_stored f cs l1e (tbl (ci / l2_entries q)) →
  tbl (ci / l2_entries q) !! Z.to_nat (ci mod l2_entries q) = Some (ent (l2_entries q) tbl ci).
Proof.
  intros Hg -> Hci (_ & Hlen & _). unfold ent. pose proof (l2n_bounds q Hg).
  pose proof (Z.mod_pos_bound ci (l2_entries q) ltac:(lia)). rewrite <- (ge_l2n q Hg) in Hlen.
  unfold zlen in Hlen.
  destruct (lookup_lt_is_Some_2 (tbl (ci / l2_entries q)) (Z.to_nat (ci mod l2_entries q))) as [x ->];
    [lia|done].
Qed.

(** Only the base layer's cache and the kernel state change. *)
Definition base_only (d : qdev K) (k' : K) (b' : option lbd_qcow2_base) : qdev K :=
  set_kern k' (set_base b' d).

Lemma base_read_spec d g b ci : healthy (kern d) → geom (qcow2 d) → base_ok d g → base d = Some b →
  ci_ok (qcow2 d) ci → b_lru_tick b + 1 < U64_MAX →
  ∃ k' b', lbd_qcow2_base_read_cluster ci d
      = (Ok (match g_bv g ci with Some c => BData c | None => BUnalloc end), base_only d k' (Some b'))
    ∧ quiet d k' ∧ base_step (Some b) (Some b') 1 ∧ base_ok (base_only d k' (Some b')) g.
Proof.
  intros Hh Hg Hbo Hb Hci Ht. pose proof (geom_cs _ Hg) as Hcs.
  unfold base_ok in Hbo. rewrite Hb in Hbo. destruct Hbo as ([p Hp] & Hr & Ht0).
  unfold lbd_qcow2_base_read_cluster, get_base.
  rewrite (bind_ok _ _ d b d). 2:{ munfold. by rewrite Hb. }
  rewrite (bind_ok _ _ d d d) by done. cbv zeta. set (cs := cluster_size (qcow2 d)) in *.
  unfold base_rep in Hr. destruct (b_is_qcow2 b) eqn:Hq; cbn [negb].
  - destruct Hr as (btbl & R1 & R2 & R3 & R4 & R5 & R6).
    destruct (ci_split _ _ Hg Hci) as (U1 & U2 & I1 & I2). rewrite R2.
    pose proof (ge_l2n _ Hg) as Hn. fold cs in Hn. rewrite <- Hn, U1, U2.
    pose proof (R4 (ci / l2_entries (qcow2 d)) ltac:(lia)) as Hst.
    destruct (base_l2_get_spec b btbl cs Hcs R1 R2 R3 R6 ltac:(lia) d
      (ci / l2_entries (qcow2 d)) Hh Hb ltac:(lia) Hst)
      as (k & e & k1 & E & [Q1 Q1'] & Htb & Hk & Hc).
    rewrite (bind_ok _ _ _ _ _ E). set (b1 := b_set_cache (<[k:=e]> (b_l2_cache b)) (b_set_tick (b_lru_tick b + 1) b)).
    set (d1 := base_slot b d k1 k e).
    assert (Hok : ∀ k', quiet d k' → base_ok (base_only d k' (Some b1)) g).
    { intros k' [_ Q']. unfold base_ok. simpl. split; [by exists p|]. split; [|unfold b1; simpl; lia].
      unfold base_rep. simpl. rewrite Hq. rewrite Q'. exists btbl. split_and!; done. }
    assert (Hbs : base_step (Some b) (Some b1) 1) by (split; [done|simpl; lia]).
    rewrite (bind_ok _ _ d1 b1 d1) by done. simpl.
    rewrite (bind_ok _ _ d1 e d1). 2:{ unfold b1; simpl. by rewrite list_lookup_insert_eq. }
    pose proof (ent_lookup cs (qcow2 d) btbl ci _ _ Hg eq_refl ltac:(apply Hci) Hst) as Hent.
    rewrite (bind_ok _ _ d1 _ d1 (arr_get_ok _ _ _ _ (proj1 I2) (eq_trans (f_equal (λ t, t !! _) Htb) Hent))).
    pose proof (R5 ci ltac:(apply Hci)) as R5'. cbv zeta in R5'. rewrite <- Hn in R5'.
    destruct (ent (l2_entries (qcow2 d)) btbl ci =? 0).
    + rewrite R5'. exists k1, b1. split; [done|]. split; [done|]. split; [done|]. by apply Hok.
    + destruct R5' as (c & sz & -> & Heh).
      destruct (read_entry_ok (b_file b) cs (ent (l2_entries (qcow2 d)) btbl ci) c sz d1) as (k2 & E2 & [Q2 Q2']); [done|done|by simpl; rewrite Q1'|].
      change (b_file b1) with (b_file b). rewrite E2. exists k2, b1.
      assert (quiet d k2). { split; [done|]. intros h. rewrite Q2'. simpl. by rewrite Q1'. }
      split; [done|]. split; [done|]. split; [done|]. by apply Hok.
  - destruct Hr as [Hsz Hbv]. destruct Hci as [Hci1 Hci2]. fold cs in Hci2.
    rewrite (u64_small (ci * cs)) by nia. rewrite s64_small by nia.
    rewrite (u64_small (ci * cs + cs)) by nia. rewrite (Hbv ci ltac:(lia)).
    assert (Hsame : ∀ k', base_only d k' (Some b) = set_kern k' d) by (intros k'; rewrite <- Hb; by destruct d).
    assert (Hok : ∀ k', quiet d k' → base_ok (base_only d k' (Some b)) g).
    { intros k' [_ Q']. unfold base_ok. simpl. split; [by exists p|]. split; [|lia].
      unfold base_rep. by rewrite Hq, Q'. }
    rewrite Z.gtb_ltb. destruct (Z.ltb_spec (b_size b) (ci * cs + cs)).
    + exists (kern d), b. split; [rewrite Hsame; by destruct d|]. split; [done|].
      split; [by apply base_step_refl|]. by apply Hok.
    + destruct (kread_ok (b_file b) (ci * cs) cs d) as (k1 & E1 & Q1); [done|nia|lia|lia|].
      mstep E1. rewrite Z.eqb_refl. cbn [negb]. exists k1, b. split; [by rewrite Hsame|]. split; [done|]. split; [by apply base_step_refl|]. by apply Hok.
Qed.

(** ** Cluster cache *)
Definition cl_slot (d : qdev K) (k : nat) (e : lbd_cl_cache_entry) : qdev K :=
  set_q (set_cl_cache (<[k := e]> (cl_cache (qcow2 d))) (qcow2 d)) d.
Definition ticked (d : qdev K) : qdev K :=
  set_q (set_lru_tick (lru_tick (qcow2 d) + 1) (qcow2 d)) d.

(** No valid entry caches cluster [ci]. *)
Definition absent (d : qdev K) (ci : Z) : Prop :=
  ∀ i e, cl_cache (qcow2 d) !! i = Some e → cl_valid e = true → cluster_index e ≠ ci.

(** What [lbd_qcow2_cl_load] returns: a slot holding the current contents. *)
Record cl_at (d : qdev K) (g : ghost) (ci : Z) (k : nat) (e : lbd_cl_cache_entry) : Prop := {
  ka_slot : cl_cache (qcow2 d) !! k = Some e;
  ka_valid : cl_valid e = true;
  ka_key : cluster_index e = ci;
  ka_data : data e = g_view g ci
}.

Lemma cached_cl d k e : healthy (kern d) → cached d (cl_slot d k e) 0 0.
Proof. intros Hh. split; simpl; try done; try lia; by apply base_step_refl. Qed.

Lemma cached_tick d : healthy (kern d) → cached d (ticked d) 1 0.
Proof. intros Hh. split; simpl; try done; try lia; by apply base_step_refl. Qed.

Lemma wf_ticked d g : wf d g → wf (ticked d) g.
Proof.
  intros Hwf. eapply wf_cached; [done|by apply cached_tick, (wf_healthy _ _ Hwf)|..].
  - eapply l2c_mono; [..|apply (wf_l2c _ _ Hwf)]; [done|simpl; lia].
  - eapply clc_mono; [..|apply (wf_clc _ _ Hwf)]; [done|simpl; lia].
  - by eapply base_ok_same; [..|apply (wf_base _ _ Hwf)].
Qed.

Lemma cl_put_wf d g k e0 e : wf d g → cl_cache (qcow2 d) !! k = Some e0 →
  0 ≤ cl_lru e ≤ lru_tick (qcow2 d) →
  (cl_valid e = true → cle_ok (g_view g) e ∧
     ∀ i e', i ≠ k → cl_cache (qcow2 d) !! i = Some e' → cl_valid e' = true →
       cluster_index e' ≠ cluster_index e) →
  wf (cl_slot d k e) g.
Proof.
  intros Hwf He Hl Hv. eapply wf_cached; [done|by apply cached_cl, (wf_healthy _ _ Hwf)|..].
  - eapply l2c_mono; [..|apply (wf_l2c _ _ Hwf)]; [done|simpl; lia].
  - eapply cache_put; [apply (wf_clc _ _ Hwf)|simpl; lia|done|done|]. done.
  - by eapply base_ok_same; [..|apply (wf_base _ _ Hwf)].
Qed.

(** *** Clusters a miss handler is asked for *)

(** The image or its base has cluster [ci]. *)
Definition visible (q : lbd_qcow2) (g : ghost) (ci : Z) : Prop :=
  ent (l2_entries q) (g_tbl g) ci ≠ 0 ∨ g_bv g ci ≠ None.

(** With a handler registered nothing is cached for a cluster that is missing. *)
Definition tracked (d : qdev K) (g : ghost) : Prop := miss_handler d = true → ∀ k e,
  cl_cache (qcow2 d) !! k = Some e → cl_valid e = true → visible (qcow2 d) g (cluster_index e).

(** Clusters cached after a step were cached before it or are allowed to be. *)
Definition caches_more (d d' : qdev K) (P : Z → Prop) : Prop := ∀ k e,
  cl_cache (qcow2 d') !! k = Some e → cl_valid e = true →
  P (cluster_index e) ∨ ∃ k0 e0, cl_cache (qcow2 d) !! k0 = Some e0 ∧ cl_valid e0 = true ∧ cluster_index e0 = cluster_index e.

Lemma caches_more_same d d' P : cl_cache (qcow2 d') = cl_cache (qcow2 d) → caches_more d d' P.
Proof. intros E k e. rewrite E. intros He Hv. right. by exists k, e. Qed.

Lemma caches_more_trans d1 d2 d3 P : caches_more d1 d2 P → caches_more d2 d3 P → caches_more d1 d3 P.
Proof.
  intros H12 H23 k e He Hv. destruct (H23 k e He Hv) as [?|(k0 & e0 & He0 & Hv0 & <-)]; [by left|]. by eapply H12.
Qed.

Lemma caches_more_slot d d1 k e P : cl_cache (qcow2 d1) = cl_cache (qcow2 d) →
  (cl_valid e = true → P (cluster_index e) ∨ ∃ e0, cl_cache (qcow2 d) !! k = Some e0 ∧ cl_valid e0 = true ∧ cluster_index e0 = cluster_index e) →
  caches_more d (cl_slot d1 k e) P.
Proof.
  intros E Hn i e' He Hv. unfold cl_slot in He. simpl in He. rewrite E in He.
  apply list_lookup_insert_Some in He as [(-> & <- & _)|[_ He]].
  - destruct (Hn Hv) as [?|(e0 & ? & ? & ?)]; [by left|right]. by exists i, e0.
  - right. by exists i, e'.
Qed.

Lemma caches_more_mono d d' (P Q : Z → Prop) : (∀ c, P c → Q c) → caches_more d d' P → caches_more d d' Q.
Proof. intros HPQ C k e He Hv. destruct (C k e He Hv) as [?|?]; [left; auto|by right]. Qed.

Lemma tracked_more d d' g : tracked d g → caches_more d d' (λ c, miss_handler d = true → visible (qcow2 d) g c) →
  miss_handler d' = miss_handler d → l2_entries (qcow2 d') = l2_entries (qcow2 d) → tracked d' g.
Proof.
  intros T C M En. unfold tracked. rewrite M. intros Hm k e He Hv. unfold visible. rewrite En.
  destruct (C k e He Hv) as [Hp|(k0 & e0 & He0 & Hv0 & <-)]; [exact (Hp Hm)|]. by eapply T.
Qed.

Lemma cl_find_spec d g ci : wf d g → lru_tick (qcow2 d) < U64_MAX →
  (lbd_qcow2_cl_find ci d = (Ok None, d) ∧ absent d ci) ∨
  (∃ k e d', lbd_qcow2_cl_find ci d = (Ok (Some k), d') ∧ wf d' g ∧ cached d d' 1 0 ∧ cl_at d' g ci k e
     ∧ ∀ P, caches_more d d' P).
Proof.
  intros Hwf Ht. pose proof (wf_tick _ _ Hwf). pose proof (wf_clc _ _ Hwf) as Hcl.
  unfold lbd_qcow2_cl_find. rewrite (bind_ok _ _ d d d) by done.
  destruct (find_idx _ _) as [k|] eqn:Hf; [right|left; split; [done|]].
  - apply find_idx_some in Hf as (e & He & [Hv Hk%Z.eqb_eq]%andb_true_iff).
    destruct (ca_good _ _ _ _ _ _ Hcl k e He Hv) as (Hi & Hd).
    rewrite (bind_ok _ _ _ _ _ (lru_tick_ok d ltac:(lia))). fold (ticked d).
    set (e' := cle_set_lru (lru_tick (qcow2 d)) e).
    exists k, e', (cl_slot (ticked d) k e'). split_and!.
    + rewrite (bind_ok _ _ _ tt (cl_slot (ticked d) k e')); [done|].
      unfold upd_cl, upd_q, modify, cl_slot. simpl. by rewrite (alter_insert_some _ _ k e He).
    + eapply cl_put_wf; [by apply wf_ticked|exact He|simpl; lia|]. intros _. split; [done|].
      intros i e1 Hne He1 Hv1 Heq. apply Hne. by eapply (ca_unique _ _ _ _ _ _ Hcl).
    + pose proof (wf_healthy _ _ Hwf). eapply (cached_trans _ (ticked d) _ 1 0 0 0); [by apply cached_tick|by apply cached_cl].
    + split; try done; [simpl; apply list_lookup_insert_eq; by eapply lookup_lt_Some|]. simpl. by rewrite Hd, Hk.
    + intros P. apply caches_more_slot; [done|]. intros _. right. by exists e.
  - intros i e He Hv Heq. pose proof (find_idx_none _ _ _ _ Hf He) as Hn. simpl in Hn.
    by rewrite Hv, Heq, Z.eqb_refl in Hn.
Qed.

Lemma cl_claim_spec d g ci : wf d g → lru_tick (qcow2 d) < U64_MAX →
  ∃ k e d', cl_claim ci d = (Ok k, d') ∧ wf d' g ∧ cached d d' 1 0 ∧ base d' = base d
    ∧ l2_cache (qcow2 d') = l2_cache (qcow2 d)
    ∧ cl_cache (qcow2 d') !! k = Some e ∧ cl_valid e = false ∧ cluster_index e = ci
    ∧ (absent d ci → absent d' ci) ∧ ∀ P, caches_more d d' P.
Proof.
  intros Hwf Ht. pose proof (wf_tick _ _ Hwf). pose proof (wf_clc _ _ Hwf) as Hcl.
  destruct (cache_victim _ _ _ _ _ _ Hcl) as (k & e & Hvic & He); [done|].
  pose proof (lookup_lt_Some _ _ _ He) as Hk. pose proof (wf_healthy _ _ Hwf) as Hh.
  set (e' := CLE ci false false (lru_tick (qcow2 d)) (data e)).
  exists k, e', (cl_slot (ticked d) k e'). split_and!; try done.
  - unfold cl_claim. rewrite (bind_ok _ _ d k (cl_slot d k (cle_set_valid false e))).
    2:{ unfold lbd_qcow2_cl_alloc_entry. rewrite (bind_ok _ _ d d d) by done. rewrite Hvic.
        rewrite (bind_ok _ _ d tt (cl_slot d k (cle_set_valid false e))); [done|].
        unfold upd_cl, upd_q, modify, cl_slot. simpl. by rewrite (alter_insert_some _ _ k e He). }
    rewrite (bind_ok _ _ _ _ _ (lru_tick_ok (cl_slot d k (cle_set_valid false e)) ltac:(simpl; lia))).
    unfold upd_cl, upd_q, modify, cl_slot. munfold. simpl. by rewrite alter_insert_same.
  - eapply cl_put_wf; [by apply wf_ticked|exact He|simpl; lia|done].
  - eapply (cached_trans _ (ticked d) _ 1 0 0 0); [by apply cached_tick|by apply cached_cl].
  - simpl. by apply list_lookup_insert_eq.
  - intros Ha i e1. simpl. intros [(-> & <- & _)|[Hne He1]]%list_lookup_insert_Some; [done|]. by eapply Ha.
  - intros P. by apply caches_more_slot.
Qed.

Lemma cl_fill_spec d g k e ci : wf d g → cl_cache (qcow2 d) !! k = Some e → cluster_index e = ci →
  0 ≤ ci → absent d ci →
  ∃ d' e', cl_fill k (g_view g ci) d = (Ok tt, d') ∧ wf d' g ∧ cached d d' 0 0 ∧ cl_at d' g ci k e'
    ∧ ∀ P : Z → Prop, P ci → caches_more d d' P.
Proof.
  intros Hwf He Hi Hci Ha. pose proof (lookup_lt_Some _ _ _ He) as Hk.
  set (e' := cle_set_valid true (cle_set_data (g_view g ci) e)).
  exists (cl_slot d k e'), e'. split_and!.
  - unfold cl_fill, upd_cl, upd_q, modify, cl_slot. munfold. simpl.
    by rewrite (alter_insert_some _ _ k e He), alter_insert_same.
  - eapply cl_put_wf; [done|done|exact (ca_lru _ _ _ _ _ _ (wf_clc _ _ Hwf) k e He)|]. intros _.
    split; [split; simpl; [lia|by rewrite Hi]|]. intros i e1 _ He1 Hv1. simpl. rewrite Hi. by eapply Ha.
  - apply cached_cl, (wf_healthy _ _ Hwf).
  - split; try done; simpl. by apply list_lookup_insert_eq.
  - intros P HP. apply caches_more_slot; [done|]. intros _. left. simpl. by rewrite Hi.
Qed.

(** ** Loading a cluster *)
Lemma get_l2_ok d k e : l2_cache (qcow2 d) !! k = Some e → get_l2 k d = (Ok e, d).
Proof. intros He. unfold get_l2. munfold. by rewrite He. Qed.

Lemma get_cl_ok d k e : cl_cache (qcow2 d) !! k = Some e → get_cl k d = (Ok e, d).
Proof. intros He. unfold get_cl. munfold. by rewrite He. Qed.

Lemma wf_set_kern d g k' : wf d g → quiet d k' → wf (set_kern k' d) g ∧ cached d (set_kern k' d) 0 0.
Proof.
  intros Hwf Q. assert (cached d (set_kern k' d) 0 0).
  { split; simpl; try done; try lia; [by destruct (qcow2 d)|by apply base_step_refl]. }
  split; [|done]. eapply wf_cached; [done|done|apply (wf_l2c _ _ Hwf)|apply (wf_clc _ _ Hwf)|].
  eapply base_ok_same; [..|apply (wf_base _ _ Hwf)]; try done. intros h. apply Q.
Qed.

(** A zeroed slot for a cluster that nothing stores. *)
Lemma cl_get_zero_spec d g ci : wf d g → lru_tick (qcow2 d) < U64_MAX → 0 ≤ ci → absent d ci →
  g_view g ci = zeros (cluster_size (qcow2 d)) →
  ∃ k e d', lbd_qcow2_cl_get_zero ci d = (Ok k, d') ∧ wf d' g ∧ cached d d' 1 0 ∧ cl_at d' g ci k e.
Proof.
  intros Hwf Ht Hci Ha Hv. unfold lbd_qcow2_cl_get_zero.
  destruct (cl_find_spec d g ci Hwf Ht) as [[E _]|(k & e & d' & E & W & C & A & _)]; mstep E; [|by exists k, e, d'].
  rewrite (bind_ok get _ _ _ _ eq_refl).
  destruct (cl_claim_spec d g ci Hwf Ht) as (k & e & d1 & E1 & W1 & C1 & _ & _ & He & _ & Hi & Ha1 & _). mstep E1.
  destruct (cl_fill_spec d1 g k e ci W1 He Hi Hci (Ha1 Ha)) as (d2 & e2 & E2 & W2 & C2 & A2 & _).
  rewrite Hv in E2. mstep E2. exists k, e2, d2. split_and!; [done|done|exact (cached_trans _ _ _ 1 0 0 0 C1 C2)|done].
Qed.

(** What a load of [ci] gives: a slot with its contents; or, with a handler
    registered, the news that it is missing. *)
Inductive loaded (d : qdev K) (g : ghost) (ci : Z) (d' : qdev K) : cl_ptr → Prop :=
| loaded_at k e : cl_at d' g ci k e → loaded d g ci d' (CAt k)
| loaded_miss : miss_handler d = true → ¬ visible (qcow2 d) g ci → absent d' ci → loaded d g ci d' CMiss.

(** Everything a load leaves behind. *)
Record load_post (d : qdev K) (g : ghost) (ci : Z) (n m : Z) (p : cl_ptr) (d' : qdev K) : Prop := {
  lp_wf : wf d' g;
  lp_cached : cached d d' n m;
  lp_loaded : loaded d g ci d' p;
  lp_more : caches_more d d' (λ c, c = ci ∧ (miss_handler d = true → visible (qcow2 d) g ci))
}.

(** The cluster an unallocated L2 entry stands for. *)
Lemma load_unallocated d g k e ci : wf d g → ci_ok (qcow2 d) ci → absent d ci →
  cl_cache (qcow2 d) !! k = Some e → cluster_index e = ci →
  match base d with None => True | Some b => b_lru_tick b + 1 < U64_MAX end →
  ent (l2_entries (qcow2 d)) (g_tbl g) ci = 0 →
  ∃ p d', (match base d with
     | Some _ =>
         r ← lbd_qcow2_base_read_cluster ci;
         match r with
         | BUnalloc => if miss_handler d then mret CMiss
                       else cl_fill k (zeros (cluster_size (qcow2 d)));; mret (CAt k)
         | BError _ => mret CNull
         | BData b => cl_fill k b;; mret (CAt k)
         end
     | None => if miss_handler d then mret CMiss
               else cl_fill k (zeros (cluster_size (qcow2 d)));; mret (CAt k)
     end) d = (Ok p, d') ∧ load_post d g ci 0 1 p d'.
Proof.
  intros Hwf Hci Ha He Hi Ht Hz. pose proof (wf_base _ _ Hwf) as Hb. pose proof (proj1 (proj1 Hci)) as Hci0.
  pose proof (wd_zero _ _ _ _ (wf_img _ _ Hwf) ci Hci0 (λ f, f) Hz) as Hv.
  assert (Hfill : ∀ d1, wf d1 g → cached d d1 0 1 → cl_cache (qcow2 d1) = cl_cache (qcow2 d) →
    (miss_handler d = true → g_bv g ci ≠ None) →
    ∃ d', (cl_fill k (default (zeros (cluster_size (qcow2 d))) (g_bv g ci));; mret (CAt k)) d1 = (Ok (CAt k), d')
      ∧ load_post d g ci 0 1 (CAt k) d').
  { intros d1 W1 C1 Ec Hm. destruct (cl_fill_spec d1 g k e ci W1) as (d2 & e2 & E2 & W2 & C2 & A2 & M2);
      [by rewrite Ec|done|done|unfold absent; by rewrite Ec|].
    rewrite Hv in E2. exists d2. mstep E2. split; [done|]. split; [done|exact (cached_trans _ _ _ 0 1 0 0 C1 C2)|by econstructor|].
    eapply caches_more_trans; [by apply (caches_more_same d d1)|]. apply M2. split; [done|]. intros Hm'. right. auto. }
  assert (Hmiss : ∀ d1, wf d1 g → cached d d1 0 1 → cl_cache (qcow2 d1) = cl_cache (qcow2 d) → g_bv g ci = None →
    ∃ p d', (if miss_handler d then mret CMiss
             else cl_fill k (zeros (cluster_size (qcow2 d)));; mret (CAt k)) d1 = (Ok p, d') ∧ load_post d g ci 0 1 p d').
  { intros d1 W1 C1 Ec Hn. destruct (miss_handler d) eqn:Em.
    - exists CMiss, d1. split; [done|]. split; [done|done| |by apply caches_more_same].
      constructor; [done|intros [?|?]; congruence|unfold absent; by rewrite Ec].
    - destruct (Hfill d1 W1 C1 Ec) as (d' & E & P); [done|]. rewrite Hn in E. by exists (CAt k), d'. }
  destruct (base d) as [b|] eqn:Eb.
  - destruct (base_read_spec d g b ci) as (k' & b' & E & Q & Hbs & Hbo); [apply (wf_healthy _ _ Hwf)|apply (wf_geom _ _ Hwf)|done..|].
    rewrite (bind_ok _ _ _ _ _ E). set (d1 := base_only d k' (Some b')) in *.
    assert (C1 : cached d d1 0 1).
    { split; simpl; try done; try lia; [by destruct (qcow2 d)|by rewrite Eb]. }
    assert (W1 : wf d1 g) by (eapply wf_cached; [done|done|apply (wf_l2c _ _ Hwf)|apply (wf_clc _ _ Hwf)|done]).
    destruct (g_bv g ci) as [x|] eqn:Ex; [|by apply Hmiss].
    destruct (Hfill d1 W1 C1 eq_refl ltac:(done)) as (d' & Ef & P). by exists (CAt k), d'.
  - unfold base_ok in Hb. rewrite Eb in Hb. apply Hmiss; [done| |done|done].
    apply cached_refl; [apply (wf_healthy _ _ Hwf)|lia..].
Qed.

Lemma cl_load_spec d g ci : wf d g → ci_ok (qcow2 d) ci → lru_tick (qcow2 d) + 2 < U64_MAX →
  match base d with None => True | Some b => b_lru_tick b + 1 < U64_MAX end →
  ∃ p d', lbd_qcow2_cl_load ci d = (Ok p, d') ∧ load_post d g ci 2 1 p d'.
Proof.
  intros Hwf Hci Ht Hbt. pose proof (proj1 (proj1 Hci)) as Hci0. pose proof (wf_geom _ _ Hwf) as Hg. pose proof (wf_healthy _ _ Hwf) as Hh.
  unfold lbd_qcow2_cl_load. destruct (cl_find_spec d g ci Hwf) as [[E Ha]|(k & e & d' & E & W & C & A & M)]; [lia|..].
  2:{ rewrite (bind_ok _ _ _ _ _ E). exists (CAt k), d'. split; [done|]. split; [done| |by econstructor|by apply M].
      by eapply cached_weaken; [exact C|lia|lia]. }
  rewrite (bind_ok _ _ _ _ _ E). rewrite (bind_ok _ _ d d d) by done. cbv zeta.
  destruct (ci_split _ _ Hg Hci) as (U1 & U2 & I1 & I2). rewrite U1, U2.
  destruct (l2_get_spec d g (ci / l2_entries (qcow2 d)) Hwf) as (k2 & e2 & d1 & E1 & W1 & C1 & L1 & B1 & A1); [lia|lia|].
  rewrite (bind_ok _ _ _ _ _ E1). rewrite (bind_ok _ _ _ _ _ (get_l2_ok _ _ _ (la_slot _ _ _ _ _ A1))).
  pose proof (wd_l2 _ _ _ _ (wf_img _ _ Hwf) _ (proj1 I1)) as Hst.
  pose proof (ent_lookup _ (qcow2 d) (g_tbl g) ci _ _ Hg eq_refl ltac:(lia) Hst) as Hent.
  rewrite (bind_ok _ _ d1 _ d1 (arr_get_ok _ _ _ _ (proj1 I2)
     (eq_trans (f_equal (λ t, t !! _) (la_table _ _ _ _ _ A1)) Hent))).
  set (l2e := ent (l2_entries (qcow2 d)) (g_tbl g) ci) in *.
  pose proof (cs_tick _ _ _ _ C1) as T1.
  destruct (cl_claim_spec d1 g ci W1) as (k & e & d2 & E2 & W2 & C2 & B2 & _ & He & _ & Hi & Ha2 & M2); [lia|].
  rewrite (bind_ok _ _ _ _ _ E2). specialize (Ha2 ltac:(unfold absent; rewrite L1; exact Ha)).
  destruct (cached_geo _ _ _ _ C1) as [G1 _]. destruct (cached_geo _ _ _ _ C2) as [G2 _].
  assert (Hgeo : cluster_size (qcow2 d2) = cluster_size (qcow2 d) ∧ l1_size (qcow2 d2) = l1_size (qcow2 d)
            ∧ l2_entries (qcow2 d2) = l2_entries (qcow2 d)) by (unfold same_geo in *; intuition congruence).
  destruct Hgeo as (Gc & Gs & Gn).
  assert (Hci2 : ci_ok (qcow2 d2) ci) by (unfold ci_ok in *; by rewrite Gc, Gs, Gn).
  pose proof (cached_trans _ _ _ 1 0 1 0 C1 C2) as C12.
  assert (M12 : caches_more d d2 (λ c, c = ci ∧ (miss_handler d = true → visible (qcow2 d) g ci))).
  { eapply caches_more_trans; [by apply (caches_more_same d d1)|apply M2]. }
  destruct (Z.eqb_spec l2e 0) as [Hz|Hz].
  - rewrite (bind_ok _ _ d2 d2 d2) by done.
    destruct (load_unallocated d2 g k e ci W2 Hci2 Ha2 He Hi) as (p & d3 & E3 & [W3 C3 L3 M3]).
    { by rewrite B2, B1. } { by rewrite Gn. }
    rewrite Gc in E3. exists p, d3. split; [exact E3|]. split; [done|exact (cached_trans _ _ _ 2 0 0 1 C12 C3)|..].
    + destruct L3 as [k3 e3 A3|Hm Hn Ha3]; [by econstructor|]. unfold visible in Hn. rewrite Gn in Hn.
      rewrite (cs_miss _ _ _ _ C12) in Hm. by constructor.
    + eapply caches_more_trans; [exact M12|]. intros k0 e0 He0 Hv0. destruct (M3 k0 e0 He0 Hv0) as [[Hc Hm]|?]; [left|by right].
      unfold visible in *. rewrite Gn, (cs_miss _ _ _ _ C12) in Hm. done.
  - destruct (wd_data _ _ _ _ (wf_img _ _ W2) ci) as (sz & Heh & _); [lia|intros []|by rewrite Gn|].
    rewrite Gn, Gc in Heh. fold l2e in Heh.
    destruct (read_entry_ok Backing _ _ _ _ d2 (wf_healthy _ _ W2) (geom_cs _ Hg) Heh) as (k3 & E3 & Q3).
    rewrite (bind_ok _ _ _ _ _ E3). destruct (wf_set_kern d2 g k3 W2 Q3) as [W3 C3].
    destruct (cl_fill_spec (set_kern k3 d2) g k e ci W3 He Hi (proj1 (proj1 Hci)) Ha2) as (d4 & e4 & E4 & W4 & C4 & A4 & M4).
    rewrite (bind_ok _ _ _ _ _ E4). exists (CAt k), d4. split; [done|]. split; [done| |by econstructor|].
    + eapply cached_weaken; [exact (cached_trans _ _ _ 2 0 _ _ C12 (cached_trans _ _ _ 0 0 0 0 C3 C4))|lia|lia].
    + eapply caches_more_trans; [exact M12|]. change (cl_cache (qcow2 d2)) with (cl_cache (qcow2 (set_kern k3 d2))) in *.
      apply (M4 (λ c, c = ci ∧ (miss_handler d = true → visible (qcow2 d) g ci))). split; [done|]. by left.
Qed.

End CacheProof.
