(* ===== verification/Qcow2WriteProof.v ===== *)
(** * Correctness of storing one cluster

    Between the moment the code changes the space or the L2 entry of a cluster
    and the moment the L2 table is flushed, the cluster is a hole of the
    invariant: [wfc] describes such states, [commit_spec] closes the hole. *)
From S2P Require Import Prelude Kernel Format Qcow2State Qcow2Alloc Qcow2Cache Qcow2Io Qcow2Inv.
From S2P Require Import Qcow2AllocProof Qcow2Wf Qcow2CacheProof.

Section WriteProof.
Context {K : Type} `{KernelLaws K} `{LZ4Laws} `{CrcLaws}.
Local Abbreviation disk d := (content (kern d) Backing).
Implicit Types d : qdev K.

(** ** States in the middle of an update *)
Record wfc (hole : Z → Prop) (d : qdev K) (g : ghost) : Prop := {
  wc_healthy : healthy (kern d);
  wc_geom : geom (qcow2 d);
  wc_img : wf_disk hole (disk d) (qcow2 d) g;
  wc_base : base_ok d g;
  wc_l2c : l2c_ok (qcow2 d) (g_tbl g);
  wc_tick : 0 ≤ lru_tick (qcow2 d)
}.

Definition with_view (g : ghost) (v : Z → bytes) : ghost := Ghost (g_own g) (g_fl g) (g_tbl g) v (g_bv g).
Definition with_space (g : ghost) (own : Z → tag) (fl : list (Z * Z)) : ghost :=
  Ghost own fl (g_tbl g) (g_view g) (g_bv g).
Definition with_tbl (g : ghost) (t : Z → list Z) : ghost := Ghost (g_own g) (g_fl g) t (g_view g) (g_bv g).

Lemma wf_wfc hole d g v : wf d g → (∀ ci, ¬ hole ci → v ci = g_view g ci) →
  (∀ ci, 0 ≤ ci → zlen (v ci) = cluster_size (qcow2 d)) → wfc hole d (with_view g v).
Proof.
  intros [] Hv Hl. split; try done. destruct wf_img. split; simpl; try done.
  - intros ci Hci Hh. rewrite Hv by done. by apply wd_data; [|intros []].
  - intros ci Hci Hh. rewrite Hv by done. by apply wd_zero; [|intros []].
Qed.

Lemma wfc_wf d g : wfc (λ _, False) d g → clc_ok (qcow2 d) (g_view g) → wf d g.
Proof. intros [] Hc. by split. Qed.

(** What the steps of an update leave alone. *)
Record frame (d d' : qdev K) : Prop := {
  fr_dev : same_dev d d';
  fr_alloc : alloc_offset (qcow2 d) ≤ alloc_offset (qcow2 d')
}.

Lemma same_dev_geo d d' : same_dev d d' → same_geo (qcow2 d) (qcow2 d')
  ∧ l2_cache (qcow2 d') = l2_cache (qcow2 d) ∧ cl_cache (qcow2 d') = cl_cache (qcow2 d)
  ∧ lru_tick (qcow2 d') = lru_tick (qcow2 d).
Proof. intros [_ _ E _ _ _ _]. rewrite E. by destruct (qcow2 d). Qed.

(** A step that keeps the kept bytes preserves [wfc]. *)
Lemma wfc_step hole d d' g own' fl' : wfc hole d g → same_dev d d' →
  space d' own' fl' → bytes_at (disk d') 48 (be64 (free_list_head (qcow2 d'))) →
  (∀ o, kept hole (g_own g o) → own' o = g_own g o) →
  keeps (g_own g) (λ t, ¬ kept hole t) (disk d) (disk d') →
  wfc hole d' (with_space g own' fl').
Proof.
  intros [] Hd Hs Hh Ho Hk. destruct (same_dev_geo _ _ Hd) as (Hq & Hl2 & _ & Ht). destruct Hd.
  split; simpl; try done; [by eapply geom_same| | | |lia].
  - by eapply wf_disk_frame.
  - eapply base_ok_same; [..|exact wc_base0]; try done. apply Hq.
  - eapply l2c_mono; [done|lia|done].
Qed.

Lemma mutable_not_kept hole t : mutable t → ¬ kept hole t.
Proof. destruct t; simpl; tauto. Qed.

(** ** Space for a cluster *)

(** The extent of the cluster's old entry: none, or owned by the cluster. *)
Definition old_extent (g : ghost) (ci e sz : Z) : Prop :=
  sz = 0 ∨ (0 < phys_of e ∧ 4096 ≤ sz < 2 ^ 32 ∧ owns (g_own g) (phys_of e) sz (TData ci)).

(** What [choose_space] promises: space of [n] bytes owned by the cluster. *)
Record spaced (ci n : Z) (d : qdev K) (g : ghost) (p : Z) (d' : qdev K) (g' : ghost) : Prop := {
  sp_wfc : wfc (λ c, c = ci) d' g';
  sp_dev : same_dev d d';
  sp_grow : alloc_offset (qcow2 d) ≤ alloc_offset (qcow2 d') ≤ alloc_offset (qcow2 d) + n;
  sp_own : owns (g_own g') p n (TData ci);
  sp_pos : 0 < p;
  sp_ghost : g_tbl g' = g_tbl g ∧ g_view g' = g_view g ∧ g_bv g' = g_bv g
}.

Lemma owned_below f a h own fl p n t : space_ok f a h own fl → owns own p n t → t ≠ TNone → 0 < n → p + n ≤ a.
Proof.
  intros Hs Ho Ht Hn. destruct (decide (p + n ≤ a)); [done|]. exfalso. apply Ht.
  rewrite <- (Ho (p + n - 1)) by lia. apply (sp_none _ _ _ _ _ Hs). lia.
Qed.

Lemma alloc_spaced ci d g n : wfc (λ c, c = ci) d g → 0 < n → alloc_offset (qcow2 d) + n ≤ 2 ^ 62 →
  ∃ p d' g', lbd_qcow2_alloc_space n d = (Ok p, d') ∧ spaced ci n d g p d' g'.
Proof.
  intros Hw Hn Hle.
  destruct (alloc_space_spec d (g_own g) (g_fl g) n (TData ci)) as (p & d' & own' & fl' & E & []);
    [apply Hw|apply Hw|apply Hw|done|done|].
  exists p, d', (with_space g own' fl'). split; [done|]. split; try done.
  - eapply wfc_step; try done.
    + intros o Hk. destruct (ap_own o) as [Hin Hout]. destruct (decide (p ≤ o < p + n)) as [Hr|Hr].
      * destruct (Hin Hr) as [_ Hf]. by destruct (g_own g o).
      * destruct (Hout Hr) as [?|[Hf _]]; [done|]. by destruct (g_own g o).
    + eapply keeps_weaken; [done|]. intros o. apply mutable_not_kept.
  - intros o Ho. by apply ap_own.
Qed.

Lemma free_old ci d g e sz : wfc (λ c, c = ci) d g → 0 < phys_of e → 4096 ≤ sz < 2 ^ 32 →
  owns (g_own g) (phys_of e) sz (TData ci) →
  ∃ d' g', lbd_qcow2_free_extent (phys_of e) sz d = (Ok tt, d') ∧ wfc (λ c, c = ci) d' g'
    ∧ same_dev d d' ∧ alloc_offset (qcow2 d') = alloc_offset (qcow2 d)
    ∧ g_tbl g' = g_tbl g ∧ g_view g' = g_view g ∧ g_bv g' = g_bv g.
Proof.
  intros Hw Hp Hsz Ho. pose proof (wd_space _ _ _ _ (wc_img _ _ _ Hw)) as Hs.
  pose proof (owned_below _ _ _ _ _ _ _ _ Hs Ho ltac:(done) ltac:(lia)) as Hle.
  destruct (free_extent_spec d (g_own g) (g_fl g) (phys_of e) sz) as (d' & E & Hd & Hq & Hf & Hs');
    [apply Hw|done|done|lia|done| |].
  { intros o Hr. pose proof (Ho o Hr) as Eo. split_and!; congruence. }
  exists d', (with_space g (retag (g_own g) (phys_of e) sz (TFree (phys_of e))) ((phys_of e, sz) :: g_fl g)).
  split; [done|]. split; [|rewrite Hq; done].
  eapply wfc_step; try done.
  - rewrite Hf, Hq. apply bytes_at_write_same. lia.
  - intros o Hk. unfold retag. case_decide as Hr; [|done]. rewrite (Ho o Hr) in Hk. by destruct Hk.
  - rewrite Hf. eapply keeps_trans; [|apply keeps_write]; [apply keeps_write; [lia|]|lia|].
    + intros o Hr. rewrite zlen_tombstone in Hr. rewrite Ho by lia. simpl. tauto.
    + intros o Hr. change (zlen (be64 _)) with 8 in Hr. rewrite (sp_hdr_head _ _ _ _ _ Hs) by lia. simpl. tauto.
Qed.

Lemma same_dev_stats d s : healthy (kern d) → same_dev d (set_stats s d).
Proof. intros Hh. split; simpl; try done. by destruct (qcow2 d). Qed.

Lemma wfc_stats hole d g s : wfc hole d g → wfc hole (set_stats s d) g.
Proof. intros []. by split. Qed.

Lemma choose_space_spec strict ci d g e old n : wfc (λ c, c = ci) d g → old_extent g ci e old →
  0 < n → alloc_offset (qcow2 d) + n ≤ 2 ^ 62 →
  ∃ p d' g', choose_space strict e old n d = (Ok p, d') ∧ spaced ci n d g p d' g'.
Proof.
  intros Hw Hold Hn Hle. unfold choose_space. fold (phys_of e).
  destruct Hold as [->|(Hp & Hsz & Ho)].
  { change (0 >? 0) with false. cbn [andb]. rewrite (bind_ok _ _ d tt d) by done. by apply alloc_spaced. }
  rewrite Z.gtb_ltb, (proj2 (Z.ltb_lt 0 old)) by lia. cbn [andb].
  destruct (Z.leb_spec n old).
  - eexists _, _, g. split; [reflexivity|]. split; try done; simpl; try lia.
    + by apply wfc_stats.
    + by apply same_dev_stats, (wc_healthy _ _ _ Hw).
    + intros o Hr. apply Ho. lia.
  - destruct (free_old ci d g e old Hw Hp Hsz Ho) as (d1 & g1 & E1 & W1 & S1 & A1 & G1 & G2 & G3).
    destruct (alloc_spaced ci d1 g1 n W1 Hn) as (p & d2 & g2 & E2 & []); [lia|].
    exists p, d2, g2. split.
    + rewrite (bind_ok _ _ d tt d1); [done|]. destruct strict; [done|].
      by rewrite (bind_ok _ _ _ _ _ (try_ok _ _ _ _ E1)).
    + split; try done; [by eapply same_dev_trans|lia|]. destruct sp_ghost0 as (-> & -> & ->). done.
Qed.

(** ** Writing into the space of the cluster *)
Lemma write_data_spec ci d g p n pos b : wfc (λ c, c = ci) d g → owns (g_own g) p n (TData ci) →
  0 < p → p ≤ pos → pos + zlen b ≤ p + n → 0 < n →
  ∃ k', kwrite Backing pos b d = (Ok (zlen b), set_kern k' d) ∧ wfc (λ c, c = ci) (set_kern k' d) g
    ∧ same_dev d (set_kern k' d) ∧ content k' Backing = write_at (disk d) pos b.
Proof.
  intros Hw Ho Hp H1p H2p Hn. pose proof (wd_space _ _ _ _ (wc_img _ _ _ Hw)) as Hs.
  pose proof (owned_below _ _ _ _ _ _ _ _ Hs Ho ltac:(done) ltac:(lia)) as Hle.
  pose proof (sp_alloc _ _ _ _ _ Hs). pose proof (zlen_nonneg b).
  destruct (kwrite_ok pos b d) as (k' & E & Hk & C & F); [apply Hw|lia|lia|].
  assert (Hd : same_dev d (set_kern k' d)) by (split; simpl; try done; by destruct (qcow2 d)).
  assert (Hkeep : ∀ T : tag → Prop, T (TData ci) → keeps (g_own g) T (disk d) (content k' Backing)).
  { intros T HT. rewrite C. apply keeps_write; [lia|]. intros o Hr. rewrite Ho by lia. done. }
  exists k'. split_and!; try done.
  replace g with (with_space g (g_own g) (g_fl g)) by (by destruct g).
  eapply wfc_step; try done; simpl.
  - eapply (space_mono _ _ _ _ _ _ (λ t, t = TData ci)); [exact Hs|by apply Hkeep|done].
  - eapply (keeps_bytes _ (λ t, t = TData ci)); [by apply Hkeep|lia|apply (sp_hdr_head _ _ _ _ _ Hs)|done|].
    apply (wd_head _ _ _ _ (wc_img _ _ _ Hw)).
  - apply Hkeep. simpl. tauto.
Qed.

(** ** Committing an L2 entry *)
Definition set_ent (n : Z) (tbl : Z → list Z) (ci v : Z) : Z → list Z :=
  fupd tbl (ci / n) (<[Z.to_nat (ci mod n) := v]> (tbl (ci / n))).

Lemma ent_set_ne n tbl ci v c : 0 < n → c ≠ ci → 0 ≤ ci → 0 ≤ c → ent n (set_ent n tbl ci v) c = ent n tbl c.
Proof.
  intros Hn Hne Hci Hc. unfold ent, set_ent. destruct (decide (c / n = ci / n)) as [E|E].
  - rewrite E, fupd_eq. rewrite list_lookup_insert_ne; [done|]. intros Em. apply Hne.
    pose proof (Z.mod_pos_bound c n Hn). pose proof (Z.mod_pos_bound ci n Hn).
    rewrite (Z.div_mod c n), (Z.div_mod ci n) by lia. rewrite E. lia.
  - by rewrite fupd_ne.
Qed.

Lemma ent_set_eq n tbl ci v : (Z.to_nat (ci mod n)%Z < length (tbl (ci / n)%Z))%nat →
  ent n (set_ent n tbl ci v) ci = v.
Proof. intros Hl. unfold ent, set_ent. rewrite fupd_eq. by rewrite list_lookup_insert_eq. Qed.

(** [v] is a right entry for cluster [ci] of [g]. *)
Definition entry_for (f : bytes) (cs : Z) (g : ghost) (ci v : Z) : Prop :=
  0 ≤ v < 2 ^ 64 ∧
  (v = 0 → g_view g ci = default (zeros cs) (g_bv g ci)) ∧
  (v ≠ 0 → ∃ sz, entry_holds f cs v (g_view g ci) sz ∧ owns (g_own g) (phys_of v) sz (TData ci)).

Lemma l2_shape_insert cs t j v : l2_shape cs t → 0 ≤ v < 2 ^ 64 → l2_shape cs (<[j := v]> t).
Proof.
  intros (H1' & H2' & H3') Hv. split_and!; [done|unfold zlen in *; by rewrite length_insert|].
  by apply Forall_insert.
Qed.

Lemma wf_disk_commit ci f q g v : geom q → ci_ok q ci → wf_disk (λ c, c = ci) f q g →
  l1_at q (ci / l2_entries q) ≠ 0 → entry_for f (cluster_size q) g ci v →
  let t' := set_ent (l2_entries q) (g_tbl g) ci v in
  wf_disk (λ _, False)
    (write_at f (l1_at q (ci / l2_entries q)) (l2_disk (cluster_size q) (t' (ci / l2_entries q))))
    q (with_tbl g t').
Proof.
  intros Hg Hci Hw Hl1 (Hv & Hv0 & Hv1) t'.
  pose proof (wd_l2 _ _ _ _ Hw) as HL2. pose proof Hw as [].
  destruct (ci_split q ci Hg Hci) as (_ & _ & I1 & I2). pose proof (geom_cs q Hg) as Hcs.
  pose proof (l2n_bounds q Hg) as Hn. set (n := l2_entries q) in *. set (i := ci / n) in *.
  destruct (HL2 i (proj1 I1)) as (Hsh & Hlen & _ & Hnz). destruct (Hnz Hl1) as [Hr Hb].
  assert (Hti : t' i = <[Z.to_nat (ci mod n) := v]> (g_tbl g i)) by apply fupd_eq.
  assert (Hsh' : l2_shape (cluster_size q) (t' i)) by (rewrite Hti; by apply l2_shape_insert).
  assert (Hlt : (Z.to_nat (ci mod n)%Z < length (g_tbl g i))%nat).
  { rewrite <- (ge_l2n q Hg) in Hlen. fold n in Hlen. unfold zlen in Hlen. lia. }
  pose proof (wd_l2own i (proj1 I1) Hl1) as Hown.
  assert (Hk : keeps (g_own g) (λ t, t = TL2 i) f
                (write_at f (l1_at q i) (l2_disk (cluster_size q) (t' i)))).
  { apply keeps_write; [lia|]. rewrite zlen_l2_disk by done. apply Hown. }
  set (f' := write_at f _ _) in *.
  assert (HT : ∀ p b t, 0 ≤ p → owns (g_own g) p (zlen b) t → t ≠ TL2 i → bytes_at f p b → bytes_at f' p b)
    by (intros p b t Hp Ho Ht; eapply keeps_bytes; eauto).
  assert (Eeq : ent n t' ci = v) by (apply ent_set_eq; exact Hlt).
  assert (Ene : ∀ c, 0 ≤ c → c ≠ ci → ent n t' c = ent n (g_tbl g) c).
  { intros c Hc Hne. apply ent_set_ne; [lia|done|apply Hci|done]. }
  split; simpl; try done.
  - eapply space_mono; [done|exact Hk|done].
  - eapply (HT _ _ THead); [lia|apply (sp_hdr_head _ _ _ _ _ wd_space)|done|done].
  - destruct wd_meta as [Hm Ho]. split; [|done]. by eapply HT.
  - destruct wd_comp as [Hm Ho]. split; [|done]. by eapply HT.
  - destruct wd_pad as (pad & Hpl & Hm & Ho). exists pad. split_and!; [done| |done].
    eapply HT; [|by rewrite Hpl|done|done]. lia.
  - intros i' Hi'. eapply (HT _ _ TL1); [lia| |done|by apply wd_l1disk].
    intros o Hro. apply wd_l1own. change (zlen (be64 _)) with 8 in Hro. lia.
  - intros i' Hi'. destruct (decide (i' = i)) as [->|Hne].
    + split_and!; try done; try (rewrite Hti; unfold zlen in *; by rewrite length_insert).
      intros _. split; [done|]. apply bytes_at_write_same. lia.
    + unfold t', set_ent. rewrite fupd_ne by done.
      destruct (HL2 i' Hi') as (S1 & S2 & S3 & S4). split_and!; try done.
      intros Hne'. destruct (S4 Hne') as [R1 R2]. split; [done|].
      eapply (HT _ _ (TL2 i')); [lia|rewrite zlen_l2_disk by done; by apply wd_l2own|congruence|done].
  - intros c Hc _. fold n. intros He. destruct (decide (c = ci)) as [->|Hne].
    + rewrite Eeq in *. destruct (Hv1 He) as (sz & Hen & Ho). exists sz. split; [|done].
      eapply (entry_holds_mono f f' _ _ _ _ (g_own g)); [exact Hk|done|done|lia|done].
    + rewrite Ene in * by done. destruct (wd_data c Hc Hne He) as (sz & Hen & Ho).
      exists sz. split; [|done].
      eapply (entry_holds_mono f f' _ _ _ _ (g_own g)); [exact Hk|done|done|lia|done].
  - intros c Hc _. fold n. intros He. destruct (decide (c = ci)) as [->|Hne].
    + rewrite Eeq in He. by apply Hv0.
    + rewrite Ene in He by done. by apply wd_zero.
Qed.

(** ** Extension: what an operation may change of the device *)
Definition same_shape (q q' : lbd_qcow2) : Prop :=
  cluster_bits q' = cluster_bits q ∧ cluster_size q' = cluster_size q ∧ l2_entries q' = l2_entries q
  ∧ virtual_size q' = virtual_size q ∧ l1_size q' = l1_size q ∧ l1_offset q' = l1_offset q.

(** The append cursor moves by at most [a], the LRU counters by at most [n] and [m]. *)
Record ext (d d' : qdev K) (a n m : Z) : Prop := {
  ex_shape : same_shape (qcow2 d) (qcow2 d');
  ex_alloc : alloc_offset (qcow2 d) ≤ alloc_offset (qcow2 d') ≤ alloc_offset (qcow2 d) + a;
  ex_tick : lru_tick (qcow2 d) ≤ lru_tick (qcow2 d') ≤ lru_tick (qcow2 d) + n;
  ex_base : base_step (base d) (base d') m;
  ex_path : base_path d' = base_path d;
  ex_miss : miss_handler d' = miss_handler d;
  ex_replies : miss_replies d' = miss_replies d;
  ex_files p : content (kern d') (BaseFile p) = content (kern d) (BaseFile p)
}.

Lemma ext_trans d1 d2 d3 a n m a' n' m' :
  ext d1 d2 a n m → ext d2 d3 a' n' m' → ext d1 d3 (a + a') (n + n') (m + m').
Proof.
  intros [] []. split; try lia; try congruence.
  - unfold same_shape in *. intuition congruence.
  - by eapply base_step_trans.
Qed.

Lemma ext_weaken d d' a n m a' n' m' : ext d d' a n m → a ≤ a' → n ≤ n' → m ≤ m' → ext d d' a' n' m'.
Proof.
  intros [] Ha Hn Hm. split; try done; try lia.
  destruct (base d), (base d'); simpl in *; try done. destruct ex_base0. split; [done|lia].
Qed.

Lemma geo_shape q q' : same_geo q q' → same_shape q q'.
Proof. intros (? & ? & ? & ? & ? & ? & ?). by split_and!. Qed.

Lemma ext_cached d d' n m : cached d d' n m → ext d d' 0 n m.
Proof.
  intros Hc. destruct (cached_geo _ _ _ _ Hc) as (Hq & Ha & _). destruct Hc as [[_ Hf]].
  split; try done; [by apply geo_shape|lia].
Qed.

Lemma ext_same d d' a : same_dev d d' →
  alloc_offset (qcow2 d) ≤ alloc_offset (qcow2 d') ≤ alloc_offset (qcow2 d) + a → ext d d' a 0 0.
Proof.
  intros Hd Ha. destruct (same_dev_geo _ _ Hd) as (Hq & _ & _ & Ht). destruct Hd.
  split; try done; [by apply geo_shape|lia|]. rewrite sd_base. by apply base_step_refl.
Qed.

Lemma ci_ok_shape q q' ci : same_shape q q' → ci_ok q ci → ci_ok q' ci.
Proof. intros (_ & E1 & E2 & _ & E3 & _). unfold ci_ok. by rewrite E1, E2, E3. Qed.

(** ** Flushing the table with the new entry *)
Definition dirtied (d : qdev K) (s : qstats) (k : nat) (e : lbd_l2_cache_entry) (j v : Z) : qdev K :=
  set_stats s (set_q (set_l2_cache
    (<[k := l2e_set_dirty true (l2e_set_table (<[Z.to_nat j := v]> (table e)) e)]> (l2_cache (qcow2 d)))
    (qcow2 d)) d).

Lemma commit_spec ci d g k e s v : wfc (λ c, c = ci) d g → ci_ok (qcow2 d) ci →
  l2_at d g (ci / l2_entries (qcow2 d)) k e → l1_at (qcow2 d) (ci / l2_entries (qcow2 d)) ≠ 0 →
  entry_for (disk d) (cluster_size (qcow2 d)) g ci v →
  ∃ d', lbd_qcow2_l2_flush k (dirtied d s k e (ci mod l2_entries (qcow2 d)) v) = (Ok tt, d')
    ∧ wfc (λ _, False) d' (with_tbl g (set_ent (l2_entries (qcow2 d)) (g_tbl g) ci v))
    ∧ ext d d' 0 0 0 ∧ same_geo (qcow2 d) (qcow2 d') ∧ cl_cache (qcow2 d') = cl_cache (qcow2 d)
    ∧ stats d' = s.
Proof.
  intros Hw Hci [Hsl Hva Hdi Hke Hta] Hl1 Hen. pose proof (wc_geom _ _ _ Hw) as Hg.
  destruct (ci_split _ _ Hg Hci) as (_ & _ & I1 & I2). pose proof (geom_cs _ Hg) as Hcs.
  pose proof (wf_disk_commit ci _ _ _ v Hg Hci (wc_img _ _ _ Hw) Hl1 Hen) as Hcm. cbv zeta in Hcm.
  set (n := l2_entries (qcow2 d)) in *. set (i := ci / n) in *.
  destruct (wd_l2 _ _ _ _ (wc_img _ _ _ Hw) i (proj1 I1)) as (Hsh & _ & _ & Hnz).
  destruct (Hnz Hl1) as [Hr _]. pose proof (lookup_lt_Some _ _ _ Hsl) as Hk.
  set (t1 := set_ent n (g_tbl g) ci v) in *.
  assert (Ht1 : t1 i = <[Z.to_nat (ci mod n) := v]> (table e)) by (rewrite Hta; apply fupd_eq).
  assert (Hsh1 : l2_shape (cluster_size (qcow2 d)) (t1 i)).
  { rewrite Ht1, Hta. apply l2_shape_insert; [done|apply Hen]. }
  set (e1 := l2e_set_dirty true (l2e_set_table (<[Z.to_nat (ci mod n) := v]> (table e)) e)).
  set (d1 := dirtied d s k e (ci mod n) v).
  assert (Hs1 : l2_cache (qcow2 d1) !! k = Some e1) by (by apply list_lookup_insert_eq).
  destruct (kalloc_ok (cluster_size (qcow2 d)) d1 (wc_healthy _ _ _ Hw)) as (k1 & E1 & [Q1 Q1']).
  destruct (kwrite_ok (l1_at (qcow2 d) i) (l2_disk (cluster_size (qcow2 d)) (t1 i)) (set_kern k1 d1))
    as (k2 & E2 & Q2 & C2 & F2); [done|lia|rewrite zlen_l2_disk by done; lia|].
  simpl in C2. rewrite Q1' in C2. simpl in C2. rewrite zlen_l2_disk in E2 by done.
  set (d2 := set_kern k2 (set_stats s (set_q (set_l2_cache
    (<[k := l2e_set_dirty false e1]> (l2_cache (qcow2 d))) (qcow2 d)) d))).
  exists d2. split_and!.
  - unfold lbd_qcow2_l2_flush. rewrite (bind_ok _ _ _ _ _ (get_l2_ok _ _ _ Hs1)).
    change (l2_valid e1) with (l2_valid e). rewrite Hva. cbn [negb orb l2_dirty l2e_set_dirty e1].
    rewrite (bind_ok _ _ d1 d1 d1) by done. cbv zeta.
    change (l1_index e1) with (l1_index e). rewrite Hke.
    rewrite (bind_ok _ _ d1 (l1_at (qcow2 d) i) d1).
    2:{ apply arr_get_ok; [lia|]. by apply (l1_lookup (qcow2 d)). }
    rewrite (proj2 (Z.eqb_neq _ _) Hl1). change (cluster_size (qcow2 d1)) with (cluster_size (qcow2 d)).
    mstep E1. cbn [negb]. rewrite s64_small by lia. change (table e1) with (<[Z.to_nat (ci mod n) := v]> (table e)).
    rewrite <- Ht1. mstep E2. rewrite Z.eqb_refl. cbn [negb].
    unfold upd_l2, upd_q, modify, d2. simpl. by rewrite alter_insert_same by done.
  - split; simpl; [done|by eapply geom_same; [|exact Hg]; split_and!|..|apply (wc_tick _ _ _ Hw)].
    + rewrite C2. eapply wf_disk_same; [exact Hg|exact Hcm| |done|done]. by split_and!.
    + eapply base_ok_same; [..|apply (wc_base _ _ _ Hw)]; try done.
      intros p. simpl. rewrite F2. simpl. by rewrite Q1'.
    + eapply (cache_touch _ _ _ (l2e_ok (g_tbl g)) _ (lru_tick (qcow2 d)) _ _ k e);
        [apply (wc_l2c _ _ _ Hw)|done|apply Z.le_refl|simpl; apply (ca_lru _ _ _ _ _ _ (wc_l2c _ _ _ Hw) k e Hsl)| |].
      * intros _. split_and!; try done. split_and!; try done; [simpl; by rewrite Hke; lia|].
        simpl. rewrite Hke. by rewrite Ht1.
      * intros k0 e0 Hne He0 Hv0 (G1 & G2 & G3). split_and!; try done.
        unfold t1, set_ent. rewrite fupd_ne; [done|]. intros Heq. apply Hne.
        eapply (ca_unique _ _ _ _ _ _ (wc_l2c _ _ _ Hw)); [done|done|done|done|]. fold i in Heq. congruence.
  - split; simpl; try done; try lia.
    + by apply base_step_refl.
    + intros p. rewrite F2. simpl. by rewrite Q1'.
  - by split_and!.
  - done.
  - done.
Qed.

(** ** Storing the cached cluster *)
Lemma ALIGN4096_le x m : 0 ≤ x ≤ 4096 * m → 4096 * m < 2 ^ 63 → ALIGN4096 x ≤ 4096 * m.
Proof.
  intros Hx Hm. destruct (ALIGN4096_spec x) as [Hr [k Hk]]; [lia|].
  assert (k ≤ m) by lia. lia.
Qed.

Lemma compressBound_cs cs : 4096 ≤ cs ≤ 2 ^ 24 →
  LZ4_compressBound cs = cs + cs / 255 + 16 ∧ cs ≤ LZ4_compressBound cs < 2 ^ 25.
Proof.
  intros Hcs. unfold LZ4_compressBound. rewrite u32_small by lia.
  rewrite Z.gtb_ltb, (proj2 (Z.ltb_ge _ _)) by (unfold LZ4_MAX_INPUT_SIZE; lia).
  pose proof (Z.div_pos cs 255 ltac:(lia) ltac:(lia)).
  assert (cs / 255 ≤ 2 ^ 17) by (apply Z.div_le_upper_bound; lia). split; [done|lia].
Qed.

Lemma entry_compressed f cs p c b : 4096 ≤ cs ≤ 2 ^ 24 → 0 < p < 2 ^ 62 → zlen b = cs →
  0 < zlen c ≤ u32 (LZ4_compressBound cs) → bytes_at f p (be32 (zlen c) ++ c) →
  LZ4_decompress_safe c cs = Some b →
  entry_holds f cs (Z.lor LBD_QCOW2_L2_COMPRESSED p) b (ALIGN4096 (4 + zlen c)).
Proof.
  intros Hcs Hp Hb Hc Hat Hd. unfold entry_holds, phys_of. rewrite compressed_entry_phys by lia.
  split; [done|]. split; [done|].
  rewrite (proj2 (Z.eqb_neq _ _) (compressed_entry_flag p ltac:(lia))). by exists c.
Qed.

Lemma entry_plain f cs p b : 0 < p < 2 ^ 62 → zlen b = cs → bytes_at f p b → entry_holds f cs p b cs.
Proof.
  intros Hp Hb Hat. unfold entry_holds, phys_of. rewrite plain_entry_phys by lia.
  split; [done|]. split; [done|]. by rewrite plain_entry_flag by lia.
Qed.

(** Outcome of [store_cluster]: the cluster is on disk and the new entry is in
    the cached table, which is dirty. *)
Record stored (ci : Z) (d : qdev K) (g : ghost) (d1 : qdev K) (g1 : ghost) (v : Z) : Prop := {
  st_wfc : wfc (λ c, c = ci) d1 g1;
  st_dev : same_dev d d1;
  st_grow : alloc_offset (qcow2 d) ≤ alloc_offset (qcow2 d1) ≤ alloc_offset (qcow2 d) + cluster_size (qcow2 d);
  st_entry : entry_for (disk d1) (cluster_size (qcow2 d)) g1 ci v;
  st_ghost : g_tbl g1 = g_tbl g ∧ g_view g1 = g_view g ∧ g_bv g1 = g_bv g
}.

Lemma spaced_phys ci n d g p d' g' : spaced ci n d g p d' g' → 0 < n → 0 < p ∧ p + n ≤ 2 ^ 62.
Proof.
  intros [] Hn. split; [done|]. pose proof (wd_space _ _ _ _ (wc_img _ _ _ sp_wfc0)) as Hs.
  pose proof (owned_below _ _ _ _ _ _ _ _ Hs sp_own0 ltac:(done) Hn). pose proof (sp_alloc _ _ _ _ _ Hs). lia.
Qed.

Lemma set_entry_run k2 j v d e f : l2_cache (qcow2 d) !! k2 = Some e →
  (set_entry k2 j v;; upd_stats f) d = (Ok tt, dirtied d (f (stats d)) k2 e j v).
Proof.
  intros He. unfold set_entry, upd_l2, upd_q, upd_stats, modify, dirtied. munfold. simpl.
  by rewrite (alter_insert_some _ _ k2 e He).
Qed.

Section Store.
Context (strict : bool) (ci : Z) (d : qdev K) (g : ghost) (k2 : nat) (e2 : lbd_l2_cache_entry) (old_e old : Z).
Context (Hw : wfc (λ c, c = ci) d g) (Hci0 : 0 ≤ ci).
Context (Hat : l2_cache (qcow2 d) !! k2 = Some e2) (Hold : old_extent g ci old_e old).
Context (Hroom : alloc_offset (qcow2 d) + cluster_size (qcow2 d) ≤ 2 ^ 62).
Local Abbreviation cs := (cluster_size (qcow2 d)).

(** The plain branch. *)
Lemma store_plain j : ∃ d1 g1 s v,
  (phys ← choose_space strict old_e old cs;
   ret ← kwrite Backing phys (g_view g ci);
   if negb (ret =? cs) then throw (io_err ret) else
   set_entry k2 j (u64 phys);; upd_stats inc_uncompressed) d
  = (Ok tt, dirtied d1 s k2 e2 j v) ∧ stored ci d g d1 g1 v.
Proof.
  pose proof (geom_cs _ (wc_geom _ _ _ Hw)) as Hcs.
  destruct (choose_space_spec strict ci d g old_e old cs) as (p & d1 & g1 & E1 & Sp); [done|done|lia|lia|].
  destruct (spaced_phys _ _ _ _ _ _ _ Sp) as [Hp Hp2]; [lia|]. destruct Sp as [W1 S1 A1 O1 _ (G1 & G2 & G3)].
  pose proof (wd_view _ _ _ _ (wc_img _ _ _ Hw) ci Hci0) as Hlen.
  destruct (write_data_spec ci d1 g1 p cs p (g_view g ci)) as (k' & E2 & W2 & S2 & C2); [done|done|lia|lia|lia|lia|].
  destruct (same_dev_geo _ _ S1) as (_ & L1 & _ & _).
  eexists (set_kern k' d1), g1, _, p. split.
  - mstep E1. mstep E2. rewrite Hlen, Z.eqb_refl. cbn [negb]. rewrite u64_small by lia.
    apply set_entry_run. simpl. by rewrite L1.
  - split; [done|by eapply same_dev_trans|simpl; lia| |done].
    split; [lia|]. split; [lia|]. intros _. exists cs. unfold phys_of. rewrite plain_entry_phys by lia.
    split; [|done]. apply entry_plain; [lia|by rewrite G2|]. simpl. rewrite C2, G2. apply bytes_at_write_same. lia.
Qed.

(** The compressed branch. *)
Lemma store_compressed j comp : LZ4_compress (g_view g ci) (LZ4_compressBound cs) = comp →
  comp ≠ [] → zlen comp < cs - 4 → ∃ d1 g1 s v,
  (phys ← choose_space strict old_e old (ALIGN4096 (4 + zlen comp));
   ret ← kwrite Backing phys (be32 (zlen comp));
   if negb (ret =? 4) then throw (io_err ret) else
   ret ← kwrite Backing (phys + 4) comp;
   if negb (ret =? zlen comp) then throw (io_err ret) else
   set_entry k2 j (Z.lor LBD_QCOW2_L2_COMPRESSED (u64 phys));; upd_stats inc_compressed) d
  = (Ok tt, dirtied d1 s k2 e2 j v) ∧ stored ci d g d1 g1 v.
Proof.
  intros Hcomp Hne Hlt. pose proof (geom_cs _ (wc_geom _ _ _ Hw)) as Hcs.
  assert (0 < zlen comp) by (destruct comp; [done|unfold zlen; simpl; lia]).
  destruct (ALIGN4096_spec (4 + zlen comp)) as [Hal _]; [lia|].
  assert (Hale : ALIGN4096 (4 + zlen comp) ≤ cs).
  { destruct (cs_multiple _ (wc_geom _ _ _ Hw)) as [m Hm]. rewrite Hm in *. apply ALIGN4096_le; lia. }
  set (n := ALIGN4096 (4 + zlen comp)) in *.
  destruct (choose_space_spec strict ci d g old_e old n) as (p & d1 & g1 & E1 & Sp); [done|done|lia|lia|].
  destruct (spaced_phys _ _ _ _ _ _ _ Sp) as [Hp Hp2]; [lia|]. destruct Sp as [W1 S1 A1 O1 _ (G1 & G2 & G3)].
  pose proof (wd_view _ _ _ _ (wc_img _ _ _ Hw) ci Hci0) as Hlen.
  destruct (write_data_spec ci d1 g1 p n p (be32 (zlen comp))) as (k1 & E2 & W2 & S2 & C2);
    [done|done|lia|lia|change (zlen (be32 _)) with 4; lia|lia|].
  destruct (write_data_spec ci (set_kern k1 d1) g1 p n (p + 4) comp) as (k' & E3 & W3 & S3 & C3);
    [done|done|lia|lia|lia|lia|].
  destruct (same_dev_geo _ _ S1) as (_ & L1 & _ & _).
  eexists (set_kern k' d1), g1, _, (Z.lor LBD_QCOW2_L2_COMPRESSED p). split.
  - mstep E1. mstep E2. change (zlen (be32 (zlen comp)) =? 4) with true. cbn [negb].
    mstep E3. rewrite Z.eqb_refl. cbn [negb]. rewrite u64_small by lia.
    apply set_entry_run. simpl. by rewrite L1.
  - split; [done|eapply same_dev_trans; [exact S1|]; eapply same_dev_trans; [exact S2|exact S3]|simpl; lia| |done].
    pose proof (compressed_entry_range p ltac:(lia)).
    split; [lia|]. split; [lia|]. intros _. exists n. unfold phys_of. rewrite compressed_entry_phys by lia.
    split; [|done]. destruct (compressBound_cs cs Hcs) as [_ Hcb].
    apply entry_compressed; [done|lia|by rewrite G2| | |].
    + rewrite u32_small by lia. lia.
    + cbn [kern set_kern]. rewrite C3. cbn [kern set_kern]. rewrite C2. apply bytes_at_app; [lia|]. change (zlen (be32 _)) with 4.
      split; [|apply bytes_at_write_same; lia].
      apply bytes_at_write_disj; [lia|lia|apply bytes_at_write_same; lia|right; done].
    + rewrite G2, <- Hcomp. apply lz4_roundtrip; [by rewrite Hcomp|lia].
Qed.

Lemma store_cluster_spec k ce j : cl_cache (qcow2 d) !! k = Some ce → data ce = g_view g ci →
  ∃ d1 g1 s v, store_cluster strict k k2 j old_e old d = (Ok tt, dirtied d1 s k2 e2 j v)
    ∧ stored ci d g d1 g1 v.
Proof.
  intros Hce Hdata. unfold store_cluster. rewrite (bind_ok _ _ _ _ _ (get_cl_ok _ _ _ Hce)).
  rewrite (bind_ok _ _ d d d) by done. cbv zeta. rewrite Hdata.
  pose proof (geom_cs _ (wc_geom _ _ _ Hw)) as Hcs. destruct (compressBound_cs cs Hcs) as [_ Hcb].
  set (comp := LZ4_compress (g_view g ci) (LZ4_compressBound cs)).
  pose proof (lz4_bound (g_view g ci) (LZ4_compressBound cs)) as Hb. fold comp in Hb.
  rewrite u32_small by (pose proof (zlen_nonneg comp); lia). rewrite Z.gtb_ltb.
  destruct (Z.ltb_spec 0 (zlen comp)); [|by apply store_plain].
  destruct (Z.ltb_spec (zlen comp) (cs - 4)); [|by apply store_plain].
  apply store_compressed; [done|by intros E; rewrite E in *|done].
Qed.
End Store.

End WriteProof.
