(* ===== verification/Qcow2IoProof.v ===== *)
(** * Correctness of allocating tables and of writing one cluster

    [prepare_cluster_spec] is what writes and partial discards begin with,
    [write_cluster_spec] one iteration of the write loop: it succeeds and leads
    to a well-formed device with exactly that cluster changed. *)
From S2P Require Import Prelude Kernel Format Qcow2State Qcow2Alloc Qcow2Cache Qcow2Io Qcow2Inv.
From S2P Require Import Qcow2AllocProof Qcow2Wf Qcow2CacheProof Qcow2WriteProof.

Section IoProof.
Context {K : Type} `{KernelLaws K} `{LZ4Laws} `{CrcLaws}.
Local Abbreviation disk d := (content (kern d) Backing).
Implicit Types d : qdev K.

(** ** Allocating an L2 table *)
Lemma l1_at_insert q i p c : geom q → 0 ≤ i < l1_size q → 0 ≤ c →
  l1_at (set_l1_table (<[Z.to_nat i := p]> (l1_table q)) q) c = if decide (c = i) then p else l1_at q c.
Proof.
  intros Hg Hi Hc. unfold l1_at. simpl. pose proof (ge_l1 q Hg). unfold zlen in *.
  case_decide as E.
  - subst. by rewrite list_lookup_insert_eq by lia.
  - by rewrite list_lookup_insert_ne by lia.
Qed.

Lemma wf_disk_set_l1 hole f q g i p : geom q → wf_disk hole f q g → 0 ≤ i < l1_size q →
  l1_at q i = 0 → 0 < p < 2 ^ 62 → owns (g_own g) p (cluster_size q) (TL2 i) →
  bytes_at f p (l2_disk (cluster_size q) (replicate (Z.to_nat (l2_entries q)) 0)) →
  wf_disk hole (write_at f (l1_offset q + i * 8) (be64 p))
    (set_l1_table (<[Z.to_nat i := p]> (l1_table q)) q) g.
Proof.
  intros Hg Hw Hi Hz Hp Ho Hb. pose proof (wd_l2 _ _ _ _ Hw) as HL2. pose proof Hw as [].
  pose proof (geom_cs q Hg) as Hcs. set (q' := set_l1_table _ q). set (f' := write_at f _ _).
  assert (Hk : keeps (g_own g) (λ t, t = TL1) f f').
  { apply keeps_write; [lia|]. intros o Hr. change (zlen (be64 p)) with 8 in Hr. apply wd_l1own. lia. }
  assert (HT : ∀ p b t, 0 ≤ p → owns (g_own g) p (zlen b) t → t ≠ TL1 → bytes_at f p b → bytes_at f' p b)
    by (intros p' b t Hp' Ho' Ht; eapply keeps_bytes; eauto).
  assert (Hl1 : ∀ c, 0 ≤ c → l1_at q' c = if decide (c = i) then p else l1_at q c)
    by (intros c Hc; by apply l1_at_insert).
  split; simpl; try done.
  - eapply space_mono; [done|exact Hk|done].
  - eapply (HT _ _ THead); [lia|apply (sp_hdr_head _ _ _ _ _ wd_space)|done|done].
  - destruct wd_meta as [Hm Hmo]. split; [|done]. by eapply HT.
  - destruct wd_comp as [Hm Hmo]. split; [|done]. by eapply HT.
  - destruct wd_pad as (pad & Hpl & Hm & Hmo). exists pad. split_and!; [done| |done].
    eapply HT; [|by rewrite Hpl|done|done]. lia.
  - intros c Hc. rewrite Hl1 by lia. case_decide as E.
    + subst. apply bytes_at_write_same. lia.
    + apply bytes_at_write_disj; [lia|lia|by apply wd_l1disk|]. change (zlen (be64 _)) with 8.
      change (zlen (be64 p)) with 8. lia.
  - intros c Hc. rewrite Hl1 by lia. case_decide as E; [by subst|]. by apply wd_l2own.
  - intros c Hc. rewrite Hl1 by lia. destruct (HL2 c Hc) as (S1 & S2 & S3 & S4).
    case_decide as E.
    + subst c. rewrite (S3 Hz) in *. unfold l2_stored. rewrite <- (ge_l2n q Hg) in *.
      split; [done|]. split; [done|]. split; [intros ->; lia|]. intros _. split; [done|]. eapply HT; [lia|by rewrite zlen_l2_disk|done|done].
    + split_and!; try done. intros Hne. destruct (S4 Hne) as [R1 R2]. split; [done|].
      eapply (HT _ _ (TL2 c)); [lia|rewrite zlen_l2_disk by done; by apply wd_l2own|done|done].
  - intros c Hc Hh He. destruct (wd_data c Hc Hh He) as (sz & Hen & Hon). exists sz. split; [|done].
    eapply entry_holds_mono; [exact Hk|done|done|lia|done].
Qed.

Lemma l2_alloc_spec d g idx : wf d g → 0 ≤ idx < l1_size (qcow2 d) →
  alloc_offset (qcow2 d) + cluster_size (qcow2 d) ≤ 2 ^ 62 →
  ∃ d' g', lbd_qcow2_l2_alloc idx d = (Ok tt, d') ∧ wf d' g'
    ∧ g_tbl g' = g_tbl g ∧ g_view g' = g_view g ∧ g_bv g' = g_bv g
    ∧ l1_at (qcow2 d') idx ≠ 0 ∧ ext d d' (cluster_size (qcow2 d)) 0 0.
Proof.
  intros Hwf Hi Hroom. pose proof (wf_geom _ _ Hwf) as Hg. pose proof (geom_cs _ Hg) as Hcs.
  pose proof (wf_img _ _ Hwf) as Hw. pose proof (wd_space _ _ _ _ Hw) as Hs. pose proof (sp_alloc _ _ _ _ _ Hs) as Ha.
  unfold lbd_qcow2_l2_alloc. rewrite (bind_ok _ _ d d d) by done. cbv zeta.
  rewrite Z.geb_leb, (proj2 (Z.leb_gt _ _)) by lia.
  rewrite (bind_ok _ _ d _ d (arr_get_ok _ _ _ _ (proj1 Hi) (l1_lookup _ _ Hg Hi))).
  set (q := qcow2 d) in *. set (cs := cluster_size q) in *. set (phys := alloc_offset q) in *.
  destruct (Z.eqb_spec (l1_at q idx) 0) as [Hz|Hz]; cbn [negb].
  2:{ exists d, g. split_and!; try done. apply ext_same; [|unfold phys in *; fold q; lia].
      apply same_dev_refl, (wf_healthy _ _ Hwf). }
  rewrite (u64_small phys) by lia. rewrite !s64_small by lia.
  set (q1 := set_alloc_offset (phys + cs) q).
  set (q2 := set_l1_table (<[Z.to_nat idx := phys]> (l1_table q1)) q1).
  set (d2 := set_q q2 d).
  rewrite (bind_ok _ _ d tt (set_q (set_l1_table (<[Z.to_nat idx := phys]> (l1_table q)) q) d)) by done.
  rewrite (bind_ok _ _ _ tt d2) by done.
  destruct (kalloc_ok cs d2 (wf_healthy _ _ Hwf)) as (k1 & E1 & [Q1 Q1']). mstep E1. cbn [negb].
  set (zt := replicate (Z.to_nat (l2_entries q)) 0).
  destruct (wd_l2 _ _ _ _ Hw idx (proj1 Hi)) as (Sh0 & _ & Szt & _).
  assert (Sh : l2_shape cs zt) by (unfold zt; rewrite (ge_l2n q Hg), <- (Szt Hz); exact Sh0).
  destruct (kwrite_ok phys (l2_disk cs zt) (set_kern k1 d2)) as (k2 & E2 & Q2 & C2 & F2);
    [done|lia|rewrite zlen_l2_disk by done; lia|].
  mstep E2. rewrite zlen_l2_disk by done. rewrite Z.eqb_refl. cbn [negb].
  destruct (wd_l1off _ _ _ _ Hw) as [Hoff1 Hoff2]. fold q in Hoff1, Hoff2.
  destruct (kwrite_ok (l1_offset q + idx * 8) (be64 phys) (set_kern k2 (set_kern k1 d2)))
    as (k3 & E3 & Q3 & C3 & F3); [done|lia|change (zlen (be64 _)) with 8; lia|].
  mstep E3. change (zlen (be64 phys) =? 8) with true. cbn [negb].
  simpl in C3, C2. rewrite Q1' in C2. simpl in C2. rewrite C2 in C3.
  set (own1 := retag (g_own g) phys cs (TL2 idx)). set (d3 := set_kern k3 d2).
  exists d3, (with_space g own1 (g_fl g)).
  assert (Hnone : ∀ o, phys ≤ o → g_own g o = TNone) by apply (sp_none _ _ _ _ _ Hs).
  assert (Hkp : ∀ T : tag → Prop, T TNone → keeps (g_own g) T (disk d) (write_at (disk d) phys (l2_disk cs zt))).
  { intros T HT. apply keeps_write; [lia|]. intros o Hr. by rewrite Hnone by lia. }
  assert (Hown : ∀ p n t, owns (g_own g) p n t → t ≠ TNone → owns own1 p n t).
  { intros p n t Hpn Ht. apply retag_owns_other; [done|]. intros o Hr. by rewrite Hnone by lia. }
  assert (W1 : wf_disk (λ _, False) (write_at (disk d) phys (l2_disk cs zt)) q1 (with_space g own1 (g_fl g))).
  { eapply wf_disk_frame; [exact Hg|exact Hw|by split_and!| | | |].
    - destruct (space_mono _ _ _ _ _ _ (λ t, t = TNone) Hs (Hkp _ eq_refl)) as [_ _ P3 P4 P5 P6 P7 P8]; [done|].
      split; simpl; try done; [lia| | | |]; try (by apply Hown).
      + intros o Ho. unfold own1. rewrite retag_out by lia. apply Hnone. lia.
      + intros o s Hin. destruct (P5 o s Hin) as (? & ? & ?). split_and!; [lia..|by apply Hown].
    - eapply (keeps_bytes _ (λ t, t = TNone)); [by apply Hkp|lia|apply (sp_hdr_head _ _ _ _ _ Hs)|done|].
      apply (wd_head _ _ _ _ Hw).
    - intros o Hk. unfold own1, retag. case_decide; [|done]. rewrite Hnone in Hk by lia. done.
    - apply Hkp. simpl. tauto. }
  assert (W2 : wf_disk (λ _, False) (disk d3) (qcow2 d3) (with_space g own1 (g_fl g))).
  { simpl. rewrite C3. apply (wf_disk_set_l1 _ _ q1); try done; [by destruct Hg|lia|apply retag_in|].
    apply bytes_at_write_same. lia. }
  assert (X : ext d d3 cs 0 0).
  { split; simpl; fold q; fold phys; try done; try lia; [by apply base_step_refl|].
    intros p. rewrite F3. simpl. rewrite F2. simpl. by rewrite Q1'. }
  split_and!; try done.
  - split; simpl; try done.
    + destruct Hg. split; simpl; try done. unfold zlen in *. rewrite length_insert. done.
    + eapply base_ok_same; [..|apply (wf_base _ _ Hwf)]; try done. apply (ex_files _ _ _ _ _ X).
    + apply (wf_l2c _ _ Hwf).
    + apply (wf_clc _ _ Hwf).
    + apply (wf_tick _ _ Hwf).
  - simpl. unfold q2. rewrite (l1_at_insert q1); [|by destruct Hg|done|lia]. rewrite decide_True by done. lia.
Qed.

(** ** The allocation size of an existing entry *)
Lemma entry_size f cs e b sz : 4096 ≤ cs ≤ 2 ^ 24 → entry_holds f cs e b sz → 4096 ≤ sz < 2 ^ 32.
Proof.
  intros Hcs (_ & _ & He). destruct (Z.land _ _ =? 0); [destruct He as [_ ->]; lia|].
  destruct He as (c & Hc & _ & _ & ->). destruct (compressBound_cs cs Hcs) as [_ Hcb].
  rewrite u32_small in Hc by lia. destruct (ALIGN4096_spec (4 + zlen c)) as [? [k Hk]]; [lia|]. lia.
Qed.

Lemma read_old_ok d e b sz : healthy (kern d) → geom (qcow2 d) → e ≠ 0 →
  entry_holds (disk d) (cluster_size (qcow2 d)) e b sz →
  ∃ k', lbd_qcow2_read_old_alloc_size e d = (Ok sz, set_kern k' d) ∧ quiet d k'.
Proof.
  intros Hh Hg Hne (Hp & _ & He). unfold lbd_qcow2_read_old_alloc_size.
  rewrite (bind_ok _ _ d d d) by done. rewrite (proj2 (Z.eqb_neq _ _) Hne). fold (phys_of e).
  destruct (Z.land e LBD_QCOW2_L2_COMPRESSED =? 0); cbn [negb].
  - destruct He as [_ ->]. exists (kern d). split; [by destruct d|]. by split.
  - destruct He as (c & Hc & [Hb _]%bytes_at_app & _ & ->); [|lia].
    destruct (kread_at Backing (phys_of e) (be32 (zlen c)) d 4) as (k1 & E1 & Q1); [done|lia|done|lia|done|].
    pose proof (u32_range (LZ4_compressBound (cluster_size (qcow2 d)))).
    mstep E1. rewrite Z.eqb_refl. cbn [negb].
    rewrite (get32_bytes_at _ 0 (zlen c)) by (lia || apply bytes_at_full). by exists k1.
Qed.

(** The old extent of a cluster, as the write and discard paths see it. *)
Lemma old_extent_ok d g ci : wf d g → ci_ok (qcow2 d) ci →
  let e := ent (l2_entries (qcow2 d)) (g_tbl g) ci in
  ∃ k' old, lbd_qcow2_read_old_alloc_size e d = (Ok old, set_kern k' d) ∧ quiet d k'
    ∧ old_extent g ci e old ∧ (e ≠ 0 → 0 < old).
Proof.
  intros Hwf Hci e. pose proof (wf_geom _ _ Hwf) as Hg. destruct (decide (e = 0)) as [Hz|Hz].
  - exists (kern d), 0. rewrite Hz. split; [by destruct d|]. split; [by eapply wf_quiet|]. split; [by left|done].
  - destruct (wd_data _ _ _ _ (wf_img _ _ Hwf) ci) as (sz & Hen & Ho); [apply Hci|intros []|done|]. fold e in Hen, Ho.
    destruct (read_old_ok d e _ sz (wf_healthy _ _ Hwf) Hg Hz Hen) as (k' & E & Q).
    pose proof (entry_size _ _ _ _ _ (geom_cs _ Hg) Hen). destruct Hen as (Hp & _).
    exists k', sz. split_and!; [done..| |lia]. right. split_and!; [lia..|done].
Qed.

(** ** Writing one cluster *)

(** The append cursor on disk is the one in memory. *)
Definition synced (d : qdev K) : Prop := bytes_at (disk d) 36 (be64 (alloc_offset (qcow2 d))).

Lemma write_cursor_spec d g : wfc (λ _, False) d g →
  ∃ d', lbd_qcow2_write_alloc_offset d = (Ok tt, d') ∧ wfc (λ _, False) d' g ∧ qcow2 d' = qcow2 d
    ∧ ext d d' 0 0 0 ∧ synced d'.
Proof.
  intros Hw. destruct (write_alloc_offset_ok d (wc_healthy _ _ _ Hw)) as (k' & E & Hk & C & F).
  pose proof (wd_space _ _ _ _ (wc_img _ _ _ Hw)) as Hs.
  assert (Hkeep : keeps (g_own g) (λ t, t = TAlloc) (disk d) (content k' Backing)).
  { rewrite C. apply keeps_write; [lia|]. intros o Hr. change (zlen (be64 _)) with 8 in Hr.
    by apply (sp_hdr_alloc _ _ _ _ _ Hs). }
  assert (Hd : same_dev d (set_kern k' d)) by (split; simpl; try done; by destruct (qcow2 d)).
  exists (set_kern k' d). split_and!; try done.
  - replace g with (with_space g (g_own g) (g_fl g)) by (by destruct g).
    eapply wfc_step; [exact Hw|exact Hd| | |done|].
    + eapply space_mono; [exact Hs|exact Hkeep|done].
    + eapply keeps_bytes; [exact Hkeep|lia|apply (sp_hdr_head _ _ _ _ _ Hs)|done|].
      apply (wd_head _ _ _ _ (wc_img _ _ _ Hw)).
    + eapply keeps_weaken; [exact Hkeep|]. intros o ->. simpl. tauto.
  - apply ext_same; [done|simpl; lia].
  - unfold synced. simpl. rewrite C. apply bytes_at_write_same. lia.
Qed.

(** From the cached cluster to the image: the common tail of a write and of a
    partial discard, from a state where cluster [ci] is cached in slot [k] and
    its L2 table in slot [k2]. *)
Lemma rewrite_cluster_spec strict d g ci k e k2 e2 old off b :
  wf d g → ci_ok (qcow2 d) ci → cl_at d g ci k e →
  l2_at d g (ci / l2_entries (qcow2 d)) k2 e2 → l1_at (qcow2 d) (ci / l2_entries (qcow2 d)) ≠ 0 →
  old_extent g ci (ent (l2_entries (qcow2 d)) (g_tbl g) ci) old →
  0 ≤ off → off + zlen b ≤ cluster_size (qcow2 d) →
  alloc_offset (qcow2 d) + cluster_size (qcow2 d) ≤ 2 ^ 62 →
  ∃ d' g', (store_cluster strict k k2 (ci mod l2_entries (qcow2 d))
              (ent (l2_entries (qcow2 d)) (g_tbl g) ci) old;;
            lbd_qcow2_l2_flush k2;; lbd_qcow2_write_alloc_offset)
             (cl_slot d k (cle_set_data (write_at (data e) off b) e)) = (Ok tt, d')
    ∧ wf d' g' ∧ g_view g' = fupd (g_view g) ci (write_at (g_view g ci) off b) ∧ g_bv g' = g_bv g
    ∧ ext d d' (cluster_size (qcow2 d)) 0 0 ∧ synced d'.
Proof.
  intros Hwf Hci [Ks Kv Kk Kd] Hat Hl1 Hold Hoff Hlen Hroom.
  pose proof (wf_geom _ _ Hwf) as Hg. set (n := l2_entries (qcow2 d)) in *. set (cs := cluster_size (qcow2 d)) in *.
  set (nb := write_at (data e) off b). set (v := fupd (g_view g) ci nb).
  set (e1 := cle_set_data nb e). set (d5 := cl_slot d k e1).
  assert (Hnb : nb = write_at (g_view g ci) off b) by (unfold nb; by rewrite Kd).
  assert (Hvl : ∀ c, 0 ≤ c → zlen (v c) = cs).
  { intros c Hc. pose proof (wd_view _ _ _ _ (wf_img _ _ Hwf) c Hc) as Hl. fold cs in Hl. unfold v.
    destruct (decide (c = ci)) as [->|Hne]; [|by rewrite fupd_ne].
    rewrite fupd_eq, Hnb, zlen_write_at by lia. pose proof (zlen_nonneg b). case_decide; lia. }
  assert (W5 : wfc (λ c, c = ci) d5 (with_view g v)).
  { destruct (wf_wfc (λ c, c = ci) d g v Hwf) as []; [|done|].
    - intros c Hc. unfold v. by rewrite fupd_ne.
    - split; try done; [by eapply geom_same; [|exact wc_geom]; split_and!|].
      eapply wf_disk_same; [exact Hg|exact wc_img| |done|done]. by split_and!. }
  assert (C5 : clc_ok (qcow2 d5) v).
  { pose proof (wf_clc _ _ Hwf) as Hc. eapply cache_touch; [exact Hc|exact Ks|apply Z.le_refl|
      exact (ca_lru _ _ _ _ _ _ Hc k e Ks)| |].
    - intros _. split; [done|]. split; [done|]. split; simpl; rewrite Kk; [apply Hci|].
      unfold v. by rewrite fupd_eq.
    - intros i e' Hne He' Hv' [G1 G2]. split; [done|]. unfold v. rewrite fupd_ne; [done|].
      intros Heq. apply Hne. eapply (ca_unique _ _ _ _ _ _ Hc); [done|done|done|done|congruence]. }
  destruct (store_cluster_spec strict ci d5 (with_view g v) k2 e2 (ent n (g_tbl g) ci) old W5 (proj1 (proj1 Hci))
     (la_slot _ _ _ _ _ Hat) Hold Hroom k e1 (ci mod n)) as (d6 & g6 & s & w & E6 & [W6 S6 A6 En6 (G1 & G2 & G3)]).
  { simpl. apply list_lookup_insert_eq. by eapply lookup_lt_Some. }
  { simpl. unfold v. by rewrite fupd_eq. }
  destruct (same_dev_geo _ _ S6) as (Gq & Gl2 & Gcl & Gt). simpl in Gl2, Gcl, Gt.
  pose proof Gq as (_ & Gcs & Gn & _ & Gl1 & _). simpl in Gcs, Gn, Gl1. fold cs in Gcs. fold n in Gn.
  assert (Gl1' : ∀ i, l1_at (qcow2 d6) i = l1_at (qcow2 d) i) by (intros i; unfold l1_at; by rewrite Gl1).
  assert (X6 : ext d d6 cs 0 0).
  { apply (ext_trans d d5 d6 0 0 0 cs 0 0).
    - apply ext_cached, cached_cl, (wf_healthy _ _ Hwf).
    - apply ext_same; [done|]. exact A6. }
  destruct (commit_spec ci d6 g6 k2 e2 s w) as (d7 & E7 & W7 & X7 & Gq7 & Gcl7 & _).
  { done. } { eapply ci_ok_shape; [apply X6|done]. }
  { destruct Hat. split; try done; [by rewrite Gl2|by rewrite Gn|by rewrite Gn, G1]. }
  { by rewrite Gn, Gl1'. } { rewrite Gcs. exact En6. }
  destruct (write_cursor_spec d7 _ W7) as (d8 & E8 & W8 & Q8 & X8 & Y8).
  rewrite Gn in *.
  eexists d8, _. split_and!.
  - mstep E6. mstep E7. exact E8.
  - apply wfc_wf; [exact W8|]. simpl. rewrite Q8, G2. eapply clc_mono; [| |exact C5].
    + rewrite Gcl7, Gcl. done.
    + pose proof (ex_tick _ _ _ _ _ X7). simpl. lia.
  - simpl. rewrite G2. simpl. unfold v. by rewrite Hnb.
  - simpl. by rewrite G3.
  - eapply ext_weaken; [exact (ext_trans _ _ _ _ _ _ _ _ _ X6 (ext_trans _ _ _ _ _ _ _ _ _ X7 X8))|lia..].
  - done.
Qed.

(** What a cluster operation needs of the device. *)
Lemma room_step d d' n : room d (n + 1) → 0 ≤ n →
  ext d d' (2 * cluster_size (qcow2 d)) 4 1 → room d' n.
Proof.
  intros (Hn & Ha & Ht & Hb) Hn0 X. pose proof (ex_alloc _ _ _ _ _ X). pose proof (ex_tick _ _ _ _ _ X).
  pose proof (ex_base _ _ _ _ _ X). destruct (ex_shape _ _ _ _ _ X) as (_ & Ec & _). unfold room. rewrite Ec.
  split_and!; [lia|nia|lia|]. destruct (base d), (base d'); simpl in *; try done; lia.
Qed.

Lemma room_weaken d n m : 0 ≤ m ≤ n → 0 ≤ cluster_size (qcow2 d) → room d n → room d m.
Proof.
  intros Hm Hc (Hn & Ha & Ht & Hb). split_and!; [lia|nia|lia|]. destruct (base d); [lia|done].
Qed.

Lemma l1_at_cached d d' n m i : cached d d' n m → l1_at (qcow2 d') i = l1_at (qcow2 d) i.
Proof.
  intros Hc. destruct (cached_geo _ _ _ _ Hc) as ((_ & _ & _ & _ & E & _) & _). unfold l1_at. by rewrite E.
Qed.

Lemma cl_at_same d d' g ci k e : cl_cache (qcow2 d') = cl_cache (qcow2 d) → cl_at d g ci k e → cl_at d' g ci k e.
Proof. intros E []. split; try done. by rewrite E. Qed.

(** The common head of a write and of a partial discard: allocate the L2 table,
    load the cluster and, once there is a slot for it, get the table. *)
Lemma prepare_cluster_spec d g ci : wf d g → ci_ok (qcow2 d) ci → room d 1 →
  let i := ci / l2_entries (qcow2 d) in
  ∃ d1 p d2 g', lbd_qcow2_l2_alloc i d = (Ok tt, d1) ∧ lbd_qcow2_cl_load ci d1 = (Ok p, d2)
    ∧ wf d1 g' ∧ load_post d1 g' ci 2 1 p d2 ∧ ext d d1 (cluster_size (qcow2 d)) 0 0
    ∧ g_tbl g' = g_tbl g ∧ g_view g' = g_view g ∧ g_bv g' = g_bv g
    ∧ ∀ k e d2', wf d2' g' → cached d2 d2' 1 0 → cl_at d2' g' ci k e →
      ∃ k2 d3 e2, lbd_qcow2_l2_get i d2' = (Ok (Some k2), d3) ∧ wf d3 g' ∧ cl_at d3 g' ci k e ∧ l2_at d3 g' i k2 e2
        ∧ l1_at (qcow2 d3) i ≠ 0 ∧ ext d d3 (cluster_size (qcow2 d)) 4 1.
Proof.
  intros Hwf Hci (_ & Ra & Rt & Rb) i. pose proof (wf_geom _ _ Hwf) as Hg. pose proof (geom_cs _ Hg) as Hcs.
  destruct (ci_split _ _ Hg Hci) as (_ & _ & I1 & _). fold i in I1.
  destruct (l2_alloc_spec d g i Hwf I1) as (d1 & g1 & E1 & W1 & G1 & G2 & G3 & L1 & X1); [lia|].
  pose proof (ex_tick _ _ _ _ _ X1). pose proof (ex_base _ _ _ _ _ X1) as B1.
  assert (Hci1 : ci_ok (qcow2 d1) ci) by (eapply ci_ok_shape; [apply X1|done]).
  destruct (cl_load_spec d1 g1 ci W1 Hci1) as (p & d2 & E2 & P2); [lia| |].
  { destruct (base d), (base d1); simpl in *; try done; lia. }
  pose proof (lp_cached _ _ _ _ _ _ _ P2) as C2. pose proof (cs_tick _ _ _ _ C2).
  exists d1, p, d2, g1. split_and!; try done. intros k e d2' W2 C2' A2. pose proof (cs_tick _ _ _ _ C2').
  destruct (l2_get_spec d2' g1 i W2) as (k2 & e2 & d3 & E3 & W3 & C3 & Lc & _ & A3); [lia|lia|].
  exists k2, d3, e2. split_and!; try done.
  - by apply (cl_at_same d2').
  - by rewrite (l1_at_cached _ _ _ _ _ C3), (l1_at_cached _ _ _ _ _ C2'), (l1_at_cached _ _ _ _ _ C2).
  - pose proof (cached_trans _ _ _ _ _ _ _ C2 (cached_trans _ _ _ _ _ _ _ C2' C3)) as C.
    eapply ext_weaken; [exact (ext_trans _ _ _ _ _ _ _ _ _ X1 (ext_cached _ _ _ _ C))|lia..].
Qed.

(** A write takes a missing cluster for zeros, handler or not. *)
Lemma load_or_zero_spec d g ci p d' : load_post d g ci 2 1 p d' → 0 ≤ ci → wf d g → lru_tick (qcow2 d) + 4 ≤ U64_MAX →
  ∃ k e d2, (match p with CMiss => lbd_qcow2_cl_get_zero ci | CNull => throw (- EIO) | CAt k => mret k end) d' = (Ok k, d2)
    ∧ wf d2 g ∧ cached d' d2 1 0 ∧ cl_at d2 g ci k e.
Proof.
  intros [W C L _] Hci Hwf Ht. pose proof (cs_tick _ _ _ _ C). destruct L as [k e A|Hm Hv Ha].
  - exists k, e, d'. split_and!; try done. apply cached_refl; [apply (wf_healthy _ _ W)|lia..].
  - apply cl_get_zero_spec; [done|lia|done|done|]. destruct (cached_geo _ _ _ _ C) as [(_ & -> & _) _].
    destruct (decide (ent (l2_entries (qcow2 d)) (g_tbl g) ci = 0)) as [He|He]; [|destruct Hv; by left].
    rewrite (wd_zero _ _ _ _ (wf_img _ _ Hwf) ci Hci (λ f, f) He).
    destruct (g_bv g ci) eqn:Eb; [|done]. destruct Hv. right. congruence.
Qed.

Lemma ent_at d g ci : wf d g → ci_ok (qcow2 d) ci →
  g_tbl g (ci / l2_entries (qcow2 d)) !! Z.to_nat (ci mod l2_entries (qcow2 d))
  = Some (ent (l2_entries (qcow2 d)) (g_tbl g) ci).
Proof.
  intros Hwf Hci. pose proof (wf_geom _ _ Hwf) as Hg. destruct (ci_split _ _ Hg Hci) as (_ & _ & I1 & _).
  pose proof (wd_l2 _ _ _ _ (wf_img _ _ Hwf) _ (proj1 I1)) as Hst.
  exact (ent_lookup _ _ _ _ _ _ Hg eq_refl (proj1 (proj1 Hci)) Hst).
Qed.

Lemma upd_cl_run d k e f : cl_cache (qcow2 d) !! k = Some e → upd_cl k f d = (Ok tt, cl_slot d k (f e)).
Proof. intros He. unfold upd_cl, upd_q, modify, cl_slot. by rewrite (alter_insert_some _ _ k e He). Qed.

Lemma write_cluster_spec d g ci off b : wf d g → ci_ok (qcow2 d) ci → room d 1 →
  0 ≤ off → off + zlen b ≤ cluster_size (qcow2 d) →
  ∃ d' g', write_cluster ci off b d = (Ok tt, d') ∧ wf d' g'
    ∧ g_view g' = fupd (g_view g) ci (write_at (g_view g ci) off b) ∧ g_bv g' = g_bv g
    ∧ ext d d' (2 * cluster_size (qcow2 d)) 4 1 ∧ synced d'.
Proof.
  intros Hwf Hci Hroom Hoff Hlen. pose proof (wf_geom _ _ Hwf) as Hg.
  destruct (ci_split _ _ Hg Hci) as (U1 & U2 & I1 & I2).
  destruct (prepare_cluster_spec d g ci Hwf Hci Hroom)
    as (d1 & p & d2 & g3 & E1 & E2 & W1 & P2 & X1 & G1 & G2 & G3 & Hget).
  destruct (load_or_zero_spec d1 g3 ci p d2 P2) as (k & e & d2' & Ez & W2 & C2 & A2); [apply Hci| | |].
  { done. } { pose proof (ex_tick _ _ _ _ _ X1). destruct Hroom as (_ & _ & Rt & _). lia. }
  destruct (Hget k e d2' W2 C2 A2) as (k2 & d3 & e2 & E3 & W3 & A3 & L3 & N3 & X3).
  destruct (ex_shape _ _ _ _ _ X3) as (_ & Sc & Sn & _). pose proof (ex_alloc _ _ _ _ _ X3).
  assert (Hci3 : ci_ok (qcow2 d3) ci) by (eapply ci_ok_shape; [apply X3|done]).
  destruct Hroom as (_ & Ra & _).
  destruct (old_extent_ok d3 g3 ci W3 Hci3) as (k4 & old & E4 & Q4 & Hold & _).
  destruct (wf_set_kern d3 g3 k4 W3 Q4) as [W4 C4]. set (d4 := set_kern k4 d3) in *.
  destruct (rewrite_cluster_spec true d4 g3 ci k e k2 e2 old off b W4) as (d8 & g8 & E8 & W8 & V8 & B8 & X8 & Y8).
  { done. } { by apply (cl_at_same d3). } { cbn [qcow2 set_kern d4]. rewrite Sn. by destruct L3. } { cbn [qcow2 set_kern d4]. by rewrite Sn. }
  { done. } { done. } { cbn [qcow2 set_kern d4]. by rewrite Sc. } { cbn [qcow2 set_kern d4]. rewrite Sc. lia. }
  exists d8, g8. split_and!; try done.
  - unfold write_cluster. rewrite (bind_ok _ _ d d d) by done. cbv zeta. rewrite U1, U2.
    mstep E1. mstep E2. mstep Ez. mstep E3.
    rewrite (bind_ok _ _ _ _ _ (get_l2_ok _ _ _ (la_slot _ _ _ _ _ L3))).
    pose proof (ent_at d3 g3 ci W3 Hci3) as Hent. change (l2_entries (qcow2 d4)) with (l2_entries (qcow2 d3)) in E8.
    rewrite Sn in Hent, E4, E8.
    rewrite (bind_ok _ _ d3 _ d3 (arr_get_ok _ _ _ _ (proj1 I2)
      (eq_trans (f_equal (λ t, t !! _) (la_table _ _ _ _ _ L3)) Hent))).
    mstep E4. rewrite (bind_ok _ _ _ _ _ (upd_cl_run d4 k e _ (ka_slot _ _ _ _ _ A3))).
    exact E8.
  - by rewrite V8, G2.
  - by rewrite B8.
  - simpl in X8. rewrite Sc in X8.
    eapply ext_weaken; [exact (ext_trans _ _ _ _ _ _ _ _ _ X3 (ext_trans _ _ _ _ _ _ _ _ _ (ext_cached _ _ _ _ C4) X8))|lia..].
Qed.

End IoProof.
