(* ===== verification/Flat.v ===== *)
(** * The guest's view: a flat array of bytes, and its cutting into clusters *)
From S2P Require Import Prelude Kernel Format Qcow2State Qcow2Io Qcow2Inv Qcow2Wf.

(** Byte [o] of the clusters [view]. *)
Definition vbyte (view : Z → bytes) (cs o : Z) : byte := nth (Z.to_nat (o mod cs)) (view (o / cs)) x00.

(** [n] bytes of an array from [off] on. *)
Definition slice (V : Z → byte) (off n : Z) : bytes :=
  (λ i, V (off + Z.of_nat i)) <$> seq 0 (Z.to_nat n).

(** The array after storing [b] at [off]. *)
Definition upd (V : Z → byte) (off : Z) (b : bytes) : Z → byte := λ o,
  if decide (off ≤ o < off + zlen b) then nth (Z.to_nat (o - off)) b x00 else V o.

(** What the segments of a request starting at [off] receive. *)
Fixpoint slices (V : Z → byte) (off : Z) (segs : list bytes) : list bytes :=
  match segs with
  | [] => []
  | s :: segs' => slice V off (zlen s) :: slices V (off + zlen s) segs'
  end.

Lemma zlen_slice V off n : 0 ≤ n → zlen (slice V off n) = n.
Proof. intros. unfold slice. len. Qed.

Lemma slice_ext V V' off n : (∀ o, off ≤ o < off + n → V o = V' o) → slice V off n = slice V' off n.
Proof.
  intros Hv. unfold slice. apply list_fmap_ext. intros i x Hx. apply lookup_seq in Hx as [-> Hx].
  apply Hv. lia.
Qed.

Lemma slices_ext V V' off segs : (∀ o, off ≤ o < off + zlen (concat segs) → V o = V' o) →
  slices V off segs = slices V' off segs.
Proof.
  revert off. induction segs as [|s segs IH]; intros off Hv; [done|]. simpl in *.
  unfold zlen in *. rewrite length_app in Hv.
  f_equal; [apply slice_ext; intros o Ho; apply Hv; lia|]. apply IH. intros o Ho. apply Hv. lia.
Qed.

Lemma slice_app V off n m : 0 ≤ n → 0 ≤ m → slice V off (n + m) = slice V off n ++ slice V (off + n) m.
Proof.
  intros Hn Hm. unfold slice. rewrite Z2Nat.inj_add, seq_app, fmap_app by done. f_equal.
  replace (seq (0 + Z.to_nat n) (Z.to_nat m)) with (Nat.add (Z.to_nat n) <$> seq 0 (Z.to_nat m))
    by (rewrite fmap_add_seq; f_equal; lia).
  rewrite <- list_fmap_compose. apply list_fmap_ext. intros i x _. simpl. f_equal. lia.
Qed.

Lemma slice_upd V off b : slice (upd V off b) off (zlen b) = b.
Proof.
  apply list_eq. intros i. unfold slice, zlen. rewrite Nat2Z.id, list_lookup_fmap.
  destruct (decide (i < length b)%nat) as [Hi|Hi].
  - rewrite lookup_seq_lt by done. simpl. unfold upd, zlen. rewrite decide_True by lia.
    rewrite nth_lookup. replace (Z.to_nat (off + Z.of_nat i - off)) with i by lia.
    destruct (lookup_lt_is_Some_2 b i Hi) as [x ->]. done.
  - rewrite lookup_seq_ge by lia. symmetry. apply lookup_ge_None. lia.
Qed.

Lemma upd_app V off b c o : upd (upd V off b) (off + zlen b) c o = upd V off (b ++ c) o.
Proof.
  unfold upd. unfold zlen. rewrite length_app, Nat2Z.inj_add.
  repeat case_decide; try lia; try done.
  - rewrite app_nth2 by lia. f_equal. lia.
  - rewrite app_nth1 by lia. done.
Qed.

Lemma upd_nil V off o : upd V off [] o = V o.
Proof. unfold upd. change (zlen []) with 0. by rewrite decide_False by lia. Qed.

Lemma slices_concat V off segs : concat (slices V off segs) = slice V off (zlen (concat segs)).
Proof.
  revert off. induction segs as [|s segs IH]; intros off; [done|]. simpl.
  rewrite zlen_app, slice_app by (unfold zlen; lia). f_equal. apply IH.
Qed.

(** ** Cutting an offset into cluster and offset in the cluster *)
Lemma chunk_at_spec q off rem : geom q → 0 ≤ off → 0 < rem →
  chunk_at q off rem = (off / cluster_size q, off mod cluster_size q,
                        Z.min rem (cluster_size q - off mod cluster_size q))
  ∧ 0 < Z.min rem (cluster_size q - off mod cluster_size q).
Proof.
  intros [Hb Hc _ _ _] Ho Hr. unfold chunk_at.
  assert (0 < cluster_size q) by (rewrite Hc; apply Z.pow_pos_nonneg; lia).
  pose proof (Z.mod_pos_bound off (cluster_size q) ltac:(done)). split; [|lia].
  rewrite Z.shiftr_div_pow2 by lia. rewrite <- Hc.
  assert (E : Z.land off (cluster_size q - 1) = off mod cluster_size q).
  { rewrite Hc, <- Z.land_ones, Z.ones_equiv by lia. f_equal; lia. }
  by rewrite E.
Qed.

(** The guest addresses the store can serve. *)
Definition capacity (q : lbd_qcow2) : Z := Z.min (l1_size q * l2_entries q * cluster_size q) (2 ^ 62).

Lemma capacity_ci q off : geom q → 0 ≤ off < capacity q → ci_ok q (off / cluster_size q).
Proof.
  intros Hg Ho. pose proof (geom_cs q Hg). unfold capacity in Ho. split.
  - split; [apply Z.div_pos; lia|]. apply Z.div_lt_upper_bound; lia.
  - assert (E : 2 ^ 62 = cluster_size q * 2 ^ (62 - cluster_bits q)).
    { destruct Hg as [? -> _ _ _]. rewrite <- Z.pow_add_r by lia. f_equal; lia. }
    assert (off / cluster_size q < 2 ^ (62 - cluster_bits q)) by (apply Z.div_lt_upper_bound; lia). nia.
Qed.

Lemma vbyte_slice view cs ci o n : 0 < cs → 0 ≤ o → 0 ≤ n → o + n ≤ cs → zlen (view ci) = cs →
  slice (vbyte view cs) (ci * cs + o) n = read_at (view ci) o n.
Proof.
  intros Hcs Ho Hn Hle Hl. apply list_eq. intros i. unfold slice, read_at.
  rewrite list_lookup_fmap. destruct (decide (i < Z.to_nat n)%nat) as [Hi|Hi].
  - rewrite lookup_seq_lt by done. rewrite lookup_take_lt, lookup_drop by done. simpl. unfold vbyte.
    replace (ci * cs + o + Z.of_nat i) with ((o + Z.of_nat i) + ci * cs) by lia.
    rewrite Z.mod_add, Z.div_add by lia. rewrite Z.mod_small, Z.div_small by lia.
    rewrite nth_lookup. replace (Z.to_nat (o + Z.of_nat i)) with (Z.to_nat o + i)%nat by lia.
    unfold zlen in *. destruct (lookup_lt_is_Some_2 (view ci) (Z.to_nat o + i)) as [x Hx]; [lia|].
    by rewrite Z.add_0_l, Hx.
  - rewrite lookup_seq_ge by lia. rewrite lookup_take_ge by lia. done.
Qed.

(** Updating one cluster is updating the array. *)
Lemma vbyte_upd view cs ci off b o : 0 < cs → 0 ≤ off → off + zlen b ≤ cs → 0 ≤ o → zlen (view ci) = cs →
  vbyte (fupd view ci (write_at (view ci) off b)) cs o = upd (vbyte view cs) (ci * cs + off) b o.
Proof.
  intros Hcs Hoff Hle Ho Hl. unfold vbyte, upd. pose proof (Z.mod_pos_bound o cs Hcs).
  pose proof (Z.div_mod o cs ltac:(lia)) as Hdm. destruct (decide (o / cs = ci)) as [E|E].
  - rewrite E, fupd_eq. rewrite !nth_lookup, lookup_write_at by done. unfold zlen in *.
    destruct (decide (ci * cs + off ≤ o < ci * cs + off + Z.of_nat (length b))).
    + rewrite decide_True by lia. do 2 f_equal. lia.
    + rewrite decide_False by lia. rewrite decide_False; [done|]. intros (? & ? & ?). lia.
  - rewrite fupd_ne by done. rewrite decide_False; [done|]. intros Hr. apply E.
    symmetry. apply (Z.div_unique o cs ci (o - ci * cs)); lia.
Qed.
