(* ===== verification/Qcow2Refine.v ===== *)
(** * Reads, writes and discards of the store refine a flat array of bytes

    [stored d V B]: the device [d] stores the byte array [V] over a base layer
    that provides the clusters [B]; [rep d V B]: and nobody handles its misses. *)
From S2P Require Import Prelude Kernel Format Qcow2State Qcow2Alloc Qcow2Cache Qcow2Io Qcow2Inv.
From S2P Require Import Qcow2AllocProof Qcow2Wf Qcow2CacheProof Qcow2WriteProof Qcow2IoProof Flat.

Section Refine.
Context {K : Type} `{KernelLaws K} `{LZ4Laws} `{CrcLaws}.
Local Abbreviation disk d := (content (kern d) Backing).
Implicit Types d : qdev K.

Definition stored (d : qdev K) (V : Z → byte) (B : Z → option bytes) : Prop := ∃ g, wf d g
  ∧ (∀ o, 0 ≤ o → vbyte (g_view g) (cluster_size (qcow2 d)) o = V o)
  ∧ (∀ ci, g_bv g ci = B ci).
Definition rep (d : qdev K) (V : Z → byte) (B : Z → option bytes) : Prop := stored d V B ∧ miss_handler d = false.

Lemma stored_equal d V V' B : (∀ o, 0 ≤ o → V o = V' o) → stored d V B → stored d V' B.
Proof. intros Hv (g & Hw & Hg & Hb). exists g. split_and!; [done| |done]. intros o Ho. by rewrite Hg, Hv. Qed.
Lemma rep_ext d V V' B : (∀ o, 0 ≤ o → V o = V' o) → rep d V B → rep d V' B.
Proof. intros Hv [Hs Hm]. split; [by eapply stored_equal|done]. Qed.

Lemma wf_stats d g s : wf d g → wf (set_stats s d) g.
Proof. intros []. by split. Qed.

Lemma stored_stats d V B s : stored d V B → stored (set_stats s d) V B.
Proof. intros (g & Hw & Hg). exists g. split; [by apply wf_stats|done]. Qed.

Lemma ext_refl d a n m : healthy (kern d) → 0 ≤ a → 0 ≤ n → 0 ≤ m → ext d d a n m.
Proof.
  intros Hh Ha Hn Hm. eapply ext_weaken; [apply ext_cached, (cached_refl d 0 0 Hh)|lia..]; lia.
Qed.

(** ** Read *)
Lemma read_cluster_spec retries d g ci : wf d g → miss_handler d = false → ci_ok (qcow2 d) ci → room d 1 →
  ∃ d', read_cluster retries ci d = (Ok (Some (g_view g ci)), d') ∧ wf d' g ∧ cached d d' 2 1.
Proof.
  intros Hwf Hm Hci (_ & _ & Rt & Rb).
  destruct (cl_load_spec d g ci Hwf Hci) as (p & d' & E & [W C L _]); [lia|done|].
  destruct L as [k e []|Hm']; [|congruence]. exists d'. split_and!; try done. destruct retries; cbn [read_cluster]; mstep E;
    rewrite (bind_ok _ _ _ _ _ (get_cl_ok _ _ _ ka_slot)); by rewrite ka_data.
Qed.

(** The chunk loop: [P] and [Q] describe how one chunk is cut off a request. *)
Lemma capacity_shape q q' : same_shape q q' → capacity q' = capacity q.
Proof. intros (_ & E1 & E2 & _ & E3 & _). unfold capacity. by rewrite E1, E2, E3. Qed.

Lemma ext_room_cached d d' n m k : cached d d' n m → n ≤ 4 → m ≤ 1 → room d (k + 1) → 0 ≤ k →
  0 ≤ cluster_size (qcow2 d) → room d' k.
Proof.
  intros C Hn Hm Hr Hk Hc. eapply room_step; [done|done|].
  eapply ext_weaken; [by apply ext_cached|lia..].
Qed.

Lemma read_chunks_spec fuel : ∀ d g off rem, wf d g → miss_handler d = false → 0 ≤ off → 0 ≤ rem ≤ Z.of_nat fuel →
  off + rem ≤ capacity (qcow2 d) → room d rem →
  ∃ d', read_chunks fuel off rem d = (Ok (slice (vbyte (g_view g) (cluster_size (qcow2 d))) off rem), d')
    ∧ wf d' g ∧ ext d d' 0 (4 * rem) rem.
Proof.
  induction fuel as [|fuel IH]; intros d g off rem Hwf Hm Ho Hr Hcap Hroom.
  { assert (rem = 0) as -> by lia. exists d. split; [done|]. split; [done|].
    apply ext_cached, cached_refl; [apply (wf_healthy _ _ Hwf)|lia..]. }
  cbn [read_chunks]. destruct (Z.leb_spec rem 0).
  { assert (rem = 0) as -> by lia. exists d. split; [done|]. split; [done|].
    apply ext_cached, cached_refl; [apply (wf_healthy _ _ Hwf)|lia..]. }
  pose proof (wf_geom _ _ Hwf) as Hg. pose proof (geom_cs _ Hg) as Hcs.
  rewrite (bind_ok _ _ d d d) by done. destruct (chunk_at_spec _ off rem Hg Ho) as [-> Hn]; [lia|].
  set (cs := cluster_size (qcow2 d)) in *. set (n := Z.min rem (cs - off mod cs)) in *.
  pose proof (Z.mod_pos_bound off cs ltac:(lia)).
  assert (Hci : ci_ok (qcow2 d) (off / cs)) by (apply capacity_ci; [done|lia]).
  destruct (read_cluster_spec 3 d g (off / cs) Hwf Hm Hci) as (d1 & E1 & W1 & C1).
  { eapply room_weaken; [| |exact Hroom]; [lia|fold cs; lia]. }
  mstep E1. destruct (cached_geo _ _ _ _ C1) as [Gq _]. pose proof Gq as (_ & Gc & _).
  destruct (IH d1 g (off + n) (rem - n)) as (d2 & E2 & W2 & X2); [done|by rewrite (cs_miss _ _ _ _ C1)|lia|lia| | |].
  { rewrite (capacity_shape _ _ (geo_shape _ _ Gq)). lia. }
  { eapply ext_room_cached; [exact C1|lia|lia| |lia|fold cs; lia].
    eapply room_weaken; [| |exact Hroom]; [lia|fold cs; lia]. }
  mstep E2. exists d2. split_and!; [|done|].
  - unfold mret, M_ret. do 2 f_equal. rewrite Gc. fold cs.
    replace rem with (n + (rem - n)) at 2 by lia. rewrite slice_app by lia. f_equal.
    rewrite <- (vbyte_slice (g_view g) cs (off / cs) (off mod cs) n).
    + f_equal. pose proof (Z.div_mod off cs ltac:(lia)). lia.
    + lia.
    + lia.
    + lia.
    + lia.
    + apply (wd_view _ _ _ _ (wf_img _ _ Hwf)). apply Hci.
  - eapply ext_weaken; [exact (ext_trans _ _ _ _ _ _ _ _ _ (ext_cached _ _ _ _ C1) X2)|lia..].
Qed.

Lemma room_ext d d' a n m k j : ext d d' a n m → room d k → 0 ≤ j → a = 0 ∨ a ≤ 2 * cluster_size (qcow2 d) * (k - j) →
  n ≤ 4 * (k - j) → m ≤ k - j → 0 ≤ cluster_size (qcow2 d) → j ≤ k → room d' j.
Proof.
  intros X (Hk & Ra & Rt & Rb) Hj Ha Hn Hm Hc Hjk. destruct (ex_shape _ _ _ _ _ X) as (_ & Ec & _).
  pose proof (ex_alloc _ _ _ _ _ X). pose proof (ex_tick _ _ _ _ _ X). pose proof (ex_base _ _ _ _ _ X) as Hb.
  unfold room. rewrite Ec. split_and!; [lia|destruct Ha; nia|lia|].
  destruct (base d), (base d'); simpl in *; try done; lia.
Qed.

Lemma read_segs_spec segs : ∀ d g off, wf d g → miss_handler d = false → 0 ≤ off →
  off + zlen (concat segs) ≤ capacity (qcow2 d) → room d (zlen (concat segs)) →
  ∃ d', read_segs off segs d = (Ok (slices (vbyte (g_view g) (cluster_size (qcow2 d))) off segs), d')
    ∧ wf d' g ∧ ext d d' 0 (4 * zlen (concat segs)) (zlen (concat segs)).
Proof.
  induction segs as [|s segs IH]; intros d g off Hwf Hm Ho Hcap Hroom.
  { exists d. split; [done|]. split; [done|].
    apply ext_cached, cached_refl; [apply (wf_healthy _ _ Hwf)|done..]. }
  cbn [read_segs concat slices] in *. rewrite zlen_app in *. pose proof (zlen_nonneg s).
  pose proof (zlen_nonneg (concat segs)). pose proof (geom_cs _ (wf_geom _ _ Hwf)) as Hcs.
  destruct (read_chunks_spec (length s) d g off (zlen s)) as (d1 & E1 & W1 & X1); [done|done|done|unfold zlen; lia|lia| |].
  { eapply room_weaken; [| |exact Hroom]; lia. }
  destruct (ex_shape _ _ _ _ _ X1) as (_ & Ec & _). mstep E1.
  destruct (IH d1 g (off + zlen s)) as (d2 & E2 & W2 & X2); [done|by rewrite (ex_miss _ _ _ _ _ X1)|lia| | |].
  { rewrite (capacity_shape _ _ (ex_shape _ _ _ _ _ X1)). lia. }
  { eapply room_ext; [exact X1|exact Hroom|lia|by left|lia..]. }
  mstep E2. exists d2. rewrite Ec. split_and!; [done|done|].
  eapply ext_weaken; [exact (ext_trans _ _ _ _ _ _ _ _ _ X1 X2)|lia..].
Qed.

(** ** Write *)
Lemma write_chunks_spec fuel : ∀ d g off buf, wf d g → 0 ≤ off → (length buf ≤ fuel)%nat →
  off + zlen buf ≤ capacity (qcow2 d) → room d (zlen buf) →
  ∃ d' g', write_chunks fuel off buf d = (Ok tt, d') ∧ wf d' g' ∧ (synced d ∨ buf ≠ [] → synced d')
    ∧ g_bv g' = g_bv g
    ∧ ext d d' (2 * cluster_size (qcow2 d) * zlen buf) (4 * zlen buf) (zlen buf)
    ∧ ∀ o, 0 ≤ o → vbyte (g_view g') (cluster_size (qcow2 d)) o
                    = upd (vbyte (g_view g) (cluster_size (qcow2 d))) off buf o.
Proof.
  induction fuel as [|fuel IH]; intros d g off buf Hwf Ho Hf Hcap Hroom.
  { destruct buf; [|simpl in Hf; lia]. exists d, g. split_and!; try done; [by intros [?|?]|apply ext_refl; [apply (wf_healthy _ _ Hwf)|change (zlen (@nil byte)) with 0; lia..]|].
    intros o _. by rewrite upd_nil. }
  cbn [write_chunks]. pose proof (zlen_nonneg buf). destruct (Z.leb_spec (zlen buf) 0).
  { destruct buf; [|unfold zlen in *; simpl in *; lia]. exists d, g. split_and!; try done; [by intros [?|?]|apply ext_refl; [apply (wf_healthy _ _ Hwf)|change (zlen (@nil byte)) with 0; lia..]|].
    intros o _. by rewrite upd_nil. }
  pose proof (wf_geom _ _ Hwf) as Hg. pose proof (geom_cs _ Hg) as Hcs.
  rewrite (bind_ok _ _ d d d) by done. destruct (chunk_at_spec _ off (zlen buf) Hg Ho) as [-> Hn]; [lia|].
  set (cs := cluster_size (qcow2 d)) in *. set (n := Z.min (zlen buf) (cs - off mod cs)) in *.
  pose proof (Z.mod_pos_bound off cs ltac:(lia)). pose proof (Z.div_mod off cs ltac:(lia)) as Hdm.
  assert (Hci : ci_ok (qcow2 d) (off / cs)) by (apply capacity_ci; [done|lia]).
  pose proof (zlen_read_at buf 0 n ltac:(lia) ltac:(lia) ltac:(lia)) as Hl1.
  destruct (write_cluster_spec d g (off / cs) (off mod cs) (read_at buf 0 n) Hwf Hci)
    as (d1 & g1 & E1 & W1 & V1 & B1 & X1 & Y1).
  { eapply room_weaken; [| |exact Hroom]; [lia|fold cs; lia]. } { lia. } { fold cs. lia. }
  mstep E1. pose proof (ex_shape _ _ _ _ _ X1) as Sh. pose proof Sh as (_ & Ec & _). fold cs in Ec.
  set (rest := drop (Z.to_nat n) buf).
  assert (Hrest : zlen rest = zlen buf - n) by (unfold rest; len).
  destruct (IH d1 g1 (off + n) rest) as (d2 & g2 & E2 & W2 & Y2 & B2 & Sh2 & V2); [done|lia| | | |].
  { unfold zlen in Hrest. lia. }
  { rewrite (capacity_shape _ _ Sh), Hrest. lia. }
  { eapply room_step; [|lia|exact X1]. eapply room_weaken; [| |exact Hroom]; [lia|fold cs; lia]. }
  exists d2, g2. split_and!; try done.
  - intros _. apply Y2. by left.
  - by rewrite B2.
  - rewrite Ec, Hrest in Sh2. eapply ext_weaken; [exact (ext_trans _ _ _ _ _ _ _ _ _ X1 Sh2)|nia|lia|lia].
  - intros o Hpos. rewrite Ec in V2. rewrite V2 by done.
    assert (Hb : buf = read_at buf 0 n ++ rest) by (unfold rest, read_at; by rewrite drop_0, take_drop).
    rewrite Hb at 1. rewrite <- (upd_app _ off). rewrite Hl1.
    unfold upd at 1 2. case_decide; [done|]. rewrite V1.
    rewrite vbyte_upd; [|lia|lia|lia|done|].
    + f_equal. lia.
    + apply (wd_view _ _ _ _ (wf_img _ _ Hwf)). apply Hci.
Qed.

(** ** Discard *)

(** The byte the base layer provides at [o]; zero where it provides none. *)
Definition bbyte (B : Z → option bytes) (cs o : Z) : byte :=
  match B (o / cs) with Some b => nth (Z.to_nat (o mod cs)) b x00 | None => x00 end.

(** A discard of [off, off+n) turns [V] into [V']. *)
Definition discarded (B : Z → option bytes) (cs : Z) (V V' : Z → byte) (off n : Z) : Prop := ∀ o, 0 ≤ o →
  (¬ (off ≤ o < off + n) → V' o = V o)
  ∧ (off ≤ o < off + n → V' o = x00 ∨ V' o = bbyte B cs o).

Lemma cl_invalidate_spec d view view' ci : healthy (kern d) → clc_ok (qcow2 d) view →
  (∀ c, c ≠ ci → view' c = view c) →
  ∃ d', lbd_qcow2_cl_invalidate ci d = (Ok tt, d') ∧ clc_ok (qcow2 d') view' ∧ cached d d' 0 0
    ∧ l2_cache (qcow2 d') = l2_cache (qcow2 d) ∧ base d' = base d.
Proof.
  intros Hh Hc Hv. unfold lbd_qcow2_cl_invalidate. rewrite (bind_ok _ _ d d d) by done.
  assert (Hgood : ∀ e, cluster_index e ≠ ci → cle_ok view e → cle_ok view' e).
  { intros e Hne [G1 G2]. split; [done|]. by rewrite Hv. }
  destruct (find_idx _ _) as [k|] eqn:Hf.
  - apply find_idx_some in Hf as (e & He & [Hva Hk%Z.eqb_eq]%andb_true_iff).
    rewrite (upd_cl_run d k e _ He). eexists. split; [done|]. split; [|split; [by apply cached_cl|done]].
    eapply cache_touch; [exact Hc|exact He|apply Z.le_refl|exact (ca_lru _ _ _ _ _ _ Hc k e He)|done|].
    intros i e' Hne He' Hv' Hg. apply Hgood; [|done]. intros Heq. apply Hne.
    eapply (ca_unique _ _ _ _ _ _ Hc); [done|done|done|done|congruence].
  - exists d. split; [done|]. split; [|split; [by apply cached_refl|done]]. destruct Hc as [C1 C2 C3 C4].
    split; [done|done| |done]. intros k e He Hva. apply Hgood; [|by eapply C3].
    pose proof (find_idx_none _ _ _ _ Hf He) as Hn. simpl in Hn. rewrite Hva in Hn. by apply Z.eqb_neq.
Qed.

Lemma wfc_cached hole d d' g n m : wfc hole d g → cached d d' n m → l2_cache (qcow2 d') = l2_cache (qcow2 d) →
  base d' = base d → wfc hole d' g.
Proof.
  intros [] C L Bd. destruct (cached_geo _ _ _ _ C) as (Gq & Ga & Gh). destruct C as [[Q1 Q2]].
  split; try done.
  - by eapply geom_same.
  - rewrite Q2. by eapply wf_disk_same.
  - eapply base_ok_same; [done|intros; apply Q2|apply Gq|done|done].
  - eapply l2c_mono; [done|lia|done].
  - lia.
Qed.

(** From a device in which the mapping of [ci] is gone but its cached copy may
    still be there. *)
Lemma invalidate_closes d g v ci : wfc (λ _, False) d (with_view g v) → clc_ok (qcow2 d) (g_view g) →
  (∀ c, c ≠ ci → v c = g_view g c) →
  ∃ d', lbd_qcow2_cl_invalidate ci d = (Ok tt, d') ∧ wf d' (with_view g v) ∧ ext d d' 0 0 0.
Proof.
  intros Hw Hc Hv. destruct (cl_invalidate_spec d (g_view g) v ci (wc_healthy _ _ _ Hw) Hc Hv)
    as (d' & E & C & Ca & L & Bd).
  exists d'. split_and!; [done| |by apply ext_cached]. apply wfc_wf; [by eapply wfc_cached|done].
Qed.

Lemma discard_full_spec d g ci : wf d g → ci_ok (qcow2 d) ci → room d 1 →
  ∃ d' g', discard_full ci d = (Ok tt, d') ∧ wf d' g' ∧ ext d d' (2 * cluster_size (qcow2 d)) 4 1
    ∧ g_bv g' = g_bv g
    ∧ ∀ c, 0 ≤ c → g_view g' c = fupd (g_view g) ci (default (zeros (cluster_size (qcow2 d))) (g_bv g ci)) c.
Proof.
  intros Hwf Hci (_ & _ & Rt & Rb). pose proof (wf_geom _ _ Hwf) as Hg. pose proof (geom_cs _ Hg) as Hcs.
  destruct (ci_split _ _ Hg Hci) as (U1 & U2 & I1 & I2).
  set (n := l2_entries (qcow2 d)) in *. set (cs := cluster_size (qcow2 d)) in *.
  set (nb := default (zeros cs) (g_bv g ci)). set (v := fupd (g_view g) ci nb).
  unfold discard_full. rewrite (bind_ok _ _ d d d) by done. cbv zeta. fold n. rewrite U1, U2.
  rewrite (proj2 (Z.ltb_lt _ _)) by lia.
  rewrite (bind_ok _ _ d _ d (arr_get_ok _ _ _ _ (proj1 I1) (l1_lookup _ _ Hg I1))).
  (* the branches in which the cluster is not mapped *)
  assert (Hskip : ∀ d1, wf d1 g → ext d d1 0 1 0 → g_view g ci = nb →
    ∃ d' g', lbd_qcow2_cl_invalidate ci d1 = (Ok tt, d') ∧ wf d' g' ∧ ext d d' (2 * cs) 4 1
      ∧ g_bv g' = g_bv g ∧ ∀ c, 0 ≤ c → g_view g' c = v c).
  { intros d1 W1 X1 Hv. destruct (invalidate_closes d1 g (g_view g) ci) as (d' & E & W & X);
      [|apply (wf_clc _ _ W1)|done|].
    { eapply wf_wfc; [done|done|]. apply (wd_view _ _ _ _ (wf_img _ _ W1)). }
    exists d', (with_view g (g_view g)). split_and!; try done.
    - eapply ext_weaken; [exact (ext_trans _ _ _ _ _ _ _ _ _ X1 X)|lia..].
    - intros c _. unfold v. simpl. destruct (decide (c = ci)) as [->|]; [by rewrite fupd_eq|by rewrite fupd_ne]. }
  destruct (Z.eqb_spec (l1_at (qcow2 d) (ci / n)) 0) as [Hz|Hz]; cbn [negb].
  { rewrite (bind_ok _ _ d tt d) by done. apply Hskip; [done| |].
    - apply ext_cached, cached_refl; [apply (wf_healthy _ _ Hwf)|lia..].
    - apply (wd_zero _ _ _ _ (wf_img _ _ Hwf)); [apply Hci|intros []|]. fold n. unfold ent.
      destruct (wd_l2 _ _ _ _ (wf_img _ _ Hwf) (ci / n) (proj1 I1)) as (_ & _ & Hzt & _).
      rewrite (Hzt Hz). destruct (_ !! _) as [x|] eqn:Ex; [|done]. apply lookup_replicate_1 in Ex as [-> _]. done. }
  destruct (l2_get_spec d g (ci / n) Hwf) as (k2 & e2 & d1 & E1 & W1 & C1 & Lc & B1 & A1); [lia|lia|].
  destruct (cached_geo _ _ _ _ C1) as (Gq & Ga & _). pose proof Gq as (_ & Gc & Gn & _). fold cs in Gc. fold n in Gn.
  assert (Hci1 : ci_ok (qcow2 d1) ci) by (eapply ci_ok_shape; [by apply geo_shape|done]).
  pose proof (ent_at d1 g ci W1 Hci1) as Hent. rewrite Gn in Hent.
  assert (Hget : ∀ A (f : Z → M (qdev K) A), (e ← get_l2 k2; old ← arr_get (table e) (ci mod n); f old) d1
                   = f (ent n (g_tbl g) ci) d1).
  { intros A f. rewrite (bind_ok _ _ _ _ _ (get_l2_ok _ _ _ (la_slot _ _ _ _ _ A1))).
    by rewrite (bind_ok _ _ d1 _ d1 (arr_get_ok _ _ _ _ (proj1 I2)
      (eq_trans (f_equal (λ t, t !! _) (la_table _ _ _ _ _ A1)) Hent))). }
  pose proof (ext_weaken _ _ 0 1 0 0 1 0 (ext_cached _ _ _ _ C1) ltac:(lia) ltac:(lia) ltac:(lia)) as X1.
  destruct (Z.eqb_spec (ent n (g_tbl g) ci) 0) as [He|He].
  { rewrite (bind_ok _ _ d tt d1). 2:{ mstep E1. rewrite Hget. by rewrite (proj2 (Z.eqb_eq _ _) He). }
    apply Hskip; [done|done|]. apply (wd_zero _ _ _ _ (wf_img _ _ Hwf)); [apply Hci|intros []|done]. }
  destruct (old_extent_ok d1 g ci W1 Hci1) as (k3 & old & E3 & Q3 & Hold & Hpos). rewrite Gn in E3, Hold, Hpos.
  specialize (Hpos He). destruct Hold as [->|(Hp & Hsz & Hown)]; [lia|].
  destruct (wf_set_kern d1 g k3 W1 Q3) as [W3 C3]. set (d3 := set_kern k3 d1) in *.
  assert (Hvl : ∀ c, 0 ≤ c → zlen (v c) = cs).
  { intros c Hc. unfold v. destruct (decide (c = ci)) as [->|]; [rewrite fupd_eq|rewrite fupd_ne by done].
    - unfold nb. destruct (g_bv g ci) as [b|] eqn:Eb; simpl; [by apply (wd_bv _ _ _ _ (wf_img _ _ Hwf) ci)|len].
    - by apply (wd_view _ _ _ _ (wf_img _ _ Hwf)). }
  assert (W3' : wfc (λ c, c = ci) d3 (with_view g v)).
  { apply wf_wfc; [done|intros c Hc; unfold v; by rewrite fupd_ne|]. simpl. rewrite Gc. done. }
  destruct (free_old ci d3 (with_view g v) (ent n (g_tbl g) ci) old W3' Hp Hsz Hown)
    as (d4 & g4 & E4 & W4 & S4 & A4 & G1 & G2 & G3). simpl in G1, G2, G3.
  destruct (same_dev_geo _ _ S4) as (Gq4 & Gl2 & Gcl & Gt). pose proof Gq4 as (_ & Gc4 & Gn4 & _ & Gl1 & _).
  change (l2_entries (qcow2 d3)) with (l2_entries (qcow2 d1)) in Gn4. rewrite Gn in Gn4.
  change (cluster_size (qcow2 d3)) with (cluster_size (qcow2 d1)) in Gc4. rewrite Gc in Gc4.
  assert (Hl1 : l1_at (qcow2 d4) (ci / n) ≠ 0).
  { unfold l1_at. rewrite Gl1. change (l1_table (qcow2 d3)) with (l1_table (qcow2 d1)).
    destruct Gq as (_ & _ & _ & _ & -> & _). exact Hz. }
  assert (X4 : ext d d4 0 1 0).
  { pose proof (ext_same d3 d4 0 S4 ltac:(lia)) as X4.
    eapply ext_weaken; [exact (ext_trans _ _ _ _ _ _ _ _ _ X1 (ext_trans _ _ _ _ _ _ _ _ _ (ext_cached _ _ _ _ C3) X4))|lia..]. }
  destruct (commit_spec ci d4 g4 k2 e2 (stats d4) 0) as (d5 & E5 & W5 & X5 & Gq5 & Gcl5 & _).
  { done. } { eapply ci_ok_shape; [apply X4|done]. }
  { rewrite Gn4. destruct A1. split; try done; [by rewrite Gl2|by rewrite G1]. }
  { by rewrite Gn4. }
  { split; [lia|]. split; [|done]. intros _. rewrite G2, G3, Gc4. unfold v. by rewrite fupd_eq. }
  rewrite Gn4 in *.
  set (g5 := with_tbl g4 (set_ent n (g_tbl g4) ci 0)) in *.
  destruct (invalidate_closes d5 (with_view g5 (g_view g)) v ci) as (d6 & E6 & W6 & X6).
  { replace (with_view (with_view g5 (g_view g)) v) with g5; [done|]. unfold g5, with_view, with_tbl. simpl. by rewrite G2. }
  { simpl. eapply clc_mono; [| |apply (wf_clc _ _ W1)]; [by rewrite Gcl5, Gcl|].
    pose proof (ex_tick _ _ _ _ _ X5). rewrite Gt in *. simpl in *. lia. }
  { intros c Hc. simpl. unfold v. by rewrite fupd_ne. }
  exists d6, (with_view (with_view g5 (g_view g)) v). split_and!; try done.
  - rewrite (bind_ok _ _ d tt d5); [exact E6|]. mstep E1. rewrite Hget.
    rewrite (proj2 (Z.eqb_neq _ _) He). mstep E3. rewrite Z.gtb_ltb, (proj2 (Z.ltb_lt _ _)) by lia.
    fold (phys_of (ent n (g_tbl g) ci)).
    rewrite (bind_ok _ _ d3 tt d4). 2:{ by rewrite (bind_ok _ _ _ _ _ (try_ok _ _ _ _ E4)). }
    rewrite (bind_ok _ _ d4 tt (dirtied d4 (stats d4) k2 e2 (ci mod n) 0)); [exact E5|].
    unfold set_entry, upd_l2, upd_q, modify, dirtied. simpl. rewrite Gl2.
    rewrite (alter_insert_some _ _ k2 e2 (la_slot _ _ _ _ _ A1)). by destruct d4.
  - eapply ext_weaken; [exact (ext_trans _ _ _ _ _ _ _ _ _ X4 (ext_trans _ _ _ _ _ _ _ _ _ X5 X6))|lia..].
Qed.

(** A partial discard zeroes the range of a mapped cluster and leaves an
    unmapped one alone. *)
Lemma discard_partial_spec d g ci off n : wf d g → ci_ok (qcow2 d) ci → room d 1 →
  0 ≤ off → 0 ≤ n → off + n ≤ cluster_size (qcow2 d) →
  ∃ d' g', discard_partial ci off n d = (Ok tt, d') ∧ wf d' g' ∧ ext d d' (2 * cluster_size (qcow2 d)) 4 1
    ∧ g_bv g' = g_bv g
    ∧ (g_view g' = fupd (g_view g) ci (write_at (g_view g ci) off (zeros n))
       ∨ g_view g' = g_view g ∧ g_view g ci = default (zeros (cluster_size (qcow2 d))) (g_bv g ci)).
Proof.
  intros Hwf Hci Hroom Hoff Hn Hlen. pose proof (wf_geom _ _ Hwf) as Hg.
  destruct (ci_split _ _ Hg Hci) as (U1 & U2 & I1 & I2).
  destruct (prepare_cluster_spec d g ci Hwf Hci Hroom)
    as (d1 & p & d2 & g3 & E1 & E2 & W1 & [W2 C2 Lp _] & X1 & G1 & G2 & G3 & Hget).
  pose proof (ex_shape _ _ _ _ _ X1) as (_ & Sc1 & Sn1 & _).
  destruct Lp as [k e A2|_ Hvis _].
  2:{ exists d2, g3. split_and!; try done.
      - unfold discard_partial. rewrite (bind_ok _ _ d d d) by done. cbv zeta. rewrite U1, U2. mstep E1. by mstep E2.
      - pose proof (geom_cs _ Hg). eapply ext_weaken; [exact (ext_trans _ _ _ _ _ _ _ _ _ X1 (ext_cached _ _ _ _ C2))|lia..].
      - right. split; [done|]. destruct (decide (ent (l2_entries (qcow2 d1)) (g_tbl g3) ci = 0)) as [He|He]; [|destruct Hvis; by left].
        rewrite <- G2, <- G3, <- Sc1. apply (wd_zero _ _ _ _ (wf_img _ _ W1)); [apply Hci|intros []|done]. }
  destruct (Hget k e d2 W2) as (k2 & d3 & e2 & E3 & W3 & A3 & L3 & N3 & X3); [|done|].
  { apply cached_refl; [apply (wf_healthy _ _ W2)|lia..]. }
  destruct (ex_shape _ _ _ _ _ X3) as (_ & Sc & Sn & _). pose proof (ex_alloc _ _ _ _ _ X3).
  assert (Hci3 : ci_ok (qcow2 d3) ci) by (eapply ci_ok_shape; [apply X3|done]).
  pose proof (geom_cs _ Hg) as Hcs. pose proof (wf_geom _ _ W3) as Hg3. destruct Hroom as (_ & Ra & _).
  pose proof (ent_at d3 g3 ci W3 Hci3) as Hent. rewrite Sn in Hent.
  set (m := l2_entries (qcow2 d)) in *. set (cs := cluster_size (qcow2 d)) in *.
  unfold discard_partial. rewrite (bind_ok _ _ d d d) by done. cbv zeta. fold m. rewrite U1, U2.
  mstep E1. mstep E2. mstep E3.
  rewrite (bind_ok _ _ _ _ _ (get_l2_ok _ _ _ (la_slot _ _ _ _ _ L3))).
  rewrite (bind_ok _ _ d3 _ d3 (arr_get_ok _ _ _ _ (proj1 I2)
      (eq_trans (f_equal (λ t, t !! _) (la_table _ _ _ _ _ L3)) Hent))).
  destruct (Z.eqb_spec (ent m (g_tbl g3) ci) 0) as [He|He].
  { exists d3, g3. split_and!; try done; [eapply ext_weaken; [exact X3|lia..]|]. right. split; [done|].
    rewrite <- G2, <- G3, <- Sc. apply (wd_zero _ _ _ _ (wf_img _ _ W3)); [apply Hci|intros []|by rewrite Sn]. }
  rewrite (bind_ok _ _ _ _ _ (upd_cl_run d3 k e _ (ka_slot _ _ _ _ _ A3))).
  set (e1 := cle_set_data (write_at (data e) off (zeros n)) e).
  destruct (wd_data _ _ _ _ (wf_img _ _ W3) ci) as (sz & Hen & Hown); [apply Hci|intros []|by rewrite Sn|].
  rewrite Sn in Hen, Hown.
  destruct (read_old_ok (cl_slot d3 k e1) (ent m (g_tbl g3) ci) (g_view g3 ci) sz) as (k4 & E4 & Q4);
    [apply (wf_healthy _ _ W3)|by eapply geom_same; [|exact Hg3]; split_and!|done|exact Hen|].
  mstep E4.
  destruct (wf_set_kern d3 g3 k4 W3 Q4) as [W4 C4]. set (d4 := set_kern k4 d3) in *.
  destruct (rewrite_cluster_spec false d4 g3 ci k e k2 e2 sz off (zeros n) W4) as (d8 & g8 & E8 & W8 & V8 & B8 & X8 & _).
  { done. } { by apply (cl_at_same d3). } { cbn [qcow2 set_kern d4]. rewrite Sn. by destruct L3. }
  { cbn [qcow2 set_kern d4]. by rewrite Sn. }
  { cbn [qcow2 set_kern d4]. rewrite Sn. pose proof (entry_size _ _ _ _ _ (geom_cs _ Hg3) Hen).
    destruct Hen as (Hp & _). right. split_and!; [lia..|done]. }
  { done. } { cbn [qcow2 set_kern d4]. rewrite Sc. unfold zlen. rewrite length_zeros. lia. }
  { cbn [qcow2 set_kern d4]. rewrite Sc. fold cs. lia. }
  exists d8, g8. split_and!; try done.
  - change (l2_entries (qcow2 d4)) with (l2_entries (qcow2 d3)) in E8. rewrite Sn in E8. exact E8.
  - change (cluster_size (qcow2 d4)) with (cluster_size (qcow2 d3)) in X8. rewrite Sc in X8. fold cs in X8.
    eapply ext_weaken; [exact (ext_trans _ _ _ _ _ _ _ _ _ X3 (ext_trans _ _ _ _ _ _ _ _ _ (ext_cached _ _ _ _ C4) X8))|lia..].
  - by rewrite B8.
  - left. by rewrite V8, G2.
Qed.

Lemma nth_zeros i n : nth i (zeros n) x00 = x00.
Proof.
  rewrite nth_lookup. unfold zeros. destruct (_ !! i) eqn:E; [|done].
  by apply lookup_replicate_1 in E as [-> _].
Qed.

(** One chunk of a discard. *)
Lemma discard_chunk_spec d g off rem : wf d g → 0 ≤ off → 0 < rem → off + rem ≤ capacity (qcow2 d) → room d 1 →
  let cs := cluster_size (qcow2 d) in
  let n := Z.min rem (cs - off mod cs) in
  ∃ d' g', (if (off mod cs =? 0) && (n =? cs) then discard_full (off / cs)
            else discard_partial (off / cs) (off mod cs) n) d = (Ok tt, d')
    ∧ wf d' g' ∧ ext d d' (2 * cs) 4 1 ∧ g_bv g' = g_bv g
    ∧ discarded (g_bv g) cs (vbyte (g_view g) cs) (vbyte (g_view g') cs) off n.
Proof.
  intros Hwf Ho Hr Hcap Hroom cs n. pose proof (wf_geom _ _ Hwf) as Hg. pose proof (geom_cs _ Hg) as Hcs. fold cs in Hcs.
  pose proof (Z.mod_pos_bound off cs ltac:(lia)). pose proof (Z.div_mod off cs ltac:(lia)) as Hdm.
  assert (Hci : ci_ok (qcow2 d) (off / cs)) by (apply capacity_ci; [done|lia]).
  pose proof (wd_view _ _ _ _ (wf_img _ _ Hwf) (off / cs) ltac:(apply Hci)) as Hvl. fold cs in Hvl.
  assert (Hin : ∀ o, off ≤ o < off + n → o / cs = off / cs).
  { intros o Hor. symmetry. apply (Z.div_unique o cs (off / cs) (o - cs * (off / cs))); lia. }
  destruct ((off mod cs =? 0) && (n =? cs)) eqn:Hf.
  - apply andb_true_iff in Hf as [Hf1%Z.eqb_eq Hf2%Z.eqb_eq].
    destruct (discard_full_spec d g (off / cs) Hwf Hci Hroom) as (d' & g' & E & W & X & Bv & V).
    exists d', g'. split_and!; try done. intros o Hoo. unfold vbyte.
    assert (0 ≤ o / cs) by (apply Z.div_pos; lia). rewrite V by done. split; intros Hor.
    + rewrite fupd_ne; [done|]. intros Heq. apply Hor. pose proof (Z.div_mod o cs ltac:(lia)).
      pose proof (Z.mod_pos_bound o cs ltac:(lia)). nia.
    + right. rewrite (Hin o Hor), fupd_eq. unfold bbyte. rewrite (Hin o Hor).
      destruct (g_bv g (off / cs)); [done|]. apply nth_zeros.
  - destruct (discard_partial_spec d g (off / cs) (off mod cs) n Hwf Hci Hroom) as (d' & g' & E & W & X & Bv & V);
      [lia|lia|fold cs; lia|].
    exists d', g'. split_and!; try done. intros o Hoo. destruct V as [->|[-> Hv]].
    + rewrite vbyte_upd; [|lia|lia|unfold zlen; rewrite length_zeros; lia|done|done].
      unfold upd. unfold zlen. rewrite length_zeros. split; intros Hor.
      * rewrite decide_False by lia. done.
      * left. rewrite decide_True by lia. apply nth_zeros.
    + split; intros Hor; [done|]. right. unfold vbyte, bbyte. rewrite (Hin o Hor), Hv.
      destruct (g_bv g (off / cs)); [done|]. apply nth_zeros.
Qed.

Lemma discard_chunks_spec fuel : ∀ d g off rem, wf d g → 0 ≤ off → 0 ≤ rem ≤ Z.of_nat fuel →
  off + rem ≤ capacity (qcow2 d) → room d rem →
  ∃ d' g', discard_chunks fuel off rem d = (Ok tt, d') ∧ wf d' g' ∧ g_bv g' = g_bv g
    ∧ ext d d' (2 * cluster_size (qcow2 d) * rem) (4 * rem) rem
    ∧ discarded (g_bv g) (cluster_size (qcow2 d)) (vbyte (g_view g) (cluster_size (qcow2 d)))
        (vbyte (g_view g') (cluster_size (qcow2 d))) off rem.
Proof.
  induction fuel as [|fuel IH]; intros d g off rem Hwf Ho Hf Hcap Hroom; cbn [discard_chunks].
  { assert (rem = 0) as -> by lia. exists d, g. split_and!; try done; [apply ext_refl; [apply (wf_healthy _ _ Hwf)|lia..]|].
    intros o _. split; [done|lia]. }
  destruct (Z.leb_spec rem 0).
  { assert (rem = 0) as -> by lia. exists d, g. split_and!; try done; [apply ext_refl; [apply (wf_healthy _ _ Hwf)|lia..]|].
    intros o _. split; [done|lia]. }
  pose proof (wf_geom _ _ Hwf) as Hg. pose proof (geom_cs _ Hg) as Hcs.
  rewrite (bind_ok _ _ d d d) by done. destruct (chunk_at_spec _ off rem Hg Ho) as [-> Hn]; [lia|].
  set (cs := cluster_size (qcow2 d)) in *. set (n := Z.min rem (cs - off mod cs)) in *.
  pose proof (Z.mod_pos_bound off cs ltac:(lia)).
  destruct (discard_chunk_spec d g off rem Hwf Ho ltac:(lia) Hcap) as (d1 & g1 & E1 & W1 & X1 & B1 & V1).
  { eapply room_weaken; [| |exact Hroom]; [lia|fold cs; lia]. }
  fold cs n in E1, V1. rewrite (bind_ok _ _ _ _ _ E1).
  pose proof (ex_shape _ _ _ _ _ X1) as Sh. pose proof Sh as (_ & Ec & _). fold cs in Ec.
  destruct (IH d1 g1 (off + n) (rem - n)) as (d2 & g2 & E2 & W2 & B2 & Sh2 & V2); [done|lia|lia| | |].
  { rewrite (capacity_shape _ _ Sh). lia. }
  { eapply room_step; [|lia|exact X1]. eapply room_weaken; [| |exact Hroom]; [lia|fold cs; lia]. }
  exists d2, g2. rewrite Ec, B1 in V2. split_and!; try done.
  - by rewrite B2.
  - rewrite Ec in Sh2. eapply ext_weaken; [exact (ext_trans _ _ _ _ _ _ _ _ _ X1 Sh2)|nia|lia|lia].
  - intros o Hoo. destruct (V1 o Hoo) as [V1a V1b]. destruct (V2 o Hoo) as [V2a V2b]. split; intros Hr.
    + rewrite V2a by lia. apply V1a. lia.
    + destruct (decide (off + n ≤ o)); [apply V2b; lia|]. rewrite V2a by lia. apply V1b. lia.
Qed.

End Refine.
