(* ===== verification/Qcow2InitProof.v ===== *)
(** * Opening an image: [lbd_qcow2_init] on a well-formed image yields a
      well-formed device with the same contents *)
From S2P Require Import Prelude Kernel Format Qcow2State Qcow2Alloc Qcow2Cache Qcow2Io Qcow2Inv.
From S2P Require Import Qcow2AllocProof Qcow2Wf Qcow2CacheProof Qcow2WriteProof Qcow2IoProof Flat.
From S2P Require Import Qcow2Refine.

Section InitProof.
Context {K : Type} `{KernelLaws K} `{LZ4Laws} `{CrcLaws}.
Local Abbreviation disk d := (content (kern d) Backing).
Implicit Types d : qdev K.

(** A complete image: everything the in-memory state needs is on disk. *)
Record image (f : bytes) (q : lbd_qcow2) (g : ghost) : Prop := {
  im_geom : geom q;
  im_disk : wf_disk (λ _, False) f q g;
  im_cursor : bytes_at f 36 (be64 (alloc_offset q));
  im_l1 : 0 < l1_size q;
  im_vsize : 0 ≤ virtual_size q < 2 ^ 64
}.

Lemma alloc_or_ok n e d : healthy (kern d) →
  ∃ k', alloc_or n e d = (Ok tt, set_kern k' d) ∧ quiet d k'.
Proof.
  intros Hh. destruct (kalloc_ok n d Hh) as (k' & E & Q). exists k'. split; [|done].
  unfold alloc_or. by mstep E.
Qed.

Lemma alloc_many_ok n size e d : healthy (kern d) →
  ∃ k', alloc_many n size e d = (Ok tt, set_kern k' d) ∧ quiet d k'.
Proof.
  revert d. induction n as [|n IH]; intros d Hh.
  { exists (kern d). split; [by destruct d|]. by split. }
  destruct (alloc_or_ok size e d Hh) as (k1 & E1 & [Q1 Q1']).
  destruct (IH (set_kern k1 d) Q1) as (k2 & E2 & [Q2 Q2']). exists k2.
  cbn [alloc_many]. mstep E1. split; [exact E2|]. split; [done|]. intros h. rewrite Q2'. apply Q1'.
Qed.

Lemma bytes_at_prefix f n p b : 0 ≤ p → p + zlen b ≤ n → bytes_at f p b → bytes_at (read_at f 0 n) p b.
Proof.
  intros Hp Hn Hb i Hi. unfold read_at. rewrite drop_0. unfold zlen in *.
  rewrite lookup_take_lt by lia. by apply Hb.
Qed.

Lemma hdr_get64 f p v : 0 ≤ p → p + 8 ≤ 4096 → 0 ≤ v < 2 ^ 64 → bytes_at f p (be64 v) →
  _qcow2_get64 (read_at f 0 4096) p = v.
Proof. intros. apply get64_bytes_at; [done|done|]. by apply bytes_at_prefix. Qed.

Lemma hdr_get32 f p v : 0 ≤ p → p + 4 ≤ 4096 → 0 ≤ v < 2 ^ 32 → bytes_at f p (be32 v) →
  _qcow2_get32 (read_at f 0 4096) p = v.
Proof. intros. apply get32_bytes_at; [done|done|]. by apply bytes_at_prefix. Qed.

Lemma header36_fields f q : bytes_at f 0 (header36 q) ↔
  bytes_at f 0 (be64 LBD_QCOW2_MAGIC) ∧ bytes_at f 8 (be32 LBD_QCOW2_VERSION)
  ∧ bytes_at f 12 (be32 (cluster_bits q)) ∧ bytes_at f 16 (be64 (virtual_size q))
  ∧ bytes_at f 24 (be64 (l1_offset q)) ∧ bytes_at f 32 (be32 (l1_size q)).
Proof.
  unfold header36. rewrite !bytes_at_app by done. reflexivity.
Qed.

(** The header fields read back. *)
Lemma header_fields f q g : image f q g → let hdr := read_at f 0 4096 in
  lbd_qcow2_hdr_magic hdr = LBD_QCOW2_MAGIC ∧ lbd_qcow2_hdr_version hdr = LBD_QCOW2_VERSION
  ∧ lbd_qcow2_hdr_cluster_bits hdr = cluster_bits q ∧ lbd_qcow2_hdr_virtual_size hdr = virtual_size q
  ∧ lbd_qcow2_hdr_l1_table_offset hdr = l1_offset q ∧ lbd_qcow2_hdr_l1_size hdr = l1_size q
  ∧ lbd_qcow2_hdr_alloc_offset hdr = alloc_offset q ∧ lbd_qcow2_hdr_free_list hdr = free_list_head q.
Proof.
  intros [Hg Hd Hc Hl Hv] hdr. destruct (wd_meta _ _ _ _ Hd) as [Hm _].
  apply header36_fields in Hm as (M1 & M2 & M3 & M4 & M5 & M6).
  pose proof (wd_head _ _ _ _ Hd) as Hh. pose proof (wd_space _ _ _ _ Hd) as Hs.
  pose proof (sp_alloc _ _ _ _ _ Hs). pose proof (chain_head_range _ _ _ _ _ Hs) as Hr.
  rewrite <- (sp_head _ _ _ _ _ Hs) in Hr. pose proof (ge_bits q Hg). pose proof (ge_l1_size q Hg).
  pose proof (wd_l1off _ _ _ _ Hd).
  split_and!.
  - apply (hdr_get64 f 0 LBD_QCOW2_MAGIC); [lia|lia|done|exact M1].
  - apply (hdr_get32 f 8 LBD_QCOW2_VERSION); [lia|lia|done|exact M2].
  - apply (hdr_get32 f 12 (cluster_bits q)); [lia|lia|lia|exact M3].
  - apply (hdr_get64 f 16 (virtual_size q)); [lia|lia|lia|exact M4].
  - apply (hdr_get64 f 24 (l1_offset q)); [lia|lia|lia|exact M5].
  - apply (hdr_get32 f 32 (l1_size q)); [lia|lia|lia|exact M6].
  - apply (hdr_get64 f 36 (alloc_offset q)); [lia|lia|lia|exact Hc].
  - apply (hdr_get64 f 48 (free_list_head q)); [lia|lia|lia|exact Hh].
Qed.

Lemma header_length f q g : wf_disk (λ _, False) f q g → 4096 ≤ zlen f.
Proof.
  intros Hd. destruct (wd_pad _ _ _ _ Hd) as (pad & Hl & Hb & _).
  pose proof (bytes_at_len f 56 pad ltac:(lia) Hb) as Hle. rewrite Hl in Hle. apply Hle.
  intros ->. done.
Qed.

(** The L1 table read back. *)
Lemma l1_read f q g : image f q g →
  l1_offset q + l1_size q * 8 ≤ zlen f
  ∧ be64_array (l1_size q) (read_at f (l1_offset q) (l1_size q * 8)) = l1_table q.
Proof.
  intros [Hg Hd _ Hl _]. destruct (wd_l1off _ _ _ _ Hd) as [Ho _].
  assert (Hle : l1_offset q + l1_size q * 8 ≤ zlen f).
  { pose proof (wd_l1disk _ _ _ _ Hd (l1_size q - 1) ltac:(lia)) as Hb.
    apply bytes_at_len in Hb; [|lia|done]. change (zlen (be64 _)) with 8 in Hb. lia. }
  split; [done|]. apply list_eq. intros j. unfold be64_array. rewrite list_lookup_fmap.
  pose proof (ge_l1 q Hg) as Hlen. unfold zlen in Hlen.
  destruct (decide (j < length (l1_table q))%nat) as [Hj|Hj].
  - rewrite lookup_seq_lt by lia. simpl. pose proof (l1_lookup q (Z.of_nat j) Hg ltac:(lia)) as Hlk.
    rewrite Nat2Z.id in Hlk. rewrite Hlk. f_equal.
    pose proof (wd_l1disk _ _ _ _ Hd (Z.of_nat j) ltac:(lia)) as Hb.
    apply get64_bytes_at; [lia| |].
    + destruct (wd_l2 _ _ _ _ Hd (Z.of_nat j) ltac:(lia)) as (_ & _ & _ & Hnz).
      destruct (decide (l1_at q (Z.of_nat j) = 0)) as [->|Hne]; [lia|]. destruct (Hnz Hne). lia.
    + intros i Hi. rewrite <- (Hb i Hi). unfold read_at. rewrite length_be64 in Hi.
      rewrite lookup_take_lt by lia. rewrite lookup_drop. f_equal. lia.
  - rewrite lookup_seq_ge by lia. symmetry. apply lookup_ge_None. lia.
Qed.

(** The state after [lbd_qcow2_init]. *)
Definition opened (q : lbd_qcow2) : lbd_qcow2 :=
  Qcow2 (cluster_bits q) (cluster_size q) (l2_entries q) (virtual_size q) (l1_table q) (l1_size q)
    (l1_offset q) (alloc_offset q) (free_list_head q) l2_blank (cl_blank (cluster_size q)) 0.

Lemma init_run d q g : healthy (kern d) → image (disk d) q g →
  ∃ k', lbd_qcow2_init d = (Ok tt, set_q (opened q) (set_kern k' d)) ∧ quiet d k'.
Proof.
  intros Hh Him. pose proof Him as [Hg Hd Hc Hl Hv].
  destruct (header_fields _ _ _ Him) as (F1 & F2 & F3 & F4 & F5 & F6 & F7 & F8).
  pose proof (header_length _ _ _ Hd) as Hlen. destruct (l1_read _ _ _ Him) as [Hle Hl1].
  pose proof (wd_l1off _ _ _ _ Hd) as Ho. pose proof (ge_bits q Hg). pose proof (ge_l1_size q Hg).
  pose proof (wd_space _ _ _ _ Hd) as Hs. pose proof (sp_alloc _ _ _ _ _ Hs).
  pose proof (chain_head_range _ _ _ _ _ Hs) as Hr. rewrite <- (sp_head _ _ _ _ _ Hs) in Hr.
  unfold lbd_qcow2_init.
  destruct (alloc_or_ok LBD_QCOW2_HEADER_SIZE (- ENOMEM) d Hh) as (k1 & E1 & [Q1 C1]). mstep E1.
  destruct (kread_ok Backing 0 4096 (set_kern k1 d)) as (k2 & E2 & [Q2 C2]);
    [done|done|done|by simpl; rewrite C1|]. simpl in E2. rewrite C1 in E2. mstep E2.
  set (hdr := read_at (disk d) 0 4096) in *. rewrite F1, F2, F3, F4, F5, F6, F7, F8. zconst.
  rewrite (proj2 (Z.ltb_ge _ _)), Z.gtb_ltb, (proj2 (Z.ltb_ge _ _)) by lia. cbn [orb].
  rewrite !(s64_small _) by lia.
  assert (Ecs : Z.shiftl 1 (cluster_bits q) = cluster_size q)
    by (rewrite Z.shiftl_1_l; symmetry; apply (ge_cs q Hg)). rewrite Ecs.
  destruct (alloc_or_ok (l1_size q * 8) (- ENOMEM) (set_kern k2 (set_kern k1 d)) Q2) as (k3 & E3 & [Q3 C3]). mstep E3.
  destruct (alloc_or_ok (l1_size q * 8) (- ENOMEM) (set_kern k3 (set_kern k2 (set_kern k1 d))) Q3) as (k4 & E4 & [Q4 C4]).
  mstep E4. simpl in C2, C3, C4.
  assert (C4' : ∀ h, content k4 h = content (kern d) h) by (intros h; by rewrite C4, C3, C2, C1).
  destruct (kread_ok Backing (l1_offset q) (l1_size q * 8) (set_kern k4 d)) as (k5 & E5 & [Q5 C5]);
    [done|lia|lia|by simpl; rewrite C4'|]. simpl in E5, C5. rewrite C4' in E5.
  change (set_kern k4 (set_kern k3 (set_kern k2 (set_kern k1 d)))) with (set_kern k4 d). mstep E5.
  rewrite Z.eqb_refl. cbn [negb].
  destruct (alloc_many_ok LBD_QCOW2_L2_CACHE_SIZE (cluster_size q) (- ENOMEM) (set_kern k5 d) Q5) as (k6 & E6 & [Q6 C6]).
  change (set_kern k5 (set_kern k4 d)) with (set_kern k5 d). mstep E6.
  destruct (alloc_many_ok LBD_QCOW2_CL_CACHE_SIZE (cluster_size q) (- ENOMEM) (set_kern k6 d) Q6) as (k7 & E7 & [Q7 C7]).
  change (set_kern k6 (set_kern k5 d)) with (set_kern k6 d). mstep E7.
  destruct (alloc_or_ok (LZ4_compressBound (cluster_size q)) (- ENOMEM) (set_kern k7 d) Q7) as (k8 & E8 & [Q8 C8]).
  change (set_kern k7 (set_kern k6 d)) with (set_kern k7 d). mstep E8.
  destruct (alloc_or_ok (LZ4_compressBound (cluster_size q)) (- ENOMEM) (set_kern k8 d) Q8) as (k9 & E9 & [Q9 C9]).
  change (set_kern k8 (set_kern k7 d)) with (set_kern k8 d). mstep E9.
  exists k9. simpl in C5, C6, C7, C8, C9. split; [|split; [done|intros h; by rewrite C9, C8, C7, C6, C5, C4']].
  unfold upd_q, modify, opened. rewrite <- (ge_l2n q Hg), Hl1. done.
Qed.

Lemma blank_cache_ok {A} (valid : A → bool) lru key good e n : valid e = false → lru e = 0 → n = 16%nat →
  cache_ok valid lru key good 0 (replicate n e).
Proof.
  intros Hv Hl ->. split; [done|..].
  - intros k x [-> _]%lookup_replicate_1. lia.
  - intros k x [-> _]%lookup_replicate_1. congruence.
  - intros k k' x y [-> _]%lookup_replicate_1. congruence.
Qed.

(** ** Opening an image *)
Lemma init_spec d q g : healthy (kern d) → base d = None →
  (∀ ci, g_bv g ci = None) → image (disk d) q g →
  ∃ d', lbd_qcow2_init d = (Ok tt, d') ∧ wf d' g ∧ qcow2 d' = opened q ∧ base d' = None
    ∧ miss_handler d' = miss_handler d.
Proof.
  intros Hh Hb Hbv Him. destruct (init_run d q g Hh Him) as (k' & E & [Q C]). destruct Him as [Hg Hd _ _ _].
  exists (set_q (opened q) (set_kern k' d)). split_and!; try done. split; try done.
  - by destruct Hg; split.
  - simpl. rewrite C. eapply wf_disk_same; [exact Hg|exact Hd|by split_and!|done|done].
  - unfold base_ok. simpl. by rewrite Hb.
  - by apply blank_cache_ok.
  - by apply blank_cache_ok.
Qed.

End InitProof.
