(* ===== verification/Qcow2BaseProof.v ===== *)
(** * The base layer: opening it, and swapping it under a live device

    Opening a base file gives a device that shows the clusters of the base
    wherever the image has none of its own; a swap replaces one base by another
    and reloads the tables of the image. *)
From S2P Require Import Prelude Kernel Format Qcow2State Qcow2Alloc Qcow2Cache Qcow2Io Qcow2Inv.
From S2P Require Import Qcow2AllocProof Qcow2Wf Qcow2CacheProof Qcow2WriteProof Qcow2IoProof Flat.
From S2P Require Import Qcow2Refine Qcow2InitProof.

(** ** What a base file provides *)

(** The clusters allocated in an image, and the full clusters of a raw file. *)
Definition image_clusters (q : lbd_qcow2) (g : ghost) (ci : Z) : option bytes :=
  if decide (0 ≤ ci ∧ ent (l2_entries q) (g_tbl g) ci ≠ 0) then Some (g_view g ci) else None.
Definition raw_clusters (f : bytes) (cs ci : Z) : option bytes :=
  if decide (0 ≤ ci ∧ ci * cs + cs ≤ zlen f) then Some (read_at f (ci * cs) cs) else None.

(** The image with the base [B] under it: a cluster of its own, or that of the
    base, or zeros. *)
Definition layered (q : lbd_qcow2) (g : ghost) (B : Z → option bytes) : ghost :=
  Ghost (g_own g) (g_fl g) (g_tbl g)
    (λ ci, if decide (ent (l2_entries q) (g_tbl g) ci = 0) then default (zeros (cluster_size q)) (B ci) else g_view g ci) B.

Section Base.
Context {K : Type} `{KernelLaws K} `{LZ4Laws} `{CrcLaws}.
Local Abbreviation disk d := (content (kern d) Backing).
Implicit Types d : qdev K.

(** The file [f] is an image of the same geometry, or a raw file of the same
    size, and provides the clusters [B]. *)
Definition provides (f : bytes) (q : lbd_qcow2) (B : Z → option bytes) : Prop :=
  (∃ qb gb, image f qb gb ∧ cluster_bits qb = cluster_bits q ∧ virtual_size qb = virtual_size q ∧ B = image_clusters qb gb)
  ∨ (8 ≤ zlen f ∧ zlen f = virtual_size q ∧ _qcow2_get64 (read_at f 0 8) 0 ≠ LBD_QCOW2_MAGIC
     ∧ B = raw_clusters f (cluster_size q)).

(** The path leads to a regular file other than the image. *)
Definition base_found d (path : bytes) : Prop := ∃ k', filp_open (kern d) path = (OFile true false, k') ∧ healthy k'.

Lemma image_magic8 f q g : image f q g → _qcow2_get64 (read_at f 0 8) 0 = LBD_QCOW2_MAGIC.
Proof.
  intros Him. destruct (wd_meta _ _ _ _ (im_disk _ _ _ Him)) as [Hm _]. apply header36_fields in Hm as (M1 & _).
  apply get64_bytes_at; [lia|done|]. by apply bytes_at_prefix.
Qed.

(** ** Tables that are all written *)
Definition clean_cache (q : lbd_qcow2) : Prop :=
  length (l2_cache q) = LBD_QCOW2_L2_CACHE_SIZE ∧ Forall (λ e, l2_valid e && l2_dirty e = false) (l2_cache q).

Lemma flush_all_clean d : clean_cache (qcow2 d) → lbd_qcow2_flush_all_l2 d = (Ok tt, d).
Proof.
  intros [Hl Hc]. unfold lbd_qcow2_flush_all_l2.
  assert (Hg : ∀ n, (n ≤ LBD_QCOW2_L2_CACHE_SIZE)%nat → foldr (λ k rest,
    e ← get_l2 k;
    (if l2_valid e && l2_dirty e then try (lbd_qcow2_l2_flush k);; mret tt else mret tt);;
    rest) (mret tt) (seq (LBD_QCOW2_L2_CACHE_SIZE - n) n) d = (Ok tt, d)).
  { induction n as [|n IH]; intros Hn; [done|]. cbn [seq foldr].
    destruct (lookup_lt_is_Some_2 (l2_cache (qcow2 d)) (LBD_QCOW2_L2_CACHE_SIZE - S n)) as [e He]; [lia|].
    assert (E : get_l2 (LBD_QCOW2_L2_CACHE_SIZE - S n) d = (Ok e, d)) by (unfold get_l2; munfold; by rewrite He).
    mstep E. rewrite (Forall_lookup_1 _ _ _ _ Hc He). rewrite (bind_ok (mret tt) _ d tt d) by done.
    replace (S (LBD_QCOW2_L2_CACHE_SIZE - S n)) with (LBD_QCOW2_L2_CACHE_SIZE - n)%nat by lia. apply IH. lia. }
  specialize (Hg LBD_QCOW2_L2_CACHE_SIZE ltac:(lia)). by rewrite Nat.sub_diag in Hg.
Qed.

Lemma wf_clean (d : qdev K) g : wf d g → clean_cache (qcow2 d).
Proof.
  intros W. destruct (wf_l2c _ _ W) as [Hl _ Hg _]. split; [done|]. apply Forall_lookup. intros k e He.
  destruct (l2_valid e) eqn:Ev; [|done]. by destruct (Hg k e He Ev) as [-> _].
Qed.

(** ** [lbd_qcow2_base_init] *)
Definition new_base (path : bytes) (qb : lbd_qcow2) : lbd_qcow2_base :=
  Base (BaseFile path) true (virtual_size qb) (cluster_bits qb) (cluster_size qb) (l2_entries_of (cluster_size qb))
    (l1_table qb) (l1_size qb) (l1_offset qb) l2_blank 0.

(** Calls that leave the device and the files alone. *)
Lemma quiet_trans d k1 k2 : quiet d k1 → quiet (set_kern k1 d) k2 → quiet d k2.
Proof. intros [_ C1] [Q2 C2]. split; [done|]. intros h. rewrite C2. apply C1. Qed.

Lemma alloc_then n e d k : quiet d k →
  ∃ k', quiet d k' ∧ ∀ A (m : unit → M (qdev K) A), (alloc_or n e ≫= m) (set_kern k d) = m tt (set_kern k' d).
Proof.
  intros Q. destruct (alloc_or_ok n e (set_kern k d) (proj1 Q)) as (k' & E & Q').
  exists k'. split; [by apply (quiet_trans _ _ _ Q)|]. intros A m. by mstep E.
Qed.

Lemma alloc_many_then c n e d k : quiet d k →
  ∃ k', quiet d k' ∧ ∀ A (m : unit → M (qdev K) A), (alloc_many c n e ≫= m) (set_kern k d) = m tt (set_kern k' d).
Proof.
  intros Q. destruct (alloc_many_ok c n e (set_kern k d) (proj1 Q)) as (k' & E & Q').
  exists k'. split; [by apply (quiet_trans _ _ _ Q)|]. intros A m. by mstep E.
Qed.

Lemma read_then h pos len d k : quiet d k → 0 ≤ pos → 0 ≤ len → pos + len ≤ zlen (content (kern d) h) →
  ∃ k', quiet d k' ∧ ∀ A (m : Z * bytes → M (qdev K) A),
    (kread h pos len ≫= m) (set_kern k d) = m (len, read_at (content (kern d) h) pos len) (set_kern k' d).
Proof.
  intros Q Hp Hl Hle. destruct (kread_ok h pos len (set_kern k d) (proj1 Q) Hp Hl) as (k' & E & Q');
    [simpl; by rewrite (proj2 Q)|].
  exists k'. split; [by apply (quiet_trans _ _ _ Q)|]. intros A m. simpl in E. rewrite (proj2 Q) in E. by mstep E.
Qed.

Lemma open_then d path : base_found d path → ∃ k', quiet d k' ∧ ∀ A (m : open_res → M (qdev K) A),
  ((λ d, let '(o, k) := filp_open (kern d) path in (Ok o, set_kern k d)) ≫= m) d = m (OFile true false) (set_kern k' d).
Proof.
  intros (k' & E & Hh). exists k'. split; [split; [done|]; intros h; by eapply filp_open_content|].
  intros A m. unfold mbind, M_bind. by rewrite E.
Qed.

(** *** An image *)
Lemma init_image_ok d path qb gb : base_found d path → image (content (kern d) (BaseFile path)) qb gb →
  cluster_bits qb = cluster_bits (qcow2 d) → virtual_size qb = virtual_size (qcow2 d) →
  ∃ k', lbd_qcow2_base_init path d = (Ok tt, set_base (Some (new_base path qb)) (set_kern k' d)) ∧ quiet d k'.
Proof.
  intros Ho Him Hbits Hvs. pose proof Him as [Hg Hd _ Hl Hv]. set (fb := content (kern d) (BaseFile path)) in *.
  destruct (header_fields _ _ _ Him) as (_ & F2 & F3 & F4 & F5 & F6 & _ & _).
  pose proof (header_length _ _ _ Hd) as Hlen. destruct (l1_read _ _ _ Him) as [Hle Hl1].
  pose proof (wd_l1off _ _ _ _ Hd) as Hlo. pose proof (ge_bits qb Hg). pose proof (ge_l1_size qb Hg).
  unfold lbd_qcow2_base_init, base_init_image, base_init_raw. rewrite (bind_ok get _ _ _ _ eq_refl). cbv beta zeta.
  destruct (open_then d path Ho) as (k1 & Q1 & ->). rewrite (bind_ok get _ _ _ _ eq_refl). cbv beta zeta.
  simpl (kern _). rewrite (proj2 Q1). fold fb. rewrite (proj2 (Z.eqb_neq (zlen fb) 0)) by lia. cbn [negb].
  destruct (alloc_then 0 (- ENOMEM) d k1 Q1) as (k2 & Q2 & ->).
  destruct (read_then (BaseFile path) 0 8 d k2 Q2) as (k3 & Q3 & ->); [lia|lia|fold fb; lia|]. fold fb. rewrite Z.eqb_refl. cbn [negb].
  rewrite (image_magic8 _ _ _ Him), Z.eqb_refl.
  destruct (alloc_then LBD_QCOW2_HEADER_SIZE (- ENOMEM) d k3 Q3) as (k4 & Q4 & ->).
  destruct (read_then (BaseFile path) 0 4096 d k4 Q4) as (k5 & Q5 & E5); [lia|lia|fold fb; lia|]. unfold LBD_QCOW2_HEADER_SIZE.
  rewrite E5. fold fb. cbv beta iota zeta. rewrite Z.eqb_refl. cbn [negb]. rewrite F2, F3, F4, F5, F6, Hbits, Hvs, !Z.eqb_refl. cbn [negb].
  rewrite s64_small by lia.
  destruct (alloc_then (l1_size qb * 8) (- ENOMEM) d k5 Q5) as (k6 & Q6 & ->).
  destruct (alloc_then (l1_size qb * 8) (- ENOMEM) d k6 Q6) as (k7 & Q7 & ->).
  destruct (read_then (BaseFile path) (l1_offset qb) (l1_size qb * 8) d k7 Q7) as (k8 & Q8 & ->); [lia|lia|fold fb; lia|].
  fold fb. cbv beta iota zeta. rewrite Z.eqb_refl. cbn [negb].
  destruct (alloc_many_then LBD_QCOW2_L2_CACHE_SIZE (Z.shiftl 1 (cluster_bits (qcow2 d))) (- ENOMEM) d k8 Q8) as (k9 & Q9 & ->).
  destruct (alloc_then (LZ4_compressBound (Z.shiftl 1 (cluster_bits (qcow2 d)))) (- ENOMEM) d k9 Q9) as (k10 & Q10 & ->).
  exists k10. split; [|done]. unfold modify, new_base. rewrite Hl1, <- Hbits, Hvs.
  by rewrite Z.shiftl_1_l, <- (ge_cs qb Hg).
Qed.

(** *** A raw file *)
Definition new_raw (path : bytes) (size : Z) : lbd_qcow2_base := Base (BaseFile path) false size 0 0 0 [] 0 0 l2_blank 0.

Lemma init_raw_ok d path : base_found d path → let f := content (kern d) (BaseFile path) in
  8 ≤ zlen f → zlen f = virtual_size (qcow2 d) → _qcow2_get64 (read_at f 0 8) 0 ≠ LBD_QCOW2_MAGIC →
  ∃ k', lbd_qcow2_base_init path d = (Ok tt, set_base (Some (new_raw path (zlen f))) (set_kern k' d)) ∧ quiet d k'.
Proof.
  intros Ho f Hlen Hvs Hm.
  unfold lbd_qcow2_base_init, base_init_image, base_init_raw. rewrite (bind_ok get _ _ _ _ eq_refl). cbv beta zeta.
  destruct (open_then d path Ho) as (k1 & Q1 & ->). rewrite (bind_ok get _ _ _ _ eq_refl). cbv beta zeta.
  simpl (kern _). rewrite (proj2 Q1). fold f. rewrite (proj2 (Z.eqb_neq (zlen f) 0)) by lia. cbn [negb].
  destruct (alloc_then 0 (- ENOMEM) d k1 Q1) as (k2 & Q2 & ->).
  destruct (read_then (BaseFile path) 0 8 d k2 Q2) as (k3 & Q3 & ->); [lia|lia|fold f; lia|]. fold f. rewrite Z.eqb_refl. cbn [negb].
  rewrite (proj2 (Z.eqb_neq _ _) Hm), Hvs, Z.eqb_refl. cbn [negb]. by exists k3.
Qed.

(** *** Either *)
Lemma image_clusters_base path f q qb gb : image f qb gb → cluster_size qb = cluster_size q →
  base_rep f (cluster_size q) (new_base path qb) (image_clusters qb gb)
  ∧ ∀ ci x, image_clusters qb gb ci = Some x → zlen x = cluster_size q.
Proof.
  intros [Hg Hd _ _ _] Ecs. unfold image_clusters. split.
  - unfold base_rep. simpl. exists (g_tbl gb). rewrite <- Ecs. split_and!; [done|done|apply (ge_l1 qb Hg)|..].
    + intros i Hi. by apply (wd_l2 _ _ _ _ Hd).
    + intros ci Hci. rewrite <- (ge_l2n qb Hg). destruct (Z.eqb_spec (ent (l2_entries qb) (g_tbl gb) ci) 0) as [E|E].
      * by rewrite decide_False by tauto.
      * rewrite decide_True by done. destruct (wd_data _ _ _ _ Hd ci Hci (λ Hf, Hf) E) as (sz & He & _). by exists (g_view gb ci), sz.
    + by apply blank_cache_ok.
  - intros ci x. case_decide as Hc; [|done]. intros [= <-]. rewrite <- Ecs. apply (wd_view _ _ _ _ Hd). apply Hc.
Qed.

Lemma raw_clusters_base path f cs : 0 < cs →
  base_rep f cs (new_raw path (zlen f)) (raw_clusters f cs) ∧ ∀ ci x, raw_clusters f cs ci = Some x → zlen x = cs.
Proof.
  intros Hcs. unfold raw_clusters. split.
  - unfold base_rep. simpl. split; [done|]. intros ci Hci. rewrite Z.gtb_ltb.
    destruct (Z.ltb_spec (zlen f) (ci * cs + cs)); [by rewrite decide_False by lia|by rewrite decide_True by lia].
  - intros ci x. case_decide as Hc; [|done]. intros [= <-]. apply zlen_read_at; nia.
Qed.

Lemma base_init_spec d path B : base_found d path → geom (qcow2 d) → provides (content (kern d) (BaseFile path)) (qcow2 d) B →
  ∃ b k', lbd_qcow2_base_init path d = (Ok tt, set_base (Some b) (set_kern k' d)) ∧ quiet d k'
    ∧ b_file b = BaseFile path ∧ b_lru_tick b = 0 ∧ base_rep (content (kern d) (BaseFile path)) (cluster_size (qcow2 d)) b B
    ∧ ∀ ci x, B ci = Some x → zlen x = cluster_size (qcow2 d).
Proof.
  intros Ho Hg [(qb & gb & Him & Hb & Hv & ->)|(Hl & Hv & Hm & ->)].
  - destruct (init_image_ok d path qb gb Ho Him Hb Hv) as (k' & E & Q). exists (new_base path qb), k'.
    assert (Ecs : cluster_size qb = cluster_size (qcow2 d)) by (rewrite (ge_cs _ (im_geom _ _ _ Him)), (ge_cs _ Hg); congruence).
    destruct (image_clusters_base path _ (qcow2 d) qb gb Him Ecs). by split_and!.
  - destruct (init_raw_ok d path Ho Hl Hv Hm) as (k' & E & Q). eexists _, k'. pose proof (geom_cs _ Hg).
    destruct (raw_clusters_base path (content (kern d) (BaseFile path)) (cluster_size (qcow2 d)) ltac:(lia)).
    split_and!; [exact E|done..].
Qed.

(** ** The device over its base *)
Lemma layered_disk f q g B : geom q → wf_disk (λ _, False) f q g → (∀ ci x, B ci = Some x → zlen x = cluster_size q) →
  wf_disk (λ _, False) f q (layered q g B).
Proof.
  intros Hg Hd HB. pose proof (geom_cs q Hg).
  split; simpl; try (by apply Hd); try done.
  - intros ci Hci Hh He. rewrite decide_False by done. by apply (wd_data _ _ _ _ Hd).
  - intros ci Hci Hh He. by rewrite decide_True.
  - intros ci Hci. case_decide; [|by apply (wd_view _ _ _ _ Hd)]. destruct (B ci) as [x|] eqn:Ex; [by apply (HB ci)|].
    simpl. unfold zlen. rewrite length_zeros. lia.
Qed.

Lemma wf_rebase d g b B k' path : wf d g → quiet d k' → Forall (λ e, cl_valid e = false) (cl_cache (qcow2 d)) →
  b_file b = BaseFile path → b_lru_tick b = 0 → base_rep (content (kern d) (BaseFile path)) (cluster_size (qcow2 d)) b B →
  (∀ ci x, B ci = Some x → zlen x = cluster_size (qcow2 d)) →
  wf (set_base (Some b) (set_kern k' d)) (layered (qcow2 d) g B).
Proof.
  intros W [Hh Hc] Hv Hf Ht Hb HB. split; simpl; try (by apply W); try done.
  - rewrite Hc. apply layered_disk; [apply W|apply W|done].
  - unfold base_ok. simpl. rewrite Hf, Hc. split; [by exists path|]. split; [done|lia].
  - destruct (wf_clc _ _ W) as [Hl Hr _ _]. unfold clc_ok. simpl. rewrite Forall_lookup in Hv. split; [done|done|..].
    + intros k e He Hve. by rewrite (Hv k e He) in Hve.
    + intros k k2 e e2 He _ Hve. by rewrite (Hv k e He) in Hve.
Qed.

(** Opening the base of a device whose cluster cache is empty. *)
Lemma base_init_wf d g path B : wf d g → Forall (λ e, cl_valid e = false) (cl_cache (qcow2 d)) → base_found d path →
  provides (content (kern d) (BaseFile path)) (qcow2 d) B →
  ∃ d', lbd_qcow2_base_init path d = (Ok tt, d') ∧ wf d' (layered (qcow2 d) g B) ∧ qcow2 d' = qcow2 d.
Proof.
  intros W Hv Ho Hp. destruct (base_init_spec d path B Ho (wf_geom _ _ W) Hp) as (b & k' & E & Q & Hf & Ht & Hr & HB).
  eexists. split; [exact E|]. split; [by eapply wf_rebase|done].
Qed.

(** ** [lbd_qcow2_swap_base] *)

(** Reading the tables again finds what is in memory, if the header is current. *)
Lemma reload_run d g : healthy (kern d) → image (disk d) (qcow2 d) g →
  ∃ k', lbd_qcow2_reload_l1 d = (Ok tt, set_kern k' d) ∧ quiet d k'.
Proof.
  intros Hh Him. pose proof Him as [Hg Hd _ Hl Hv]. set (q := qcow2 d) in *.
  destruct (header_fields _ _ _ Him) as (_ & _ & _ & _ & F5 & F6 & F7 & F8).
  pose proof (header_length _ _ _ Hd) as Hlen. destruct (l1_read _ _ _ Him) as [Hle Hl1].
  pose proof (wd_l1off _ _ _ _ Hd) as Hlo. pose proof (ge_l1_size q Hg).
  pose proof (wd_space _ _ _ _ Hd) as Hs. pose proof (sp_alloc _ _ _ _ _ Hs).
  pose proof (chain_head_range _ _ _ _ _ Hs) as Hr. rewrite <- (sp_head _ _ _ _ _ Hs) in Hr.
  assert (Q0 : quiet d (kern d)) by by split. unfold lbd_qcow2_reload_l1.
  destruct (alloc_then LBD_QCOW2_HEADER_SIZE (- ENOMEM) d _ Q0) as (k1 & Q1 & E1).
  replace (set_kern (kern d) d) with d in E1 by by destruct d. rewrite E1.
  destruct (read_then Backing 0 4096 d k1 Q1) as (k2 & Q2 & E2); [lia..|]. unfold LBD_QCOW2_HEADER_SIZE. rewrite E2.
  cbv beta iota zeta. rewrite Z.eqb_refl. cbn [negb]. rewrite F5, F6, F7, F8, !s64_small by lia.
  assert (Ea : upd_q (set_alloc_offset (alloc_offset q)) (set_kern k2 d) = (Ok tt, set_kern k2 d)).
  { unfold q. by destruct d as [? [] ? ? ? ? ?]. }
  assert (Ef : upd_q (set_free_list_head (free_list_head q)) (set_kern k2 d) = (Ok tt, set_kern k2 d)).
  { unfold q. by destruct d as [? [] ? ? ? ? ?]. }
  mstep Ea. mstep Ef.
  destruct (alloc_then (l1_size q * 8) (- ENOMEM) d k2 Q2) as (k3 & Q3 & ->).
  destruct (alloc_then (l1_size q * 8) (- ENOMEM) d k3 Q3) as (k4 & Q4 & ->).
  destruct (read_then Backing (l1_offset q) (l1_size q * 8) d k4 Q4) as (k5 & Q5 & ->); [lia..|].
  cbv beta iota zeta. rewrite Z.eqb_refl. cbn [negb]. rewrite Hl1.
  exists k5. split; [|done]. unfold q. by destruct d as [? [] ? ? ? ? ?].
Qed.

Lemma cache_invalidated {A} (valid : A → bool) lru key good good' tick l (f : A → A) :
  cache_ok valid lru key good tick l → (∀ e, valid (f e) = false ∧ lru (f e) = lru e) →
  cache_ok valid lru key good' tick (f <$> l).
Proof.
  intros [Hl Hr _ _] Hf. split.
  - by rewrite length_fmap.
  - intros k e (x & -> & Hx)%list_lookup_fmap_Some. destruct (Hf x) as [_ ->]. by apply (Hr k).
  - intros k e (x & -> & Hx)%list_lookup_fmap_Some. by destruct (Hf x) as [-> _].
  - intros k k' e e' (x & -> & Hx)%list_lookup_fmap_Some _. by destruct (Hf x) as [-> _].
Qed.

(** The device and the base with nothing cached. *)
Definition uncached d : qdev K :=
  set_q (set_l2_cache (l2e_set_valid false <$> l2_cache (qcow2 d))
          (set_cl_cache (cle_set_valid false <$> cl_cache (qcow2 d)) (qcow2 d))) d.
Definition uncached_base (b : lbd_qcow2_base) : lbd_qcow2_base :=
  if b_is_qcow2 b then b_set_cache (l2e_set_valid false <$> b_l2_cache b) b else b.

Lemma uncached_wf d g : wf d g → wf (uncached d) g.
Proof.
  intros W. split; simpl; try (by apply W).
  - by destruct (wf_geom _ _ W).
  - eapply wf_disk_same; [apply W|apply W|done|done|done].
  - eapply cache_invalidated; [apply (wf_l2c _ _ W)|]. by intros [].
  - eapply cache_invalidated; [apply (wf_clc _ _ W)|]. by intros [].
Qed.

Lemma uncached_base_rep f cs b B : base_rep f cs b B → base_rep f cs (uncached_base b) B.
Proof.
  unfold base_rep, uncached_base. destruct (b_is_qcow2 b) eqn:Eb; [|by rewrite Eb]. simpl. rewrite Eb.
  intros (t & H1' & H2' & H3' & H4' & H5' & Hc). exists t. split_and!; try done.
  eapply cache_invalidated; [exact Hc|]. by intros [].
Qed.

(** A swap on a device whose header is current. *)
Lemma swap_base_run d g path B : wf d g → 0 < l1_size (qcow2 d) → 0 ≤ virtual_size (qcow2 d) < 2 ^ 64 →
  synced d → base_found d path → provides (content (kern d) (BaseFile path)) (qcow2 d) B →
  ∃ b k', lbd_qcow2_swap_base path d
      = (Ok tt, set_base_path (take 255 path) (set_base (Some b) (set_kern k' (uncached d))))
    ∧ quiet d k' ∧ b_lru_tick b = 0
    ∧ wf (set_base_path (take 255 path) (set_base (Some b) (set_kern k' (uncached d)))) (layered (qcow2 d) g B).
Proof.
  intros W Hl Hv Hcur Ho Hp. unfold lbd_qcow2_swap_base. mstep (flush_all_clean d (wf_clean d g W)).
  rewrite (bind_ok lbd_qcow2_base_destroy _ d tt (set_base None d)) by done.
  destruct (base_init_spec (set_base None d) path B Ho (wf_geom _ _ W) Hp) as (b & k1 & E1 & Q1 & Hf & Ht & Hr & HB). mstep E1.
  set (d1 := set_base (Some b) (set_kern k1 (set_base None d))) in *. pose proof (proj2 Q1 Backing) as Hd1. simpl in Hd1.
  destruct (reload_run d1 g (proj1 Q1)) as (k2 & E2 & Q2).
  { split; [apply W|simpl; rewrite Hd1; apply W|simpl; by rewrite Hd1|done|done]. }
  mstep E2. exists (uncached_base b), k2. split; [done|].
  assert (Q : quiet (uncached d) k2) by (split; [apply Q2|]; intros h; rewrite (proj2 Q2 h); apply (proj2 Q1)).
  assert (W' : wf (set_base (Some (uncached_base b)) (set_kern k2 (uncached d))) (layered (qcow2 d) g B)).
  { change (layered (qcow2 d) g B) with (layered (qcow2 (uncached d)) g B).
    apply (wf_rebase _ _ _ _ _ path (uncached_wf d g W) Q); [| | |by apply uncached_base_rep|done].
    - apply Forall_fmap, Forall_forall. by intros [].
    - unfold uncached_base. by destruct (b_is_qcow2 b).
    - unfold uncached_base. by destruct (b_is_qcow2 b). }
  split; [exact Q|]. split; [unfold uncached_base; by destruct (b_is_qcow2 b)|by destruct W'].
Qed.

(** The byte at [o] of the image with the base [B] under it: that of the image's
    own cluster; where it has none, that of the base; zero where neither has. *)
Definition shown (q : lbd_qcow2) (g : ghost) (B : Z → option bytes) (o : Z) : byte :=
  let ci := o / cluster_size q in
  nth (Z.to_nat (o mod cluster_size q))
    (if decide (ent (l2_entries q) (g_tbl g) ci = 0) then default (zeros (cluster_size q)) (B ci) else g_view g ci) x00.
End Base.
