(* ===== verification/Qcow2MissProof.v ===== *)
(** * Reads with a miss handler

    With a handler registered, a read of a cluster that neither the image nor its
    base has asks userspace, which may swap the base before it answers and may
    have the read tried again.  [answered] is the abstract account of such a
    read: what it returns for given answers, the base afterwards and the answers
    left.  The driver gives exactly that. *)
From S2P Require Import Prelude Kernel Format Qcow2State Qcow2Alloc Qcow2Cache Qcow2Io Qcow2Inv.
From S2P Require Import Qcow2AllocProof Qcow2Wf Qcow2CacheProof Qcow2WriteProof Qcow2IoProof Flat.
From S2P Require Import Qcow2Refine Qcow2InitProof Qcow2BaseProof.

(** ** The abstract account *)
Section Answers.
(** The cluster size, the clusters the image has, those each base file provides. *)
Context (cs : Z) (own : Z → option bytes) (prov : bytes → Z → option bytes).

(** The clusters of the image over the base [B]. *)
Definition under (B : Z → option bytes) (ci : Z) : option bytes :=
  match own ci with Some x => Some x | None => B ci end.

(** The base after swaps to the files [ps]. *)
Definition swapped (B : Z → option bytes) (ps : list bytes) : Z → option bytes := foldl (λ _ p, prov p) B ps.

(** The state of an account: the base, and the answers to come if anybody
    handles misses. *)
Definition account : Type := (Z → option bytes) * option (list miss_reply).

(** Cluster [ci] as a read gets it. *)
Fixpoint answered (retries : nat) (s : account) (ci : Z) : bytes * account :=
  match under s.1 ci, s.2 with
  | Some x, _ => (x, s)
  | None, None | None, Some [] => (zeros cs, (s.1, None))
  | None, Some (r :: rs) =>
      let s' := (swapped s.1 (reply_swaps r), Some rs) in
      match reply_action r, retries with
      | LBD_MISS_RETRY, S n => answered n s' ci
      | _, _ => (zeros cs, s')
      end
  end.

(** [n] bytes from [off] on, cluster by cluster. *)
Fixpoint answered_range (fuel : nat) (s : account) (off n : Z) : bytes * account :=
  match fuel with
  | O => ([], s)
  | S fuel' =>
      if n <=? 0 then ([], s) else
      let len := Z.min n (cs - off mod cs) in
      let '(b, s1) := answered 3 s (off / cs) in
      let '(rest, s2) := answered_range fuel' s1 (off + len) (n - len) in
      (read_at b (off mod cs) len ++ rest, s2)
  end.

Fixpoint answered_segs (s : account) (off : Z) (segs : list bytes) : list bytes * account :=
  match segs with
  | [] => ([], s)
  | b :: segs' =>
      let '(x, s1) := answered_range (length b) s off (zlen b) in
      let '(xs, s2) := answered_segs s1 (off + zlen b) segs' in
      (x :: xs, s2)
  end.

(** *** A base fetched on the first miss *)
Section Fetch.
Context (B : Z → option bytes) (p : bytes) (rs : list miss_reply).
Hypothesis grows : ∀ ci x, B ci = Some x → prov p ci = Some x.
Local Abbreviation full ci := (default (zeros cs) (under (prov p) ci)).

(** Before the miss, and after it. *)
Definition fetching (s : account) : Prop :=
  s = (B, Some (Reply [p] LBD_MISS_RETRY :: rs)) ∨ s = (prov p, Some rs).

Lemma answered_fetch s ci : fetching s → under (prov p) ci ≠ None →
  ∃ s', answered 3 s ci = (full ci, s') ∧ fetching s'.
Proof.
  intros [-> | ->] Hu; cbn [answered fst snd].
  - destruct (under B ci) as [x|] eqn:Ex.
    + exists (B, Some (Reply [p] LBD_MISS_RETRY :: rs)). split; [|by left]. f_equal. revert Ex. unfold under.
      destruct (own ci); [by intros [= ->]|]. by intros ->%grows.
    + cbn [reply_action reply_swaps swapped foldl]. exists (prov p, Some rs). split; [|by right].
      by destruct (under (prov p) ci).
  - exists (prov p, Some rs). split; [|by right]. by destruct (under (prov p) ci).
Qed.

Hypothesis Hcs : 0 < cs.
Hypothesis sized : ∀ ci x, under (prov p) ci = Some x → zlen x = cs.
Local Abbreviation disk_full := (vbyte (λ ci, full ci) cs).

Lemma answered_range_fetch fuel : ∀ s off n, fetching s → 0 ≤ off → 0 ≤ n ≤ Z.of_nat fuel →
  (∀ o, off ≤ o < off + n → under (prov p) (o / cs) ≠ None) →
  ∃ s', answered_range fuel s off n = (slice disk_full off n, s') ∧ fetching s'.
Proof.
  induction fuel as [|fuel IH]; intros s off n Hs Ho Hn Hu.
  { assert (n = 0) as -> by lia. by exists s. }
  cbn [answered_range]. destruct (Z.leb_spec n 0); [assert (n = 0) as -> by lia; by exists s|].
  pose proof (Z.mod_pos_bound off cs Hcs). pose proof (Z.div_mod off cs ltac:(lia)).
  set (len := Z.min n (cs - off mod cs)). destruct (answered_fetch s (off / cs) Hs) as (s1 & -> & H1'); [apply Hu; lia|].
  destruct (IH s1 (off + len) (n - len) H1') as (s2 & -> & H2'); [lia..|intros o Hr; apply Hu; lia|].
  exists s2. split; [|done]. f_equal. replace (slice disk_full off n) with (slice disk_full off (len + (n - len))) by (f_equal; lia).
  rewrite slice_app by lia. f_equal. symmetry. replace off with (off / cs * cs + off mod cs) at 1 by lia.
  apply (vbyte_slice (λ ci, full ci)); [lia..|]. destruct (under (prov p) (off / cs)) as [x|] eqn:Ex; [by apply (sized (off / cs))|].
  exfalso. apply (Hu off); [lia|done].
Qed.

Lemma answered_segs_fetch segs : ∀ s off, fetching s → 0 ≤ off →
  (∀ o, off ≤ o < off + zlen (concat segs) → under (prov p) (o / cs) ≠ None) →
  ∃ s', answered_segs s off segs = (slices disk_full off segs, s') ∧ fetching s'.
Proof.
  induction segs as [|b segs IH]; intros s off Hs Ho Hu; [by exists s|].
  cbn [answered_segs concat slices] in *. rewrite zlen_app in Hu. pose proof (zlen_nonneg b). pose proof (zlen_nonneg (concat segs)).
  destruct (answered_range_fetch (length b) s off (zlen b)) as (s1 & -> & H1'); [done|done|unfold zlen; lia|intros o Hr; apply Hu; lia|].
  destruct (IH s1 (off + zlen b) H1') as (s2 & -> & H2'); [lia|intros o Hr; apply Hu; lia|]. by exists s2.
Qed.
End Fetch.
End Answers.

(** ** Invalidating part of a cache *)
Lemma cache_partly_invalidated {A} (valid : A → bool) lru key good tick l (f : A → A) :
  cache_ok valid lru key good tick l → (∀ e, f e = e ∨ valid (f e) = false ∧ lru (f e) = lru e) →
  cache_ok valid lru key good tick (f <$> l).
Proof.
  intros [Hl Hr Hg Hu] Hf. split.
  - by rewrite length_fmap.
  - intros k e (x & -> & Hx)%list_lookup_fmap_Some. destruct (Hf x) as [-> | [_ ->]]; by apply (Hr k).
  - intros k e (x & -> & Hx)%list_lookup_fmap_Some. destruct (Hf x) as [-> | [-> _]]; [by apply Hg with k|done].
  - intros k k' e e' (x & -> & Hx)%list_lookup_fmap_Some (x' & -> & Hx')%list_lookup_fmap_Some.
    destruct (Hf x) as [-> | [-> _]]; [|done]. destruct (Hf x') as [-> | [-> _]]; [by eapply Hu|done].
Qed.

Section Handler.
Context {K : Type} `{KernelLaws K} `{LZ4Laws} `{CrcLaws}.
Local Abbreviation disk d := (content (kern d) Backing).
Implicit Types d : qdev K.

Lemma provides_size f q B ci x : geom q → provides f q B → B ci = Some x → zlen x = cluster_size q.
Proof.
  intros Hg [(qb & gb & Him & Hb & _ & ->)|(_ & _ & _ & ->)].
  - assert (Ecs : cluster_size qb = cluster_size q) by (rewrite (ge_cs _ (im_geom _ _ _ Him)), (ge_cs _ Hg); congruence).
    destruct (image_clusters_base [] _ q qb gb Him Ecs) as [_ Hs]. apply Hs.
  - pose proof (geom_cs _ Hg). destruct (raw_clusters_base [] f (cluster_size q)) as [_ Hs]; [lia|]. apply Hs.
Qed.

(** The contents of clusters decide, not how the ghost state writes them. *)
Lemma wf_ext d g g' : wf d g → g_own g' = g_own g → g_fl g' = g_fl g → g_tbl g' = g_tbl g → g_bv g' = g_bv g →
  (∀ ci, 0 ≤ ci → g_view g' ci = g_view g ci) → wf d g'.
Proof.
  destruct g as [o f t v b], g' as [o' f' t' v' b']. simpl. intros W -> -> -> -> Hv.
  destruct W as [W1 W2 W3 W4 W5 W6 W7]. split; try done.
  - split; try (by apply W3).
    + intros ci Hci. simpl. rewrite Hv by done. by apply (wd_data _ _ _ _ W3).
    + intros ci Hci. simpl. rewrite Hv by done. by apply (wd_zero _ _ _ _ W3).
    + intros ci Hci. simpl. rewrite Hv by done. by apply (wd_view _ _ _ _ W3).
  - simpl in *. eapply cache_weaken; [apply Z.le_refl| |exact W6]. intros e [Hi Hd]. split; [done|]. by rewrite Hv.
Qed.

(** ** Devices an account describes *)

(** The image [q0], [g0] and the base files everything is about. *)
Context (q0 : lbd_qcow2) (g0 : ghost) (files : bytes → bytes) (prov : bytes → Z → option bytes).
Local Abbreviation own := (image_clusters q0 g0).
Local Abbreviation cs := (cluster_size q0).

(** A swap to the file [p] succeeds and shows the clusters [prov p]. *)
Definition swappable (p : bytes) : Prop := provides (files p) q0 (prov p)
  ∧ ∀ d, healthy (kern d) → (∀ p', content (kern d) (BaseFile p') = files p') → base_found d p.

Definition handler_is d (h : option (list miss_reply)) : Prop :=
  match h with
  | None => miss_handler d = false
  | Some rs => miss_handler d = true ∧ miss_replies d = rs ∧ Forall (λ r, Forall swappable (reply_swaps r)) rs
  end.

(** [d] shows the image over the base of [s], is answered as [s] says, and has
    room for [n] loads. *)
Record handled (n : Z) d (s : account) : Prop := {
  hd_wf : wf d (layered q0 g0 s.1);
  hd_tracked : tracked d (layered q0 g0 s.1);
  hd_geo : same_geo q0 (qcow2 d);
  hd_synced : synced d;
  hd_files p : content (kern d) (BaseFile p) = files p;
  hd_handler : handler_is d s.2;
  hd_room : 0 ≤ n ∧ lru_tick (qcow2 d) + 2 * n < U64_MAX;
  hd_base : match base d with None => True | Some b => b_lru_tick b + n < U64_MAX end
}.

Lemma visible_under q B ci : 0 ≤ ci → l2_entries q = l2_entries q0 →
  visible q (layered q0 g0 B) ci ↔ under own B ci ≠ None.
Proof.
  intros Hci En. unfold visible, under, image_clusters. simpl. rewrite En.
  destruct (decide (ent (l2_entries q0) (g_tbl g0) ci = 0)) as [E|E].
  - rewrite decide_False by tauto. tauto.
  - rewrite decide_True by done. split; [done|by left].
Qed.

Lemma layered_under B ci : 0 ≤ ci → g_view (layered q0 g0 B) ci = default (zeros cs) (under own B ci).
Proof.
  intros Hci. unfold under, image_clusters. simpl. case_decide as E.
  - by rewrite decide_False by tauto.
  - by rewrite decide_True by done.
Qed.

(** *** Loading *)
Lemma handled_load n d s ci : handled (n + 1) d s → 0 ≤ n → ci_ok q0 ci →
  ∃ p d', lbd_qcow2_cl_load ci d = (Ok p, d') ∧ handled n d' s ∧ loaded d (layered q0 g0 s.1) ci d' p.
Proof.
  intros [W T G S F Hh [_ Ht] Hb] Hn Hci. pose proof G as (_ & Gc & Gn & _ & _ & Gl & _).
  assert (Hci' : ci_ok (qcow2 d) ci) by (unfold ci_ok; by rewrite Gc, Gn, Gl).
  destruct (cl_load_spec d _ ci W Hci') as (p & d' & E & [W' C L M]); [lia|by destruct (base d); [lia|]|].
  exists p, d'. split; [done|]. split; [|done]. destruct (cached_geo _ _ _ _ C) as (Gq & Ga & _).
  pose proof (cs_tick _ _ _ _ C). pose proof (cs_base _ _ _ _ C) as Hbs. split; try done.
  - eapply tracked_more; [exact T| |apply C|apply Gq]. eapply caches_more_mono; [|exact M]. by intros c [-> ?].
  - unfold same_geo in *. intuition congruence.
  - unfold synced. rewrite (proj2 (cs_quiet _ _ _ _ C)), Ga. exact S.
  - intros p'. by rewrite (proj2 (cs_quiet _ _ _ _ C)).
  - unfold handler_is in *. rewrite (cs_miss _ _ _ _ C), (cs_replies _ _ _ _ C). done.
  - lia.
  - destruct (base d), (base d'); simpl in *; try done. lia.
Qed.

(** *** Swapping *)
Hypothesis Hl1 : 0 < l1_size q0.
Hypothesis Hvs : 0 ≤ virtual_size q0 < 2 ^ 64.

Lemma layered_twice B B' ci : g_view (layered q0 g0 B') ci = g_view (layered q0 (layered q0 g0 B) B') ci.
Proof. simpl. by repeat case_decide. Qed.

Lemma handled_swap n d B h p : handled n d (B, h) → swappable p →
  ∃ d', lbd_qcow2_swap_base p d = (Ok tt, d') ∧ handled n d' (prov p, h).
Proof.
  intros [W T G S F Hh [Hn Ht] Hb] [Hp Hf]. pose proof G as (Gb & Gc & Gn & Gv & _ & Gl & _).
  destruct (swap_base_run d _ p (prov p) W) as (b & k' & E & Q & Tb & W').
  { by rewrite Gl. } { by rewrite Gv. } { done. } { apply Hf; [apply (wf_healthy _ _ W)|done]. }
  { unfold provides in *. by rewrite F, Gb, Gv, Gc. }
  eexists. split; [exact E|]. split; simpl; try done.
  - eapply wf_ext; [exact W'|done..|]. intros ci Hci. simpl. rewrite Gn, Gc. by repeat case_decide.
  - unfold tracked. simpl. intros _ k e He Hv. apply list_lookup_fmap_Some in He as (x & -> & _). by destruct x.
  - unfold synced. simpl. rewrite (proj2 Q). exact S.
  - intros p'. by rewrite (proj2 Q).
  - rewrite Tb. pose proof (wf_tick _ _ W). lia.
Qed.

Lemma handled_swaps n h ps : ∀ d B, handled n d (B, h) → Forall swappable ps →
  ∃ d', foldr (λ p rest, try (lbd_qcow2_swap_base p);; rest) (mret tt) ps d = (Ok tt, d')
    ∧ handled n d' (swapped prov B ps, h).
Proof.
  induction ps as [|p ps IH]; intros d B Hd Hps; [by exists d|]. apply Forall_cons_1 in Hps as [Hp Hps].
  destruct (handled_swap n d B h p Hd Hp) as (d1 & E1 & H1'). cbn [foldr].
  rewrite (bind_ok _ _ _ _ _ (try_ok _ _ _ _ E1)). by apply IH.
Qed.

(** *** The answer to a miss *)
Lemma handled_answer n d B r rs : handled n d (B, Some (r :: rs)) →
  ∃ d', lbd_qcow2_handle_miss d = (Ok (reply_action r), d') ∧ handled n d' (swapped prov B (reply_swaps r), Some rs).
Proof.
  intros Hd. destruct (hd_handler _ _ _ Hd) as (Hm & Hr & Hok). apply Forall_cons_1 in Hok as [Hps Hok].
  assert (H1' : handled n (set_replies rs d) (B, Some rs)).
  { destruct Hd as [W T]. split; try done. by destruct W. }
  destruct (handled_swaps n (Some rs) (reply_swaps r) _ B H1' Hps) as (d' & E & H2').
  exists d'. split; [|done]. unfold lbd_qcow2_handle_miss. rewrite (bind_ok get _ _ _ _ eq_refl), Hm, Hr. cbn [negb].
  rewrite (bind_ok _ _ d tt (set_replies rs d)) by done. by mstep E.
Qed.

Lemma handled_gone n d B : handled n d (B, Some []) →
  ∃ d', lbd_qcow2_handle_miss d = (Ok LBD_MISS_CONTINUE, d') ∧ handled n d' (B, None).
Proof.
  intros [W T G S F (Hm & Hr & _) Ht Hb]. exists (set_miss_handler false d). split.
  - unfold lbd_qcow2_handle_miss. by rewrite (bind_ok get _ _ _ _ eq_refl), Hm, Hr.
  - split; try done. by destruct W.
Qed.

Lemma handled_retry n d s ci : handled n d s →
  ∃ d', lbd_qcow2_invalidate_for_retry ci d = (Ok tt, d') ∧ handled n d' s.
Proof.
  intros [W T G S F Hh Ht Hb]. eexists. split; [done|]. split; simpl; try done.
  - destruct W as [W1 W2 W3 W4 W5 W6 W7]. split; simpl; try done; [by destruct W2|eapply wf_disk_same; [exact W2|exact W3|by split_and!|done|done]| |].
    + unfold base_ok in *. simpl. destruct (base d) as [b|]; [|done]. destruct W4 as ([p Hp] & Hr & Hlt). simpl.
      split; [exists p; by destruct (b_is_qcow2 b)|]. destruct (b_is_qcow2 b) eqn:Eb; simpl; [|done]. split; [|done].
      unfold base_rep in *. simpl. rewrite Eb in *. destruct Hr as (t & R1 & R2 & R3 & R4 & R5 & R6).
      exists t. split_and!; try done. eapply cache_partly_invalidated; [exact R6|].
      intros e. destruct (_ && _); [right; by destruct e|by left].
    + eapply cache_partly_invalidated; [exact W6|]. intros e. destruct (_ && _); [right; by destruct e|by left].
  - unfold tracked. simpl. intros Hm k e He Hv. apply list_lookup_fmap_Some in He as (x & -> & Hx). destruct (_ && _); [by destruct x|]. by eapply T.
  - destruct (base d) as [b|]; [|done]. simpl. by destruct (b_is_qcow2 b).
Qed.

(** ** Reading *)
Lemma handled_weaken n m d s : handled n d s → 0 ≤ m ≤ n → handled m d s.
Proof. intros [W T G S F Hh Ht Hb] Hm. split; try done; [lia|]. by destruct (base d); [lia|]. Qed.

(** A cached cluster is what the account has, which asks nobody. *)
Lemma answered_hit n d s ci k e r : handled n d s → 0 ≤ ci → cl_at d (layered q0 g0 s.1) ci k e →
  answered cs own prov r s ci = (data e, s).
Proof.
  intros Hd Hci [Ks Kv Kk Kd]. rewrite Kd, layered_under by done. destruct s as [B h]. cbn [fst] in *.
  assert (Hs : under own B ci = None → h = None).
  { intros Hu. destruct h as [rs|]; [|done]. destruct (hd_handler _ _ _ Hd) as (Hm & _).
    pose proof (hd_tracked _ _ _ Hd Hm k e Ks Kv) as Hv. rewrite Kk in Hv.
    destruct (hd_geo _ _ _ Hd) as (_ & _ & Gn & _). by apply visible_under in Hv. }
  destruct r; cbn [answered fst snd]; (destruct (under own B ci); [done|by rewrite Hs]).
Qed.

Lemma read_cluster_answered retries : ∀ n d s ci, handled (n + Z.of_nat (S retries)) d s → 0 ≤ n → ci_ok q0 ci →
  ∃ c d', read_cluster retries ci d = (Ok c, d')
    ∧ default (zeros cs) c = (answered cs own prov retries s ci).1
    ∧ handled n d' (answered cs own prov retries s ci).2.
Proof.
  induction retries as [|m IH]; intros n d s ci Hd Hn Hci; pose proof (proj1 (proj1 Hci)) as Hci0.
  all: match type of Hd with handled (?n0 + Z.of_nat (S ?r)) _ _ =>
         replace (n0 + Z.of_nat (S r)) with (n0 + Z.of_nat r + 1) in Hd by lia;
         destruct (handled_load (n0 + Z.of_nat r) d s ci Hd ltac:(lia) Hci) as (p & d1 & E1 & H1' & L) end.
  all: destruct (hd_geo _ _ _ Hd) as (_ & _ & Gn & _); destruct L as [k e A|Hm Hv _].
  1,3: rewrite (answered_hit _ _ _ _ _ _ _ H1' Hci0 A); exists (Some (data e)), d1; split;
       [cbn [read_cluster]; mstep E1; by rewrite (bind_ok _ _ _ _ _ (get_cl_ok _ _ _ (ka_slot _ _ _ _ _ A)))
       |split; [done|by eapply handled_weaken; [exact H1'|lia]]].
  all: rewrite visible_under in Hv by done; apply dec_stable in Hv.
  all: destruct s as [B h]; cbn [fst snd] in *; destruct h as [rs|]; [|by rewrite (hd_handler _ _ _ Hd) in Hm].
  all: cbn [read_cluster answered fst snd]; rewrite Hv; mstep E1.
  all: destruct rs as [|r rs];
    [destruct (handled_gone _ _ _ H1') as (d2 & E2 & H2'); mstep E2; exists None, d2; split; [done|]; split; [done|];
     by eapply handled_weaken; [exact H2'|lia]|].
  all: destruct (handled_answer _ _ _ _ _ H1') as (d2 & E2 & H2'); mstep E2.
  - exists None, d2. split; [by destruct (reply_action r)|]. destruct (reply_action r); (split; [done|]);
      by eapply handled_weaken; [exact H2'|lia].
  - destruct (reply_action r).
    + exists None, d2. split; [done|]. split; [done|]. by eapply handled_weaken; [exact H2'|lia].
    + destruct (handled_retry _ _ _ ci H2') as (d3 & E3 & H3'). mstep E3. by apply IH.
Qed.

Lemma read_at_zeros n off len : 0 ≤ off → 0 ≤ len → off + len ≤ n → read_at (zeros n) off len = zeros len.
Proof.
  intros Ho Hl Hle. unfold read_at, zeros. rewrite drop_replicate, take_replicate. f_equal. lia.
Qed.

Lemma read_chunks_answered fuel : ∀ n d s off rem, handled (n + 4 * rem) d s → 0 ≤ n → 0 ≤ off → 0 ≤ rem ≤ Z.of_nat fuel →
  off + rem ≤ capacity q0 →
  ∃ d', read_chunks fuel off rem d = (Ok (answered_range cs own prov fuel s off rem).1, d')
    ∧ handled n d' (answered_range cs own prov fuel s off rem).2.
Proof.
  induction fuel as [|fuel IH]; intros n d s off rem Hd Hn Ho Hr Hcap.
  { exists d. split; [done|]. eapply handled_weaken; [exact Hd|lia]. }
  cbn [read_chunks answered_range]. destruct (Z.leb_spec rem 0).
  { exists d. split; [done|]. eapply handled_weaken; [exact Hd|lia]. }
  assert (Hg : geom q0).
  { destruct (hd_geo _ _ _ Hd) as (G1 & G2 & G3 & G4 & G5 & G6 & G7).
    eapply (geom_same (qcow2 d)); [by split_and!|apply (wf_geom _ _ (hd_wf _ _ _ Hd))]. }
  pose proof (geom_cs _ Hg) as Hcs. destruct (hd_geo _ _ _ Hd) as (Gb & Gc & _).
  rewrite (bind_ok get _ _ _ _ eq_refl).
  replace (chunk_at (qcow2 d) off rem) with (chunk_at q0 off rem) by (unfold chunk_at; by rewrite Gb, Gc).
  destruct (chunk_at_spec q0 off rem Hg Ho) as [-> Hlen]; [lia|].
  pose proof (Z.mod_pos_bound off cs ltac:(lia)). set (len := Z.min rem (cs - off mod cs)) in *.
  assert (Hci : ci_ok q0 (off / cs)) by (apply capacity_ci; [done|lia]).
  destruct (read_cluster_answered 3 (n + 4 * (rem - len)) d s (off / cs)) as (c & d1 & E1 & Hc & H1');
    [eapply handled_weaken; [exact Hd|lia]|lia|done|].
  mstep E1. destruct (answered cs own prov 3 s (off / cs)) as [b s1]. cbn [fst snd] in *.
  destruct (IH n d1 s1 (off + len) (rem - len) H1') as (d2 & E2 & H2'); [lia..|].
  destruct (answered_range cs own prov fuel s1 (off + len) (rem - len)) as [rest s2]. cbn [fst snd] in *.
  mstep E2. exists d2. split; [|done]. unfold mret, M_ret. do 3 f_equal. rewrite <- Hc.
  destruct c as [x|]; [done|]. cbn [default]. symmetry. apply read_at_zeros; lia.
Qed.

Lemma read_segs_answered segs : ∀ n d s off, handled (n + 4 * zlen (concat segs)) d s → 0 ≤ n → 0 ≤ off →
  off + zlen (concat segs) ≤ capacity q0 →
  ∃ d', read_segs off segs d = (Ok (answered_segs cs own prov s off segs).1, d')
    ∧ handled n d' (answered_segs cs own prov s off segs).2.
Proof.
  induction segs as [|b segs IH]; intros n d s off Hd Hn Ho Hcap.
  { exists d. split; [done|]. eapply handled_weaken; [exact Hd|]. change (zlen (concat [])) with 0. lia. }
  cbn [read_segs concat answered_segs] in *. rewrite zlen_app in *.
  pose proof (zlen_nonneg b). pose proof (zlen_nonneg (concat segs)).
  destruct (read_chunks_answered (length b) (n + 4 * zlen (concat segs)) d s off (zlen b)) as (d1 & E1 & H1').
  { eapply handled_weaken; [exact Hd|lia]. } { lia. } { lia. } { unfold zlen. lia. } { lia. }
  mstep E1. destruct (answered_range cs own prov (length b) s off (zlen b)) as [x s1]. cbn [fst snd] in *.
  destruct (IH n d1 s1 (off + zlen b) H1') as (d2 & E2 & H2'); [lia..|].
  destruct (answered_segs cs own prov s1 (off + zlen b) segs) as [xs s2]. cbn [fst snd] in *.
  mstep E2. by exists d2.
Qed.
End Handler.
