(* ===== verification/Posix.v ===== *)
(** * The system calls and C library functions of the control tool

    The file system is a list of named files and every call consumes one
    outcome of a list of faults ([FOk] once the list is used up), so that short
    transfers and errors at any point are covered.  A file descriptor is the
    path it was opened with; the offset of [write] is passed explicitly. *)
From S2P Require Import Prelude Kernel.

Record ufs : Type := Ufs { u_files : list (bytes * bytes); u_faults : list io_fault }.
Abbreviation MU := (M ufs).

Definition u_next : MU io_fault := λ s,
  match u_faults s with
  | [] => (Ok FOk, s)
  | f :: fs => (Ok f, Ufs (u_files s) fs)
  end.

Fixpoint lookup_file (p : bytes) (l : list (bytes * bytes)) : option bytes :=
  match l with
  | [] => None
  | (p', c) :: l' => if decide (p = p') then Some c else lookup_file p l'
  end.

Definition set_file (p c : bytes) (s : ufs) : ufs :=
  Ufs ((p, c) :: filter (λ e, e.1 ≠ p) (u_files s)) (u_faults s).
Definition del_file (p : bytes) (s : ufs) : ufs :=
  Ufs (filter (λ e, e.1 ≠ p) (u_files s)) (u_faults s).

(** [open(path, O_RDONLY)]. *)
Definition u_open (p : bytes) : MU bool :=
  f ← u_next;
  s ← get;
  mret (match f, lookup_file p (u_files s) with FOk, Some _ => true | _, _ => false end).

(** [open(path, O_RDWR | O_CREAT | O_TRUNC)]. *)
Definition u_creat (p : bytes) : MU bool :=
  f ← u_next;
  match f with FOk => modify (set_file p []);; mret true | _ => mret false end.

(** [fstat]: the size, or [None] on error. *)
Definition u_fstat (p : bytes) : MU (option Z) :=
  f ← u_next;
  s ← get;
  mret (match f with FOk => zlen <$> lookup_file p (u_files s) | _ => None end).

(** [pread(fd, _, n, pos)]: the return value and the bytes; an offset that is
    negative as an [off_t] is [EINVAL], here and below. *)
Definition u_pread (p : bytes) (n pos : Z) : MU (Z * bytes) :=
  f ← u_next;
  s ← get;
  match f, lookup_file p (u_files s) with
  | FErr _, _ | _, None => mret (-1, [])
  | _, Some c => if s64 pos <? 0 then mret (-1, []) else
      let d := read_at c pos (match f with FShort m => Z.min m n | _ => n end) in mret (zlen d, d)
  end.

(** [pwrite(fd, d, len, pos)], and [write] at the current offset [pos]. *)
Definition u_pwrite (p : bytes) (d : bytes) (pos : Z) : MU Z :=
  f ← u_next;
  s ← get;
  match f, lookup_file p (u_files s) with
  | FErr _, _ | _, None => mret (-1)
  | _, Some c => if s64 pos <? 0 then mret (-1) else
      let d' := match f with FShort m => take (Z.to_nat m) d | _ => d end in
      modify (set_file p (write_at c pos d'));; mret (zlen d')
  end.

(** [ftruncate(fd, len)]: 0, or -1. *)
Definition u_ftruncate (p : bytes) (len : Z) : MU Z :=
  f ← u_next;
  s ← get;
  match f, lookup_file p (u_files s) with
  | FOk, Some c => if s64 len <? 0 then mret (-1) else
      modify (set_file p (take (Z.to_nat len) c ++ zeros (len - zlen c)));; mret 0
  | _, _ => mret (-1)
  end.

(** [malloc]/[calloc]: whether it succeeded. *)
Definition u_malloc : MU bool :=
  f ← u_next; mret (match f with FOk => true | _ => false end).

Definition u_rename (from to : bytes) : MU Z :=
  f ← u_next;
  s ← get;
  match f, lookup_file from (u_files s) with
  | FOk, Some c => modify (del_file from);; modify (set_file to c);; mret 0
  | _, _ => mret (-1)
  end.

Definition u_unlink (p : bytes) : MU unit :=
  f ← u_next;
  match f with FOk => modify (del_file p) | _ => mret tt end.

(** [strtoull(s, &end, 0)]: the value and the rest of the string. *)
Definition is_space (c : Z) : bool := (c =? 32) || ((9 <=? c) && (c <=? 13)).

Definition digit_val (c : Z) : option Z :=
  if (48 <=? c) && (c <=? 57) then Some (c - 48)
  else if (97 <=? c) && (c <=? 122) then Some (c - 87)
  else if (65 <=? c) && (c <=? 90) then Some (c - 55)
  else None.

Fixpoint skip_space (s : bytes) : bytes :=
  match s with b :: s' => if is_space (b2z b) then skip_space s' else s | [] => [] end.

(** Digits of [base] from the front of [s]: value and rest. *)
Fixpoint digits (base : Z) (s : bytes) (acc : Z) : Z * bytes :=
  match s with
  | b :: s' =>
      match digit_val (b2z b) with
      | Some d => if d <? base then digits base s' (acc * base + d) else (acc, s)
      | None => (acc, s)
      end
  | [] => (acc, [])
  end.

Definition starts_digit (base : Z) (s : bytes) : bool :=
  match s with
  | b :: _ => match digit_val (b2z b) with Some d => d <? base | None => false end
  | [] => false
  end.

(** An optional sign. *)
Definition sign (s : bytes) : bool * bytes :=
  match s with
  | b :: s' => if b2z b =? 45 then (true, s') else if b2z b =? 43 then (false, s') else (false, s)
  | [] => (false, [])
  end.

(** The base a [0x], [0] or other prefix selects, and the digits. *)
Definition detect_base (s : bytes) : Z * bytes :=
  match s with
  | z :: x :: s' =>
      if (b2z z =? 48) && ((b2z x =? 120) || (b2z x =? 88)) && starts_digit 16 s' then (16, s')
      else if b2z z =? 48 then (8, s) else (10, s)
  | [z] => if b2z z =? 48 then (8, s) else (10, s)
  | [] => (10, s)
  end.

Definition strtoull (s : bytes) : Z * bytes :=
  let '(neg, s1) := sign (skip_space s) in
  let '(base, s2) := detect_base s1 in
  if starts_digit base s2 then
    let '(v, rest) := digits base s2 0 in
    (if v >? U64_MAX then U64_MAX else if (neg : bool) then u64 (- v) else v, rest)
  else (0, s).

(** [atoi]: [strtol] in base 10, converted to [int]. *)
Definition atoi (s : bytes) : Z :=
  let '(neg, s1) := sign (skip_space s) in
  let '(v, _) := digits 10 s1 0 in
  s32 (if (neg : bool) then Z.max (- 2 ^ 63) (- v) else Z.min (2 ^ 63 - 1) v).

(** ** Calls that meet no fault *)
Lemma lookup_set_file p c s : lookup_file p (u_files (set_file p c s)) = Some c.
Proof. simpl. by rewrite decide_True. Qed.

Lemma lookup_set_file_ne p p' c s : p' ≠ p →
  lookup_file p' (u_files (set_file p c s)) = lookup_file p' (u_files s).
Proof.
  intros Hne. simpl. rewrite decide_False by done. induction (u_files s) as [|[q d] l IH]; [done|].
  rewrite filter_cons. simpl. case_decide as Hq; simpl; [case_decide; [done|exact IH]|].
  rewrite decide_False; [exact IH|]. intros ->. by apply Hne, dec_stable.
Qed.

(** [calm s c]: no fault is pending. *)
Definition calm (s : ufs) : Prop := u_faults s = [].

Lemma calm_set p c s : calm s → calm (set_file p c s).
Proof. done. Qed.

Section Calm.
Context (s : ufs) (Hs : calm s).

Lemma u_next_calm : u_next s = (Ok FOk, s).
Proof. unfold u_next. by rewrite Hs. Qed.

Lemma u_open_calm p c : lookup_file p (u_files s) = Some c → u_open p s = (Ok true, s).
Proof. intros Hf. unfold u_open. mstep u_next_calm. munfold. by rewrite Hf. Qed.

Lemma u_creat_calm p : u_creat p s = (Ok true, set_file p [] s).
Proof. unfold u_creat. by mstep u_next_calm. Qed.

Lemma u_fstat_calm p c : lookup_file p (u_files s) = Some c → u_fstat p s = (Ok (Some (zlen c)), s).
Proof. intros Hf. unfold u_fstat. mstep u_next_calm. munfold. by rewrite Hf. Qed.

Lemma u_pread_calm p c n pos : lookup_file p (u_files s) = Some c → 0 ≤ pos < 2 ^ 63 →
  u_pread p n pos s = (Ok (zlen (read_at c pos n), read_at c pos n), s).
Proof.
  intros Hf Hp. unfold u_pread. mstep u_next_calm. munfold. rewrite Hf, s64_small by lia.
  by rewrite (proj2 (Z.ltb_ge _ _)) by lia.
Qed.

Lemma u_pwrite_calm p c d pos : lookup_file p (u_files s) = Some c → 0 ≤ pos < 2 ^ 63 →
  u_pwrite p d pos s = (Ok (zlen d), set_file p (write_at c pos d) s).
Proof.
  intros Hf Hp. unfold u_pwrite. mstep u_next_calm. munfold. rewrite Hf, s64_small by lia.
  by rewrite (proj2 (Z.ltb_ge _ _)) by lia.
Qed.

Lemma u_ftruncate_calm p c n : lookup_file p (u_files s) = Some c → 0 ≤ n < 2 ^ 63 →
  u_ftruncate p n s = (Ok 0, set_file p (take (Z.to_nat n) c ++ zeros (n - zlen c)) s).
Proof.
  intros Hf Hp. unfold u_ftruncate. mstep u_next_calm. munfold. rewrite Hf, s64_small by lia.
  by rewrite (proj2 (Z.ltb_ge _ _)) by lia.
Qed.

Lemma u_malloc_calm : u_malloc s = (Ok true, s).
Proof. unfold u_malloc. by mstep u_next_calm. Qed.
End Calm.
