(* ===== verification/CtlText.v ===== *)
(** * Text the control tool prints: numbers, sizes, dates, JSON strings, hex dumps
      ([src/src/lbdctl.c])

    [printf] conversions, [gmtime_r] and [strftime] are the C library's; a
    [double] is the rational number it stands for, and every operation on it is
    rounded to 53 bits, ties to even. *)
From S2P Require Import Prelude.

(** ** Integers: [%llu] and [%u], [%x] of at least [w] digits, [%0nlu] *)
Definition llu (v : Z) : bytes := dec (u64 v).
Definition uint (v : Z) : bytes := dec (u32 v).
Definition hexw (w : nat) (v : Z) : bytes := hexn (w `max` S (Z.to_nat (Z.log2 v / 4))) v.
Fixpoint decn (n : nat) (v : Z) : bytes :=
  match n with
  | O => []
  | S n' => decn n' (v / 10) ++ [z2b (48 + v mod 10)]
  end.

(** ** Doubles *)

(** The integer nearest to [n / d], ties to even. *)
Definition rne (n d : Z) : Z :=
  let q := n / d in
  let r := n mod d in
  if 2 * r <? d then q else if d <? 2 * r then q + 1 else if Z.even q then q else q + 1.

(** [floor (log2 (n / d))] of positive [n] and [d]. *)
Definition floor_log2 (n d : Z) : Z :=
  let e := Z.log2 n - Z.log2 d in
  if (if 0 <=? e then d * 2 ^ e <=? n else d <=? n * 2 ^ (- e)) then e else e - 1.

(** A double as numerator and denominator.  The values here are 0 or between
    2^-60 and 2^80 in magnitude, far from the limits of the exponent. *)
Definition double : Type := Z * Z.
Definition rnd (x : double) : double :=
  let '(n, d) := x in
  if n =? 0 then (0, 1) else
  let e := floor_log2 (Z.abs n) d - 52 in
  if 0 <=? e then (rne n (d * 2 ^ e) * 2 ^ e, 1) else (rne (n * 2 ^ (- e)) d, 2 ^ (- e)).

Definition of_int (n : Z) : double := rnd (n, 1).
Definition fdiv (x y : double) : double := rnd (x.1 * y.2, x.2 * y.1).
Definition fsub (x y : double) : double := rnd (x.1 * y.2 - y.1 * x.2, x.2 * y.2).
Definition fmul (x y : double) : double := rnd (x.1 * y.1, x.2 * y.2).

(** The digits of any non-negative number. *)
Definition digits_of (v : Z) : bytes := dec_digits (S (Z.to_nat (Z.log2 v))) v [].

(** [%.1f] *)
Definition fmt_f1 (x : double) : bytes :=
  let t := Z.abs (rne (10 * x.1) x.2) in
  (if x.1 <? 0 then [x2d] else []) ++ digits_of (t / 10) ++ [x2e] ++ digits_of (t mod 10).

(** [(1.0 - (double)part / whole) * 100.0] *)
Definition percent_saved (part whole : Z) : double :=
  fmul (fsub (1, 1) (fdiv (of_int part) (of_int whole))) (100, 1).

(** [snprintf] into a buffer of [bufsz] bytes. *)
Definition fmt_size (bytes_ bufsz : Z) : bytes :=
  take (Z.to_nat (bufsz - 1))
    (if bytes_ >=? 2 ^ 30 then fmt_f1 (fdiv (of_int bytes_) (of_int (2 ^ 30))) ++ str " GiB"
     else if bytes_ >=? 2 ^ 20 then fmt_f1 (fdiv (of_int bytes_) (of_int (2 ^ 20))) ++ str " MiB"
     else if bytes_ >=? 2 ^ 10 then fmt_f1 (fdiv (of_int bytes_) (of_int (2 ^ 10))) ++ str " KiB"
     else llu bytes_ ++ str " B").

(** ** Dates *)
Definition leap (y : Z) : bool := (y mod 4 =? 0) && (negb (y mod 100 =? 0) || (y mod 400 =? 0)).
Definition year_days (y : Z) : Z := if leap y then 366 else 365.
Definition month_days (y : Z) : list Z :=
  [31; if leap y then 29 else 28; 31; 30; 31; 30; 31; 31; 30; 31; 30; 31].

(** The year and the day of it, [days] after the first of January of [y]; 600
    years from 1970 on are enough for 64 bits of nanoseconds. *)
Fixpoint find_year (fuel : nat) (y days : Z) : Z * Z :=
  match fuel with
  | O => (y, days)
  | S f => if days <? year_days y then (y, days) else find_year f (y + 1) (days - year_days y)
  end.
Fixpoint find_month (ms : list Z) (m day : Z) : Z * Z :=
  match ms with
  | n :: ms' => if day <? n then (m, day) else find_month ms' (m + 1) (day - n)
  | [] => (m, day)
  end.

(** [struct tm], with the year and the month as they are written. *)
Record tm : Type := Tm { tm_year : Z; tm_mon : Z; tm_mday : Z; tm_hour : Z; tm_min : Z; tm_sec : Z }.

Definition gmtime (secs : Z) : tm :=
  let '(y, yday) := find_year 600 1970 (secs / 86400) in
  let '(m, day) := find_month (month_days y) 1 yday in
  let s := secs mod 86400 in
  Tm y m (day + 1) (s / 3600) (s / 60 mod 60) (s mod 60).

(** [strftime] with [%Y-%m-%d], the separator and [%H:%M:%S]. *)
Definition strftime (separator : byte) (t : tm) : bytes :=
  dec (tm_year t) ++ str "-" ++ decn 2 (tm_mon t) ++ str "-" ++ decn 2 (tm_mday t) ++ [separator]
    ++ decn 2 (tm_hour t) ++ str ":" ++ decn 2 (tm_min t) ++ str ":" ++ decn 2 (tm_sec t).

(** Date, time and nanoseconds of a time stamp. *)
Definition timestamp_text (separator : byte) (timestamp_ns : Z) : bytes :=
  strftime separator (gmtime (timestamp_ns / 1000000000)) ++ str "." ++ decn 9 (timestamp_ns mod 1000000000).

(** ** JSON *)
Definition dquote : byte := x22.
Definition quoted (s : bytes) : bytes := [dquote] ++ s ++ [dquote].
Definition json_key (k : bytes) : bytes := quoted k ++ str ": ".

(** [\u%04x] *)
Definition json_u (c : byte) : bytes := str "\u" ++ hexn 4 (b2z c).

(** One character of a JSON string. *)
Definition json_char (c : byte) : bytes :=
  if decide (c = dquote) then [x5c; dquote]
  else if decide (c = x5c) then [x5c; x5c]
  else if decide (c = x08) then str "\b"
  else if decide (c = x0c) then str "\f"
  else if decide (c = x0a) then str "\n"
  else if decide (c = x0d) then str "\r"
  else if decide (c = x09) then str "\t"
  else if b2z c <? 32 then json_u c
  else [c].
Definition json_print_string (s : bytes) : bytes := quoted (concat (json_char <$> cstr s)).

(** ** Hex dumps *)

(** The columns of one line from column [i] on. *)
Fixpoint hex_columns (n : nat) (i : Z) (l : bytes) : bytes :=
  match n with
  | O => []
  | S n' =>
      (match l with b :: _ => hexn 2 (b2z b) ++ str " " | [] => str "   " end)
        ++ (if i =? 7 then str " " else []) ++ hex_columns n' (i + 1) (tail l)
  end.
Definition ascii_char (c : byte) : byte := if (0x20 <=? b2z c) && (b2z c <? 0x7f) then c else x2e.

Definition hex_line (indent : bytes) (off : Z) (l : bytes) : bytes :=
  indent ++ hexw 8 off ++ str "  " ++ hex_columns 16 0 l ++ str " |" ++ (ascii_char <$> l) ++ str "|" ++ newline.

(** [for (off = 0; off < len; off += 16)]; a line takes a byte at least. *)
Fixpoint hex_lines (fuel : nat) (indent : bytes) (off : Z) (data : bytes) : bytes :=
  match fuel, data with
  | S f, _ :: _ => hex_line indent off (take 16 data) ++ hex_lines f indent (off + 16) (drop 16 data)
  | _, _ => []
  end.
Definition hex_dump (data indent : bytes) : bytes := hex_lines (length data) indent 0 data.
