(* ===== verification/CtlImage.v ===== *)
(** * The image commands of the control tool: create, convert, extract, compact
      ([src/src/lbdctl.c])

    A command is a program over the file system of [Posix]; [return 1] is
    [Err 1].  A read that would overrun the heap buffer it was given, a shift by
    the width of the type or more and a division by zero are [Panic].  The result
    of a command that succeeds is what it prints. *)
From S2P Require Import Prelude Kernel Format Crc Posix Qcow2State Qcow2Cache Qcow2Io CtlText.

(** [return 1] unless the condition holds. *)
Definition ensure (b : bool) : MU unit := if b then mret tt else throw 1.
Definition malloc_or_fail : MU unit := ok ← u_malloc; ensure ok.

(** ** Sizes *)
Definition is_all_zero (buf : bytes) : bool := forallb (λ b, b2z b =? 0) buf.

Definition parse_size (s : bytes) : Z :=
  let '(val, rest) := strtoull s in
  match rest with
  | b :: _ =>
      let c := b2z b in
      if (c =? 107) || (c =? 75) then u64 (val * 1024)
      else if (c =? 109) || (c =? 77) then u64 (val * (1024 * 1024))
      else if (c =? 103) || (c =? 71) then u64 (val * (1024 * 1024 * 1024))
      else if (c =? 116) || (c =? 84) then u64 (val * (1024 * 1024 * 1024 * 1024))
      else val
  | [] => val
  end.

(** One L1 entry per L2 table needed, computed in 64 bits and stored in 32. *)
Definition l1_size_for (virtual_size l2_entries cluster_size : Z) : Z :=
  let s := u32 (u64 (virtual_size + l2_entries * cluster_size - 1) / (l2_entries * cluster_size)) in
  if s =? 0 then 1 else s.

(** [(x + cluster_size - 1) & ~((uint64_t)cluster_size - 1)]. *)
Definition align_cluster (x cluster_size : Z) : Z :=
  Z.land (u64 (x + cluster_size - 1)) (u64 (Z.lnot (cluster_size - 1))).

(** The header the four commands write. *)
Definition image_header (bits vsize l1_table_offset l1_size alloc : Z) : bytes :=
  let hdr := zeros LBD_QCOW2_HEADER_SIZE in
  let hdr := lbd_qcow2_hdr_set_magic hdr LBD_QCOW2_MAGIC in
  let hdr := lbd_qcow2_hdr_set_version hdr LBD_QCOW2_VERSION in
  let hdr := lbd_qcow2_hdr_set_cluster_bits hdr bits in
  let hdr := lbd_qcow2_hdr_set_virtual_size hdr vsize in
  let hdr := lbd_qcow2_hdr_set_l1_table_offset hdr l1_table_offset in
  let hdr := lbd_qcow2_hdr_set_l1_size hdr l1_size in
  let hdr := lbd_qcow2_hdr_set_alloc_offset hdr alloc in
  let hdr := lbd_qcow2_hdr_set_comp_type hdr LBD_QCOW2_COMP_LZ4 in
  lbd_qcow2_hdr_set_free_list hdr 0.

(** ** create *)

(** The option loop: path, size and cluster bits. *)
Fixpoint create_args (argv : list bytes) (path : option bytes) (vsize bits : Z) : MU (option bytes * Z * Z) :=
  match argv with
  | [] => mret (path, vsize, bits)
  | a :: argv' =>
      if decide (a = str "--size") then
        match argv' with [] => throw 1 | v :: rest => create_args rest path (parse_size v) bits end
      else if decide (a = str "--cluster-bits") then
        match argv' with [] => throw 1 | v :: rest => create_args rest path vsize (u32 (atoi v)) end
      else match path with None => create_args argv' (Some a) vsize bits | Some _ => throw 1 end
  end.

(** Write the header, the zeroed L1 table and extend the file. *)
Definition create_file (path : bytes) (vsize bits : Z) : MU unit :=
  let cs := Z.shiftl 1 bits in
  let l2n := (cs - LBD_QCOW2_L2_TRAILER_SIZE) / 8 in
  let l1_size := l1_size_for vsize l2n cs in
  let l1_table_offset := LBD_QCOW2_HEADER_SIZE in
  let alloc := align_cluster (l1_table_offset + l1_size * 8) cs in
  ok ← u_creat path;
  ensure ok;;
  n ← u_pwrite path (image_header bits vsize l1_table_offset l1_size alloc) 0;
  ensure (n =? LBD_QCOW2_HEADER_SIZE);;
  malloc_or_fail;;
  n ← u_pwrite path (zeros (l1_size * 8)) LBD_QCOW2_HEADER_SIZE;
  ensure (n =? l1_size * 8);;
  r ← u_ftruncate path alloc;
  ensure (0 <=? r).

Definition create_text (path : bytes) (vsize bits : Z) : bytes :=
  let cs := Z.shiftl 1 bits in
  let l2n := (cs - LBD_QCOW2_L2_TRAILER_SIZE) / 8 in
  let l1_size := l1_size_for vsize l2n cs in
  str "Created qcow2-lz4 image: " ++ cstr path ++ newline
    ++ str "  Virtual size:  " ++ llu vsize ++ str " bytes (" ++ fmt_size vsize 32 ++ str ")" ++ newline
    ++ str "  Cluster size:  " ++ uint cs ++ str " bytes (bits=" ++ uint bits ++ str ")" ++ newline
    ++ str "  L1 entries:    " ++ uint l1_size ++ newline
    ++ str "  L2 entries:    " ++ uint l2n ++ str " per table" ++ newline
    ++ str "  Alloc offset:  " ++ llu (align_cluster (LBD_QCOW2_HEADER_SIZE + l1_size * 8) cs) ++ newline.

Definition cmd_create (argv : list bytes) : MU bytes :=
  '(path, vsize, bits) ← create_args argv None 0 16;
  match path with
  | None => throw 1
  | Some path =>
      if vsize =? 0 then throw 1 else
      if (bits <? 12) || (bits >? 24) then throw 1 else
      create_file path vsize bits;; mret (create_text path vsize bits)
  end.

Section Image.
Context `{LZ4Ops}.

(** ** Parts shared by convert and compact *)

(** The on-disk form of an L2 table with its CRC32C trailer. *)
Definition ctl_l2_disk (cs : Z) (t : list Z) : bytes :=
  let raw := flat_map be64 t ++ zeros (cs - 8 * zlen t) in
  write_at raw (cs - 4) (be32 (crc32c_calc (read_at raw 0 (cs - 4)))).

(** The tables under construction and the end of the data written so far. *)
Record pack : Type := Pack { p_l1 : list Z; p_l2 : list (list Z); p_alloc : Z }.

(** Compress a cluster and append it to the output, allocating its L2 table
    before it if it has none. *)
Definition pack_cluster (out : bytes) (cs l1_idx l2_idx : Z) (buf : bytes) (p : pack) : MU pack :=
  cur ← arr_get (p_l1 p) l1_idx;
  let p := if cur =? 0
           then Pack (<[Z.to_nat l1_idx := p_alloc p]> (p_l1 p)) (p_l2 p) (u64 (p_alloc p + cs)) else p in
  t ← arr_get (p_l2 p) l1_idx;
  let comp := LZ4_compress buf (LZ4_compressBound cs) in
  let comp_len := zlen comp in
  let phys := p_alloc p in
  let set v := <[Z.to_nat l1_idx := <[Z.to_nat l2_idx := v]> t]> (p_l2 p) in
  if (comp_len >? 0) && (u32 comp_len <? cs - 4) then
    let total_on_disk := Z.land (u32 (4 + comp_len + 4095)) (u32 (Z.lnot 4095)) in
    n ← u_pwrite out (be32 comp_len) phys;
    ensure (n =? 4);;
    n ← u_pwrite out comp (u64 (phys + 4));
    ensure (n =? comp_len);;
    mret (Pack (p_l1 p) (set (Z.lor LBD_QCOW2_L2_COMPRESSED phys)) (u64 (phys + total_on_disk)))
  else
    n ← u_pwrite out buf phys;
    ensure (n =? cs);;
    mret (Pack (p_l1 p) (set phys) (u64 (phys + cs))).

(** Write the L2 tables that have a position. *)
Fixpoint write_l2_tables (out : bytes) (cs : Z) (l1 : list Z) (l2 : list (list Z)) : MU unit :=
  match l1, l2 with
  | a :: l1', t :: l2' =>
      (if a =? 0 then mret tt else
       malloc_or_fail;;
       n ← u_pwrite out (ctl_l2_disk cs t) a;
       ensure (n =? cs));;
      write_l2_tables out cs l1' l2'
  | _, _ => mret tt
  end.

(** Write the header and the L1 table, cut the file. *)
Definition finish_image (out : bytes) (bits vsize l1_table_offset l1_size : Z) (p : pack) : MU unit :=
  n ← u_pwrite out (image_header bits vsize l1_table_offset l1_size (p_alloc p)) 0;
  ensure (n =? LBD_QCOW2_HEADER_SIZE);;
  malloc_or_fail;;
  n ← u_pwrite out (flat_map be64 (p_l1 p)) l1_table_offset;
  ensure (n =? l1_size * 8);;
  u_ftruncate out (p_alloc p);; mret tt.

Fixpoint malloc_tables (n : nat) : MU unit :=
  match n with O => mret tt | S n' => malloc_or_fail;; malloc_tables n' end.

(** ** convert *)

(** The tables, and the clusters written and left out so far. *)
Record conv : Type := Conv { cv_pack : pack; cv_written : Z; cv_zero : Z }.

(** One iteration of the conversion loop. *)
Definition convert_cluster (inp out : bytes) (vsize cs l2n ci : Z) (c : conv) : MU conv :=
  let l1_idx := u32 (ci / l2n) in
  let l2_idx := u32 (ci mod l2n) in
  let to_read := if u64 ((ci + 1) * cs) >? vsize then u64 (vsize - u64 (ci * cs)) else cs in
  '(rd, d) ← u_pread inp to_read (u64 (ci * cs));
  ensure (0 <=? rd);;
  let cluster_buf := write_at (zeros cs) 0 d in
  if is_all_zero cluster_buf then mret (Conv (cv_pack c) (cv_written c) (u64 (cv_zero c + 1))) else
  p ← pack_cluster out cs l1_idx l2_idx cluster_buf (cv_pack c);
  mret (Conv p (u64 (cv_written c + 1)) (cv_zero c)).

Fixpoint convert_loop (inp out : bytes) (vsize cs l2n : Z) (n : nat) (ci : Z) (c : conv) : MU conv :=
  match n with
  | O => mret c
  | S n' => c' ← convert_cluster inp out vsize cs l2n ci c; convert_loop inp out vsize cs l2n n' (ci + 1) c'
  end.

(** The statistics; [st] is the size [stat] gives for the new image. *)
Definition convert_text (flat_path qcow2_path : bytes) (vsize total written zero : Z) (st : option Z) : bytes :=
  str "Converted " ++ cstr flat_path ++ str " -> " ++ cstr qcow2_path ++ newline
    ++ str "  Virtual size:     " ++ llu vsize ++ str " bytes" ++ newline
    ++ str "  Total clusters:   " ++ llu total ++ newline
    ++ str "  Written:          " ++ llu written ++ str " (data)" ++ newline
    ++ str "  Zero (sparse):    " ++ llu zero ++ newline
    ++ match st with
       | None => []
       | Some n =>
           str "  File size:        " ++ llu n ++ str " bytes (" ++ fmt_size n 32 ++ str ")" ++ newline
             ++ (if vsize >? 0 then str "  Compression:      " ++ fmt_f1 (percent_saved n vsize) ++ str "%" ++ newline else [])
       end.

Definition cmd_convert (flat_path qcow2_path : bytes) : MU bytes :=
  let bits := 16 in
  let cs := Z.shiftl 1 bits in
  let l2n := (cs - LBD_QCOW2_L2_TRAILER_SIZE) / 8 in
  ok ← u_open flat_path; ensure ok;;
  st ← u_fstat flat_path;
  match st with
  | None => throw 1
  | Some vsize =>
      if vsize =? 0 then throw 1 else
      let total_clusters := u64 (vsize + cs - 1) / cs in
      let l1_size := l1_size_for vsize l2n cs in
      let alloc := align_cluster (LBD_QCOW2_HEADER_SIZE + l1_size * 8) cs in
      malloc_tables 4;;
      malloc_tables (Z.to_nat l1_size);;
      ok ← u_creat qcow2_path; ensure ok;;
      r ← u_ftruncate qcow2_path alloc; ensure (0 <=? r);;
      c ← convert_loop flat_path qcow2_path vsize cs l2n (Z.to_nat total_clusters) 0
            (Conv (Pack (replicate (Z.to_nat l1_size) 0)
               (replicate (Z.to_nat l1_size) (replicate (Z.to_nat l2n) 0)) alloc) 0 0);
      write_l2_tables qcow2_path cs (p_l1 (cv_pack c)) (p_l2 (cv_pack c));;
      finish_image qcow2_path bits vsize LBD_QCOW2_HEADER_SIZE l1_size (cv_pack c);;
      st ← u_fstat qcow2_path;
      mret (convert_text flat_path qcow2_path vsize total_clusters (cv_written c) (cv_zero c) st)
  end.

(** ** Reading an image: extract and compact *)
Record ctl_image : Type := CtlImg {
  ci_bits : Z; ci_cs : Z; ci_l2n : Z; ci_vsize : Z; ci_l1off : Z; ci_l1_size : Z;
  ci_l1 : list Z
}.

(** Open the file, read the header, compute the geometry. *)
Definition ctl_open (path : bytes) : MU ctl_image :=
  ok ← u_open path; ensure ok;;
  '(n, hdr) ← u_pread path LBD_QCOW2_HEADER_SIZE 0;
  ensure (n =? LBD_QCOW2_HEADER_SIZE);;
  ensure (lbd_qcow2_hdr_magic hdr =? LBD_QCOW2_MAGIC);;
  let bits := lbd_qcow2_hdr_cluster_bits hdr in
  if bits >=? 32 then panic else
  let cs := u32 (Z.shiftl 1 bits) in
  mret (CtlImg bits cs (u32 (cs - LBD_QCOW2_L2_TRAILER_SIZE) / 8) (lbd_qcow2_hdr_virtual_size hdr)
          (lbd_qcow2_hdr_l1_table_offset hdr) (lbd_qcow2_hdr_l1_size hdr) []).

(** Read the L1 table. *)
Definition ctl_read_l1 (path : bytes) (im : ctl_image) : MU ctl_image :=
  malloc_or_fail;;
  '(n, d) ← u_pread path (ci_l1_size im * 8) (ci_l1off im);
  ensure (n =? ci_l1_size im * 8);;
  mret (CtlImg (ci_bits im) (ci_cs im) (ci_l2n im) (ci_vsize im) (ci_l1off im) (ci_l1_size im)
          (be64_array (ci_l1_size im) d)).

(** Read and verify the L2 tables; with a cluster smaller than the trailer the
    loop over the entries leaves the buffer. *)
Fixpoint ctl_read_l2 (path : bytes) (cs l2n : Z) (l1 : list Z) : MU (list (list Z)) :=
  match l1 with
  | [] => mret []
  | a :: l1' =>
      malloc_or_fail;;
      t ← (if a =? 0 then mret (replicate (Z.to_nat l2n) 0) else
           malloc_or_fail;;
           '(n, d) ← u_pread path cs a;
           ensure (n =? cs);;
           if cs <? 4 then panic else
           ensure (_qcow2_get32 d (cs - 4) =? crc32c_calc (read_at d 0 (cs - 4)));;
           if cs <? 8 * l2n then panic else
           mret (be64_array l2n d));
      rest ← ctl_read_l2 path cs l2n l1';
      mret (t :: rest)
  end.

(** Read the cluster an entry points to; reading more than [comp_cap] bytes
    overruns [comp_buf]. *)
Definition ctl_read_cluster (path : bytes) (cs l2_entry : Z) : MU bytes :=
  let phys := Z.land l2_entry LBD_QCOW2_L2_OFFSET_MASK in
  if negb (Z.land l2_entry LBD_QCOW2_L2_COMPRESSED =? 0) then
    '(n, sz) ← u_pread path 4 phys;
    ensure (n =? 4);;
    let comp_size := _qcow2_get32 sz 0 in
    '(n, d) ← u_pread path comp_size (phys + 4);
    if zlen d >? LZ4_compressBound cs then panic else
    ensure (n =? comp_size);;
    match LZ4_decompress_safe d cs with
    | Some b => ensure (zlen b =? cs);; mret b
    | None => throw 1
    end
  else
    '(n, d) ← u_pread path cs phys;
    ensure (n =? cs);;
    mret d.

(** The L2 entry of cluster [ci], 0 where there is no L2 table. *)
Definition ctl_entry (im : ctl_image) (l2 : list (list Z)) (ci : Z) : MU Z :=
  if ci_l2n im =? 0 then panic else
  let l1_idx := u32 (ci / ci_l2n im) in
  let l2_idx := u32 (ci mod ci_l2n im) in
  if l1_idx >=? ci_l1_size im then mret 0 else
  a ← arr_get (ci_l1 im) l1_idx;
  if a =? 0 then mret 0 else
  t ← arr_get l2 l1_idx; arr_get t l2_idx.

(** ** extract *)
Definition extract_cluster (inp out : bytes) (im : ctl_image) (l2 : list (list Z)) (ci : Z) : MU unit :=
  l2_entry ← ctl_entry im l2 ci;
  if l2_entry =? 0 then mret tt else
  let cs := ci_cs im in
  let write_len := if u64 ((ci + 1) * cs) >? ci_vsize im then u64 (ci_vsize im - u64 (ci * cs)) else cs in
  b ← ctl_read_cluster inp cs l2_entry;
  n ← u_pwrite out (read_at b 0 write_len) (u64 (ci * cs));
  ensure (n =? write_len).

Fixpoint extract_loop (inp out : bytes) (im : ctl_image) (l2 : list (list Z)) (n : nat) (ci : Z) : MU unit :=
  match n with
  | O => mret tt
  | S n' => extract_cluster inp out im l2 ci;; extract_loop inp out im l2 n' (ci + 1)
  end.

Definition total_clusters (im : ctl_image) : MU Z :=
  if ci_cs im =? 0 then panic else mret (u64 (ci_vsize im + ci_cs im - 1) / ci_cs im).

Definition extract_text (qcow2_path flat_path : bytes) (vsize : Z) : bytes :=
  str "Extracted " ++ cstr qcow2_path ++ str " -> " ++ cstr flat_path ++ str " (" ++ llu vsize ++ str " bytes)" ++ newline.

Definition cmd_extract (qcow2_path flat_path : bytes) : MU bytes :=
  im ← ctl_open qcow2_path;
  malloc_tables 3;;
  im ← ctl_read_l1 qcow2_path im;
  ok ← u_creat flat_path; ensure ok;;
  r ← u_ftruncate flat_path (ci_vsize im); ensure (0 <=? r);;
  malloc_or_fail;;
  l2 ← ctl_read_l2 qcow2_path (ci_cs im) (ci_l2n im) (ci_l1 im);
  total ← total_clusters im;
  extract_loop qcow2_path flat_path im l2 (Z.to_nat total) 0;;
  mret (extract_text qcow2_path flat_path (ci_vsize im)).

(** ** compact *)
Definition compact_cluster (inp out : bytes) (im : ctl_image) (l2 : list (list Z)) (ci : Z) (p : pack) : MU pack :=
  l2_entry ← ctl_entry im l2 ci;
  if l2_entry =? 0 then mret p else
  b ← ctl_read_cluster inp (ci_cs im) l2_entry;
  if is_all_zero b then mret p else
  pack_cluster out (ci_cs im) (u32 (ci / ci_l2n im)) (u32 (ci mod ci_l2n im)) b p.

Fixpoint compact_loop (inp out : bytes) (im : ctl_image) (l2 : list (list Z)) (n : nat) (ci : Z) (p : pack) : MU pack :=
  match n with
  | O => mret p
  | S n' => p' ← compact_cluster inp out im l2 ci p; compact_loop inp out im l2 n' (ci + 1) p'
  end.

(** The part after the tables are allocated; a failure removes the temporary file. *)
Definition compact_body (path tmp : bytes) (im : ctl_image) (l2 : list (list Z)) (p : pack) : MU unit :=
  total ← total_clusters im;
  p ← compact_loop path tmp im l2 (Z.to_nat total) 0 p;
  write_l2_tables tmp (ci_cs im) (p_l1 p) (p_l2 p);;
  finish_image tmp (ci_bits im) (ci_vsize im) (ci_l1off im) (ci_l1_size im) p.

(** [snprintf(tmp_path, PATH_MAX, "%s.compact.tmp", path)]. *)
Definition compact_tmp (path : bytes) : bytes := take 4095 (path ++ str ".compact.tmp").

Definition compact_text (path : bytes) (st : option Z) : bytes :=
  str "Compacted " ++ cstr path ++ newline
    ++ match st with
       | None => []
       | Some n => str "  File size: " ++ llu n ++ str " bytes (" ++ fmt_size n 32 ++ str ")" ++ newline
       end.

Definition cmd_compact (argv : list bytes) : MU bytes :=
  match argv with
  | [path] =>
      im ← ctl_open path;
      malloc_tables 4;;
      im ← ctl_read_l1 path im;
      l2 ← ctl_read_l2 path (ci_cs im) (ci_l2n im) (ci_l1 im);
      let tmp := compact_tmp path in
      ok ← u_creat tmp; ensure ok;;
      let alloc := align_cluster (u64 (ci_l1off im + ci_l1_size im * 8)) (ci_cs im) in
      r ← u_ftruncate tmp alloc; ensure (0 <=? r);;
      malloc_tables 2;;
      malloc_tables (Z.to_nat (ci_l1_size im));;
      e ← try (compact_body path tmp im l2
                 (Pack (replicate (Z.to_nat (ci_l1_size im)) 0)
                    (replicate (Z.to_nat (ci_l1_size im)) (replicate (Z.to_nat (ci_l2n im)) 0)) alloc));
      match e with
      | Ok _ => r ← u_rename tmp path; ensure (0 <=? r);;
                st ← u_fstat path; mret (compact_text path st)
      | _ => u_unlink tmp;; throw 1
      end
  | _ => throw 1
  end.

End Image.
