(* ===== verification/CtlCreateProof.v ===== *)
(** * [lbdctl create] writes an image the driver opens as an all-zero disk *)
From S2P Require Import Prelude Kernel Format Crc Posix Qcow2State Qcow2Alloc Qcow2Cache Qcow2Io.
From S2P Require Import Qcow2Inv Qcow2AllocProof Qcow2Wf Qcow2CacheProof Qcow2WriteProof Qcow2IoProof.
From S2P Require Import Flat Qcow2Refine Qcow2InitProof CtlImage.

(** ** Alignment to a cluster *)
Lemma land_lnot_align y b : 0 ≤ y < 2 ^ 64 → 0 ≤ b ≤ 63 →
  Z.land y (u64 (Z.lnot (2 ^ b - 1))) = 2 ^ b * (y / 2 ^ b).
Proof.
  intros Hy Hb. assert (E : u64 (Z.lnot (2 ^ b - 1)) = Z.land (Z.lnot (2 ^ b - 1)) (Z.ones 64)).
  { unfold u64. rewrite Z.land_ones by lia. done. }
  rewrite E, Z.land_assoc, (Z.land_comm _ (Z.ones 64)), Z.land_assoc.
  rewrite (Z.land_comm (Z.ones 64)), Z.land_ones, Z.mod_small by lia.
  replace (2 ^ b - 1) with (Z.ones b) by (rewrite Z.ones_equiv; lia).
  rewrite <- Z.ldiff_land, Z.ldiff_ones_r by lia.
  rewrite Z.shiftl_mul_pow2, Z.shiftr_div_pow2 by lia. lia.
Qed.

Lemma align_cluster_spec x b : 12 ≤ b ≤ 24 → 0 ≤ x < 2 ^ 62 →
  x ≤ align_cluster x (2 ^ b) < x + 2 ^ b ∧ ∃ k, align_cluster x (2 ^ b) = 2 ^ b * k.
Proof.
  intros Hb Hx. assert (2 ^ b ≤ 2 ^ 24) by (apply Z.pow_le_mono_r; lia).
  assert (0 < 2 ^ b) by (apply Z.pow_pos_nonneg; lia).
  unfold align_cluster. rewrite u64_small by lia. rewrite land_lnot_align by lia.
  pose proof (Z.div_mod (x + 2 ^ b - 1) (2 ^ b) ltac:(lia)).
  pose proof (Z.mod_pos_bound (x + 2 ^ b - 1) (2 ^ b) ltac:(lia)). split; [lia|by eexists].
Qed.

(** ** The header *)
Section Header.
Context (bits vsize l1off l1size alloc : Z).
Local Abbreviation hdr := (image_header bits vsize l1off l1size alloc).

Lemma zlen_header : zlen hdr = 4096.
Proof.
  unfold image_header. cbv zeta.
  repeat (rewrite zlen_write_at by (unfold LBD_QCOW2_OFF_FREE_LIST, LBD_QCOW2_OFF_COMP_TYPE,
    LBD_QCOW2_OFF_ALLOC_OFFSET, LBD_QCOW2_OFF_L1_SIZE, LBD_QCOW2_OFF_L1_TABLE_OFFSET, LBD_QCOW2_OFF_VIRTUAL_SIZE,
    LBD_QCOW2_OFF_CLUSTER_BITS, LBD_QCOW2_OFF_VERSION, LBD_QCOW2_OFF_MAGIC; lia); rewrite decide_False by done).
  done.
Qed.

Lemma header_bytes :
  bytes_at hdr 0 (be64 LBD_QCOW2_MAGIC) ∧ bytes_at hdr 8 (be32 LBD_QCOW2_VERSION)
  ∧ bytes_at hdr 12 (be32 bits) ∧ bytes_at hdr 16 (be64 vsize) ∧ bytes_at hdr 24 (be64 l1off)
  ∧ bytes_at hdr 32 (be32 l1size) ∧ bytes_at hdr 36 (be64 alloc) ∧ bytes_at hdr 44 (be32 LBD_QCOW2_COMP_LZ4)
  ∧ bytes_at hdr 48 (be64 0).
Proof.
  assert (Hs : ∀ f p d, 0 ≤ p → bytes_at (write_at f p d) p d) by (intros; by apply bytes_at_write_same).
  assert (Hn : ∀ f p d q e, 0 ≤ p → 0 ≤ q → bytes_at f p d → p + zlen d ≤ q → bytes_at (write_at f q e) p d)
    by (intros; apply bytes_at_write_disj; auto).
  unfold image_header. cbv zeta. split_and!;
    repeat first [apply Hs; done | apply Hn; [done|done| |done]].
Qed.

End Header.

Section Create.
Context (vsize bits : Z).
Local Abbreviation cs := (2 ^ bits).
Local Abbreviation l2n := (l2_entries_of cs).
Local Abbreviation l1 := (l1_size_for vsize l2n cs).
Local Abbreviation alloc := (align_cluster (4096 + l1 * 8) cs).

(** The file [create] leaves. *)
Definition created : bytes :=
  image_header bits vsize 4096 l1 alloc ++ zeros (l1 * 8) ++ zeros (alloc - (4096 + l1 * 8)).

(** The state [lbd_qcow2_init] builds from it. *)
Definition created_q : lbd_qcow2 :=
  Qcow2 bits cs l2n vsize (replicate (Z.to_nat l1) 0) l1 4096 alloc 0 [] [] 0.

Definition created_own : Z → tag := λ o,
  if decide (0 ≤ o < 36) then TMeta else if decide (36 ≤ o < 44) then TAlloc
  else if decide (44 ≤ o < 48) then TMeta else if decide (48 ≤ o < 56) then THead
  else if decide (56 ≤ o < 4096) then TMeta
  else if decide (4096 ≤ o < 4096 + 8 * l1) then TL1
  else if decide (0 ≤ o < alloc) then TMeta else TNone.

(** An empty image: no table, no extent, every cluster zero. *)
Definition created_ghost : ghost :=
  Ghost created_own [] (λ _, replicate (Z.to_nat l2n) 0) (λ _, zeros cs) (λ _, None).

Lemma l1_size_for_spec : 12 ≤ bits ≤ 24 → 0 < vsize → vsize ≤ (2 ^ 32 - 1) * (l2n * cs) → vsize < 2 ^ 63 →
  0 < l1 < 2 ^ 32 ∧ vsize ≤ l1 * l2n * cs ∧ (l1 - 1) * l2n * cs < vsize.
Proof.
  intros Hb Hv Hmax Hv2. unfold l1_size_for.
  assert (2 ^ 12 ≤ cs ≤ 2 ^ 24) by (split; apply Z.pow_le_mono_r; lia).
  assert (0 < l2n < 2 ^ 22).
  { unfold l2_entries_of, LBD_QCOW2_L2_TRAILER_SIZE. split; [apply Z.div_str_pos; lia|apply Z.div_lt_upper_bound; lia]. }
  set (m := l2n * cs) in *. assert (0 < m < 2 ^ 46) by (unfold m; nia).
  rewrite (u64_small (vsize + m - 1)) by lia.
  pose proof (Z.div_mod (vsize + m - 1) m ltac:(lia)). pose proof (Z.mod_pos_bound (vsize + m - 1) m ltac:(lia)).
  set (q := (vsize + m - 1) / m) in *.
  assert (0 < q < 2 ^ 32) by nia. rewrite u32_small by lia.
  rewrite (proj2 (Z.eqb_neq _ _)) by lia. split; [lia|]. rewrite <- !Z.mul_assoc. fold m. lia.
Qed.

Context (Hb : 12 ≤ bits ≤ 24) (Hv : 0 < vsize < 2 ^ 63) (Hmax : vsize ≤ (2 ^ 32 - 1) * (l2n * cs)).

Lemma cs_bounds : 4096 ≤ cs ≤ 2 ^ 24.
Proof. change 4096 with (2 ^ 12). split; apply Z.pow_le_mono_r; lia. Qed.

Lemma alloc_bounds : 4096 + l1 * 8 ≤ alloc < 2 ^ 36.
Proof.
  destruct (l1_size_for_spec Hb) as (Hl & _); [lia|lia|lia|]. pose proof cs_bounds.
  destruct (align_cluster_spec (4096 + l1 * 8) bits Hb) as [Ha _]; lia.
Qed.

Lemma created_geom : geom created_q.
Proof.
  destruct (l1_size_for_spec Hb) as (Hl & _); [lia|lia|lia|].
  split; simpl; try done; [|lia]. unfold zlen. rewrite length_replicate. lia.
Qed.

Lemma created_header p b : 0 ≤ p → bytes_at (image_header bits vsize 4096 l1 alloc) p b → bytes_at created p b.
Proof.
  intros Hp Hx i Hi. unfold created. rewrite lookup_app_l; [by apply Hx|]. by eapply bytes_at_bound.
Qed.

Lemma created_zeros p n : 4096 ≤ p → 0 ≤ n → p + n ≤ alloc → bytes_at created p (zeros n).
Proof.
  intros Hp Hn Hle i Hi. rewrite length_zeros in Hi. unfold created, zeros.
  pose proof (zlen_header bits vsize 4096 l1 alloc) as Hh. unfold zlen in Hh.
  rewrite lookup_app_r by lia. rewrite <- replicate_add. pose proof alloc_bounds.
  destruct (l1_size_for_spec Hb) as (Hl & _); [lia|lia|lia|].
  rewrite !lookup_replicate_2 by lia. done.
Qed.

Lemma created_image `{LZ4Laws} `{CrcLaws} : image created created_q created_ghost.
Proof.
  destruct (l1_size_for_spec Hb) as (Hl & Hcap & _); [lia|lia|lia|]. pose proof alloc_bounds as Ha.
  pose proof cs_bounds as Hcs. pose proof created_geom as Hg. pose proof (l2n_bounds _ Hg) as Hn. simpl in Hn.
  destruct (header_bytes bits vsize 4096 l1 alloc) as (F1 & F2 & F3 & F4 & F5 & F6 & F7 & F8 & F9).
  assert (Hl1 : ∀ i, l1_at created_q i = 0).
  { intros i. unfold l1_at. simpl. destruct (_ !! _) as [x|] eqn:E; [|done].
    by apply lookup_replicate_1 in E as [-> _]. }
  assert (Hown : ∀ p n t, (∀ o, p ≤ o < p + n → created_own o = t) → owns created_own p n t) by done.
  assert (Hent : ∀ ci, ent l2n (g_tbl created_ghost) ci = 0).
  { intros ci. unfold ent. simpl. destruct (_ !! _) as [x|] eqn:E; [|done].
    by apply lookup_replicate_1 in E as [-> _]. }
  split; [done| |by apply created_header|simpl; lia|simpl; lia].
  split; cbn [created_q created_ghost g_own g_fl g_tbl g_view g_bv alloc_offset free_list_head l1_offset
    l1_size cluster_size l2_entries].
  - split.
    + lia.
    + intros o Ho. unfold created_own. repeat (rewrite decide_False by lia). reflexivity.
    + reflexivity.
    + exact I.
    + intros ? ? []%elem_of_nil.
    + constructor.
    + intros o Ho. unfold created_own. rewrite decide_False by lia. by rewrite decide_True by lia.
    + intros o Ho. unfold created_own. do 3 (rewrite decide_False by lia). by rewrite decide_True by lia.
  - by apply created_header.
  - split; [apply header36_fields; split_and!; by apply created_header|].
    intros o Ho. unfold created_own. by rewrite decide_True by lia.
  - split; [by apply created_header|]. intros o Ho. unfold created_own.
    do 2 (rewrite decide_False by lia). by rewrite decide_True by lia.
  - exists (read_at created 56 4040).
    assert (Hlen : zlen created = alloc).
    { unfold created. rewrite !zlen_app, zlen_header. unfold zlen. rewrite !length_zeros. lia. }
    split_and!; [apply zlen_read_at; lia|apply bytes_at_read_at; lia|].
    intros o Ho. unfold created_own. do 4 (rewrite decide_False by lia). by rewrite decide_True by lia.
  - lia.
  - intros o Ho. unfold created_own. do 5 (rewrite decide_False by lia). by rewrite decide_True by lia.
  - intros i Hi. rewrite Hl1. change (be64 0) with (zeros 8). apply created_zeros; lia.
  - intros i Hi. by rewrite Hl1.
  - intros i Hi. rewrite Hl1. split; [|split; [|split; [done|done]]]; [split_and!|].
    + lia.
    + unfold zlen. rewrite length_replicate. lia.
    + apply Forall_replicate. lia.
    + unfold zlen. rewrite length_replicate. lia.
  - intros ci _ _ He. exfalso. apply He, Hent.
  - done.
  - intros ci _. unfold zlen. rewrite length_zeros. lia.
  - done.
Qed.

End Create.

(** ** The command *)
Lemma ensure_ok b s : b = true → ensure b s = (Ok tt, s).
Proof. by intros ->. Qed.

Lemma malloc_or_fail_calm s : calm s → malloc_or_fail s = (Ok tt, s).
Proof. intros Hs. unfold malloc_or_fail. by mstep (u_malloc_calm s Hs). Qed.

Lemma create_file_spec s path vsize bits : calm s → 12 ≤ bits ≤ 24 → 0 < vsize < 2 ^ 63 →
  vsize ≤ (2 ^ 32 - 1) * (l2_entries_of (2 ^ bits) * 2 ^ bits) →
  ∃ s', create_file path vsize bits s = (Ok tt, s') ∧ calm s'
    ∧ lookup_file path (u_files s') = Some (created vsize bits).
Proof.
  intros Hs Hb Hv Hmax. unfold create_file.
  replace (Z.shiftl 1 bits) with (2 ^ bits) by (by rewrite Z.shiftl_1_l).
  change ((2 ^ bits - LBD_QCOW2_L2_TRAILER_SIZE) / 8) with (l2_entries_of (2 ^ bits)).
  pose proof (alloc_bounds vsize bits Hb Hv Hmax) as Ha.
  destruct (l1_size_for_spec vsize bits Hb) as (Hl & _); [lia|lia|lia|].
  set (l1 := l1_size_for vsize (l2_entries_of (2 ^ bits)) (2 ^ bits)) in *.
  change LBD_QCOW2_HEADER_SIZE with 4096. set (alloc := align_cluster (4096 + l1 * 8) (2 ^ bits)) in *.
  cbv zeta. set (hdr := image_header bits vsize 4096 l1 alloc).
  mstep (u_creat_calm s Hs path). rewrite (bind_ok _ _ _ _ _ (ensure_ok true _ eq_refl)).
  set (s1 := set_file path [] s).
  mstep (u_pwrite_calm s1 Hs path [] hdr 0 (lookup_set_file _ _ _) ltac:(lia)).
  rewrite (bind_ok _ _ _ _ _ (ensure_ok (zlen hdr =? 4096) _ (proj2 (Z.eqb_eq _ _) (zlen_header _ _ _ _ _)))).
  assert (E0 : write_at [] 0 hdr = hdr) by apply (write_at_end []). rewrite E0.
  set (s2 := set_file path hdr s1).
  mstep (malloc_or_fail_calm s2 Hs).
  mstep (u_pwrite_calm s2 Hs path hdr (zeros (l1 * 8)) 4096 (lookup_set_file _ _ _) ltac:(lia)).
  assert (E1 : write_at hdr 4096 (zeros (l1 * 8)) = hdr ++ zeros (l1 * 8)).
  { rewrite <- (zlen_header bits vsize 4096 l1 alloc). apply write_at_end. }
  rewrite E1. set (c := hdr ++ zeros (l1 * 8)). set (s3 := set_file path c s2).
  assert (Hz : zlen (zeros (l1 * 8)) = l1 * 8) by (unfold zlen; rewrite length_zeros; lia).
  rewrite (bind_ok _ _ _ _ _ (ensure_ok (zlen (zeros (l1 * 8)) =? l1 * 8) s3 (proj2 (Z.eqb_eq _ _) Hz))).
  mstep (u_ftruncate_calm s3 Hs path c alloc (lookup_set_file _ _ _) ltac:(lia)).
  eexists. split; [reflexivity|]. split; [done|]. rewrite lookup_set_file. f_equal.
  assert (Hc : zlen c = 4096 + l1 * 8) by (unfold c; rewrite zlen_app, Hz; unfold hdr; by rewrite zlen_header).
  rewrite take_ge by (unfold zlen in Hc; lia). rewrite Hc. unfold c, created. by rewrite <- app_assoc.
Qed.
