(* ===== verification/Qcow2Theorems.v ===== *)
(** * The theorems about the qcow2-lz4 store

    The claims combine the lemmas of the proof files; the witnesses run them on
    the 1 MiB image that [lbdctl create] makes with 4 KiB clusters. *)
From S2P Require Import Prelude Kernel Format Crc Posix Qcow2State Qcow2Alloc Qcow2Cache Qcow2Io.
From S2P Require Import Qcow2Inv Qcow2AllocProof Qcow2Wf Qcow2CacheProof Qcow2WriteProof Qcow2IoProof.
From S2P Require Import Flat Qcow2Refine Qcow2InitProof CtlImage CtlCreateProof.

(** The request covers addresses of the store and there is room for it. *)
Definition serviceable {K} (d : qdev K) (pos len : Z) : Prop :=
  0 ≤ pos ∧ Z.shiftl pos SECTOR_SHIFT + len ≤ capacity (qcow2 d) ∧ room d len.

Section Claims.
Context {K : Type} `{KernelLaws K} `{LZ4Laws} `{CrcLaws}.
Implicit Types d : qdev K.

Lemma sector_pos pos : 0 ≤ pos → 0 ≤ Z.shiftl pos SECTOR_SHIFT.
Proof. intros. by apply Z.shiftl_nonneg. Qed.

Lemma same_shape_cs q q' : same_shape q q' → cluster_size q' = cluster_size q.
Proof. by intros (_ & ? & _). Qed.

Lemma read_rep d V B rq : rep d V B → serviceable d (rq_pos rq) (zlen (concat (rq_segs rq))) →
  ∃ d', lbd_qcow2_read rq d = (Ok (slices V (Z.shiftl (rq_pos rq) SECTOR_SHIFT) (rq_segs rq)), d')
    ∧ rep d' V B
    ∧ ext d d' (2 * cluster_size (qcow2 d) * zlen (concat (rq_segs rq))) (4 * zlen (concat (rq_segs rq)))
        (zlen (concat (rq_segs rq))).
Proof.
  intros ((g & Hw & Hg & Hb) & Hm) (Hp & Hc & Hr). pose proof (sector_pos _ Hp) as Hp'.
  destruct (read_segs_spec (rq_segs rq) d g _ Hw Hm Hp' Hc Hr) as (d1 & E & W & X).
  eexists. split_and!.
  - unfold lbd_qcow2_read. mstep E. unfold upd_stats, modify. munfold.
    rewrite (slices_ext _ V) by (intros o Ho; apply Hg; lia). done.
  - split; [|simpl; by rewrite (ex_miss _ _ _ _ _ X)]. apply stored_stats. exists g. split_and!; [done| |done]. intros o Ho.
    rewrite (same_shape_cs _ _ (ex_shape _ _ _ _ _ X)). by apply Hg.
  - pose proof (geom_cs _ (wf_geom _ _ Hw)). pose proof (zlen_nonneg (concat (rq_segs rq))).
    eapply ext_weaken; [destruct X; by split|nia|lia|lia].
Qed.

(** An extension keeps the capacity and consumes the room of its length. *)
Lemma ext_serviceable d d' n : geom (qcow2 d) → 0 ≤ n →
  ext d d' (2 * cluster_size (qcow2 d) * n) (4 * n) n →
  capacity (qcow2 d') = capacity (qcow2 d) ∧ ∀ k, 0 ≤ k → room d (n + k) → room d' k.
Proof.
  intros Hg Hn X. pose proof (geom_cs _ Hg). split; [apply (capacity_shape _ _ (ex_shape _ _ _ _ _ X))|].
  intros k Hk Hr. eapply room_ext; [exact X|exact Hr|done|right; nia|lia|lia|lia|lia].
Qed.

Lemma write_stored d V B rq : stored d V B → serviceable d (rq_pos rq) (zlen (concat (rq_segs rq))) →
  ∃ d', lbd_qcow2_write rq d = (Ok tt, d')
    ∧ stored d' (upd V (Z.shiftl (rq_pos rq) SECTOR_SHIFT) (concat (rq_segs rq))) B
    ∧ (concat (rq_segs rq) ≠ [] → synced d')
    ∧ ext d d' (2 * cluster_size (qcow2 d) * zlen (concat (rq_segs rq))) (4 * zlen (concat (rq_segs rq)))
        (zlen (concat (rq_segs rq))).
Proof.
  intros (g & Hw & Hg & Hb) (Hp & Hc & Hr). pose proof (sector_pos _ Hp) as Hp'.
  set (buf := concat (rq_segs rq)) in *. set (off := Z.shiftl (rq_pos rq) SECTOR_SHIFT) in *.
  destruct (alloc_or_ok (zlen buf) (- ENOMEM) d (wf_healthy _ _ Hw)) as (k1 & E1 & Q1).
  destruct (wf_set_kern d g k1 Hw Q1) as [W1 C1].
  destruct (write_chunks_spec (length buf) (set_kern k1 d) g off buf W1 Hp') as (d2 & g2 & E2 & W2 & Y2 & B2 & X2 & V2);
    [done|done|done|].
  pose proof (ext_trans _ _ _ _ _ _ _ _ _ (ext_cached _ _ _ _ C1) X2) as X.
  exists d2. unfold lbd_qcow2_write. cbv zeta. fold buf off. mstep E1. split_and!; [exact E2| |by auto|exact X].
  exists g2. split_and!; [done| |intros ci; by rewrite B2]. intros o Ho.
  rewrite (same_shape_cs _ _ (ex_shape _ _ _ _ _ X)). simpl in V2. rewrite V2 by done.
  unfold upd. case_decide; [done|]. by apply Hg.
Qed.

Lemma discard_stored d V B pos n : stored d V B → 0 ≤ n → serviceable d pos n →
  ∃ d' V', lbd_qcow2_discard pos n d = (Ok tt, d') ∧ stored d' V' B
    ∧ discarded B (cluster_size (qcow2 d)) V V' (Z.shiftl pos SECTOR_SHIFT) n
    ∧ ext d d' (2 * cluster_size (qcow2 d) * n) (4 * n) n.
Proof.
  intros (g & Hw & Hg & Hb) Hn (Hp & Hc & Hr). pose proof (sector_pos _ Hp) as Hp'.
  destruct (discard_chunks_spec (Z.to_nat n) d g _ n Hw Hp' ltac:(lia) Hc Hr) as (d2 & g2 & E2 & W2 & B2 & X2 & V2).
  exists d2, (vbyte (g_view g2) (cluster_size (qcow2 d))). split_and!; [exact E2| | |].
  - exists g2. split_and!; [done| |intros ci; by rewrite B2].
    intros o Ho. by rewrite (same_shape_cs _ _ (ex_shape _ _ _ _ _ X2)).
  - intros o Ho. destruct (V2 o Ho) as [Va Vb]. split; intros Hr'; [rewrite Va by done; by apply Hg|].
    destruct (Vb Hr') as [?|Hx]; [by left|right]. rewrite Hx. unfold bbyte. by rewrite Hb.
  - exact X2.
Qed.

(** Without a miss handler there is none afterwards. *)
Lemma rep_after d d' V B a n m : miss_handler d = false → stored d' V B → ext d d' a n m → rep d' V B.
Proof. intros Hm Hs X. split; [done|]. by rewrite (ex_miss _ _ _ _ _ X). Qed.

Lemma write_rep d V B rq : rep d V B → serviceable d (rq_pos rq) (zlen (concat (rq_segs rq))) →
  ∃ d', lbd_qcow2_write rq d = (Ok tt, d')
    ∧ rep d' (upd V (Z.shiftl (rq_pos rq) SECTOR_SHIFT) (concat (rq_segs rq))) B
    ∧ (concat (rq_segs rq) ≠ [] → synced d')
    ∧ ext d d' (2 * cluster_size (qcow2 d) * zlen (concat (rq_segs rq))) (4 * zlen (concat (rq_segs rq)))
        (zlen (concat (rq_segs rq))).
Proof.
  intros [Hr Hm] Hs. destruct (write_stored d V B rq Hr Hs) as (d' & E & R & Y & X). exists d'.
  split_and!; [done|by eapply rep_after|done|done].
Qed.

(** Without a base layer: exactly the range becomes zero. *)
Lemma discard_zero_stored d V pos n : stored d V (λ _, None) → 0 ≤ n → serviceable d pos n →
  ∃ d', lbd_qcow2_discard pos n d = (Ok tt, d')
    ∧ stored d' (upd V (Z.shiftl pos SECTOR_SHIFT) (zeros n)) (λ _, None)
    ∧ ext d d' (2 * cluster_size (qcow2 d) * n) (4 * n) n.
Proof.
  intros Hrep Hn Hs. destruct (discard_stored d V _ pos n Hrep Hn Hs) as (d' & V' & E & R & D & X).
  exists d'. split_and!; [done| |done]. eapply stored_equal; [|exact R]. intros o Ho. destruct (D o Ho) as [Da Db].
  assert (Hz : zlen (zeros n) = n) by (unfold zlen; rewrite length_zeros; lia).
  unfold upd. rewrite Hz. case_decide as Hr; [|by apply Da]. rewrite nth_zeros.
  by destruct (Db Hr) as [-> | ->].
Qed.

Lemma discard_zero_rep d V pos n : rep d V (λ _, None) → 0 ≤ n → serviceable d pos n →
  ∃ d', lbd_qcow2_discard pos n d = (Ok tt, d')
    ∧ rep d' (upd V (Z.shiftl pos SECTOR_SHIFT) (zeros n)) (λ _, None)
    ∧ ext d d' (2 * cluster_size (qcow2 d) * n) (4 * n) n.
Proof.
  intros [Hr Hm] Hn Hs. destruct (discard_zero_stored d V pos n Hr Hn Hs) as (d' & E & R & X). exists d'.
  split_and!; [done|by eapply rep_after|done].
Qed.

(** C8: a read of any segments in range succeeds and returns, segment by
    segment, the bytes of the array the device represents, whatever is in the
    caches, and the device still represents the same array. *)
Theorem read_refines d V B rq : rep d V B → serviceable d (rq_pos rq) (zlen (concat (rq_segs rq))) →
  ∃ d', lbd_qcow2_read rq d = (Ok (slices V (Z.shiftl (rq_pos rq) SECTOR_SHIFT) (rq_segs rq)), d')
    ∧ rep d' V B.
Proof. intros Hr Hs. destruct (read_rep d V B rq Hr Hs) as (d' & ? & ? & _). by exists d'. Qed.

(** C7: a write in range succeeds and the device then stores the array with
    exactly the written bytes replaced, over the same base layer, whether or not
    a miss handler is registered and without asking it. *)
Theorem write_refines d V B rq : stored d V B → serviceable d (rq_pos rq) (zlen (concat (rq_segs rq))) →
  ∃ d', lbd_qcow2_write rq d = (Ok tt, d')
    ∧ stored d' (upd V (Z.shiftl (rq_pos rq) SECTOR_SHIFT) (concat (rq_segs rq))) B
    ∧ miss_handler d' = miss_handler d ∧ miss_replies d' = miss_replies d.
Proof.
  intros Hr Hs. destruct (write_stored d V B rq Hr Hs) as (d' & ? & ? & _ & X). exists d'.
  split_and!; [done|done|apply X|apply X].
Qed.

(** what a write stored is what a later read of the same range returns, in
    any segmentation. *)
Theorem write_then_read d V B wr rd : rep d V B →
  serviceable d (rq_pos wr) (2 * zlen (concat (rq_segs wr))) →
  rq_pos rd = rq_pos wr → zlen (concat (rq_segs rd)) = zlen (concat (rq_segs wr)) →
  ∃ d1 d2 out, lbd_qcow2_write wr d = (Ok tt, d1) ∧ lbd_qcow2_read rd d1 = (Ok out, d2)
    ∧ concat out = concat (rq_segs wr).
Proof.
  intros Hrep (Hp & Hc & Hr) Epos Elen. pose proof (zlen_nonneg (concat (rq_segs wr))) as Hn.
  set (n := zlen (concat (rq_segs wr))) in *. pose proof Hrep as ((g & Hw & _) & _).
  destruct (write_rep d V B wr Hrep) as (d1 & E1 & R1 & _ & X1).
  { split_and!; [done|lia|]. eapply room_weaken; [| |exact Hr]; [lia|].
    pose proof (geom_cs _ (wf_geom _ _ Hw)). lia. }
  fold n in X1. destruct (ext_serviceable d d1 n (wf_geom _ _ Hw) Hn X1) as [Hcap Hroom].
  destruct (read_rep d1 _ B rd R1) as (d2 & E2 & _).
  { rewrite Epos, Elen. fold n. split_and!; [done|rewrite Hcap; lia|]. apply Hroom; [done|].
    by replace (n + n) with (2 * n) by lia. }
  exists d1, d2, (slices (upd V (Z.shiftl (rq_pos wr) SECTOR_SHIFT) (concat (rq_segs wr)))
                    (Z.shiftl (rq_pos wr) SECTOR_SHIFT) (rq_segs rd)).
  rewrite Epos in E2. split_and!; [done|done|]. rewrite slices_concat, Elen. apply slice_upd.
Qed.

(** C12: a completed write is durable: the driver that opens the resulting image
    afresh (no in-memory state kept) serves the array with the written bytes. *)
Theorem write_survives_reopen d V B rq d0 d1 : stored d V B → base d = None →
  0 < l1_size (qcow2 d) → 0 ≤ virtual_size (qcow2 d) < 2 ^ 64 → concat (rq_segs rq) ≠ [] →
  serviceable d (rq_pos rq) (zlen (concat (rq_segs rq))) →
  lbd_qcow2_write rq d = (Ok tt, d1) →
  kern d0 = kern d1 → miss_handler d0 = false → base d0 = None →
  ∃ d2, lbd_qcow2_init d0 = (Ok tt, d2)
    ∧ rep d2 (upd V (Z.shiftl (rq_pos rq) SECTOR_SHIFT) (concat (rq_segs rq))) B.
Proof.
  intros Hrep Hb Hl Hv Hne Hs E0 Hk Hm Hb0.
  destruct (write_stored d V B rq Hrep Hs) as (d1' & E1 & (g & W1 & G1 & B1) & Y1 & X1).
  rewrite E0 in E1. injection E1 as <-. specialize (Y1 Hne).
  destruct (ex_shape _ _ _ _ _ X1) as (_ & _ & _ & Ev & El & _).
  assert (Hbv : ∀ ci, g_bv g ci = None).
  { pose proof (wf_base _ _ W1) as Hbo. unfold base_ok in Hbo. pose proof (ex_base _ _ _ _ _ X1) as Hbs.
    rewrite Hb in Hbs. destruct (base d1); done. }
  assert (Him : image (content (kern d0) Backing) (qcow2 d1) g).
  { rewrite Hk. split; [apply (wf_geom _ _ W1)|apply (wf_img _ _ W1)|done|lia|lia]. }
  destruct (init_spec d0 (qcow2 d1) g) as (d2 & E2 & W2 & Q2 & _ & M2); [rewrite Hk; apply (wf_healthy _ _ W1)|done..|].
  exists d2. split; [done|]. split; [|congruence]. exists g. split_and!; [done| |done]. intros o Ho. rewrite Q2. by apply G1.
Qed.

(** C21: a discard in range succeeds, leaves every byte outside its range alone,
    and inside the range each byte becomes zero or shows the base layer's byte,
    whether or not a miss handler is registered. *)
Theorem discard_refines d V B pos n : stored d V B → 0 ≤ n → serviceable d pos n →
  ∃ d' V', lbd_qcow2_discard pos n d = (Ok tt, d') ∧ stored d' V' B
    ∧ discarded B (cluster_size (qcow2 d)) V V' (Z.shiftl pos SECTOR_SHIFT) n.
Proof. intros Hr Hn Hs. destruct (discard_stored d V B pos n Hr Hn Hs) as (d' & V' & ? & ? & ? & _). by exists d', V'. Qed.

(** Without a base layer a discard zeroes exactly its range. *)
Theorem discard_zeroes d V pos n : stored d V (λ _, None) → 0 ≤ n → serviceable d pos n →
  ∃ d', lbd_qcow2_discard pos n d = (Ok tt, d')
    ∧ stored d' (upd V (Z.shiftl pos SECTOR_SHIFT) (zeros n)) (λ _, None).
Proof. intros Hr Hn Hs. destruct (discard_zero_stored d V pos n Hr Hn Hs) as (d' & ? & ? & _). by exists d'. Qed.

(** C22: an allocation hands out bytes that nobody owns and that no listed free
    extent contains afterwards, keeps the free list and the cursor consistent,
    and leaves every byte of the image that has an owner as it was. *)
Theorem alloc_space_fresh d own fl needed t : healthy (kern d) → space d own fl →
  bytes_at (content (kern d) Backing) 48 (be64 (free_list_head (qcow2 d))) →
  0 < needed → alloc_offset (qcow2 d) + needed ≤ 2 ^ 62 →
  ∃ p d' own' fl', lbd_qcow2_alloc_space needed d = (Ok p, d') ∧ 0 < p
    ∧ space d' own' fl' ∧ carve own own' p needed t
    ∧ keeps own mutable (content (kern d) Backing) (content (kern d') Backing)
    ∧ bytes_at (content (kern d') Backing) 48 (be64 (free_list_head (qcow2 d')))
    ∧ alloc_offset (qcow2 d) ≤ alloc_offset (qcow2 d') ≤ alloc_offset (qcow2 d) + needed.
Proof.
  intros Hh Hs Hhd Hn Hle.
  destruct (alloc_space_spec d own fl needed t Hh Hs Hhd Hn Hle) as (p & d' & own' & fl' & E & []).
  by exists p, d', own', fl'.
Qed.

(** C23: an image made by [lbdctl create] opens as a disk of the requested size
    whose every byte is zero. *)
Theorem create_opens_empty s path vsize bits : calm s → 12 ≤ bits ≤ 24 → 0 < vsize ≤ 2 ^ 62 →
  vsize ≤ (2 ^ 32 - 1) * (l2_entries_of (2 ^ bits) * 2 ^ bits) →
  ∃ s' f, create_file path vsize bits s = (Ok tt, s') ∧ lookup_file path (u_files s') = Some f
    ∧ ∀ d, healthy (kern d) → miss_handler d = false → base d = None → content (kern d) Backing = f →
      ∃ d', lbd_qcow2_init d = (Ok tt, d') ∧ rep d' (λ _, x00) (λ _, None)
        ∧ virtual_size (qcow2 d') = vsize ∧ vsize ≤ capacity (qcow2 d').
Proof.
  intros Hs Hb Hv Hmax. destruct (create_file_spec s path vsize bits Hs Hb ltac:(lia) Hmax) as (s' & E & _ & Hf).
  exists s', (created vsize bits). split_and!; [done|done|]. intros d Hh Hm Hb0 Hc.
  destruct (init_spec d (created_q vsize bits) (created_ghost vsize bits)) as (d' & E' & W & Q & _ & M); [done..| |].
  { rewrite Hc. exact (created_image vsize bits Hb ltac:(lia) Hmax). }
  exists d'. split_and!; [done| |by rewrite Q|].
  - split; [|congruence]. exists (created_ghost vsize bits). split_and!; [done| |done]. intros o Ho. apply nth_zeros.
  - rewrite Q. unfold capacity. simpl.
    destruct (l1_size_for_spec vsize bits Hb) as (_ & Hcap & _); [lia|lia|lia|]. lia.
Qed.

End Claims.

(** ** Witnesses *)

(** A device over the 1 MiB image with 4 KiB clusters. *)
Definition blank_q : lbd_qcow2 := Qcow2 0 0 0 0 [] 0 0 0 0 [] [] 0.
Definition no_stats : qstats := Stats 0 0 0 0 0 0 0.
Definition dev0 : qdev simk :=
  Qdev (Simk (created (2 ^ 20) 12) [] []) blank_q None [] false [] no_stats.
Definition dev1 : qdev simk := (lbd_qcow2_init dev0).2.

Lemma sample_image : image (created (2 ^ 20) 12) (created_q (2 ^ 20) 12) (created_ghost (2 ^ 20) 12).
Proof. refine (created_image (2 ^ 20) 12 _ _ _); [lia|lia|]. by vm_compute. Qed.

Lemma dev1_rep : rep dev1 (λ _, x00) (λ _, None) ∧ qcow2 dev1 = opened (created_q (2 ^ 20) 12) ∧ base dev1 = None.
Proof.
  destruct (init_spec dev0 (created_q (2 ^ 20) 12) (created_ghost (2 ^ 20) 12)) as (d' & E & W & Q & Bd & Hm);
    [done..|exact sample_image|].
  assert (Ed : dev1 = d') by (unfold dev1; by rewrite E). rewrite Ed. split_and!; [split; [|exact Hm]|done|done].
  exists (created_ghost (2 ^ 20) 12). split_and!; [done| |done]. intros o Ho. apply nth_zeros.
Qed.

Lemma dev1_room n : 0 ≤ n ≤ 2 ^ 20 → room dev1 n.
Proof.
  destruct dev1_rep as (_ & Q & Bd). intros Hn. unfold room. rewrite Q, Bd.
  change (alloc_offset (opened (created_q (2 ^ 20) 12))) with 8192.
  change (cluster_size (opened (created_q (2 ^ 20) 12))) with 4096.
  change (lru_tick (opened (created_q (2 ^ 20) 12))) with 0. unfold U64_MAX. split_and!; [lia..|done].
Qed.

Lemma dev1_serviceable pos n : 0 ≤ pos → 0 ≤ n → pos * 512 + n ≤ 2 ^ 20 → serviceable dev1 pos n.
Proof.
  intros Hp Hn Hle. destruct dev1_rep as (_ & Q & _). split; [done|]. split; [|apply dev1_room; lia].
  rewrite Q. change (capacity (opened (created_q (2 ^ 20) 12))) with (511 * 4096).
  rewrite Z.shiftl_mul_pow2 by done. change (2 ^ SECTOR_SHIFT) with 512. lia.
Qed.

Lemma dev1_sizes : 0 < l1_size (qcow2 dev1) ∧ 0 ≤ virtual_size (qcow2 dev1) < 2 ^ 64.
Proof.
  destruct dev1_rep as (_ & Q & _). rewrite Q.
  change (l1_size (opened (created_q (2 ^ 20) 12))) with 1.
  change (virtual_size (opened (created_q (2 ^ 20) 12))) with (2 ^ 20). lia.
Qed.

(** Eight sectors from sector 3, in two segments. *)
Definition sample : bytes := replicate 2048 x41 ++ replicate 2048 x42.
Definition sample_rq : request := Rq 3 [replicate 2048 x41; replicate 2048 x42].

Lemma read_refines_witness : ∃ d', lbd_qcow2_read sample_rq dev1
  = (Ok (slices (λ _, x00) 1536 (rq_segs sample_rq)), d') ∧ rep d' (λ _, x00) (λ _, None).
Proof. apply (read_refines dev1 _ _ sample_rq (proj1 dev1_rep)). by apply dev1_serviceable. Defined.

Lemma write_refines_witness : ∃ d', lbd_qcow2_write sample_rq dev1 = (Ok tt, d')
  ∧ stored d' (upd (λ _, x00) 1536 sample) (λ _, None)
  ∧ miss_handler d' = miss_handler dev1 ∧ miss_replies d' = miss_replies dev1.
Proof. apply (write_refines dev1 _ _ sample_rq (proj1 (proj1 dev1_rep))). by apply dev1_serviceable. Defined.

Lemma write_then_read_witness : ∃ d1 d2 out, lbd_qcow2_write sample_rq dev1 = (Ok tt, d1)
  ∧ lbd_qcow2_read (Rq 3 [sample]) d1 = (Ok out, d2) ∧ concat out = sample.
Proof.
  apply (write_then_read dev1 _ _ sample_rq (Rq 3 [sample]) (proj1 dev1_rep)); [by apply dev1_serviceable|done|done].
Defined.

Lemma write_survives_reopen_witness : ∃ d1, lbd_qcow2_write sample_rq dev1 = (Ok tt, d1)
  ∧ ∃ d2, lbd_qcow2_init (Qdev (kern d1) blank_q None [] false [] no_stats) = (Ok tt, d2)
    ∧ rep d2 (upd (λ _, x00) 1536 sample) (λ _, None).
Proof.
  destruct (write_rep dev1 _ _ sample_rq (proj1 dev1_rep)) as (d1 & E & _); [by apply dev1_serviceable|].
  exists d1. split; [exact E|].
  apply (write_survives_reopen dev1 (λ _, x00) (λ _, None) sample_rq _ d1 (proj1 (proj1 dev1_rep))
    (proj2 (proj2 dev1_rep))); [..|exact E|done|done|done].
  - exact (proj1 dev1_sizes).
  - exact (proj2 dev1_sizes).
  - done.
  - by apply dev1_serviceable.
Defined.

Lemma discard_refines_witness : ∃ d' V', lbd_qcow2_discard 3 6000 dev1 = (Ok tt, d') ∧ stored d' V' (λ _, None)
  ∧ discarded (λ _, None) (cluster_size (qcow2 dev1)) (λ _, x00) V' 1536 6000.
Proof. apply (discard_refines dev1 _ _ 3 6000 (proj1 (proj1 dev1_rep))); [lia|by apply dev1_serviceable]. Defined.

Lemma discard_zeroes_witness : ∃ d', lbd_qcow2_discard 3 6000 dev1 = (Ok tt, d')
  ∧ stored d' (upd (λ _, x00) 1536 (zeros 6000)) (λ _, None).
Proof. apply (discard_zeroes dev1 _ 3 6000 (proj1 (proj1 dev1_rep))); [lia|by apply dev1_serviceable]. Defined.

Lemma alloc_space_fresh_witness : ∃ p d' own' fl', lbd_qcow2_alloc_space 4096 dev1 = (Ok p, d') ∧ 0 < p
    ∧ space d' own' fl' ∧ carve (created_own (2 ^ 20) 12) own' p 4096 (TData 7)
    ∧ keeps (created_own (2 ^ 20) 12) mutable (content (kern dev1) Backing) (content (kern d') Backing)
    ∧ bytes_at (content (kern d') Backing) 48 (be64 (free_list_head (qcow2 d')))
    ∧ alloc_offset (qcow2 dev1) ≤ alloc_offset (qcow2 d') ≤ alloc_offset (qcow2 dev1) + 4096.
Proof.
  destruct (init_spec dev0 (created_q (2 ^ 20) 12) (created_ghost (2 ^ 20) 12)) as (d' & E & W & Q & _);
    [done..|exact sample_image|].
  assert (Ed : dev1 = d') by (unfold dev1; by rewrite E). rewrite Ed.
  apply (alloc_space_fresh d' (created_own (2 ^ 20) 12) [] 4096 (TData 7)).
  - apply (wf_healthy _ _ W).
  - apply (wd_space _ _ _ _ (wf_img _ _ W)).
  - apply (wd_head _ _ _ _ (wf_img _ _ W)).
  - lia.
  - rewrite Q. change (alloc_offset (opened (created_q (2 ^ 20) 12))) with 8192. lia.
Defined.

Lemma create_opens_empty_witness : ∃ s' f, create_file (str "/img") (2 ^ 20) 12 (Ufs [] []) = (Ok tt, s')
    ∧ lookup_file (str "/img") (u_files s') = Some f
    ∧ ∀ d : qdev simk, healthy (kern d) → miss_handler d = false → base d = None →
      content (kern d) Backing = f →
      ∃ d', lbd_qcow2_init d = (Ok tt, d') ∧ rep d' (λ _, x00) (λ _, None)
        ∧ virtual_size (qcow2 d') = 2 ^ 20 ∧ 2 ^ 20 ≤ capacity (qcow2 d').
Proof. apply (create_opens_empty (Ufs [] []) (str "/img") (2 ^ 20) 12); [done|lia|lia|]. vm_compute. congruence. Defined.
