(* ===== verification/Qcow2BaseTheorems.v ===== *)
(** * The theorems about base layers

    A device with a base shows its own clusters and those of the base under
    them, when the base is opened and when it is swapped; and what a swap does to
    a device whose header on disk is behind. *)
From stdpp Require Import gmap.
From S2P Require Import Prelude Kernel Format Crc Cbor Posix Qcow2State Qcow2Alloc Qcow2Cache Qcow2Io.
From S2P Require Import Qcow2Inv Qcow2AllocProof Qcow2Wf Qcow2CacheProof Qcow2WriteProof Qcow2IoProof.
From S2P Require Import Flat Qcow2Refine Qcow2InitProof Qcow2BaseProof CtlImage CtlCreateProof Qcow2Theorems.

Section Claims.
Context {K : Type} `{KernelLaws K} `{LZ4Laws} `{CrcLaws}.
Local Abbreviation disk d := (content (kern d) Backing).

(** C9: the base layer shows through.  Opening a base file, an image of the same
    geometry or a raw file of the same size, on a device that has nothing cached
    succeeds and leaves a device that stores its own clusters with those of
    the base under them.  So does swapping the base of a live device whatever it
    has cached, if the header of its image is current. *)
Theorem base_layer_refines (d : qdev K) g path B : wf d g → base_found d path →
  provides (content (kern d) (BaseFile path)) (qcow2 d) B →
  (Forall (λ e, cl_valid e = false) (cl_cache (qcow2 d)) →
   ∃ d', lbd_qcow2_base_init path d = (Ok tt, d') ∧ stored d' (shown (qcow2 d) g B) B) ∧
  (0 < l1_size (qcow2 d) → 0 ≤ virtual_size (qcow2 d) < 2 ^ 64 →
   bytes_at (disk d) 36 (be64 (alloc_offset (qcow2 d))) →
   ∃ d', lbd_qcow2_swap_base path d = (Ok tt, d') ∧ stored d' (shown (qcow2 d) g B) B ∧ base_path d' = take 255 path).
Proof.
  intros W Ho Hp. split.
  - intros Hv. destruct (base_init_wf d g path B W Hv Ho Hp) as (d' & E & W' & Eq). exists d'. split; [done|].
    exists (layered (qcow2 d) g B). rewrite Eq. by split_and!.
  - intros Hl Hv Hc. destruct (swap_base_run d g path B W Hl Hv Hc Ho Hp) as (b & k' & E & _ & _ & W'). eexists.
    split; [exact E|]. split; [|done]. exists (layered (qcow2 d) g B). by split_and!.
Qed.
End Claims.

(** ** Witness: a raw base under the empty 1 MiB image *)
Definition base_img : bytes := str "base".
Definition raw_base : bytes := replicate (Z.to_nat (2 ^ 20)) x42.
Definition over (b : bytes) : qdev simk :=
  Qdev (Simk (created (2 ^ 20) 12) [(base_img, b)] []) blank_q None [] false [] no_stats.

Lemma sim_found (d : qdev simk) p : healthy (kern d) → content (kern d) (BaseFile p) ≠ [] → base_found d p.
Proof.
  intros Hh Hc. exists (kern d). split; [|done]. destruct d as [[f l fs] ? ? ? ? ? ?]. simpl in *. subst fs.
  unfold sim_open. simpl. rewrite decide_True; [done|]. clear -Hc.
  induction l as [|[p' c] l IH]; [done|]. simpl in *. destruct (decide (p = p')) as [->|]; [by left|]. right. by apply IH.
Qed.

(** The image opened beside the file [b]. *)
Lemma over_opened b : ∃ d, wf d (created_ghost (2 ^ 20) 12) ∧ qcow2 d = opened (created_q (2 ^ 20) 12)
  ∧ (∀ h, content (kern d) h = content (kern (over b)) h) ∧ base d = None.
Proof.
  destruct (init_spec (over b) (created_q (2 ^ 20) 12) (created_ghost (2 ^ 20) 12)) as (d & E & W & Q & Bd & _);
    [done..|exact sample_image|].
  destruct (init_run (over b) (created_q (2 ^ 20) 12) (created_ghost (2 ^ 20) 12)) as (k' & E' & Qt);
    [done|exact sample_image|].
  rewrite E in E'. injection E' as ->. exists (set_q (opened (created_q (2 ^ 20) 12)) (set_kern k' (over b))).
  split; [exact W|]. split; [done|]. split; [exact (proj2 Qt)|done].
Qed.

Lemma zlen_raw_base : zlen raw_base = 2 ^ 20.
Proof. unfold zlen, raw_base. rewrite length_replicate. lia. Qed.

Lemma raw_base_magic : _qcow2_get64 (read_at raw_base 0 8) 0 ≠ LBD_QCOW2_MAGIC.
Proof.
  unfold read_at, raw_base. rewrite drop_0, take_replicate.
  replace (Z.to_nat 8 `min` Z.to_nat (2 ^ 20))%nat with 8%nat by lia. by vm_compute.
Qed.

Lemma base_layer_refines_witness : ∃ d d', qcow2 d = opened (created_q (2 ^ 20) 12)
  ∧ lbd_qcow2_swap_base base_img d = (Ok tt, d')
  ∧ stored d' (shown (qcow2 d) (created_ghost (2 ^ 20) 12) (raw_clusters raw_base 4096)) (raw_clusters raw_base 4096).
Proof.
  destruct (over_opened raw_base) as (d & W & Q & C & _).
  assert (Hf : content (kern d) (BaseFile base_img) = raw_base) by (rewrite C; reflexivity).
  assert (Hb : content (kern d) Backing = created (2 ^ 20) 12) by (rewrite C; reflexivity).
  assert (Hn : content (kern d) (BaseFile base_img) ≠ []).
  { rewrite Hf. intros Hnil. pose proof zlen_raw_base as Hz. rewrite Hnil in Hz. discriminate Hz. }
  assert (Hp : provides (content (kern d) (BaseFile base_img)) (qcow2 d) (raw_clusters raw_base 4096)).
  { right. rewrite Hf, Q, zlen_raw_base. split; [lia|]. split; [reflexivity|]. split; [exact raw_base_magic|reflexivity]. }
  destruct (base_layer_refines d _ base_img _ W (sim_found d base_img (wf_healthy _ _ W) Hn) Hp) as [_ Hs].
  destruct Hs as (d' & E & R & _).
  - rewrite Q. reflexivity.
  - rewrite Q. split; [discriminate|reflexivity].
  - rewrite Hb, Q. exact (im_cursor _ _ _ sample_image).
  - exists d, d'. exact (conj Q (conj E R)).
Defined.

(** ** A header that is behind *)




