(* ===== verification/Qcow2MissTheorems.v ===== *)
(** * The theorems about reads with a miss handler

    What a read returns when userspace answers its misses, and the use the
    handler is there for: a base that is fetched when it is first needed. *)
From S2P Require Import Prelude Kernel Format Crc Posix Qcow2State Qcow2Alloc Qcow2Cache Qcow2Io.
From S2P Require Import Qcow2Inv Qcow2AllocProof Qcow2Wf Qcow2CacheProof Qcow2WriteProof Qcow2IoProof.
From S2P Require Import Flat Qcow2Refine Qcow2InitProof Qcow2BaseProof Qcow2MissProof CtlImage CtlCreateProof.
From S2P Require Import Qcow2Theorems Qcow2BaseTheorems.

Section Claims.
Context {K : Type} `{KernelLaws K} `{LZ4Laws} `{CrcLaws}.
Implicit Types d : qdev K.
Local Abbreviation files d := (λ p, content (kern d) (BaseFile p)).

(** The handler is registered, nothing is cached for a missing cluster, the
    header is current, and every swap userspace will make before an answer
    succeeds and shows [prov]. *)
Record asking d (g : ghost) (prov : bytes → Z → option bytes) : Prop := {
  as_wf : wf d g;
  as_handler : miss_handler d = true;
  as_tracked : tracked d g;
  as_synced : synced d;
  as_l1 : 0 < l1_size (qcow2 d);
  as_size : 0 ≤ virtual_size (qcow2 d) < 2 ^ 64;
  as_swaps : Forall (λ r, Forall (swappable (qcow2 d) (files d) prov) (reply_swaps r)) (miss_replies d)
}.

(** The account of a read of [rq] on [d]. *)
Definition account_of d (g : ghost) (prov : bytes → Z → option bytes) (rq : request) : list bytes * account :=
  answered_segs (cluster_size (qcow2 d)) (image_clusters (qcow2 d) g) prov (g_bv g, Some (miss_replies d))
    (Z.shiftl (rq_pos rq) SECTOR_SHIFT) (rq_segs rq).

Lemma asking_handled d g prov n : asking d g prov → room d n →
  handled (qcow2 d) g (files d) prov n d (g_bv g, Some (miss_replies d)).
Proof.
  intros [W Hm T S _ _ Hs] (Hn & _ & Ht & Hb). pose proof (wf_tick _ _ W). split; try done; [|lia].
  eapply wf_ext; [exact W|done..|]. intros ci Hci. simpl. case_decide as E; [|done]. symmetry.
  exact (wd_zero _ _ _ _ (wf_img _ _ W) ci Hci (λ f, f) E).
Qed.

Lemma read_answered d g prov rq : asking d g prov →
  serviceable d (rq_pos rq) (4 * zlen (concat (rq_segs rq))) →
  let '(out, (B, h)) := account_of d g prov rq in
  ∃ d', lbd_qcow2_read rq d = (Ok out, d') ∧ stored d' (shown (qcow2 d) g B) B ∧ tracked d' (layered (qcow2 d) g B)
    ∧ match h with None => miss_handler d' = false | Some rs => miss_handler d' = true ∧ miss_replies d' = rs end.
Proof.
  intros Ha (Hp & Hc & Hr). pose proof (zlen_nonneg (concat (rq_segs rq))). unfold account_of.
  destruct (read_segs_answered (qcow2 d) g (files d) prov (as_l1 _ _ _ Ha) (as_size _ _ _ Ha) (rq_segs rq) 0 d
    (g_bv g, Some (miss_replies d)) (Z.shiftl (rq_pos rq) SECTOR_SHIFT)) as (d' & E & Hd).
  { by apply asking_handled. } { done. } { by apply sector_pos. } { lia. }
  destruct (answered_segs _ _ _ _ _ _) as [out [B h]]. cbn [fst snd] in *.
  destruct Hd as [W T G _ _ Hh _ _]. eexists. split; [unfold lbd_qcow2_read; mstep E; done|].
  split; [|split; [done|]].
  - apply stored_stats. exists (layered (qcow2 d) g B). split; [exact W|]. split; [|done].
    intros o Ho. destruct G as (_ & -> & _). done.
  - destruct h as [rs|]; [|done]. by destruct Hh as (? & ? & _).
Qed.

(** C10: with a miss handler registered a read returns exactly what the answers
    of userspace make of it: every cluster of the image or of the base as it is;
    for a missing one the handler is asked, which may swap the base; on retry,
    at most three times, the cluster is looked up again, else it reads as zeros.
    When nobody answers any more the handler is gone and missing clusters read
    as zeros.  The device then stores the image over the base of the last swap. *)
Theorem read_asks_handler d g prov rq : asking d g prov →
  serviceable d (rq_pos rq) (4 * zlen (concat (rq_segs rq))) →
  let '(out, (B, h)) := account_of d g prov rq in
  ∃ d', lbd_qcow2_read rq d = (Ok out, d') ∧ stored d' (shown (qcow2 d) g B) B ∧ tracked d' (layered (qcow2 d) g B)
    ∧ match h with None => miss_handler d' = false | Some rs => miss_handler d' = true ∧ miss_replies d' = rs end.
Proof. apply read_answered. Qed.

(** C11: a base can be fetched when it is first needed.  If userspace answers the
    first miss by swapping to a base file that has what the old base had, and
    has the read tried again, then a read of any range in which the image or the
    new base has every cluster returns what it would over the new base, wherever
    in the range the first miss is. *)
Theorem base_fetched_on_miss d g prov rq p rs : asking d g prov →
  serviceable d (rq_pos rq) (4 * zlen (concat (rq_segs rq))) →
  miss_replies d = Reply [p] LBD_MISS_RETRY :: rs →
  (∀ ci x, g_bv g ci = Some x → prov p ci = Some x) →
  (∀ o, Z.shiftl (rq_pos rq) SECTOR_SHIFT ≤ o < Z.shiftl (rq_pos rq) SECTOR_SHIFT + zlen (concat (rq_segs rq)) →
     ent (l2_entries (qcow2 d)) (g_tbl g) (o / cluster_size (qcow2 d)) ≠ 0 ∨ prov p (o / cluster_size (qcow2 d)) ≠ None) →
  ∃ d' B, lbd_qcow2_read rq d = (Ok (slices (shown (qcow2 d) g (prov p)) (Z.shiftl (rq_pos rq) SECTOR_SHIFT) (rq_segs rq)), d')
    ∧ (B = g_bv g ∨ B = prov p) ∧ stored d' (shown (qcow2 d) g B) B.
Proof.
  intros Ha Hs Hr Hgrow Hcov. pose proof (read_answered d g prov rq Ha Hs) as Hread.
  pose proof (sector_pos _ (proj1 Hs)) as Hp. set (off := Z.shiftl (rq_pos rq) SECTOR_SHIFT) in *.
  pose proof (wf_geom _ _ (as_wf _ _ _ Ha)) as Hg. pose proof (geom_cs _ Hg) as Hcs.
  assert (Hprov : provides (content (kern d) (BaseFile p)) (qcow2 d) (prov p)).
  { pose proof (as_swaps _ _ _ Ha) as Hsw. rewrite Hr in Hsw. apply Forall_cons_1 in Hsw as [Hsw _]. simpl in Hsw.
    by apply Forall_cons_1 in Hsw as [[? _] _]. }
  destruct (answered_segs_fetch (cluster_size (qcow2 d)) (image_clusters (qcow2 d) g) prov (g_bv g) p rs Hgrow ltac:(lia))
    with (segs := rq_segs rq) (s := (g_bv g, Some (miss_replies d))) (off := off) as ([B h] & E & Hf).
  { unfold under, image_clusters. intros ci x. case_decide as Hc; [|by apply (provides_size _ _ _ _ _ Hg Hprov)].
    intros [= <-]. apply (wd_view _ _ _ _ (wf_img _ _ (as_wf _ _ _ Ha))), Hc. }
  { left. by rewrite Hr. } { done. }
  { intros o Ho. assert (0 ≤ o / cluster_size (qcow2 d)) by (apply Z.div_pos; lia).
    apply (visible_under (qcow2 d) g (qcow2 d)); [done..|]. by apply Hcov. }
  unfold account_of in Hread. fold off in Hread. rewrite E in Hread. destruct Hread as (d' & Er & Hst & _).
  exists d', B. split; [|split; [by destruct Hf as [[= -> _]|[= -> _]]; [left|right]|done]].
  rewrite Er. do 2 f_equal. apply slices_ext. intros o Ho. unfold vbyte, shown.
  assert (0 ≤ o / cluster_size (qcow2 d)) by (apply Z.div_pos; lia).
  by rewrite <- (layered_under (qcow2 d) g (prov p) (o / cluster_size (qcow2 d))).
Qed.
End Claims.

(** ** Witness: the empty 1 MiB image, whose handler fetches the raw base *)
Definition fetch : list miss_reply := [Reply [base_img] LBD_MISS_RETRY].
Definition raw_prov (p : bytes) : Z → option bytes := raw_clusters raw_base 4096.
Local Abbreviation g1 := (created_ghost (2 ^ 20) 12).
Local Abbreviation q1 := (opened (created_q (2 ^ 20) 12)).

Lemma raw_swappable (d : qdev simk) : qcow2 d = q1 → content (kern d) (BaseFile base_img) = raw_base →
  swappable (qcow2 d) (λ p, content (kern d) (BaseFile p)) raw_prov base_img.
Proof.
  intros Q Hf. split.
  - right. rewrite Hf, Q, zlen_raw_base. split; [lia|]. split; [reflexivity|]. split; [exact raw_base_magic|reflexivity].
  - intros d' Hh Hc. apply sim_found; [done|]. rewrite Hc, Hf. intros Hnil. pose proof zlen_raw_base as Hz.
    rewrite Hnil in Hz. discriminate Hz.
Qed.

Lemma fetch_asking : ∃ d : qdev simk, asking d g1 raw_prov ∧ qcow2 d = q1 ∧ base d = None ∧ miss_replies d = fetch.
Proof.
  destruct (over_opened raw_base) as (d & W & Q & C & Bd).
  assert (Hf : content (kern d) (BaseFile base_img) = raw_base) by (rewrite C; reflexivity).
  assert (Hb : content (kern d) Backing = created (2 ^ 20) 12) by (rewrite C; reflexivity).
  exists (set_replies fetch (set_miss_handler true d)). split; [|done]. split; simpl.
  - destruct W. by split.
  - done.
  - unfold tracked. simpl. rewrite Q. intros _ k e He Hv. apply lookup_replicate_1 in He as [-> _]. discriminate Hv.
  - change (bytes_at (content (kern d) Backing) 36 (be64 (alloc_offset (qcow2 d)))). rewrite Hb, Q. exact (im_cursor _ _ _ sample_image).
  - rewrite Q. reflexivity.
  - rewrite Q. split; [discriminate|reflexivity].
  - apply Forall_singleton, Forall_singleton. by apply (raw_swappable d).
Qed.

Lemma fetch_serviceable (d : qdev simk) n : qcow2 d = q1 → base d = None → 0 ≤ n ≤ 2 ^ 20 → serviceable d 0 n.
Proof.
  intros Q Bd Hn. split; [done|]. unfold room. rewrite Q, Bd.
  change (capacity q1) with (511 * 4096). change (alloc_offset q1) with 8192.
  change (cluster_size q1) with 4096. change (lru_tick q1) with 0. change (Z.shiftl 0 SECTOR_SHIFT) with 0.
  unfold U64_MAX. split_and!; [lia..|done].
Qed.

Definition two_clusters : request := Rq 0 [zeros 4096; zeros 4096].

Lemma zlen_two_clusters : zlen (concat (rq_segs two_clusters)) = 8192.
Proof. unfold two_clusters. cbn [rq_segs concat]. rewrite app_nil_r, zlen_app, !zlen_zeros by lia. lia. Qed.

Lemma read_asks_handler_witness : ∃ d, miss_replies d = fetch ∧
  let '(out, (B, h)) := account_of d g1 raw_prov two_clusters in
  ∃ d', lbd_qcow2_read two_clusters d = (Ok out, d') ∧ stored d' (shown (qcow2 d) g1 B) B
    ∧ tracked d' (layered (qcow2 d) g1 B)
    ∧ match h with None => miss_handler d' = false | Some rs => miss_handler d' = true ∧ miss_replies d' = rs end.
Proof.
  destruct fetch_asking as (d & Ha & Q & Bd & Hr). exists d. split; [exact Hr|].
  apply (read_asks_handler d g1 raw_prov two_clusters Ha). rewrite zlen_two_clusters.
  apply (fetch_serviceable d (4 * 8192) Q Bd). lia.
Defined.

Lemma base_fetched_on_miss_witness : ∃ d d' B, qcow2 d = q1 ∧ miss_replies d = fetch ∧
  lbd_qcow2_read two_clusters d = (Ok (slices (shown (qcow2 d) g1 (raw_clusters raw_base 4096)) 0 (rq_segs two_clusters)), d')
  ∧ (B = g_bv g1 ∨ B = raw_prov base_img) ∧ stored d' (shown (qcow2 d) g1 B) B.
Proof.
  destruct fetch_asking as (d & Ha & Q & Bd & Hr). exists d.
  assert (Hs : serviceable d (rq_pos two_clusters) (4 * zlen (concat (rq_segs two_clusters)))).
  { rewrite zlen_two_clusters. apply (fetch_serviceable d (4 * 8192) Q Bd). lia. }
  destruct (base_fetched_on_miss d g1 raw_prov two_clusters base_img [] Ha Hs Hr) as (d' & B & R).
  - discriminate.
  - intros o Ho. right. rewrite zlen_two_clusters, Q in *. change (cluster_size q1) with 4096.
    change (Z.shiftl (rq_pos two_clusters) SECTOR_SHIFT) with 0 in Ho. unfold raw_prov, raw_clusters.
    rewrite zlen_raw_base. rewrite decide_True; [discriminate|]. pose proof (Z.div_mod o 4096). pose proof (Z.mod_pos_bound o 4096). lia.
  - exists d', B. exact (conj Q (conj Hr R)).
Defined.

(** The bytes of that read are those of the base. *)
Example fetched_bytes : shown q1 g1 (raw_clusters raw_base 4096) 5000 = x42.
Proof.
  unfold shown. change (cluster_size q1) with 4096. rewrite decide_True by reflexivity.
  unfold raw_clusters. rewrite zlen_raw_base, decide_True by done. cbn [default].
  unfold read_at, raw_base. rewrite drop_replicate, take_replicate, nth_lookup.
  unfold id. rewrite lookup_replicate_2; [done|]. change (5000 / 4096 * 4096) with 4096. change (5000 mod 4096) with 904. lia.
Qed.
