(* ===== verification/CtlExtractProof.v ===== *)
(** * Reading an image in the control tool: what the driver stored is what
      [lbdctl extract] and [lbdctl compact] read *)
From S2P Require Import Prelude Kernel Format Crc Posix Qcow2State Qcow2Alloc Qcow2Cache Qcow2Io.
From S2P Require Import Qcow2Inv Qcow2AllocProof Qcow2Wf Qcow2CacheProof Qcow2WriteProof Qcow2IoProof.
From S2P Require Import Flat Qcow2Refine Qcow2InitProof CtlImage CtlCreateProof.

(** The kernel's [crc32c] is the CRC with the Castagnoli polynomial. *)
Class Crc32cStandard `{CrcOps} : Prop := {
  crc32c_ref seed d : is_u32 seed → crc32c seed d = foldl (crc_byte crc32c_poly) seed d
}.

#[global] Instance table_crc_standard : Crc32cStandard.
Proof.
  split. intros seed d Hs. unfold crc32c, table_crc, crc32c_init.
  assert (E : foldl (crc_update (crc_table crc32c_poly)) seed d = foldl (crc_byte crc32c_poly) seed d).
  { revert seed Hs. induction d as [|b d IH]; intros seed Hs; [done|]. simpl.
    rewrite crc_update_byte by auto with lbd. apply IH, crc_byte_u32; auto with lbd. }
  rewrite E. apply u32_small. apply crc_fold_u32; auto with lbd.
Qed.

Section Reading.
Context `{HZ : LZ4Laws} `{HCr : CrcLaws} `{!Crc32cStandard}.

Lemma trailer_calc d : crc32c_trailer d = crc32c_calc d.
Proof.
  unfold crc32c_trailer, crc32c_calc, crc32c_init. change (u32 (Z.lnot 0)) with 0xFFFFFFFF.
  rewrite crc_calc_ref, crc32c_ref by (auto with lbd; unfold is_u32; lia). unfold crc_ref.
  set (x := foldl _ _ _). assert (Hx : is_u32 x) by (apply crc_fold_u32; [auto with lbd|unfold is_u32; lia]).
  unfold is_u32 in Hx. unfold u32. change (2 ^ 32) with (2 ^ 32)%Z. change 0xFFFFFFFF with (Z.ones 32).
  rewrite <- Z.land_ones by lia. rewrite <- (Z.mod_small x (2 ^ 32)) at 2 by lia. rewrite <- Z.land_ones by lia.
  apply Z.bits_inj'. intros n Hn. rewrite Z.land_spec, Z.lnot_spec, Z.lxor_spec, Z.land_spec by lia.
  by destruct (Z.testbit (Z.ones 32) n), (Z.testbit x n).
Qed.

Lemma ctl_l2_disk_eq cs t : ctl_l2_disk cs t = l2_disk cs t.
Proof. unfold ctl_l2_disk, l2_disk. by rewrite trailer_calc. Qed.

(** ** Reads that meet no fault *)
Section Calls.
Variables (s : ufs) (path f : bytes).
Hypotheses (Hs : calm s) (Hf : lookup_file path (u_files s) = Some f).

(** A range that is in the file. *)
Lemma pread_bytes pos d n : bytes_at f pos d → n = zlen d → 0 ≤ pos < 2 ^ 63 → u_pread path n pos s = (Ok (n, d), s).
Proof.
  intros Hb -> Hp. rewrite (u_pread_calm s Hs path f _ pos Hf Hp). by rewrite (read_at_bytes_at f pos d Hb).
Qed.

Lemma malloc_tables_calm n : malloc_tables n s = (Ok tt, s).
Proof. induction n as [|n IH]; [done|]. simpl. by mstep (malloc_or_fail_calm s Hs). Qed.

(** *** A cluster *)
Lemma ctl_read_cluster_ok cs e b sz : 4096 ≤ cs ≤ 2 ^ 24 → entry_holds f cs e b sz →
  ctl_read_cluster path cs e s = (Ok b, s).
Proof.
  intros Hcs (Hp & Hl & He). unfold ctl_read_cluster. fold (phys_of e). cbv zeta.
  destruct (Z.land e LBD_QCOW2_L2_COMPRESSED =? 0); cbn [negb].
  - destruct He as [Hb _]. mstep (pread_bytes (phys_of e) b cs Hb ltac:(lia) ltac:(lia)).
    by rewrite (bind_ok _ _ _ _ _ (ensure_ok (cs =? cs) s (Z.eqb_refl _))).
  - destruct He as (c & Hc & [Hb1 Hb2]%bytes_at_app & Hd & _); [|lia].
    mstep (pread_bytes (phys_of e) (be32 (zlen c)) 4 Hb1 eq_refl ltac:(lia)).
    rewrite (bind_ok _ _ _ _ _ (ensure_ok (4 =? 4) s eq_refl)).
    pose proof (proj2 (compressBound_cs cs Hcs)) as Hu. rewrite u32_small in Hc by lia.
    rewrite (get32_bytes_at _ 0 (zlen c)) by (lia || apply bytes_at_full).
    change (zlen (be32 (zlen c))) with 4 in Hb2.
    mstep (pread_bytes (phys_of e + 4) c (zlen c) Hb2 eq_refl ltac:(lia)).
    rewrite Z.gtb_ltb, (proj2 (Z.ltb_ge _ _)) by lia.
    rewrite (bind_ok _ _ _ _ _ (ensure_ok (zlen c =? zlen c) s (Z.eqb_refl _))).
    rewrite Hd. by rewrite (bind_ok _ _ _ _ _ (ensure_ok (zlen b =? cs) s ltac:(lia))).
Qed.

(** *** The L2 tables *)
Lemma ctl_read_l2_ok cs l1 : ∀ tbl : nat → list Z, 4096 ≤ cs ≤ 2 ^ 24 →
  (∀ j a, l1 !! j = Some a → l2_stored f cs a (tbl j)) →
  ctl_read_l2 path cs (l2_entries_of cs) l1 s = (Ok (tbl <$> seq 0 (length l1)), s).
Proof.
  induction l1 as [|a l1 IH]; intros tbl Hcs Hl; [done|]. cbn [ctl_read_l2 length seq fmap list_fmap].
  mstep (malloc_or_fail_calm s Hs).
  destruct (Hl 0%nat a eq_refl) as (Hsh & Hn & Hz & Hnz). pose proof Hsh as (_ & Hle & _). rewrite Hn in Hle.
  assert (E : (if a =? 0 then mret (replicate (Z.to_nat (l2_entries_of cs)) 0)
    else malloc_or_fail;; '(n, d) ← u_pread path cs a; ensure (n =? cs);;
      if cs <? 4 then panic else
      ensure (_qcow2_get32 d (cs - 4) =? crc32c_calc (read_at d 0 (cs - 4)));;
      if cs <? 8 * l2_entries_of cs then panic else mret (be64_array (l2_entries_of cs) d)) s = (Ok (tbl 0%nat), s)).
  { destruct (Z.eqb_spec a 0) as [Ea|Ea]; [by rewrite Hz|]. destruct (Hnz Ea) as [Ha Hb].
    mstep (malloc_or_fail_calm s Hs). pose proof (zlen_l2_disk cs _ Hsh) as Hlen.
    mstep (pread_bytes a _ cs Hb ltac:(lia) ltac:(lia)).
    rewrite (bind_ok _ _ _ _ _ (ensure_ok (cs =? cs) s (Z.eqb_refl _))).
    rewrite (proj2 (Z.ltb_ge cs 4)) by lia. rewrite <- trailer_calc.
    change (_qcow2_get32 _ _ =? _) with (l2_crc_ok cs (l2_disk cs (tbl 0%nat))). rewrite l2_disk_crc by done.
    rewrite (bind_ok _ _ _ _ _ (ensure_ok true s eq_refl)).
    rewrite (proj2 (Z.ltb_ge cs (8 * _))) by lia. rewrite <- Hn at 1. by rewrite l2_disk_entries. }
  mstep E. assert (IH' := IH (λ j, tbl (S j)) Hcs (λ j x Hj, Hl (S j) x Hj)). mstep IH'.
  by rewrite <- fmap_S_seq, <- list_fmap_compose.
Qed.

(** *** The whole image *)
Context (q : lbd_qcow2) (g : ghost) (Him : image f q g).
Local Abbreviation cs := (cluster_size q).
Local Abbreviation l2n := (l2_entries q).

Definition im_of (l1 : list Z) : ctl_image := CtlImg (cluster_bits q) cs l2n (virtual_size q) (l1_offset q) (l1_size q) l1.

Lemma im_geom_cs : 4096 ≤ cs ≤ 2 ^ 24 ∧ 0 < l2n < 2 ^ 22.
Proof. pose proof (im_geom _ _ _ Him) as Hg. pose proof (geom_cs _ Hg). pose proof (l2n_bounds _ Hg). lia. Qed.

Lemma ctl_open_ok : ctl_open path s = (Ok (im_of []), s).
Proof.
  destruct (header_fields _ _ _ Him) as (F1 & _ & F3 & F4 & F5 & F6 & _ & _).
  pose proof (im_geom _ _ _ Him) as Hg. pose proof (header_length _ _ _ (im_disk _ _ _ Him)) as Hlen.
  pose proof (ge_bits _ Hg). pose proof im_geom_cs as [Hcs _].
  unfold ctl_open. mstep (u_open_calm s Hs path f Hf). rewrite (bind_ok _ _ _ _ _ (ensure_ok true s eq_refl)).
  mstep (pread_bytes 0 (read_at f 0 4096) LBD_QCOW2_HEADER_SIZE ltac:(by apply bytes_at_read_at)
    ltac:(by rewrite zlen_read_at) ltac:(lia)).
  rewrite (bind_ok _ _ _ _ _ (ensure_ok (LBD_QCOW2_HEADER_SIZE =? LBD_QCOW2_HEADER_SIZE) s eq_refl)).
  rewrite F1, F3, F4, F5, F6. rewrite (bind_ok _ _ _ _ _ (ensure_ok (LBD_QCOW2_MAGIC =? LBD_QCOW2_MAGIC) s eq_refl)).
  rewrite Z.geb_leb, (proj2 (Z.leb_gt _ _)) by lia.
  rewrite Z.shiftl_1_l, <- (ge_cs _ Hg), !u32_small by (unfold LBD_QCOW2_L2_TRAILER_SIZE; lia).
  unfold im_of. by rewrite (ge_l2n _ Hg).
Qed.

Lemma ctl_read_l1_ok : ctl_read_l1 path (im_of []) s = (Ok (im_of (l1_table q)), s).
Proof.
  destruct (l1_read _ _ _ Him) as [Hle Hl1]. pose proof (im_l1 _ _ _ Him). destruct (wd_l1off _ _ _ _ (im_disk _ _ _ Him)).
  unfold ctl_read_l1. mstep (malloc_or_fail_calm s Hs). cbn [im_of ci_l1_size ci_l1off].
  mstep (pread_bytes (l1_offset q) (read_at f (l1_offset q) (l1_size q * 8)) (l1_size q * 8)
    ltac:(apply bytes_at_read_at; lia) ltac:(rewrite zlen_read_at; lia) ltac:(lia)).
  rewrite (bind_ok _ _ _ _ _ (ensure_ok (l1_size q * 8 =? l1_size q * 8) s (Z.eqb_refl _))). by rewrite Hl1.
Qed.

Definition im_l2 : list (list Z) := (λ j, g_tbl g (Z.of_nat j)) <$> seq 0 (length (l1_table q)).

Lemma ctl_read_l2_image : ctl_read_l2 path cs l2n (l1_table q) s = (Ok im_l2, s).
Proof.
  pose proof (im_geom _ _ _ Him) as Hg. rewrite (ge_l2n _ Hg).
  apply (ctl_read_l2_ok cs _ (λ j, g_tbl g (Z.of_nat j))); [apply im_geom_cs|].
  intros j a Hj. pose proof (wd_l2 _ _ _ _ (im_disk _ _ _ Him) (Z.of_nat j) ltac:(lia)) as H2.
  unfold l1_at in H2. by rewrite Nat2Z.id, Hj in H2.
Qed.

(** The entry of a cluster. *)
Lemma ctl_entry_ok ci : 0 ≤ ci < l1_size q * l2n →
  ctl_entry (im_of (l1_table q)) im_l2 ci s = (Ok (ent l2n (g_tbl g) ci), s).
Proof.
  intros Hci. pose proof (im_geom _ _ _ Him) as Hg. pose proof im_geom_cs as [_ Hn]. pose proof (ge_l1_size _ Hg).
  assert (Hi : 0 ≤ ci / l2n < l1_size q) by (split; [apply Z.div_pos; lia|apply Z.div_lt_upper_bound; lia]).
  pose proof (Z.mod_pos_bound ci l2n ltac:(lia)).
  unfold ctl_entry, ent. cbn [im_of ci_l2n ci_l1_size ci_l1]. rewrite (proj2 (Z.eqb_neq _ _)) by lia.
  rewrite !u32_small by lia. rewrite Z.geb_leb, (proj2 (Z.leb_gt _ _)) by lia.
  pose proof (l1_lookup q (ci / l2n) Hg Hi) as Hlk. mstep (arr_get_ok (l1_table q) (ci / l2n) _ s ltac:(lia) Hlk).
  destruct (wd_l2 _ _ _ _ (im_disk _ _ _ Him) (ci / l2n) ltac:(lia)) as (_ & Hlen & Hz & _).
  rewrite <- (ge_l2n _ Hg) in Hlen, Hz.
  destruct (Z.eqb_spec (l1_at q (ci / l2n)) 0) as [E|E].
  { rewrite (Hz E). by rewrite lookup_replicate_2 by lia. }
  assert (Ht : im_l2 !! Z.to_nat (ci / l2n) = Some (g_tbl g (ci / l2n))).
  { unfold im_l2. rewrite list_lookup_fmap, lookup_seq_lt; [simpl; by rewrite Z2Nat.id by lia|].
    by apply lookup_lt_Some in Hlk. }
  mstep (arr_get_ok im_l2 (ci / l2n) _ s ltac:(lia) Ht). unfold zlen in Hlen.
  destruct (lookup_lt_is_Some_2 (g_tbl g (ci / l2n)) (Z.to_nat (ci mod l2n))) as [e He]; [lia|].
  rewrite He. simpl. apply arr_get_ok; [lia|done].
Qed.

(** A cluster is zero where it has no entry, and read where it has one. *)
Lemma cluster_cases ci : 0 ≤ ci → (∀ c, g_bv g c = None) →
  (ent l2n (g_tbl g) ci = 0 ∧ g_view g ci = zeros cs)
  ∨ (ent l2n (g_tbl g) ci ≠ 0 ∧ ctl_read_cluster path cs (ent l2n (g_tbl g) ci) s = (Ok (g_view g ci), s)).
Proof.
  intros Hci Hb. pose proof (im_disk _ _ _ Him) as Hd.
  destruct (decide (ent l2n (g_tbl g) ci = 0)) as [E|E]; [left; split; [done|]|right; split; [done|]].
  - rewrite (wd_zero _ _ _ _ Hd ci Hci ltac:(tauto) E). by rewrite Hb.
  - destruct (wd_data _ _ _ _ Hd ci Hci ltac:(tauto) E) as (sz & He & _). eapply ctl_read_cluster_ok; [apply im_geom_cs|exact He].
Qed.
End Calls.

(** ** extract *)
Section Extract.
Variables (inp out f : bytes) (q : lbd_qcow2) (g : ghost).
Hypotheses (Hne : inp ≠ out) (Him : image f q g) (Hbv : ∀ c, g_bv g c = None).
Hypothesis (Hv : virtual_size q < 2 ^ 62 ∧ virtual_size q ≤ l1_size q * l2_entries q * cluster_size q).
Local Abbreviation cs := (cluster_size q).
Local Abbreviation vs := (virtual_size q).
Local Abbreviation V := (vbyte (g_view g) cs).

(** The source is there, the first [n] bytes of the output are written. *)
Record extracting (s : ufs) (n : Z) : Prop := {
  ex_calm : calm s;
  ex_inp : lookup_file inp (u_files s) = Some f;
  ex_out : ∃ c, lookup_file out (u_files s) = Some c ∧ zlen c = vs
    ∧ ∀ o, 0 ≤ o < vs → nth (Z.to_nat o) c x00 = if decide (o < n) then V o else x00
}.

Lemma extracting_zero s ci : extracting s (ci * cs) → 0 ≤ ci → g_view g ci = zeros cs → extracting s ((ci + 1) * cs).
Proof.
  intros [Hc Hi (c & Ho & Hl & Hn)] Hci Hz. split; [done|done|]. exists c. split_and!; [done|done|].
  pose proof (im_geom_cs _ _ _ Him) as [Hcs _]. intros o Hr. rewrite Hn by done.
  case_decide; [by rewrite decide_True by lia|]. case_decide; [|done].
  unfold vbyte. assert (E : o / cs = ci) by (symmetry; apply Z.div_unique with (o - ci * cs); lia).
  rewrite E, Hz. by rewrite nth_zeros.
Qed.

Lemma extracting_write s ci b n c : extracting s (ci * cs) → 0 ≤ ci → b = read_at (g_view g ci) 0 n →
  n = Z.min cs (vs - ci * cs) → 0 < n → lookup_file out (u_files s) = Some c →
  extracting (set_file out (write_at c (ci * cs) b) s) ((ci + 1) * cs).
Proof.
  intros [Hc Hi (c' & Ho & Hl & Hn)] Hci -> En Hn0 Ec. rewrite Ec in Ho. injection Ho as <-.
  pose proof (im_geom_cs _ _ _ Him) as [Hcs _]. pose proof (wd_view _ _ _ _ (im_disk _ _ _ Him) ci Hci) as Hlv.
  set (b := read_at (g_view g ci) 0 n). assert (Hb : zlen b = n) by (apply zlen_read_at; lia).
  split; [done|by rewrite lookup_set_file_ne|]. exists (write_at c (ci * cs) b). rewrite lookup_set_file.
  split; [done|]. split.
  - rewrite zlen_write_at by lia. case_decide; lia.
  - intros o Hr. rewrite nth_lookup, lookup_write_at by lia. unfold zlen in Hb, Hlv.
    case_decide as Hd.
    + rewrite decide_True by lia. unfold b, read_at. rewrite drop_0, lookup_take_lt by lia.
      unfold vbyte. assert (E : o / cs = ci) by (symmetry; apply Z.div_unique with (o - ci * cs); lia).
      rewrite E, nth_lookup. do 2 f_equal. rewrite Z.mod_eq by lia. rewrite E. lia.
    + rewrite decide_False by (unfold zlen in *; lia). rewrite <- nth_lookup, Hn by done.
      case_decide; [by rewrite decide_True by lia|]. by rewrite decide_False by lia.
Qed.

Lemma extract_cluster_ok s ci : extracting s (ci * cs) → 0 ≤ ci → ci * cs < vs →
  ∃ s', extract_cluster inp out (im_of q (l1_table q)) (im_l2 q g) ci s = (Ok tt, s') ∧ extracting s' ((ci + 1) * cs).
Proof.
  intros Hx Hci Hlt. pose proof Hx as [Hc Hi (c & Ho & Hl & _)]. pose proof (im_geom_cs _ _ _ Him) as [Hcs Hn].
  unfold extract_cluster. mstep (ctl_entry_ok s f q g Him ci ltac:(nia)).
  destruct (cluster_cases s inp f Hc Hi q g Him ci Hci Hbv) as [[E Hz]|[E Er]].
  { rewrite E. exists s. split; [done|]. by apply extracting_zero. }
  rewrite (proj2 (Z.eqb_neq _ _)) by done. cbn [im_of ci_cs ci_vsize].
  set (n := if u64 ((ci + 1) * cs) >? vs then u64 (vs - u64 (ci * cs)) else cs).
  assert (En : n = Z.min cs (vs - ci * cs)).
  { unfold n. rewrite (u64_small ((ci + 1) * cs)), Z.gtb_ltb by nia.
    destruct (Z.ltb_spec vs ((ci + 1) * cs)); [|lia]. rewrite (u64_small (ci * cs)), u64_small by lia. lia. }
  mstep Er. rewrite (u64_small (ci * cs)) by nia.
  mstep (u_pwrite_calm s Hc out c (read_at (g_view g ci) 0 n) (ci * cs) Ho ltac:(nia)).
  pose proof (wd_view _ _ _ _ (im_disk _ _ _ Him) ci Hci) as Hlv.
  rewrite zlen_read_at by lia. eexists. split; [apply ensure_ok, Z.eqb_refl|].
  apply (extracting_write s ci _ n c); [done|done|done|done|lia|done].
Qed.

Lemma extract_loop_ok n : ∀ s ci, extracting s (ci * cs) → 0 ≤ ci → (n ≠ O → (ci + Z.of_nat n - 1) * cs < vs) →
  ∃ s', extract_loop inp out (im_of q (l1_table q)) (im_l2 q g) n ci s = (Ok tt, s')
    ∧ extracting s' ((ci + Z.of_nat n) * cs).
Proof.
  pose proof (im_geom_cs _ _ _ Him) as [Hcs _].
  induction n as [|n IH]; intros s ci Hx Hci Hb; [exists s; by rewrite Z.add_0_r|].
  destruct (extract_cluster_ok s ci Hx Hci) as (s1 & E1 & X1); [specialize (Hb ltac:(done)); nia|].
  destruct (IH s1 (ci + 1) X1) as (s2 & E2 & X2); [lia|intros; specialize (Hb ltac:(done)); nia|].
  exists s2. cbn [extract_loop]. mstep E1. split; [done|].
  by replace (ci + Z.of_nat (S n)) with (ci + 1 + Z.of_nat n) by lia.
Qed.

(** The number of clusters covers the disk and no more. *)
Lemma total_clusters_ok s : total_clusters (im_of q (l1_table q)) s = (Ok ((vs + cs - 1) / cs), s)
  ∧ 0 ≤ (vs + cs - 1) / cs ∧ vs ≤ (vs + cs - 1) / cs * cs ∧ ((vs + cs - 1) / cs ≠ 0 → ((vs + cs - 1) / cs - 1) * cs < vs).
Proof.
  pose proof (im_geom_cs _ _ _ Him) as [Hcs _]. pose proof (im_vsize _ _ _ Him) as Hvs.
  pose proof (Z.div_mod (vs + cs - 1) cs ltac:(lia)). pose proof (Z.mod_pos_bound (vs + cs - 1) cs ltac:(lia)).
  split; [|split; [apply Z.div_pos; lia|nia]].
  unfold total_clusters. cbn [im_of ci_cs ci_vsize]. rewrite (proj2 (Z.eqb_neq _ _)) by lia. by rewrite u64_small by lia.
Qed.

Lemma cmd_extract_ok s : calm s → lookup_file inp (u_files s) = Some f →
  ∃ s', cmd_extract inp out s = (Ok (extract_text inp out vs), s') ∧ calm s' ∧ lookup_file inp (u_files s') = Some f
    ∧ lookup_file out (u_files s') = Some (slice V 0 vs).
Proof.
  intros Hc Hi. pose proof (im_geom_cs _ _ _ Him) as [Hcs _]. pose proof (im_vsize _ _ _ Him) as Hvs. unfold cmd_extract.
  mstep (ctl_open_ok s inp f Hc Hi q g Him). mstep (malloc_tables_calm s Hc 3).
  mstep (ctl_read_l1_ok s inp f Hc Hi q g Him). mstep (u_creat_calm s Hc out).
  rewrite (bind_ok _ _ _ _ _ (ensure_ok true _ eq_refl)). set (s1 := set_file out [] s).
  change (ci_vsize _) with vs. mstep (u_ftruncate_calm s1 Hc out [] vs (lookup_set_file _ _ _) ltac:(lia)).
  rewrite (bind_ok _ _ _ _ _ (ensure_ok (0 <=? 0) _ eq_refl)).
  rewrite take_nil, app_nil_l. change (zlen []) with 0. rewrite Z.sub_0_r. set (s2 := set_file out (zeros vs) s1).
  assert (Hi2 : lookup_file inp (u_files s2) = Some f) by (unfold s2, s1; by rewrite !lookup_set_file_ne).
  mstep (malloc_or_fail_calm s2 Hc). cbn [im_of ci_cs ci_l2n ci_l1].
  mstep (ctl_read_l2_image s2 inp f Hc Hi2 q g Him).
  destruct (total_clusters_ok s2) as (Et & Hn0 & Hge & Hlt). fold (im_of q (l1_table q)). mstep Et.
  destruct (extract_loop_ok (Z.to_nat ((vs + cs - 1) / cs)) s2 0) as (s3 & E3 & [Hc3 Hi3 (c & Ho & Hl & Hn)]); [|lia|lia|].
  { split; [done|done|]. exists (zeros vs). unfold s2. rewrite lookup_set_file. split; [done|].
    split; [unfold zlen; rewrite length_zeros; lia|]. intros o Ho. rewrite decide_False by lia. apply nth_zeros. }
  exists s3. mstep E3. split; [done|]. split; [done|]. split; [done|]. rewrite Ho. f_equal.
  apply list_eq. intros i. unfold slice. rewrite list_lookup_fmap. unfold zlen in Hl.
  destruct (decide (i < Z.to_nat vs)%nat) as [Hi'|Hi'].
  - rewrite lookup_seq_lt by done. simpl. specialize (Hn (Z.of_nat i) ltac:(lia)).
    rewrite decide_True, Nat2Z.id, nth_lookup in Hn by lia.
    destruct (lookup_lt_is_Some_2 c i) as [x Hx]; [lia|]. rewrite Hx in *. simpl in Hn. by rewrite Hn.
  - rewrite lookup_seq_ge by lia. apply lookup_ge_None. lia.
Qed.
End Extract.
End Reading.
