(* ===== verification/CtlPackProof.v ===== *)
(** * Building an image in the control tool: what [lbdctl convert] and [compact]
      write is an image

    The clusters packed so far, their tables and the owner of every byte of the
    output are tracked by [packing]; finishing the file gives [image], the
    precondition of opening it in the driver. *)
From S2P Require Import Prelude Kernel Format Crc Posix Qcow2State Qcow2Alloc Qcow2Cache Qcow2Io.
From S2P Require Import Qcow2Inv Qcow2AllocProof Qcow2Wf Qcow2CacheProof Qcow2WriteProof Qcow2IoProof.
From S2P Require Import Flat Qcow2Refine Qcow2InitProof CtlImage CtlCreateProof CtlExtractProof.

Lemma is_all_zero_spec b : is_all_zero b = true ↔ b = zeros (zlen b).
Proof.
  unfold is_all_zero. split.
  - intros Hz. apply list_eq. intros i. unfold zeros, zlen. rewrite Nat2Z.id.
    destruct (b !! i) as [x|] eqn:E.
    + rewrite lookup_replicate_2 by (by apply lookup_lt_Some in E). f_equal. apply b2z_inj.
      rewrite forallb_forall in Hz. apply Z.eqb_eq, Hz. apply list_elem_of_In. by eapply list_elem_of_lookup_2.
    + apply lookup_ge_None in E. symmetry. apply lookup_ge_None. by rewrite length_replicate.
  - intros ->. apply forallb_forall. intros x Hx. apply list_elem_of_In, elem_of_replicate in Hx as [-> _]. done.
Qed.

Section Packing.
Context `{HZ : LZ4Laws} `{HCr : CrcLaws} `{!Crc32cStandard}.

(** ** The output file *)
Section Out.
Variables (out : bytes) (rest : bytes → option bytes).

(** The output holds [f]; the other files are [rest]. *)
Record on_out (s : ufs) (f : bytes) : Prop := {
  oo_calm : calm s;
  oo_out : lookup_file out (u_files s) = Some f;
  oo_rest p : p ≠ out → lookup_file p (u_files s) = rest p
}.

Lemma out_pwrite s f d pos : on_out s f → 0 ≤ pos < 2 ^ 63 →
  ∃ s', u_pwrite out d pos s = (Ok (zlen d), s') ∧ on_out s' (write_at f pos d).
Proof.
  intros [Hc Ho Hr] Hp. eexists. split; [by apply u_pwrite_calm|]. split; [done|apply lookup_set_file|].
  intros p Hne. rewrite lookup_set_file_ne by done. auto.
Qed.

(** A whole write and the check of its result. *)
Lemma out_write s f d pos n : on_out s f → 0 ≤ pos < 2 ^ 63 → n = zlen d →
  ∃ s', (∀ B (k : M ufs B), (r ← u_pwrite out d pos; ensure (r =? n);; k) s = k s') ∧ on_out s' (write_at f pos d).
Proof.
  intros Ho Hp ->. destruct (out_pwrite s f d pos Ho Hp) as (s' & E & Ho'). exists s'. split; [|done].
  intros B k. mstep E. by rewrite (bind_ok _ _ _ _ _ (ensure_ok (zlen d =? zlen d) s' (Z.eqb_refl _))).
Qed.
End Out.

(** ** Clusters *)
Section Clusters.
Variables (cs l1n A0 : Z) (own0 : Z → tag) (src : Z → bytes).
Hypotheses (Hcs : 4096 ≤ cs ≤ 2 ^ 24) (Hal : ∃ m, cs = 4096 * m) (HA0 : 0 < A0).
Hypothesis (Hsrc : ∀ c, 0 ≤ c → zlen (src c) = cs).
Local Abbreviation l2n := (l2_entries_of cs).

Definition l1p (p : pack) (i : Z) : Z := default 0 (p_l1 p !! Z.to_nat i).
Definition ptbl (p : pack) (i : Z) : list Z := default (replicate (Z.to_nat l2n) 0) (p_l2 p !! Z.to_nat i).

(** The clusters below [n] are in the file [f] or zero; the data ends by [B]. *)
Record packing (f : bytes) (p : pack) (own : Z → tag) (n B : Z) : Prop := {
  pk_l1 : zlen (p_l1 p) = l1n;
  pk_l2 : zlen (p_l2 p) = l1n;
  pk_alloc : A0 ≤ p_alloc p ≤ B;
  pk_none o : p_alloc p ≤ o → own o = TNone;
  pk_low o : o < A0 → own o = own0 o;
  pk_shape i : 0 ≤ i → l2_shape cs (ptbl p i) ∧ zlen (ptbl p i) = l2n;
  pk_pos i : 0 ≤ i → l1p p i ≠ 0 → A0 ≤ l1p p i ∧ owns own (l1p p i) cs (TL2 i);
  pk_absent i : 0 ≤ i → l1p p i = 0 → ptbl p i = replicate (Z.to_nat l2n) 0;
  pk_data c : 0 ≤ c → ent l2n (ptbl p) c ≠ 0 → c < n ∧ ∃ sz,
    entry_holds f cs (ent l2n (ptbl p) c) (src c) sz ∧ owns own (phys_of (ent l2n (ptbl p) c)) sz (TData c);
  pk_zero c : 0 ≤ c < n → ent l2n (ptbl p) c = 0 → src c = zeros cs
}.

(** A region that has an owner ends before the cursor. *)
Lemma packed_below f p own n B a m t : packing f p own n B → owns own a m t → t ≠ TNone → 0 < m → a + m ≤ p_alloc p.
Proof.
  intros Hp Ho Ht Hm. destruct (decide (a + m ≤ p_alloc p)); [done|]. exfalso. apply Ht.
  rewrite <- (Ho (a + m - 1)) by lia. apply (pk_none _ _ _ _ _ Hp). lia.
Qed.

(** Tagging new bytes at the cursor leaves what is owned alone. *)
Lemma retag_above f p own n B a m t u sz : packing f p own n B → owns own a m t → t ≠ TNone → 0 < m →
  owns (retag own (p_alloc p) sz u) a m t.
Proof.
  intros Hp Ho Ht Hm o Hr. pose proof (packed_below _ _ _ _ _ _ _ _ Hp Ho Ht Hm).
  rewrite retag_out by lia. by apply Ho.
Qed.

(** The zero clusters need no data. *)
Lemma pack_skip f p own n B B' : packing f p own n B → B ≤ B' → src n = zeros cs → packing f p own (n + 1) B'.
Proof.
  intros [] HB Hz. split; try done; [lia|..].
  - intros c Hc He. destruct (pk_data0 c Hc He). split; [lia|done].
  - intros c Hc He. destruct (decide (c = n)) as [->|]; [done|]. apply pk_zero0; [lia|done].
Qed.

Lemma entry_sz f e b sz : entry_holds f cs e b sz → 0 < sz.
Proof. intros He. pose proof (entry_size f cs e b sz Hcs He). lia. Qed.

(** A new L2 table at the cursor. *)
Lemma pack_table f p own n B i : packing f p own n B → 0 ≤ i < l1n → l1p p i = 0 →
  packing f (Pack (<[Z.to_nat i := p_alloc p]> (p_l1 p)) (p_l2 p) (p_alloc p + cs))
    (retag own (p_alloc p) cs (TL2 i)) n (B + cs)
  ∧ l1p (Pack (<[Z.to_nat i := p_alloc p]> (p_l1 p)) (p_l2 p) (p_alloc p + cs)) i ≠ 0.
Proof.
  intros Hp Hi Hz. set (p' := Pack _ _ _). pose proof Hp as []. unfold zlen in *.
  assert (Hl : ∀ j, 0 ≤ j → l1p p' j = if decide (j = i) then p_alloc p else l1p p j).
  { intros j Hj. unfold l1p. simpl. case_decide as E; [subst j; by rewrite list_lookup_insert_eq by lia|].
    by rewrite list_lookup_insert_ne by lia. }
  split; [|rewrite Hl, decide_True by lia; lia]. split; try done.
  - simpl. unfold zlen. by rewrite length_insert.
  - simpl. lia.
  - simpl. intros o Ho. rewrite retag_out by lia. apply pk_none0. lia.
  - intros o Ho. rewrite retag_out by lia. by apply pk_low0.
  - intros j Hj. rewrite Hl by done. case_decide as E.
    + intros _. subst j. split; [lia|]. apply retag_in.
    + intros Hne. destruct (pk_pos0 j Hj Hne) as [? Ho]. split; [done|].
      eapply retag_above; [exact Hp|exact Ho|done|lia].
  - intros j Hj. rewrite Hl by done. case_decide; [lia|]. by apply pk_absent0.
  - intros c Hc He. destruct (pk_data0 c Hc He) as (? & sz & Hh & Ho). split; [done|]. exists sz. split; [done|].
    eapply retag_above; [exact Hp|exact Ho|done|by eapply entry_sz].
Qed.

(** The data of cluster [n] at the cursor. *)
Definition put_entry (p : pack) (i j v sz : Z) : pack :=
  Pack (p_l1 p) (<[Z.to_nat i := <[Z.to_nat j := v]> (ptbl p i)]> (p_l2 p)) (p_alloc p + sz).

Lemma ptbl_put p n v sz i : 0 ≤ n → n / l2n < zlen (p_l2 p) → 0 < l2n → 0 ≤ i →
  ptbl (put_entry p (n / l2n) (n mod l2n) v sz) i = set_ent l2n (ptbl p) n v i.
Proof.
  intros Hn Hlt H2 Hi. pose proof (Z.div_pos n l2n Hn H2). unfold zlen in Hlt. unfold set_ent, fupd, ptbl at 1. simpl.
  case_decide as E; [subst i; by rewrite list_lookup_insert_eq by lia|].
  by rewrite list_lookup_insert_ne by lia.
Qed.

Lemma l2n_pos : 511 ≤ l2n < 2 ^ 22 ∧ 8 * l2n ≤ cs - 8.
Proof.
  unfold l2_entries_of, LBD_QCOW2_L2_TRAILER_SIZE.
  pose proof (Z.div_mod (cs - 8) 8). pose proof (Z.mod_pos_bound (cs - 8) 8). lia.
Qed.

Lemma pack_entry f f' p own n B v sz : packing f p own n B → 0 ≤ n < l1n * l2n → l1p p (n / l2n) ≠ 0 →
  keeps own (λ t, t = TNone) f f' → 0 ≤ v < 2 ^ 64 → entry_holds f' cs v (src n) sz → phys_of v = p_alloc p →
  packing f' (put_entry p (n / l2n) (n mod l2n) v sz) (retag own (p_alloc p) sz (TData n)) (n + 1) (B + sz).
Proof.
  intros Hp Hn Hl1 Hk Hv He Hph. pose proof l2n_pos as [H2 _]. pose proof Hp as []. pose proof (entry_sz _ _ _ _ He) as Hsz.
  assert (Hi : 0 ≤ n / l2n < l1n) by (split; [apply Z.div_pos; lia|apply Z.div_lt_upper_bound; lia]).
  pose proof (Z.mod_pos_bound n l2n ltac:(lia)) as Hm.
  assert (Hpt : ∀ i, 0 ≤ i → ptbl (put_entry p (n / l2n) (n mod l2n) v sz) i = set_ent l2n (ptbl p) n v i)
    by (intros; apply ptbl_put; lia).
  assert (Hent : ∀ c, 0 ≤ c → ent l2n (ptbl (put_entry p (n / l2n) (n mod l2n) v sz)) c
    = if decide (c = n) then v else ent l2n (ptbl p) c).
  { intros c Hc. unfold ent at 1. rewrite Hpt by (apply Z.div_pos; lia). fold (ent l2n (set_ent l2n (ptbl p) n v) c).
    case_decide as E; [subst c; apply ent_set_eq|apply ent_set_ne; lia].
    destruct (pk_shape0 (n / l2n) ltac:(lia)) as [_ Hz]. unfold zlen in Hz. lia. }
  split; try done.
  - simpl. unfold zlen in *. by rewrite length_insert.
  - simpl. lia.
  - simpl. intros o Ho. rewrite retag_out by lia. apply pk_none0. lia.
  - intros o Ho. rewrite retag_out by lia. by apply pk_low0.
  - intros i Hi0. rewrite Hpt by done. unfold set_ent, fupd. case_decide; [|by apply pk_shape0]. subst i.
    destruct (pk_shape0 (n / l2n) ltac:(lia)) as [Hs Hz]. split; [by apply l2_shape_insert|].
    unfold zlen in *. by rewrite length_insert.
  - intros i Hi0 Hne. destruct (pk_pos0 i Hi0 Hne) as [? Ho]. split; [done|].
    eapply retag_above; [exact Hp|exact Ho|done|lia].
  - intros i Hi0 Hz. rewrite Hpt by done. unfold set_ent, fupd. case_decide; [by subst i|by apply pk_absent0].
  - intros c Hc. rewrite Hent by done. case_decide as E.
    + intros _. subst c. split; [lia|]. exists sz. split; [done|]. rewrite Hph. apply retag_in.
    + intros Hne. destruct (pk_data0 c Hc Hne) as (? & sz' & Hh & Ho). split; [lia|]. exists sz'. split.
      * eapply (entry_holds_mono f f' cs _ _ _ own _ c); [exact Hk|done|exact Ho|lia|exact Hh].
      * eapply retag_above; [exact Hp|exact Ho|done|by eapply entry_sz].
  - intros c Hc. rewrite Hent by lia. case_decide as E; [|intros; apply pk_zero0; [lia|done]].
    intros ->. destruct He as (Hph' & _). unfold phys_of in Hph'. rewrite Z.land_0_l in Hph'. lia.
Qed.

(** *** [pack_cluster] *)
Lemma total_on_disk_eq n : 0 ≤ n ≤ 2 ^ 25 → Z.land (u32 (4 + n + 4095)) (u32 (Z.lnot 4095)) = ALIGN4096 (4 + n).
Proof.
  intros Hn. unfold ALIGN4096. rewrite u32_small by lia.
  assert (E : Z.land (4 + n + 4095) (Z.lnot 4095) = 4096 * ((4 + n + 4095) / 4096)).
  { transitivity (Z.ldiff (4 + n + 4095) (Z.ones 12)); [by rewrite Z.ldiff_land|].
    rewrite Z.ldiff_ones_r by lia. rewrite Z.shiftl_mul_pow2, Z.shiftr_div_pow2 by lia. change (2 ^ 12) with 4096. lia. }
  assert (E' : Z.land (4 + n + 4095) (u32 (Z.lnot 4095)) = Z.land (4 + n + 4095) (Z.lnot 4095)).
  { unfold u32. rewrite <- (Z.land_ones (Z.lnot 4095) 32) by lia. rewrite Z.land_assoc, (Z.land_comm _ (Z.ones 32)).
    rewrite Z.land_assoc, (Z.land_comm (Z.ones 32)), Z.land_ones, Z.mod_small by lia. done. }
  rewrite E', E. pose proof (Z.div_mod (4 + n + 4095) 4096). pose proof (Z.mod_pos_bound (4 + n + 4095) 4096).
  rewrite u64_small; lia.
Qed.

Lemma pack_weaken f p own n B B' : packing f p own n B → B ≤ B' → packing f p own n B'.
Proof. intros [] ?. split; try done. lia. Qed.

(** The table of the cluster is there or allocated first. *)
Lemma pack_ready f p own n B i : packing f p own n B → 0 ≤ i < l1n → B + cs < 2 ^ 63 →
  let p1 := if l1p p i =? 0
            then Pack (<[Z.to_nat i := p_alloc p]> (p_l1 p)) (p_l2 p) (u64 (p_alloc p + cs)) else p in
  ∃ own1, packing f p1 own1 n (B + cs) ∧ l1p p1 i ≠ 0.
Proof.
  intros Hp Hi HB p1. pose proof (pk_alloc _ _ _ _ _ Hp). subst p1. destruct (Z.eqb_spec (l1p p i) 0) as [E|E].
  - rewrite u64_small by lia. destruct (pack_table f p own n B i Hp Hi E) as [Hp1 Hl]. by eexists.
  - exists own. split; [|done]. apply (pack_weaken _ _ _ _ B); [done|lia].
Qed.

Lemma p_l1_lookup f p own n B i : packing f p own n B → 0 ≤ i < l1n → p_l1 p !! Z.to_nat i = Some (l1p p i).
Proof.
  intros Hp Hi. pose proof (pk_l1 _ _ _ _ _ Hp). unfold l1p, zlen in *.
  destruct (lookup_lt_is_Some_2 (p_l1 p) (Z.to_nat i)) as [x ->]; [lia|done].
Qed.
Lemma p_l2_lookup f p own n B i : packing f p own n B → 0 ≤ i < l1n → p_l2 p !! Z.to_nat i = Some (ptbl p i).
Proof.
  intros Hp Hi. pose proof (pk_l2 _ _ _ _ _ Hp). unfold ptbl, zlen in *.
  destruct (lookup_lt_is_Some_2 (p_l2 p) (Z.to_nat i)) as [x ->]; [lia|done].
Qed.

(** A write at the cursor touches nothing that has an owner. *)
Lemma keeps_at_cursor f p own n B f' pos d : packing f p own n B → p_alloc p ≤ pos →
  keeps own (λ t, t = TNone) f f' → keeps own (λ t, t = TNone) f (write_at f' pos d).
Proof.
  intros Hp Hpos Hk. pose proof (pk_alloc _ _ _ _ _ Hp). eapply keeps_trans; [exact Hk|].
  apply keeps_write; [lia|]. intros o Ho. apply (pk_none _ _ _ _ _ Hp). lia.
Qed.

Lemma pack_cluster_ok out rest s f p own n B : on_out out rest s f → packing f p own n B → 0 ≤ n < l1n * l2n →
  l1n ≤ 2 ^ 32 → B + 2 * cs < 2 ^ 62 →
  ∃ s' f' p' own', pack_cluster out cs (n / l2n) (n mod l2n) (src n) p s = (Ok p', s')
    ∧ on_out out rest s' f' ∧ packing f' p' own' (n + 1) (B + 2 * cs).
Proof.
  intros Ho Hp Hn Hl1n HB. pose proof l2n_pos as [H2 _].
  assert (Hi : 0 ≤ n / l2n < l1n) by (split; [apply Z.div_pos; lia|apply Z.div_lt_upper_bound; lia]).
  unfold pack_cluster. mstep (arr_get_ok (p_l1 p) (n / l2n) _ s ltac:(lia) (p_l1_lookup _ _ _ _ _ _ Hp Hi)).
  destruct (pack_ready f p own n B (n / l2n) Hp Hi ltac:(lia)) as (own1 & Hp1 & Hne). cbv zeta in Hp1, Hne.
  set (p1 := if l1p p (n / l2n) =? 0 then _ else _) in *. clearbody p1. pose proof (pk_alloc _ _ _ _ _ Hp1) as Ha.
  mstep (arr_get_ok (p_l2 p1) (n / l2n) _ s ltac:(lia) (p_l2_lookup _ _ _ _ _ _ Hp1 Hi)).
  set (comp := LZ4_compress (src n) (LZ4_compressBound cs)). pose proof (Hsrc n ltac:(lia)) as Hlen.
  pose proof (proj2 (compressBound_cs cs Hcs)) as Hbd. pose proof (lz4_bound (src n) (LZ4_compressBound cs)) as Hcb.
  fold comp in Hcb. pose proof (zlen_nonneg comp) as Hc0. rewrite (u32_small (zlen comp)) by lia.
  destruct ((zlen comp >? 0) && (zlen comp <? cs - 4)) eqn:Eb.
  - apply andb_prop in Eb as [Eb1%Z.gtb_lt Eb2%Z.ltb_lt]. rewrite total_on_disk_eq by lia.
    assert (Hsz : ALIGN4096 (4 + zlen comp) ≤ cs) by (destruct Hal as [m ->]; apply ALIGN4096_le; lia).
    destruct (ALIGN4096_spec (4 + zlen comp)) as [Hsz0 _]; [lia|].
    rewrite (u64_small (p_alloc p1 + 4)), (u64_small (p_alloc p1 + ALIGN4096 _)) by lia.
    destruct (out_write out rest s f (be32 (zlen comp)) (p_alloc p1) 4) as (s1 & E1 & O1); [done|lia|done|].
    rewrite E1. destruct (out_write out rest s1 _ comp (p_alloc p1 + 4) (zlen comp) O1) as (s2 & E2 & O2); [lia|done|].
    rewrite E2. set (f2 := write_at _ _ comp) in *. eexists s2, f2, _, _. split; [done|]. split; [exact O2|].
    eapply pack_weaken; [eapply (pack_entry f f2 p1 own1 n (B + cs) _ (ALIGN4096 (4 + zlen comp)));
      [exact Hp1|done|done| | | |]|lia].
    + apply (keeps_at_cursor f p1 own1 n (B + cs)); [done|lia|]. apply (keeps_at_cursor f p1 own1 n (B + cs)); [done|lia|].
      apply keeps_refl.
    + pose proof (compressed_entry_range (p_alloc p1) ltac:(lia)). lia.
    + apply entry_compressed; [done|lia|done|rewrite u32_small by lia; lia| |].
      * apply bytes_at_app; [lia|]. split.
        -- apply bytes_at_write_disj; [lia|lia|apply bytes_at_write_same; lia|]. right. by change (zlen (be32 _)) with 4.
        -- change (zlen (be32 _)) with 4. apply bytes_at_write_same. lia.
      * apply lz4_roundtrip; [|lia]. intros E. unfold comp in Eb1. rewrite E in Eb1. done.
    + apply compressed_entry_phys. lia.
  - rewrite (u64_small (p_alloc p1 + cs)) by lia.
    destruct (out_write out rest s f (src n) (p_alloc p1) cs) as (s1 & E1 & O1); [done|lia|done|].
    rewrite E1. set (f1 := write_at f _ _) in *. eexists s1, f1, _, _. split; [done|]. split; [exact O1|].
    eapply pack_weaken; [eapply (pack_entry f f1 p1 own1 n (B + cs) (p_alloc p1) cs); [exact Hp1|done|done| | | |]|lia].
    + apply (keeps_at_cursor f p1 own1 n (B + cs)); [done|lia|apply keeps_refl].
    + lia.
    + apply entry_plain; [lia|done|]. apply bytes_at_write_same. lia.
    + apply plain_entry_phys. lia.
Qed.

(** *** The tables *)
Lemma write_l2_tables_ok out rest own : ∀ l1 l2 k s f, on_out out rest s f → length l1 = length l2 →
  (∀ j a t, l1 !! j = Some a → l2 !! j = Some t → a ≠ 0 →
     0 < a < 2 ^ 62 ∧ owns own a cs (TL2 (k + Z.of_nat j)) ∧ l2_shape cs t) →
  ∃ s' f', write_l2_tables out cs l1 l2 s = (Ok tt, s') ∧ on_out out rest s' f'
    ∧ keeps own (λ t, ∃ i, k ≤ i ∧ t = TL2 i) f f'
    ∧ ∀ j a t, l1 !! j = Some a → l2 !! j = Some t → a ≠ 0 → bytes_at f' a (l2_disk cs t).
Proof.
  induction l1 as [|a l1 IH]; intros [|t l2] k s f Ho Hl Ht; try done.
  { exists s, f. split_and!; [done|done|apply keeps_refl|done]. }
  cbn [write_l2_tables].
  assert (E : ∃ s1 f1, (if a =? 0 then mret tt else
      malloc_or_fail;; n ← u_pwrite out (ctl_l2_disk cs t) a; ensure (n =? cs)) s = (Ok tt, s1)
    ∧ on_out out rest s1 f1 ∧ keeps own (λ u, u = TL2 k) f f1 ∧ (a ≠ 0 → bytes_at f1 a (l2_disk cs t))).
  { destruct (Z.eqb_spec a 0) as [Ea|Ea]; [exists s, f; split_and!; [done|done|apply keeps_refl|done]|].
    destruct (Ht 0%nat a t eq_refl eq_refl Ea) as (Ha & Hown & Hsh). rewrite Z.add_0_r in Hown.
    mstep (malloc_or_fail_calm s (oo_calm _ _ _ _ Ho)). rewrite ctl_l2_disk_eq. pose proof (zlen_l2_disk cs t Hsh) as Hlen.
    destruct (out_pwrite out rest s f (l2_disk cs t) a Ho) as (s1 & E1 & O1); [lia|]. mstep E1. rewrite Hlen.
    eexists s1, _. split; [by apply ensure_ok, Z.eqb_refl|]. split; [exact O1|]. split.
    - apply keeps_write; [lia|]. rewrite Hlen. exact Hown.
    - intros _. apply bytes_at_write_same. lia. }
  destruct E as (s1 & f1 & E1 & O1 & K1 & B1). mstep E1.
  destruct (IH l2 (k + 1) s1 f1 O1) as (s2 & f2 & E2 & O2 & K2 & B2); [by injection Hl| |].
  { intros j a' t' Hj1 Hj2. replace (k + 1 + Z.of_nat j) with (k + Z.of_nat (S j)) by lia. by apply (Ht (S j)). }
  exists s2, f2. split; [done|]. split; [done|]. split.
  - eapply keeps_trans; [eapply keeps_weaken; [exact K1|]|eapply keeps_weaken; [exact K2|]].
    + intros o ->. exists k. split; [lia|done].
    + intros o (i & Hi & ->). exists i. split; [lia|done].
  - intros [|j] a' t' Hj1 Hj2 Hne; [|by apply (B2 j)]. injection Hj1 as ->. injection Hj2 as ->.
    destruct (Ht 0%nat a' t' eq_refl eq_refl Hne) as (Ha & Hown & Hsh). rewrite Z.add_0_r in Hown.
    apply (keeps_bytes _ _ _ _ _ _ (TL2 k) K2); [lia|by rewrite zlen_l2_disk| |by apply B1].
    intros (i & Hi & E). injection E as ->. lia.
Qed.
End Clusters.

(** ** Finishing the file *)
Section Finish.
Variables (bits vs l1n l1off A0 : Z) (src : Z → bytes).
Local Abbreviation cs := (2 ^ bits).
Local Abbreviation l2n := (l2_entries_of cs).
Hypotheses (Hbits : 12 ≤ bits ≤ 24) (Hl1n : 0 < l1n < 2 ^ 32) (Hvs : 0 ≤ vs < 2 ^ 64).
Hypotheses (Hl1off : 4096 ≤ l1off) (HA0 : l1off + 8 * l1n ≤ A0).

(** The owners of the bytes before the first cluster. *)
Definition base_own : Z → tag := λ o,
  if decide (0 ≤ o < 36) then TMeta else if decide (36 ≤ o < 44) then TAlloc
  else if decide (44 ≤ o < 48) then TMeta else if decide (48 ≤ o < 56) then THead
  else if decide (56 ≤ o < 4096) then TMeta
  else if decide (l1off ≤ o < l1off + 8 * l1n) then TL1
  else if decide (0 ≤ o < A0) then TMeta else TNone.

(** The store and the ghost state of the packed image. *)
Definition packed_q (p : pack) : lbd_qcow2 := Qcow2 bits cs l2n vs (p_l1 p) l1n l1off (p_alloc p) 0 [] [] 0.
Definition packed_ghost (p : pack) (own : Z → tag) : ghost := Ghost own [] (ptbl cs p) src (λ _, None).

Lemma pk_cs_bounds : 4096 ≤ cs ≤ 2 ^ 24.
Proof. change 4096 with (2 ^ 12). split; apply Z.pow_le_mono_r; lia. Qed.

Lemma bytes_at_trunc f a d n : bytes_at f a d → 0 ≤ a → a + zlen d ≤ n →
  bytes_at (take (Z.to_nat n) f ++ zeros (n - zlen f)) a d.
Proof.
  intros Hb Ha Hn i Hi. rewrite <- (Hb i Hi). pose proof (bytes_at_bound f a d i Hb Hi). unfold zlen in *.
  rewrite lookup_app_l by (rewrite length_take; lia). by rewrite lookup_take_lt by lia.
Qed.

(** The finished file. *)
Definition finished (f : bytes) (p : pack) : bytes :=
  let f2 := write_at (write_at f 0 (image_header bits vs l1off l1n (p_alloc p))) l1off (flat_map be64 (p_l1 p)) in
  take (Z.to_nat (p_alloc p)) f2 ++ zeros (p_alloc p - zlen f2).

Lemma finish_image_ok out rest s f own n B p : on_out out rest s f → packing cs l1n A0 base_own src f p own n B →
  B < 2 ^ 62 → ∃ s', finish_image out bits vs l1off l1n p s = (Ok tt, s') ∧ on_out out rest s' (finished f p).
Proof.
  intros Ho Hp HB. pose proof (pk_alloc _ _ _ _ _ _ _ _ _ _ Hp) as Ha. pose proof (pk_l1 _ _ _ _ _ _ _ _ _ _ Hp) as Hl.
  unfold finish_image.
  destruct (out_write out rest s f (image_header bits vs l1off l1n (p_alloc p)) 0 LBD_QCOW2_HEADER_SIZE Ho)
    as (s1 & E1 & O1); [lia|by rewrite zlen_header|]. rewrite E1.
  mstep (malloc_or_fail_calm s1 (oo_calm _ _ _ _ O1)).
  destruct (out_write out rest s1 _ (flat_map be64 (p_l1 p)) l1off (l1n * 8) O1) as (s2 & E2 & O2);
    [lia|rewrite zlen_be64s; lia|]. rewrite E2. destruct O2 as [Oc Oo Or].
  mstep (u_ftruncate_calm s2 Oc out _ (p_alloc p) Oo ltac:(lia)).
  eexists. split; [done|]. split; [done|apply lookup_set_file|].
  intros q Hne. rewrite lookup_set_file_ne by done. auto.
Qed.

Section Image.
Variables (f : bytes) (p : pack) (own : Z → tag) (n B : Z).
Hypotheses (Hp : packing cs l1n A0 base_own src f p own n B) (HB : B < 2 ^ 62).
Hypotheses (Htabs : ∀ i, 0 ≤ i → l1p p i ≠ 0 → bytes_at f (l1p p i) (l2_disk cs (ptbl cs p i))).
Hypotheses (Hsrc : ∀ c, 0 ≤ c → zlen (src c) = cs) (Hrest : ∀ c, n ≤ c → src c = zeros cs).
Local Abbreviation F := (finished f p).

(** Finishing the file touches no table and no data. *)
Definition early (t : tag) : Prop := match t with TMeta | TAlloc | THead | TL1 | TNone => True | _ => False end.

Lemma base_own_early o : early (base_own o).
Proof. unfold base_own. by repeat case_decide. Qed.

Lemma keeps_trunc g a : 0 ≤ a → (∀ o, a ≤ o → own o = TNone) →
  keeps own early g (take (Z.to_nat a) g ++ zeros (a - zlen g)).
Proof.
  intros Ha Hn b d Hb Ho Hd. destruct (decide (zlen d = 0)) as [E|E].
  { destruct d; [|done]. intros i Hi. simpl in Hi. lia. }
  pose proof (zlen_nonneg d). apply bytes_at_trunc; [done|done|].
  destruct (decide (b + zlen d ≤ a)); [done|]. exfalso. apply (Ho (b + zlen d - 1)); [lia|]. by rewrite Hn by lia.
Qed.

Lemma fin_keeps : keeps own early f F.
Proof.
  pose proof (pk_alloc _ _ _ _ _ _ _ _ _ _ Hp). pose proof (pk_l1 _ _ _ _ _ _ _ _ _ _ Hp).
  assert (Hlow : ∀ o, o < A0 → early (own o)).
  { intros o Ho. rewrite (pk_low _ _ _ _ _ _ _ _ _ _ Hp) by done. apply base_own_early. }
  unfold finished. cbv zeta. eapply keeps_trans; [|apply keeps_trunc; [lia|apply (pk_none _ _ _ _ _ _ _ _ _ _ Hp)]].
  eapply keeps_trans; apply keeps_write; try lia; intros o Ho; apply Hlow.
  - rewrite zlen_header in Ho. lia.
  - rewrite zlen_be64s in Ho. lia.
Qed.

Lemma fin_header a d : bytes_at (image_header bits vs l1off l1n (p_alloc p)) a d → 0 ≤ a → a + zlen d ≤ 4096 →
  bytes_at F a d.
Proof.
  intros Hb Ha Hle. pose proof (pk_alloc _ _ _ _ _ _ _ _ _ _ Hp). unfold finished. cbv zeta.
  apply bytes_at_trunc; [|lia|lia]. apply bytes_at_write_disj; [lia|lia| |right; lia].
  intros i Hi. rewrite <- (Hb i Hi). pose proof (bytes_at_write_same f 0 (image_header bits vs l1off l1n (p_alloc p)) ltac:(lia)) as Hw.
  pose proof (bytes_at_bound _ _ _ i Hb Hi). rewrite <- (Hw (Z.to_nat a + i)%nat) by lia. f_equal.
Qed.

Lemma fin_l1 i : 0 ≤ i < l1n → bytes_at F (l1off + i * 8) (be64 (l1p p i)).
Proof.
  intros Hi. pose proof (pk_alloc _ _ _ _ _ _ _ _ _ _ Hp). unfold finished. cbv zeta.
  apply bytes_at_trunc; [|lia|change (zlen (be64 _)) with 8; lia].
  pose proof (be64s_at _ _ _ (p_l1_lookup _ _ _ _ _ _ _ _ _ _ i Hp Hi)) as Hb. intros j Hj. rewrite <- (Hb j Hj).
  set (f1 := write_at f 0 _). pose proof (bytes_at_write_same f1 l1off (flat_map be64 (p_l1 p)) ltac:(lia)) as Hw.
  pose proof (bytes_at_bound _ _ _ j Hb Hj). rewrite <- (Hw (Z.to_nat (8 * Z.of_nat (Z.to_nat i)) + j)%nat) by lia.
  f_equal. lia.
Qed.

Lemma zlen_finished : zlen F = p_alloc p.
Proof.
  pose proof (pk_alloc _ _ _ _ _ _ _ _ _ _ Hp). unfold finished. cbv zeta. rewrite zlen_app. set (f2 := write_at _ _ _).
  unfold zlen. rewrite length_take, length_zeros. unfold zlen. lia.
Qed.

Lemma base_owns a m t : (∀ o, a ≤ o < a + m → base_own o = t) → a + m ≤ A0 → owns own a m t.
Proof. intros Hb Hle o Ho. rewrite (pk_low _ _ _ _ _ _ _ _ _ _ Hp) by lia. by apply Hb. Qed.

Lemma packed_image : image F (packed_q p) (packed_ghost p own).
Proof.
  pose proof pk_cs_bounds as Hcs. destruct (l2n_pos cs Hcs) as [H2 H2'].
  destruct (header_bytes bits vs l1off l1n (p_alloc p)) as (F1 & F2 & F3 & F4 & F5 & F6 & F7 & F8 & F9).
  pose proof (pk_alloc _ _ _ _ _ _ _ _ _ _ Hp) as Ha.
  assert (Hl1 : ∀ i, l1_at (packed_q p) i = l1p p i) by done.
  split; [split; simpl; [done|done|done|apply Hp|lia]| |by apply fin_header|simpl; lia|simpl; lia].
  split; cbn [packed_q packed_ghost g_own g_fl g_tbl g_view g_bv alloc_offset free_list_head l1_offset
    l1_size cluster_size l2_entries].
  - split; [lia|apply (pk_none _ _ _ _ _ _ _ _ _ _ Hp)|reflexivity|exact I|by intros ? ? ?%elem_of_nil|constructor|..];
      apply base_owns; try lia; intros o Ho; unfold base_own;
      repeat first [rewrite decide_True by lia | rewrite decide_False by lia]; done.
  - by apply fin_header.
  - split; [apply header36_fields; split_and!; by apply fin_header|]. apply base_owns; [|lia].
    intros o Ho. unfold base_own. by rewrite decide_True by lia.
  - split; [by apply fin_header|]. apply base_owns; [|lia]. intros o Ho. unfold base_own.
    do 2 (rewrite decide_False by lia). by rewrite decide_True by lia.
  - exists (read_at F 56 4040). pose proof zlen_finished. split_and!; [apply zlen_read_at; lia|apply bytes_at_read_at; lia|].
    apply base_owns; [|lia]. intros o Ho. unfold base_own. do 4 (rewrite decide_False by lia). by rewrite decide_True by lia.
  - lia.
  - apply base_owns; [|lia]. intros o Ho. unfold base_own. do 5 (rewrite decide_False by lia). by rewrite decide_True by lia.
  - intros i Hi. by apply fin_l1.
  - intros i Hi Hne. by apply (pk_pos _ _ _ _ _ _ _ _ _ _ Hp).
  - intros i Hi. rewrite Hl1. destruct (pk_shape _ _ _ _ _ _ _ _ _ _ Hp i Hi) as [Hsh Hlen].
    split; [done|]. split; [done|]. split; [by apply (pk_absent _ _ _ _ _ _ _ _ _ _ Hp)|].
    intros Hne. destruct (pk_pos _ _ _ _ _ _ _ _ _ _ Hp i Hi Hne) as [Hge Ho].
    pose proof (packed_below _ _ _ _ _ _ _ _ _ _ _ _ _ Hp Ho ltac:(done) ltac:(lia)). split; [lia|].
    apply (keeps_bytes _ _ _ _ _ _ (TL2 i) fin_keeps); [lia|by rewrite zlen_l2_disk|tauto|by apply Htabs].
  - intros c Hc _ He. destruct (pk_data _ _ _ _ _ _ _ _ _ _ Hp c Hc He) as (_ & sz & Hh & Ho). exists sz. split; [|done].
    eapply (entry_holds_mono f F cs _ _ _ own early c); [exact fin_keeps|tauto|exact Ho|lia|exact Hh].
  - intros c Hc _ He. simpl. destruct (decide (c < n)); [apply (pk_zero _ _ _ _ _ _ _ _ _ _ Hp); [lia|done]|].
    apply Hrest. lia.
  - done.
  - done.
Qed.
End Image.
End Finish.
End Packing.
