(* ===== verification/CtlConvertProof.v ===== *)
(** * [lbdctl convert] and [lbdctl compact] keep the contents *)
From S2P Require Import Prelude Kernel Format Crc Posix Qcow2State Qcow2Alloc Qcow2Cache Qcow2Io.
From S2P Require Import Qcow2Inv Qcow2AllocProof Qcow2Wf Qcow2CacheProof Qcow2WriteProof Qcow2IoProof.
From S2P Require Import Flat Qcow2Refine Qcow2InitProof CtlImage CtlCreateProof CtlExtractProof CtlPackProof.

Section Convert.
Context `{HZ : LZ4Laws} `{HCr : CrcLaws} `{!Crc32cStandard}.

(** The tables both commands start from. *)
Definition pack0 (l1n l2n A0 : Z) : pack :=
  Pack (replicate (Z.to_nat l1n) 0) (replicate (Z.to_nat l1n) (replicate (Z.to_nat l2n) 0)) A0.

Lemma replicate_default {A} n i (x y : A) : y = x → default y (replicate n x !! i) = x.
Proof. intros ->. destruct (replicate n x !! i) eqn:E; [|done]. by apply lookup_replicate_1 in E as [-> _]. Qed.

Lemma pack0_packing f bits l1n l1off A0 src : 12 ≤ bits ≤ 24 → 0 < l1n → 4096 ≤ l1off → l1off + 8 * l1n ≤ A0 →
  packing (2 ^ bits) l1n A0 (base_own l1n l1off A0) src f (pack0 l1n (l2_entries_of (2 ^ bits)) A0) (base_own l1n l1off A0) 0 A0.
Proof.
  intros Hb Hl Ho HA. pose proof (pk_cs_bounds bits Hb) as Hcs. destruct (l2n_pos _ Hcs) as [H2 H2'].
  set (p := pack0 _ _ _).
  assert (Hl1 : ∀ i, l1p p i = 0) by (intros; by apply replicate_default).
  assert (Ht : ∀ i, ptbl (2 ^ bits) p i = replicate (Z.to_nat (l2_entries_of (2 ^ bits))) 0) by (intros; by apply replicate_default).
  assert (He : ∀ c, ent (l2_entries_of (2 ^ bits)) (ptbl (2 ^ bits) p) c = 0).
  { intros c. unfold ent. rewrite Ht. by apply replicate_default. }
  split.
  - simpl. unfold zlen. rewrite length_replicate. lia.
  - simpl. unfold zlen. rewrite length_replicate. lia.
  - simpl. lia.
  - simpl. intros o Hr. unfold base_own. by repeat (rewrite decide_False by lia).
  - done.
  - intros i _. rewrite Ht. unfold l2_shape, zlen. rewrite length_replicate.
    split; [|lia]. split_and!; [lia|lia|]. apply Forall_replicate. lia.
  - intros i _ Hne. by rewrite Hl1 in Hne.
  - intros i _ _. apply Ht.
  - intros c _ Hne. by rewrite He in Hne.
  - intros c Hc. lia.
Qed.

(** From the packed clusters to the finished image. *)
Lemma finish_ok out rest s f bits vs l1n l1off A0 src p own n B :
  on_out out rest s f → packing (2 ^ bits) l1n A0 (base_own l1n l1off A0) src f p own n B →
  12 ≤ bits ≤ 24 → 0 < l1n < 2 ^ 32 → 0 ≤ vs < 2 ^ 64 → 4096 ≤ l1off → l1off + 8 * l1n ≤ A0 → B < 2 ^ 62 →
  (∀ c, 0 ≤ c → zlen (src c) = 2 ^ bits) → (∀ c, n ≤ c → src c = zeros (2 ^ bits)) →
  ∃ s' F, (write_l2_tables out (2 ^ bits) (p_l1 p) (p_l2 p);; finish_image out bits vs l1off l1n p) s = (Ok tt, s')
    ∧ on_out out rest s' F ∧ image F (packed_q bits vs l1n l1off p) (packed_ghost bits src p own).
Proof.
  intros Hout Hp Hb Hl Hv Ho HA HB Hsrc Hrest. pose proof (pk_cs_bounds bits Hb) as Hcs.
  pose proof (pk_l1 _ _ _ _ _ _ _ _ _ _ Hp) as Hl1. pose proof (pk_l2 _ _ _ _ _ _ _ _ _ _ Hp) as Hl2. unfold zlen in Hl1, Hl2.
  assert (Hat1 : ∀ j a, p_l1 p !! j = Some a → a = l1p p (Z.of_nat j)) by (intros j a Hj; unfold l1p; by rewrite Nat2Z.id, Hj).
  assert (Hat2 : ∀ j t, p_l2 p !! j = Some t → t = ptbl (2 ^ bits) p (Z.of_nat j))
    by (intros j t Hj; unfold ptbl; by rewrite Nat2Z.id, Hj).
  destruct (write_l2_tables_ok (2 ^ bits) out rest own (p_l1 p) (p_l2 p) 0 s f Hout) as (s1 & f1 & E1 & O1 & K1 & T1);
    [lia| |].
  { intros j a t Hj1 Hj2 Hne. rewrite (Hat1 j a Hj1) in Hne |- *. rewrite (Hat2 j t Hj2).
    destruct (pk_pos _ _ _ _ _ _ _ _ _ _ Hp (Z.of_nat j) ltac:(lia) Hne) as [Hge Hown].
    destruct (pk_shape _ _ _ _ _ _ _ _ _ _ Hp (Z.of_nat j) ltac:(lia)) as [Hsh _].
    pose proof (packed_below _ _ _ _ _ _ _ _ _ _ _ _ _ Hp Hown ltac:(done) ltac:(lia)).
    pose proof (pk_alloc _ _ _ _ _ _ _ _ _ _ Hp). split_and!; [lia|lia|done|done]. }
  mstep E1.
  assert (Hp1 : packing (2 ^ bits) l1n A0 (base_own l1n l1off A0) src f1 p own n B).
  { pose proof (pk_data _ _ _ _ _ _ _ _ _ _ Hp) as Hdata. destruct Hp. split; try done.
    intros c Hc He. destruct (Hdata c Hc He) as (Hn & sz & Hh & Hown). split; [done|].
    exists sz. split; [|done]. eapply entry_holds_mono; [exact K1|by intros (? & _ & ?)|exact Hown|lia|exact Hh]. }
  destruct (finish_image_ok bits vs l1n l1off A0 src Hb Hl Ho HA out rest s1 f1 own n B p O1 Hp1 HB) as (s2 & E2 & O2).
  exists s2, (finished bits vs l1n l1off f1 p). split; [done|]. split; [done|].
  apply (packed_image bits vs l1n l1off A0 src Hb Hl Hv Ho HA f1 p own n B Hp1 HB); [|done|done].
  intros i Hi Hne. destruct (decide (i < l1n)) as [Hlt|Hge].
  - apply (T1 (Z.to_nat i)); [eapply p_l1_lookup; [exact Hp|lia]|eapply p_l2_lookup; [exact Hp|lia]|done].
  - unfold l1p in Hne. rewrite lookup_ge_None_2 in Hne by lia. done.
Qed.

(** A cluster of the raw file, padded with zeros. *)
Definition raw_cluster (raw : bytes) (cs c : Z) : bytes := write_at (zeros cs) 0 (read_at raw (c * cs) cs).

Lemma zlen_read_at_le (f : bytes) p n : 0 ≤ n → zlen (read_at f p n) ≤ n.
Proof. intros Hn. unfold read_at, zlen. rewrite length_take. lia. Qed.

Lemma zlen_raw_cluster raw cs c : 0 ≤ cs → zlen (raw_cluster raw cs c) = cs.
Proof.
  intros Hcs. unfold raw_cluster. rewrite zlen_write_at by lia. pose proof (zlen_read_at_le raw (c * cs) cs Hcs).
  assert (zlen (zeros cs) = cs) by (unfold zlen; rewrite length_zeros; lia). case_decide; lia.
Qed.

Lemma raw_cluster_beyond raw cs c : 0 < cs → zlen raw ≤ c * cs → raw_cluster raw cs c = zeros cs.
Proof.
  intros Hcs Hle. unfold raw_cluster, read_at. rewrite drop_ge by (unfold zlen in Hle; lia). by rewrite take_nil.
Qed.

(** The padded clusters are the file followed by zeros. *)
Lemma raw_cluster_byte raw cs o : 0 < cs → 0 ≤ o → vbyte (raw_cluster raw cs) cs o = nth (Z.to_nat o) raw x00.
Proof.
  intros Hcs Ho. pose proof (Z.div_mod o cs ltac:(lia)). pose proof (Z.mod_pos_bound o cs Hcs).
  pose proof (Z.div_pos o cs Ho Hcs). unfold vbyte, raw_cluster. rewrite !nth_lookup, lookup_write_at by lia.
  change (Z.to_nat 0) with 0%nat. unfold read_at. rewrite length_take, length_drop.
  assert (Hc : 0 ≤ o / cs * cs) by nia.
  destruct (decide (Z.to_nat o < length raw)%nat) as [Hlt|Hge].
  - rewrite decide_True by lia. rewrite Nat.sub_0_r, lookup_take_lt, lookup_drop by lia. do 2 f_equal. lia.
  - rewrite decide_False by lia. rewrite (lookup_ge_None_2 raw) by lia. case_decide; [done|].
    unfold zeros. by rewrite lookup_replicate_2 by lia.
Qed.

(** What follows two calls that run. *)
Lemma bind_ok_2 {S A B C} (m : M S A) (f : A → M S B) (k : B → M S C) s b s' :
  (m ≫= f) s = (Ok b, s') → (m ≫= λ a, f a ≫= k) s = k b s'.
Proof. unfold mbind, M_bind. destruct (m s) as [[a|e|] s1]; [|done..]. by intros ->. Qed.

Section ConvertCmd.
Variables (inp out raw : bytes) (rest : bytes → option bytes).
Hypotheses (Hne : inp ≠ out) (Hraw : 0 < zlen raw ≤ 2 ^ 60) (Hinp : rest inp = Some raw).
Local Abbreviation cs := (2 ^ 16).
Local Abbreviation l2n := (l2_entries_of cs).
Local Abbreviation vs := (zlen raw).
Local Abbreviation l1n := (l1_size_for vs l2n cs).
Local Abbreviation A0 := (align_cluster (4096 + l1n * 8) cs).
Local Abbreviation src := (raw_cluster raw cs).
Local Abbreviation packed := (packing cs l1n A0 (base_own l1n 4096 A0) src).

Lemma conv_sizes : 0 < l1n < 2 ^ 32 ∧ vs ≤ l1n * l2n * cs ∧ 4096 + 8 * l1n ≤ A0 < 2 ^ 36.
Proof.
  assert (Hmax : vs ≤ (2 ^ 32 - 1) * (l2n * cs)) by (change l2n with 8191; lia).
  destruct (l1_size_for_spec vs 16) as (Hl & Hc & _); [lia|lia|exact Hmax|lia|].
  pose proof (alloc_bounds vs 16 ltac:(lia) ltac:(lia) Hmax). lia.
Qed.

(** The clusters from [ci] on that are not zero. *)
Definition data_clusters (ci n : Z) : list Z := filter (λ c, is_all_zero (src c) = false) (seqZ ci n).

(** The counters count: [w] clusters written and [z] left out so far. *)
Definition counted (c c' : conv) (ci n : Z) : Prop :=
  cv_written c' = cv_written c + zlen (data_clusters ci n) ∧ cv_zero c' = cv_zero c + n - zlen (data_clusters ci n).

Lemma convert_cluster_ok s f c own ci B : on_out out rest s f → packed f (cv_pack c) own ci B → 0 ≤ ci → ci * cs < vs →
  0 ≤ cv_written c < 2 ^ 63 → 0 ≤ cv_zero c < 2 ^ 63 → B + 2 * cs < 2 ^ 62 →
  ∃ s' f' c' own', convert_cluster inp out vs cs l2n ci c s = (Ok c', s') ∧ on_out out rest s' f'
    ∧ packed f' (cv_pack c') own' (ci + 1) (B + 2 * cs) ∧ counted c c' ci 1.
Proof.
  intros Ho Hp Hci Hlt Hw Hz HB. destruct conv_sizes as (Hl & Hcap & Ha). unfold convert_cluster.
  assert (Hn : 0 ≤ ci < l1n * l2n) by (change l2n with 8191 in *; lia).
  set (n := if u64 ((ci + 1) * cs) >? vs then u64 (vs - u64 (ci * cs)) else cs).
  assert (En : n = Z.min cs (vs - ci * cs)).
  { unfold n. rewrite (u64_small ((ci + 1) * cs)), Z.gtb_ltb by lia.
    destruct (Z.ltb_spec vs ((ci + 1) * cs)); [|lia]. rewrite (u64_small (ci * cs)), u64_small by lia. lia. }
  rewrite (u64_small (ci * cs)) by lia.
  mstep (u_pread_calm s (oo_calm _ _ _ _ Ho) inp raw n (ci * cs)
    ltac:(by rewrite (oo_rest _ _ _ _ Ho)) ltac:(lia)).
  rewrite (bind_ok _ _ _ _ _ (ensure_ok (0 <=? zlen (read_at raw (ci * cs) n)) s (proj2 (Z.leb_le _ _) (zlen_nonneg _)))).
  assert (Eb : write_at (zeros cs) 0 (read_at raw (ci * cs) n) = src ci).
  { unfold raw_cluster. f_equal. rewrite En. unfold read_at. apply Z.min_case_strong; [done|]. intros Hle. unfold zlen in *.
    rewrite !take_ge; [done|rewrite length_drop; lia..]. }
  rewrite Eb. destruct (is_all_zero (src ci)) eqn:Ez.
  - assert (Hc : counted c (Conv (cv_pack c) (cv_written c) (u64 (cv_zero c + 1))) ci 1).
    { unfold counted, data_clusters. rewrite seqZ_cons by lia. rewrite filter_cons_False by (by rewrite Ez). cbn.
      rewrite u64_small by lia. split; unfold zlen; simpl; lia. }
    apply is_all_zero_spec in Ez. rewrite zlen_raw_cluster in Ez by lia. eexists s, f, _, own. split; [done|].
    split; [done|]. split; [|exact Hc]. eapply pack_skip; [exact Hp|lia|done].
  - pose proof (Z.mod_pos_bound ci l2n ltac:(done)). assert (0 ≤ ci / l2n < l1n)
      by (split; [apply Z.div_pos; lia|apply Z.div_lt_upper_bound; lia]).
    assert (l2n < 2 ^ 32) by done. rewrite !u32_small by lia.
    destruct (pack_cluster_ok cs l1n A0 (base_own l1n 4096 A0) src) with (own := own) (B := B) (f := f) (p := cv_pack c) (n := ci) (s := s)
      (out := out) (rest := rest) as (s' & f' & p' & own' & E & O & P);
      [lia|by exists 16|lia|intros; apply zlen_raw_cluster; lia|done|done|done|lia|lia|].
    mstep E. eexists s', f', _, own'. split; [done|]. split; [done|]. split; [done|].
    unfold counted, data_clusters. rewrite seqZ_cons by lia. rewrite filter_cons_True by done. cbn.
    rewrite u64_small by lia. split; unfold zlen; simpl; lia.
Qed.

Lemma data_clusters_app ci n m : 0 ≤ n → 0 ≤ m → data_clusters ci (n + m) = data_clusters ci n ++ data_clusters (ci + n) m.
Proof. intros Hn Hm. unfold data_clusters. by rewrite seqZ_app, list.filter_app by lia. Qed.

Lemma data_clusters_le ci n : 0 ≤ n → zlen (data_clusters ci n) ≤ n.
Proof.
  intros Hn. unfold zlen, data_clusters. pose proof (length_filter (λ c, is_all_zero (src c) = false) (seqZ ci n)).
  rewrite length_seqZ in *. lia.
Qed.

Lemma convert_loop_ok n : ∀ s f c own ci B, on_out out rest s f → packed f (cv_pack c) own ci B → 0 ≤ ci →
  0 ≤ cv_written c → 0 ≤ cv_zero c → cv_written c + cv_zero c + Z.of_nat n < 2 ^ 63 →
  (n ≠ O → (ci + Z.of_nat n - 1) * cs < vs) → B + 2 * cs * Z.of_nat n < 2 ^ 62 →
  ∃ s' f' c' own', convert_loop inp out vs cs l2n n ci c s = (Ok c', s') ∧ on_out out rest s' f'
    ∧ packed f' (cv_pack c') own' (ci + Z.of_nat n) (B + 2 * cs * Z.of_nat n) ∧ counted c c' ci (Z.of_nat n).
Proof.
  induction n as [|n IH]; intros s f c own ci B Ho Hp Hci Hw Hz Hn Hv HB.
  { exists s, f, c, own. rewrite Z.mul_0_r, !Z.add_0_r. unfold counted, data_clusters, zlen. simpl. split_and!; try done; lia. }
  destruct (convert_cluster_ok s f c own ci B Ho Hp Hci) as (s1 & f1 & c1 & own1 & E1 & O1 & P1 & W1 & Z1);
    [specialize (Hv ltac:(done)); lia|lia|lia|lia|].
  pose proof (data_clusters_le ci 1 ltac:(lia)). pose proof (zlen_nonneg (data_clusters ci 1)).
  destruct (IH s1 f1 c1 own1 (ci + 1) _ O1 P1) as (s2 & f2 & c2 & own2 & E2 & O2 & P2 & W2 & Z2);
    [lia|lia|lia|lia|intros; specialize (Hv ltac:(done)); lia|lia|].
  exists s2, f2, c2, own2. cbn [convert_loop]. mstep E1. split; [done|]. split; [done|].
  replace (ci + Z.of_nat (S n)) with (ci + 1 + Z.of_nat n) by lia.
  replace (B + 2 * cs * Z.of_nat (S n)) with (B + 2 * cs + 2 * cs * Z.of_nat n) by lia. split; [done|].
  unfold counted. replace (Z.of_nat (S n)) with (1 + Z.of_nat n) by lia. rewrite data_clusters_app, zlen_app by lia. lia.
Qed.
End ConvertCmd.

(** [F] is an image of [vs] bytes that holds the disk [V]; its tables cover the
    disk and lie in the first half of the offset range. *)
Definition image_of (F : bytes) (vs : Z) (V : Z → byte) : Prop := ∃ q g, image F q g ∧ (∀ c, g_bv g c = None)
  ∧ virtual_size q = vs ∧ vs ≤ l1_size q * l2_entries q * cluster_size q ∧ l1_offset q + l1_size q * 8 ≤ 2 ^ 60
  ∧ ∀ o, 0 ≤ o → vbyte (g_view g) (cluster_size q) o = V o.

Lemma cmd_convert_ok s inp out raw : calm s → inp ≠ out → lookup_file inp (u_files s) = Some raw → 0 < zlen raw ≤ 2 ^ 60 →
  let total := (zlen raw + 2 ^ 16 - 1) / 2 ^ 16 in
  let w := zlen (data_clusters raw 0 total) in
  ∃ s' F, cmd_convert inp out s = (Ok (convert_text inp out (zlen raw) total w (total - w) (Some (zlen F))), s') ∧ calm s' ∧ lookup_file out (u_files s') = Some F
    ∧ (∀ p, p ≠ out → lookup_file p (u_files s') = lookup_file p (u_files s))
    ∧ image_of F (zlen raw) (λ o, nth (Z.to_nat o) raw x00).
Proof.
  intros Hc Hne Hi Hr total w. unfold cmd_convert. change (Z.shiftl 1 16) with (2 ^ 16).
  change ((2 ^ 16 - LBD_QCOW2_L2_TRAILER_SIZE) / 8) with (l2_entries_of (2 ^ 16)). cbv zeta.
  mstep (u_open_calm s Hc inp raw Hi). rewrite (bind_ok _ _ _ _ _ (ensure_ok true s eq_refl)).
  mstep (u_fstat_calm s Hc inp raw Hi). rewrite (proj2 (Z.eqb_neq _ _)) by lia.
  destruct (conv_sizes raw Hr) as (Hl & Hcap & Ha). set (vs := zlen raw) in *.
  set (l1n := l1_size_for vs (l2_entries_of (2 ^ 16)) (2 ^ 16)) in *. change LBD_QCOW2_HEADER_SIZE with 4096.
  set (A0 := align_cluster (4096 + l1n * 8) (2 ^ 16)) in *.
  mstep (malloc_tables_calm s Hc 4). mstep (malloc_tables_calm s Hc (Z.to_nat l1n)).
  mstep (u_creat_calm s Hc out). rewrite (bind_ok _ _ _ _ _ (ensure_ok true _ eq_refl)).
  set (s1 := set_file out [] s). mstep (u_ftruncate_calm s1 Hc out [] A0 (lookup_set_file _ _ _) ltac:(lia)).
  rewrite (bind_ok _ _ _ _ _ (ensure_ok (0 <=? 0) _ eq_refl)). set (s2 := set_file out _ s1).
  set (rest := λ p, lookup_file p (u_files s)).
  assert (O2 : on_out out rest s2 (take (Z.to_nat A0) [] ++ zeros (A0 - zlen (@nil byte)))).
  { split; [done|apply lookup_set_file|]. intros p Hp. unfold s2, s1. by rewrite !lookup_set_file_ne. }
  rewrite (u64_small (vs + 2 ^ 16 - 1)) by lia.
  pose proof (Z.div_mod (vs + 2 ^ 16 - 1) (2 ^ 16) ltac:(lia)). pose proof (Z.mod_pos_bound (vs + 2 ^ 16 - 1) (2 ^ 16) ltac:(lia)).
  fold total.
  destruct (convert_loop_ok inp out raw rest Hne Hr Hi (Z.to_nat total) s2 _ (Conv (pack0 l1n (l2_entries_of (2 ^ 16)) A0) 0 0) _ 0 A0 O2
    (pack0_packing _ 16 l1n 4096 A0 _ ltac:(lia) ltac:(lia) ltac:(lia) ltac:(lia))) as (s3 & f3 & c3 & own3 & E3 & O3 & P3 & W3 & Z3);
    [lia|done|done|cbn; lia|lia|lia|]. mstep E3. fold vs l1n A0 in P3. rewrite Z2Nat.id in W3, Z3 by lia. fold w in W3, Z3.
  destruct (finish_ok out rest s3 f3 16 vs l1n 4096 A0 _ (cv_pack c3) own3 _ _ O3 P3) as (s4 & F & E4 & [C4 L4 R4] & Him);
    [lia|lia|lia|lia|lia|lia|intros; apply zlen_raw_cluster; lia|intros c Hge; apply raw_cluster_beyond; fold vs; lia|].
  rewrite (bind_ok_2 _ _ _ _ _ _ E4). mstep (u_fstat_calm s4 C4 out F L4). rewrite W3, Z3.
  exists s4, F. split; [done|]. split; [done|]. split; [done|]. split; [done|].
  eexists _, _. split; [exact Him|]. split; [done|]. split; [done|]. split; [simpl; lia|]. split; [simpl; lia|].
  intros o Ho. simpl. by apply raw_cluster_byte.
Qed.

(** ** compact *)
Section CompactCmd.
Variables (inp out f : bytes) (q : lbd_qcow2) (g : ghost) (rest : bytes → option bytes).
Hypotheses (Hne : inp ≠ out) (Him : image f q g) (Hbv : ∀ c, g_bv g c = None) (Hinp : rest inp = Some f).
Hypotheses (Hv : virtual_size q ≤ 2 ^ 60 ∧ virtual_size q ≤ l1_size q * l2_entries q * cluster_size q).
Hypothesis (Hoff : l1_offset q + l1_size q * 8 ≤ 2 ^ 60).
Local Abbreviation cs := (cluster_size q).
Local Abbreviation l2n := (l2_entries q).
Local Abbreviation vs := (virtual_size q).
Local Abbreviation A0 := (align_cluster (u64 (l1_offset q + l1_size q * 8)) cs).
Local Abbreviation total := ((vs + cs - 1) / cs).

(** The clusters of the disk; the image may have room for more. *)
Definition disk_cluster (c : Z) : bytes := if decide (c < total) then g_view g c else zeros cs.
Local Abbreviation packed := (packing cs (l1_size q) A0 (base_own (l1_size q) (l1_offset q) A0) disk_cluster).

Lemma zlen_disk_cluster c : 0 ≤ c → zlen (disk_cluster c) = cs.
Proof.
  intros Hc. unfold disk_cluster. case_decide; [by apply (wd_view _ _ _ _ (im_disk _ _ _ Him))|].
  pose proof (im_geom_cs _ _ _ Him). unfold zlen. rewrite length_zeros. lia.
Qed.

Lemma compact_sizes : 4096 ≤ l1_offset q ∧ l1_offset q + 8 * l1_size q ≤ A0 < 2 ^ 60 + 2 ^ 25.
Proof.
  pose proof (im_disk _ _ _ Him) as Hd. pose proof (im_l1 _ _ _ Him) as Hl. destruct (wd_l1off _ _ _ _ Hd) as [Ho _].
  pose proof (im_geom _ _ _ Him) as Hg. pose proof (ge_bits _ Hg) as Hb. pose proof (geom_cs _ Hg) as Hcs.
  split.
  - destruct (decide (4096 ≤ l1_offset q)) as [|Hlt]; [done|exfalso].
    pose proof (wd_l1own _ _ _ _ Hd (l1_offset q) ltac:(lia)) as H1'. pose proof (wd_space _ _ _ _ Hd) as Hs.
    destruct (wd_meta _ _ _ _ Hd) as [_ M1]. destruct (wd_comp _ _ _ _ Hd) as [_ M2].
    destruct (wd_pad _ _ _ _ Hd) as (_ & _ & _ & M3).
    destruct (decide (l1_offset q < 36)); [by rewrite M1 in H1' by lia|].
    destruct (decide (l1_offset q < 44)); [by rewrite (sp_hdr_alloc _ _ _ _ _ Hs) in H1' by lia|].
    destruct (decide (l1_offset q < 48)); [by rewrite M2 in H1' by lia|].
    destruct (decide (l1_offset q < 56)); [by rewrite (sp_hdr_head _ _ _ _ _ Hs) in H1' by lia|].
    by rewrite M3 in H1' by lia.
  - rewrite u64_small by lia. rewrite (ge_cs _ Hg) in Hcs |- *.
    destruct (align_cluster_spec (l1_offset q + l1_size q * 8) (cluster_bits q) Hb) as [Ha _]; lia.
Qed.

Lemma compact_cluster_ok s f' p own ci B : on_out out rest s f' → packed f' p own ci B → 0 ≤ ci < total →
  B + 2 * cs < 2 ^ 62 →
  ∃ s' f'' p' own', compact_cluster inp out (im_of q (l1_table q)) (im_l2 q g) ci p s = (Ok p', s')
    ∧ on_out out rest s' f'' ∧ packed f'' p' own' (ci + 1) (B + 2 * cs).
Proof.
  intros Ho Hp Hci HB. pose proof (im_geom _ _ _ Him) as Hg. pose proof (im_geom_cs _ _ _ Him) as [Hcs Hn2].
  pose proof (ge_l1_size _ Hg). destruct compact_sizes as (Hlo & Ha). 
  assert (Hv' : vs < 2 ^ 62 ∧ vs ≤ l1_size q * l2n * cs) by lia.
  destruct (total_clusters_ok f q g Him Hv' s) as (_ & _ & _ & Hlt).
  assert (Hn : 0 ≤ ci < l1_size q * l2n) by nia.
  assert (Hsrc : disk_cluster ci = g_view g ci) by (unfold disk_cluster; by rewrite decide_True by lia).
  unfold compact_cluster. mstep (ctl_entry_ok s f q g Him ci Hn).
  assert (Hskip : disk_cluster ci = zeros cs → ∃ s' f'' p' own', (mret p : MU pack) s = (Ok p', s')
    ∧ on_out out rest s' f'' ∧ packed f'' p' own' (ci + 1) (B + 2 * cs)).
  { intros Ez. exists s, f', p, own. split; [done|]. split; [done|]. eapply pack_skip; [exact Hp|lia|done]. }
  assert (Hin : lookup_file inp (u_files s) = Some f) by (by rewrite (oo_rest _ _ _ _ Ho)).
  destruct (cluster_cases s inp f (oo_calm _ _ _ _ Ho) Hin q g Him ci ltac:(lia) Hbv) as [[E Hz]|[E Er]].
  { rewrite E. apply Hskip. by rewrite Hsrc. }
  rewrite (proj2 (Z.eqb_neq _ _)) by done. cbn [im_of ci_cs ci_l2n]. mstep Er.
  destruct (is_all_zero (g_view g ci)) eqn:Ez.
  { apply Hskip. rewrite Hsrc. apply is_all_zero_spec in Ez. rewrite Ez at 1. f_equal.
    apply (wd_view _ _ _ _ (im_disk _ _ _ Him)). lia. }
  pose proof (Z.mod_pos_bound ci l2n ltac:(lia)).
  assert (0 ≤ ci / l2n < l1_size q) by (split; [apply Z.div_pos; lia|apply Z.div_lt_upper_bound; lia]).
  rewrite !u32_small, <- Hsrc, (ge_l2n _ Hg) by lia. rewrite (ge_l2n _ Hg) in Hn.
  apply (pack_cluster_ok cs (l1_size q) A0 _ disk_cluster) with (own := own) (B := B) (f := f');
    [lia| |lia|apply zlen_disk_cluster|done|done|done|lia|lia].
  rewrite (ge_cs _ Hg). exists (2 ^ (cluster_bits q - 12)). change 4096 with (2 ^ 12).
  pose proof (ge_bits _ Hg). rewrite <- Z.pow_add_r by lia. f_equal. lia.
Qed.

Lemma compact_loop_ok n : ∀ s f' p own ci B, on_out out rest s f' → packed f' p own ci B → 0 ≤ ci →
  ci + Z.of_nat n ≤ total → B + 2 * cs * Z.of_nat n < 2 ^ 62 →
  ∃ s' f'' p' own', compact_loop inp out (im_of q (l1_table q)) (im_l2 q g) n ci p s = (Ok p', s')
    ∧ on_out out rest s' f'' ∧ packed f'' p' own' (ci + Z.of_nat n) (B + 2 * cs * Z.of_nat n).
Proof.
  pose proof (im_geom_cs _ _ _ Him) as [Hcs _].
  induction n as [|n IH]; intros s f' p own ci B Ho Hp Hci Ht HB.
  { exists s, f', p, own. rewrite Z.mul_0_r, !Z.add_0_r. done. }
  destruct (compact_cluster_ok s f' p own ci B Ho Hp) as (s1 & f1 & p1 & own1 & E1 & O1 & P1); [lia|nia|].
  destruct (IH s1 f1 p1 own1 (ci + 1) _ O1 P1) as (s2 & f2 & p2 & own2 & E2 & O2 & P2); [lia|lia|nia|].
  exists s2, f2, p2, own2. cbn [compact_loop]. mstep E1. split; [done|]. split; [done|].
  replace (ci + Z.of_nat (S n)) with (ci + 1 + Z.of_nat n) by lia.
  by replace (B + 2 * cs * Z.of_nat (S n)) with (B + 2 * cs + 2 * cs * Z.of_nat n) by lia.
Qed.
End CompactCmd.

Lemma u_rename_calm s from to c : calm s → from ≠ to → lookup_file from (u_files s) = Some c →
  ∃ s', u_rename from to s = (Ok 0, s') ∧ calm s' ∧ lookup_file to (u_files s') = Some c
    ∧ ∀ p, p ≠ to → p ≠ from → lookup_file p (u_files s') = lookup_file p (u_files s).
Proof.
  intros Hc Hne Hl. unfold u_rename. mstep (u_next_calm s Hc). rewrite (bind_ok get _ _ _ _ eq_refl). rewrite Hl.
  eexists. split; [done|]. split; [done|]. split; [apply lookup_set_file|].
  intros p Hp1 Hp2. rewrite lookup_set_file_ne by done.
  pose proof (lookup_set_file_ne from p [] s Hp2) as E. simpl in E. rewrite decide_False in E by done. exact E.
Qed.

Lemma compact_tmp_ne path : zlen path < 4000 → path ≠ compact_tmp path.
Proof.
  intros Hl E. apply (f_equal length) in E. unfold compact_tmp, zlen in *. rewrite length_take, length_app in E.
  change (length (str ".compact.tmp")) with 12%nat in E. lia.
Qed.

Lemma compact_body_ok s inp out f q g rest f0 : inp ≠ out → image f q g → (∀ c, g_bv g c = None) → rest inp = Some f →
  virtual_size q ≤ 2 ^ 60 ∧ virtual_size q ≤ l1_size q * l2_entries q * cluster_size q →
  l1_offset q + l1_size q * 8 ≤ 2 ^ 60 → on_out out rest s f0 →
  ∃ s' F q' g', compact_body inp out (im_of q (l1_table q)) (im_l2 q g)
      (pack0 (l1_size q) (l2_entries q) (align_cluster (u64 (l1_offset q + l1_size q * 8)) (cluster_size q))) s = (Ok tt, s')
    ∧ on_out out rest s' F ∧ image F q' g' ∧ (∀ c, g_bv g' c = None) ∧ g_view g' = disk_cluster q g
    ∧ cluster_size q' = cluster_size q ∧ virtual_size q' = virtual_size q ∧ l1_size q' = l1_size q
    ∧ l2_entries q' = l2_entries q ∧ l1_offset q' = l1_offset q.
Proof.
  intros Hne Him Hbv Hin Hv Hoff Ho. pose proof (im_geom _ _ _ Him) as Hg. pose proof (ge_bits _ Hg) as Hb.
  pose proof (geom_cs _ Hg) as Hcs. pose proof (im_l1 _ _ _ Him). pose proof (ge_l1_size _ Hg).
  destruct (compact_sizes f q g Him Hoff) as (Hlo & Ha). set (A0 := align_cluster _ _) in *.
  assert (Hv' : virtual_size q < 2 ^ 62 ∧ virtual_size q ≤ l1_size q * l2_entries q * cluster_size q) by lia.
  unfold compact_body. destruct (total_clusters_ok f q g Him Hv' s) as (Et & Ht0 & Htge & Htlt). mstep Et.
  set (total := (virtual_size q + cluster_size q - 1) / cluster_size q) in *.
  assert (P0 : packing (cluster_size q) (l1_size q) A0 (base_own (l1_size q) (l1_offset q) A0) (disk_cluster q g) f0
    (pack0 (l1_size q) (l2_entries q) A0) (base_own (l1_size q) (l1_offset q) A0) 0 A0).
  { rewrite (ge_l2n _ Hg), (ge_cs _ Hg). apply pack0_packing; lia. }
  assert (Htb : 2 * cluster_size q * total ≤ 2 ^ 61 + 2 ^ 25).
  { destruct (decide (total = 0)) as [->|Hn0]; [lia|]. specialize (Htlt Hn0). nia. }
  destruct (compact_loop_ok inp out f q g rest Hne Him Hbv Hin Hv Hoff (Z.to_nat total) s f0 _ _ 0 A0 Ho P0)
    as (s1 & f1 & p1 & own1 & E1 & O1 & P1); [lia|fold total; lia|rewrite Z2Nat.id by lia; lia|].
  mstep E1. fold A0 in P1. rewrite (ge_cs _ Hg) in P1. cbn [im_of ci_cs ci_bits ci_vsize ci_l1off ci_l1_size].
  destruct (finish_ok out rest s1 f1 (cluster_bits q) (virtual_size q) (l1_size q) (l1_offset q) A0 _ p1 own1 _ _ O1 P1)
    as (s2 & F & E2 & O2 & Him2); [done|lia|apply (im_vsize _ _ _ Him)|done|lia| | | |].
  - rewrite <- (ge_cs _ Hg), Z2Nat.id by lia. lia.
  - rewrite <- (ge_cs _ Hg). by apply (zlen_disk_cluster f).
  - rewrite <- (ge_cs _ Hg). intros c Hc. unfold disk_cluster. fold total. by rewrite decide_False by lia.
  - rewrite <- (ge_cs _ Hg) in E2. eexists s2, F, _, _. split; [exact E2|]. split; [done|]. split; [exact Him2|].
    simpl. by rewrite <- (ge_cs _ Hg), <- (ge_l2n _ Hg).
Qed.

Lemma cmd_compact_ok s path f q g : calm s → zlen path < 4000 → lookup_file path (u_files s) = Some f →
  image f q g → (∀ c, g_bv g c = None) →
  virtual_size q ≤ 2 ^ 60 ∧ virtual_size q ≤ l1_size q * l2_entries q * cluster_size q →
  l1_offset q + l1_size q * 8 ≤ 2 ^ 60 →
  ∃ s' F q' g', cmd_compact [path] s = (Ok (compact_text path (Some (zlen F))), s') ∧ calm s' ∧ lookup_file path (u_files s') = Some F
    ∧ (∀ p, p ≠ path → p ≠ compact_tmp path → lookup_file p (u_files s') = lookup_file p (u_files s))
    ∧ image F q' g' ∧ (∀ c, g_bv g' c = None) ∧ g_view g' = disk_cluster q g
    ∧ cluster_size q' = cluster_size q ∧ virtual_size q' = virtual_size q ∧ l1_size q' = l1_size q
    ∧ l2_entries q' = l2_entries q ∧ l1_offset q' = l1_offset q.
Proof.
  intros Hc Hlen Hl Him Hbv Hv Hoff. pose proof (compact_tmp_ne path Hlen) as Hne. pose proof (im_geom _ _ _ Him) as Hg.
  destruct (compact_sizes f q g Him Hoff) as (Hlo & Ha). pose proof (im_l1 _ _ _ Him).
  unfold cmd_compact. mstep (ctl_open_ok s path f Hc Hl q g Him). mstep (malloc_tables_calm s Hc 4).
  mstep (ctl_read_l1_ok s path f Hc Hl q g Him). cbn [im_of ci_cs ci_l2n ci_l1].
  mstep (ctl_read_l2_image s path f Hc Hl q g Him). fold (im_of q (l1_table q)).
  mstep (u_creat_calm s Hc (compact_tmp path)). rewrite (bind_ok _ _ _ _ _ (ensure_ok true _ eq_refl)).
  set (s1 := set_file (compact_tmp path) [] s). cbn [im_of ci_l1off ci_l1_size ci_cs ci_l2n].
  set (A0 := align_cluster _ _) in *.
  mstep (u_ftruncate_calm s1 Hc (compact_tmp path) [] A0 (lookup_set_file _ _ _) ltac:(lia)).
  rewrite (bind_ok _ _ _ _ _ (ensure_ok (0 <=? 0) _ eq_refl)). set (s2 := set_file (compact_tmp path) _ s1).
  mstep (malloc_tables_calm s2 Hc 2). mstep (malloc_tables_calm s2 Hc (Z.to_nat (l1_size q))).
  destruct (compact_body_ok s2 path (compact_tmp path) f q g (λ p, lookup_file p (u_files s))
    (take (Z.to_nat A0) [] ++ zeros (A0 - zlen (@nil byte)))) as (s3 & F & q' & g' & E3 & [C3 L3 R3] & Him' & Hrest);
    [done|done|done|done|done|done| |].
  { split; [done|apply lookup_set_file|]. intros p Hp. unfold s2, s1. by rewrite !lookup_set_file_ne. }
  fold A0 in E3. fold (im_of q (l1_table q)). mstep (try_ok _ _ _ _ E3).
  destruct (u_rename_calm s3 (compact_tmp path) path F C3 ltac:(done) L3) as (s4 & E4 & C4 & L4 & R4). mstep E4.
  rewrite (bind_ok _ _ _ _ _ (ensure_ok (0 <=? 0) s4 eq_refl)). mstep (u_fstat_calm s4 C4 path F L4).
  exists s4, F, q', g'. split; [done|]. split; [done|]. split; [done|]. split; [|done].
  intros p Hp1 Hp2. rewrite R4 by done. by apply R3.
Qed.
End Convert.
