(* ===== verification/CtlImageTheorems.v ===== *)
(** * The theorems about the image commands of the control tool

    The tool and the driver agree on what an image holds; [convert] and
    [extract] are inverse; [compact] keeps the disk. *)
From S2P Require Import Prelude Kernel Format Crc Posix Qcow2State Qcow2Alloc Qcow2Cache Qcow2Io.
From S2P Require Import Qcow2Inv Qcow2AllocProof Qcow2Wf Qcow2CacheProof Qcow2WriteProof Qcow2IoProof.
From S2P Require Import Flat Qcow2Refine Qcow2InitProof CtlImage CtlCreateProof Qcow2Theorems CtlText.
From S2P Require Import CtlExtractProof CtlPackProof CtlConvertProof.

Section Theorems.
Context {K : Type} `{HK : KernelLaws K} `{HZ : LZ4Laws} `{HCr : CrcLaws} `{!Crc32cStandard}.

(** The driver opens the file as the disk [V]. *)
Definition opens_as (F : bytes) (V : Z → byte) : Prop := ∀ d0 : qdev K,
  healthy (kern d0) → content (kern d0) Backing = F → miss_handler d0 = false → base d0 = None →
  ∃ d, lbd_qcow2_init d0 = (Ok tt, d) ∧ rep d V (λ _, None).

Lemma image_of_opens F vs V : image_of F vs V → opens_as F V.
Proof.
  intros (q & g & Him & Hbv & _ & _ & _ & HV) d0 Hh Hc Hm Hb. rewrite <- Hc in Him.
  destruct (init_spec d0 q g Hh Hb Hbv Him) as (d & E & W & Q & _ & M). exists d. split; [done|]. split; [|congruence].
  exists g. split_and!; [done| |done]. intros o Ho. rewrite Q. by apply HV.
Qed.

Lemma extract_image_of s inp out F vs V : calm s → inp ≠ out → lookup_file inp (u_files s) = Some F → image_of F vs V →
  vs < 2 ^ 62 → ∃ s', cmd_extract inp out s = (Ok (extract_text inp out vs), s') ∧ lookup_file out (u_files s') = Some (slice V 0 vs).
Proof.
  intros Hc Hne Hi (q & g & Him & Hbv & <- & Hcap & _ & HV) Hv.
  destruct (cmd_extract_ok inp out F q g Hne Him Hbv (conj Hv Hcap) s Hc Hi) as (s' & E & _ & _ & Ho).
  exists s'. split; [done|]. rewrite Ho. f_equal. apply slice_ext. intros o Hr. apply HV. lia.
Qed.

(** C20: the tool and the driver agree on an image.  [lbdctl extract] of an image
    succeeds and writes, byte for byte, the disk of [vs] bytes that the driver
    represents when it opens the same file. *)
Theorem extract_reads_disk s inp out F vs V : calm s → inp ≠ out → lookup_file inp (u_files s) = Some F →
  image_of F vs V → vs < 2 ^ 62 →
  opens_as F V ∧ ∃ s', cmd_extract inp out s = (Ok (extract_text inp out vs), s') ∧ lookup_file out (u_files s') = Some (slice V 0 vs).
Proof. intros Hc Hne Hi Him Hv. split; [by eapply image_of_opens|by eapply extract_image_of]. Qed.

(** C18: [lbdctl convert] turns a raw file into an image the driver opens as that
    file followed by zeros, and [lbdctl extract] gives the raw file back.  The
    statistics [convert] prints are true: of the clusters of the file it counts
    those with a byte other than zero as written and all others as left out, and
    the file size is that of the image. *)
Theorem convert_extract_roundtrip s flat img back raw : calm s → flat ≠ img → img ≠ back →
  lookup_file flat (u_files s) = Some raw → 0 < zlen raw ≤ 2 ^ 60 →
  let total := (zlen raw + 2 ^ 16 - 1) / 2 ^ 16 in
  let w := zlen (data_clusters raw 0 total) in
  ∃ s1 F s2, cmd_convert flat img s = (Ok (convert_text flat img (zlen raw) total w (total - w) (Some (zlen F))), s1)
    ∧ lookup_file img (u_files s1) = Some F ∧ opens_as F (λ o, nth (Z.to_nat o) raw x00)
    ∧ cmd_extract img back s1 = (Ok (extract_text img back (zlen raw)), s2) ∧ lookup_file back (u_files s2) = Some raw.
Proof.
  intros Hc Hne1 Hne2 Hi Hr total w. destruct (cmd_convert_ok s flat img raw Hc Hne1 Hi Hr) as (s1 & F & E1 & C1 & L1 & _ & Him).
  destruct (extract_image_of s1 img back F _ _ C1 Hne2 L1 Him ltac:(lia)) as (s2 & E2 & L2).
  exists s1, F, s2. split; [done|]. split; [done|]. split; [by eapply image_of_opens|]. split; [done|].
  rewrite L2. f_equal. apply list_eq. intros i. unfold slice. rewrite list_lookup_fmap.
  destruct (raw !! i) as [x|] eqn:E.
  - pose proof (lookup_lt_Some _ _ _ E). rewrite lookup_seq_lt by (unfold zlen; lia).
    cbn [fmap option_fmap option_map]. by rewrite Z.add_0_l, Nat2Z.id, nth_lookup, Nat.add_0_l, E.
  - apply lookup_ge_None in E. by rewrite lookup_seq_ge by (unfold zlen; lia).
Qed.

End Theorems.

(** ** Witnesses *)
Definition img_path : bytes := str "disk.img".
Definition raw_path : bytes := str "disk.raw".
Definition back_path : bytes := str "back.raw".
Definition image_fs : ufs := Ufs [(img_path, created (2 ^ 20) 12)] [].
Definition raw_fs : ufs := Ufs [(raw_path, [x01; x02; x03])] [].

Lemma created_image_of : image_of (created (2 ^ 20) 12) (2 ^ 20) (λ _, x00).
Proof.
  exists (created_q (2 ^ 20) 12), (created_ghost (2 ^ 20) 12). split; [exact sample_image|]. split; [done|].
  split; [done|]. split; [by vm_compute|]. split; [by vm_compute|]. intros o _. apply nth_zeros.
Qed.

Lemma extract_reads_disk_witness : opens_as (K := simk) (created (2 ^ 20) 12) (λ _, x00)
  ∧ ∃ s', cmd_extract img_path back_path image_fs = (Ok (extract_text img_path back_path (2 ^ 20)), s')
    ∧ lookup_file back_path (u_files s') = Some (slice (λ _, x00) 0 (2 ^ 20)).
Proof.
  apply (extract_reads_disk image_fs img_path back_path (created (2 ^ 20) 12) (2 ^ 20) (λ _, x00)
    eq_refl ltac:(done) eq_refl created_image_of). lia.
Defined.

Lemma convert_extract_roundtrip_witness : ∃ s1 F s2,
  cmd_convert raw_path img_path raw_fs = (Ok (convert_text raw_path img_path 3 1 1 0 (Some (zlen F))), s1)
  ∧ lookup_file img_path (u_files s1) = Some F ∧ opens_as (K := simk) F (λ o, nth (Z.to_nat o) [x01; x02; x03] x00)
  ∧ cmd_extract img_path back_path s1 = (Ok (extract_text img_path back_path 3), s2) ∧ lookup_file back_path (u_files s2) = Some [x01; x02; x03].
Proof.
  apply (convert_extract_roundtrip raw_fs raw_path img_path back_path [x01; x02; x03] eq_refl ltac:(done) ltac:(done) eq_refl).
  change (zlen [x01; x02; x03]) with 3. lia.
Defined.

