(* ===== verification/Log.v ===== *)
(** * The write log of a device ([src/src/lbd_main.c], I/O log and segmentation)

    Every write and trim is appended as a CBOR record to a 5 MiB buffer, which
    is flushed to [disk.<label>.log.tmp] in the log directory; a full segment is
    flushed, synced and renamed to [disk.<label>.log], the watchers are told,
    and a new segment begins with a header in the empty buffer.  The log
    directory, the allocator and the clocks are parameters ([LogOps]); what
    they promise is [LogLaws]; [simlog] is a concrete instance. *)
From S2P Require Import Prelude Kernel Format Crc Cbor Qcow2State Qcow2Io.

(** ** The kernel under the log *)

(** An open file of the log directory is known by the name it was opened with.
    [l_open] is [file_open_root] with [O_CREAT|O_TRUNC], [l_lookup] the lookup
    of the new name that precedes [vfs_rename]; results are 0 (or a count) or a
    negative errno. *)
Class LogOps (L : Type) : Type := {
  l_kvmalloc : L → Z → bool * L;
  l_ktime_get_real_ns : L → Z * L;
  l_ktime_get : L → Z * L;
  l_open : L → bytes → Z * L;
  l_isize : L → bytes → Z;
  l_write : L → bytes → Z → bytes → Z * L;
  l_fsync : L → bytes → Z * L;
  l_lookup : L → bytes → Z * L;
  l_rename : L → bytes → bytes → Z * L;
  l_content : L → bytes → option bytes
}.

Class LogLaws (L : Type) `{LogOps L} : Type := {
  l_healthy : L → Prop;
  l_alloc_ok l n : l_healthy l → ∃ l', l_kvmalloc l n = (true, l') ∧ l_healthy l' ∧
    ∀ f, l_content l' f = l_content l f;
  l_real_ok l : l_healthy l → ∃ t l', l_ktime_get_real_ns l = (t, l') ∧ 0 ≤ t < 2 ^ 63 ∧
    l_healthy l' ∧ ∀ f, l_content l' f = l_content l f;
  l_mono_ok l : l_healthy l → ∃ t l', l_ktime_get l = (t, l') ∧
    l_healthy l' ∧ ∀ f, l_content l' f = l_content l f;
  l_open_ok l f : l_healthy l → ∃ l', l_open l f = (0, l') ∧ l_healthy l' ∧
    l_content l' f = Some [] ∧ ∀ g, g ≠ f → l_content l' g = l_content l g;
  l_isize_ok l f c : l_content l f = Some c → l_isize l f = zlen c;
  l_write_ok l f c d : l_healthy l → l_content l f = Some c →
    ∃ l', l_write l f (zlen c) d = (zlen d, l') ∧ l_healthy l' ∧
    l_content l' f = Some (c ++ d) ∧ ∀ g, g ≠ f → l_content l' g = l_content l g;
  l_fsync_ok l f : l_healthy l → ∃ r l', l_fsync l f = (r, l') ∧ l_healthy l' ∧
    ∀ g, l_content l' g = l_content l g;
  l_lookup_ok l f : l_healthy l → ∃ l', l_lookup l f = (0, l') ∧ l_healthy l' ∧
    ∀ g, l_content l' g = l_content l g;
  l_rename_ok l f g c : l_healthy l → l_content l f = Some c → f ≠ g →
    ∃ l', l_rename l f g = (0, l') ∧ l_healthy l' ∧ l_content l' g = Some c ∧
    l_content l' f = None ∧ ∀ h, h ≠ f → h ≠ g → l_content l' h = l_content l h
}.

(** The kernel's [crc32(seed, data, len)]: little-endian, no final complement. *)
Class Crc32Ops : Type := { kcrc32 : Z → bytes → Z }.
Class Crc32Laws `{Crc32Ops} : Prop := {
  kcrc32_ref d : kcrc32 0xFFFFFFFF d = foldl (crc_byte crc32_poly) 0xFFFFFFFF d
}.
#[global] Instance ref_crc32 : Crc32Ops := { kcrc32 := foldl (crc_byte crc32_poly) }.
#[global] Instance ref_crc32_laws : Crc32Laws.
Proof. by split. Qed.

(** ** Constants of [lbd.h] *)
Definition LBD_BLOCK_SIZE : Z := 4096.
Definition LBD_LOG_VERSION : Z := 2.
Definition LBD_LOG_PATH_MAX : Z := 256.
Definition LBD_LOG_MAX_SIZE_DEFAULT : Z := 64 * 1024 * 1024.
Definition LBD_LOG_MAX_AGE_DEFAULT : Z := 60.
Definition LBD_LOG_BUF_SIZE : Z := 5 * 1024 * 1024.

Definition LBD_CBOR_KEY_HDR_VERSION : Z := 1.
Definition LBD_CBOR_KEY_HDR_BLOCK_SIZE : Z := 2.
Definition LBD_CBOR_KEY_HDR_SEGMENT_LABEL : Z := 3.
Definition LBD_CBOR_KEY_HDR_DEVICE_SIZE : Z := 4.
Definition LBD_CBOR_KEY_HDR_BACKING_PATH : Z := 5.
Definition LBD_CBOR_KEY_OP : Z := 1.
Definition LBD_CBOR_KEY_TIMESTAMP : Z := 2.
Definition LBD_CBOR_KEY_SEQUENCE : Z := 3.
Definition LBD_CBOR_KEY_BLOCK : Z := 4.
Definition LBD_CBOR_KEY_LENGTH : Z := 5.
Definition LBD_CBOR_KEY_CHECKSUM : Z := 6.
Definition LBD_CBOR_KEY_DATA : Z := 7.

(** ** State *)

(** What a rotation tells the watchers ([struct lbd_watcher_event]). *)
Record lbd_watcher_event : Type := Event {
  ev_dev_index : Z;
  ev_log_seq : Z;
  ev_device_size : Z;
  ev_segment_label : bytes;
  ev_log_dir : bytes
}.

(** The log fields of [struct lbd_device].  [log_buf] is the used prefix of the
    buffer; [rotate_dwork] the delay in milliseconds the age timer was last
    armed with; [notified] the calls of [lbd_notify_watchers], oldest first. *)
Record log_state (L : Type) : Type := LogState {
  lfs : L;
  log_index : Z;
  log_dir : bytes;
  backing_path : bytes;
  dev_size : Z;
  log_file : option bytes;
  log_buf : bytes;
  log_has_entries : bool;
  log_seq : Z;
  log_segment_label : bytes;
  segment_start_time : Z;
  log_max_size : Z;
  log_max_age_secs : Z;
  stat_log_rotations : Z;
  rotate_dwork : option Z;
  notified : list lbd_watcher_event
}.
Arguments LogState {L}.
Arguments lfs {L}.
Arguments log_index {L}.
Arguments log_dir {L}.
Arguments backing_path {L}.
Arguments dev_size {L}.
Arguments log_file {L}.
Arguments log_buf {L}.
Arguments log_has_entries {L}.
Arguments log_seq {L}.
Arguments log_segment_label {L}.
Arguments segment_start_time {L}.
Arguments log_max_size {L}.
Arguments log_max_age_secs {L}.
Arguments stat_log_rotations {L}.
Arguments rotate_dwork {L}.
Arguments notified {L}.

Section Updates.
Context {L : Type}.
Implicit Types s : log_state L.
Definition set_lfs (v : L) s := LogState v (log_index s) (log_dir s) (backing_path s) (dev_size s)
  (log_file s) (log_buf s) (log_has_entries s) (log_seq s) (log_segment_label s)
  (segment_start_time s) (log_max_size s) (log_max_age_secs s) (stat_log_rotations s)
  (rotate_dwork s) (notified s).
Definition set_log_file (v : option bytes) s := LogState (lfs s) (log_index s) (log_dir s)
  (backing_path s) (dev_size s) v (log_buf s) (log_has_entries s) (log_seq s) (log_segment_label s)
  (segment_start_time s) (log_max_size s) (log_max_age_secs s) (stat_log_rotations s)
  (rotate_dwork s) (notified s).
Definition set_log_buf (v : bytes) s := LogState (lfs s) (log_index s) (log_dir s)
  (backing_path s) (dev_size s) (log_file s) v (log_has_entries s) (log_seq s) (log_segment_label s)
  (segment_start_time s) (log_max_size s) (log_max_age_secs s) (stat_log_rotations s)
  (rotate_dwork s) (notified s).
Definition set_has_entries (v : bool) s := LogState (lfs s) (log_index s) (log_dir s)
  (backing_path s) (dev_size s) (log_file s) (log_buf s) v (log_seq s) (log_segment_label s)
  (segment_start_time s) (log_max_size s) (log_max_age_secs s) (stat_log_rotations s)
  (rotate_dwork s) (notified s).
Definition set_log_seq (v : Z) s := LogState (lfs s) (log_index s) (log_dir s)
  (backing_path s) (dev_size s) (log_file s) (log_buf s) (log_has_entries s) v (log_segment_label s)
  (segment_start_time s) (log_max_size s) (log_max_age_secs s) (stat_log_rotations s)
  (rotate_dwork s) (notified s).
Definition set_label (v : bytes) s := LogState (lfs s) (log_index s) (log_dir s)
  (backing_path s) (dev_size s) (log_file s) (log_buf s) (log_has_entries s) (log_seq s) v
  (segment_start_time s) (log_max_size s) (log_max_age_secs s) (stat_log_rotations s)
  (rotate_dwork s) (notified s).
Definition set_start_time (v : Z) s := LogState (lfs s) (log_index s) (log_dir s)
  (backing_path s) (dev_size s) (log_file s) (log_buf s) (log_has_entries s) (log_seq s)
  (log_segment_label s) v (log_max_size s) (log_max_age_secs s) (stat_log_rotations s)
  (rotate_dwork s) (notified s).
Definition inc_rotations s := LogState (lfs s) (log_index s) (log_dir s)
  (backing_path s) (dev_size s) (log_file s) (log_buf s) (log_has_entries s) (log_seq s)
  (log_segment_label s) (segment_start_time s) (log_max_size s) (log_max_age_secs s)
  (s64 (stat_log_rotations s + 1)) (rotate_dwork s) (notified s).
Definition set_dwork (v : option Z) s := LogState (lfs s) (log_index s) (log_dir s)
  (backing_path s) (dev_size s) (log_file s) (log_buf s) (log_has_entries s) (log_seq s)
  (log_segment_label s) (segment_start_time s) (log_max_size s) (log_max_age_secs s)
  (stat_log_rotations s) v (notified s).
Definition add_event (v : lbd_watcher_event) s := LogState (lfs s) (log_index s) (log_dir s)
  (backing_path s) (dev_size s) (log_file s) (log_buf s) (log_has_entries s) (log_seq s)
  (log_segment_label s) (segment_start_time s) (log_max_size s) (log_max_age_secs s)
  (stat_log_rotations s) (rotate_dwork s) (notified s ++ [v]).
End Updates.

(** ** Names and labels *)

Definition lbd_log_name_tmp (label : bytes) (sz : Z) : bytes :=
  take (Z.to_nat (sz - 1)) (str "disk." ++ label ++ str ".log.tmp").
Definition lbd_log_name_final (label : bytes) (sz : Z) : bytes :=
  take (Z.to_nat (sz - 1)) (str "disk." ++ label ++ str ".log").

(** TAI64N: 16 digits of seconds, 8 of nanoseconds, in a 25-byte buffer. *)
Definition tai64n (tv_sec tv_nsec : Z) : bytes :=
  take 24 (hexn 16 (u64 (tv_sec + 0x4000000000000000)) ++ hexn 8 tv_nsec).

(** ** Records *)

(** Encode one map: each step on the encoder the previous one left. *)
Definition enc_kv (k v : Z) (e : cbor_enc) : cbor_enc := cbor_enc_uint (cbor_enc_uint e k) v.
Definition enc_kt (k : Z) (t : bytes) (e : cbor_enc) : cbor_enc := cbor_enc_text (cbor_enc_uint e k) t.

Definition enc_write_record (ts seq block data_len crc comp_len : Z) : cbor_enc :=
  let e := cbor_enc_map (cbor_enc_init (zeros 128) 128) 7 in
  let e := enc_kt LBD_CBOR_KEY_OP (str "W") e in
  let e := enc_kv LBD_CBOR_KEY_TIMESTAMP ts e in
  let e := enc_kv LBD_CBOR_KEY_SEQUENCE seq e in
  let e := enc_kv LBD_CBOR_KEY_BLOCK block e in
  let e := enc_kv LBD_CBOR_KEY_LENGTH data_len e in
  let e := enc_kv LBD_CBOR_KEY_CHECKSUM crc e in
  cbor_enc_bytes_hdr (cbor_enc_uint e LBD_CBOR_KEY_DATA) comp_len.

Definition enc_trim_record (ts seq block length : Z) : cbor_enc :=
  let e := cbor_enc_map (cbor_enc_init (zeros 64) 64) 5 in
  let e := enc_kt LBD_CBOR_KEY_OP (str "T") e in
  let e := enc_kv LBD_CBOR_KEY_TIMESTAMP ts e in
  let e := enc_kv LBD_CBOR_KEY_SEQUENCE seq e in
  let e := enc_kv LBD_CBOR_KEY_BLOCK block e in
  enc_kv LBD_CBOR_KEY_LENGTH length e.

Definition enc_log_header (label : bytes) (size : Z) (path : bytes) : cbor_enc :=
  let e := cbor_enc_map (cbor_enc_init (zeros 512) 512) 5 in
  let e := enc_kv LBD_CBOR_KEY_HDR_VERSION LBD_LOG_VERSION e in
  let e := enc_kv LBD_CBOR_KEY_HDR_BLOCK_SIZE LBD_BLOCK_SIZE e in
  let e := enc_kt LBD_CBOR_KEY_HDR_SEGMENT_LABEL label e in
  let e := enc_kv LBD_CBOR_KEY_HDR_DEVICE_SIZE size e in
  enc_kt LBD_CBOR_KEY_HDR_BACKING_PATH path e.

(** ** Operations *)
Section Ops.
Context {L : Type} `{LogOps L} `{LZ4Ops} `{Crc32Ops}.
Abbreviation ML := (M (log_state L)).

(** Lift a kernel call to the state of the log. *)
Definition lcall {A} (f : L → A * L) : ML A := λ s,
  let '(a, l) := f (lfs s) in (Ok a, set_lfs l s).

Definition lbd_notify_watchers : ML unit :=
  modify (λ s, add_event (Event (log_index s) (log_seq s) (u64 (dev_size s)) (log_segment_label s)
    (take (Z.to_nat (LBD_LOG_PATH_MAX - 1)) (log_dir s))) s).

Definition lbd_open_log_file : ML unit :=
  s ← get;
  let name := lbd_log_name_tmp (log_segment_label s) 48 in
  r ← lcall (λ l, l_open l name);
  if r <? 0 then throw r else modify (set_log_file (Some name)).

Definition lbd_log_flush : ML unit :=
  s ← get;
  if zlen (log_buf s) =? 0 then mret tt else
  o ← match log_file s with
      | Some _ => mret (Ok tt)
      | None => try lbd_open_log_file
      end;
  match o with
  | Err e => modify (set_log_buf []);; throw e
  | Panic => panic
  | Ok _ =>
      s ← get;
      match log_file s with
      | None => panic
      | Some f =>
          ret ← lcall (λ l, l_write l f (l_isize l f) (log_buf s));
          modify (set_log_buf []);;
          if negb (ret =? zlen (log_buf s)) then throw (io_err ret) else mret tt
      end
  end.

(** Running over the end of the buffer is undefined behaviour. *)
Definition lbd_log_buf_append (data : bytes) : ML unit :=
  s ← get;
  (if u64 (zlen (log_buf s) + zlen data) >? LBD_LOG_BUF_SIZE then lbd_log_flush else mret tt);;
  s ← get;
  if zlen (log_buf s) + zlen data >? LBD_LOG_BUF_SIZE then panic
  else modify (set_log_buf (log_buf s ++ data)).

Definition lbd_tai64n_label : ML unit :=
  t ← lcall l_ktime_get_real_ns;
  modify (set_label (tai64n (t / 1000000000) (t mod 1000000000))).

Definition lbd_write_log_header : ML unit :=
  s ← get;
  let e := enc_log_header (log_segment_label s) (u64 (dev_size s)) (backing_path s) in
  if negb (enc_err e =? 0) then throw (enc_err e) else
  lbd_log_buf_append (enc_out e).

Definition lbd_begin_segment : ML unit :=
  modify (set_log_file None);;
  modify (set_log_buf []);;
  modify (set_has_entries false);;
  t ← lcall l_ktime_get;
  modify (set_start_time t);;
  lbd_tai64n_label;;
  try lbd_write_log_header;;
  mret tt.

Definition lbd_rename_file (old_file new_basename : bytes) : ML Z :=
  r ← lcall (λ l, l_lookup l new_basename);
  if r <? 0 then mret r else lcall (λ l, l_rename l old_file new_basename).

(** [msecs_to_jiffies(dev->log_max_age_secs * 1000)]: a [u32] product. *)
Definition arm_timer : ML unit :=
  s ← get;
  if log_max_age_secs s >? 0 then
    modify (set_dwork (Some (u32 (log_max_age_secs s * 1000))))
  else mret tt.

(** Flush (which opens the file), then sync, rename and close; errors are only
    reported. *)
Definition close_segment : ML unit :=
  try lbd_log_flush;;
  s ← get;
  match log_file s with
  | None => mret tt
  | Some f =>
      lcall (λ l, l_fsync l f);;
      lbd_rename_file f (lbd_log_name_final (log_segment_label s) 48);;
      modify (set_log_file None)
  end.

Definition lbd_rotate_segment : ML unit :=
  s ← get;
  if negb (log_has_entries s) then mret tt else
  close_segment;;
  modify inc_rotations;;
  lbd_notify_watchers;;
  lbd_begin_segment;;
  arm_timer.

Definition lbd_log_rotate_work_fn : ML unit :=
  s ← get;
  if log_has_entries s then lbd_rotate_segment else mret tt.

Definition lbd_maybe_rotate_segment : ML unit :=
  s ← get;
  let file_size := match log_file s with Some f => l_isize (lfs s) f | None => 0 end in
  if file_size + zlen (log_buf s) >=? s64 (log_max_size s) then lbd_rotate_segment else mret tt.

Definition lbd_finalize_log : ML unit :=
  s ← get;
  (if log_has_entries s then try lbd_log_flush;; mret tt else mret tt);;
  s ← get;
  match log_file s with
  | None => mret tt
  | Some f =>
      lcall (λ l, l_fsync l f);;
      (if log_has_entries s then
         lbd_rename_file f (lbd_log_name_final (log_segment_label s) 48);;
         lbd_notify_watchers
       else mret tt);;
      modify (set_log_file None)
  end.

(** [(loff_t)blk_rq_pos(rq) * 512 / LBD_BLOCK_SIZE]. *)
Definition log_block (pos : Z) : Z := u64 (Z.quot (s64 (pos * 512)) LBD_BLOCK_SIZE).

(** Append the pieces of a record; an error stops it, and the entry is lost. *)
Definition log_append (e : cbor_enc) (payload : list bytes) : ML unit :=
  s ← get;
  modify (set_log_seq (u64 (log_seq s + 1)));;
  if negb (enc_err e =? 0) then modify (set_log_seq (log_seq s)) else
  r ← try (lbd_log_buf_append (enc_out e);;
           match payload with [] => mret tt | d :: _ => lbd_log_buf_append d end);
  match r with
  | Err _ => mret tt
  | Panic => panic
  | Ok _ => modify (set_has_entries true);; lbd_maybe_rotate_segment
  end.

Definition lbd_log_write (rq : request) : ML unit :=
  let data_buf := concat (rq_segs rq) in
  let data_len := u32 (blk_rq_bytes rq) in
  if data_len =? 0 then mret tt else
  a ← lcall (λ l, l_kvmalloc l data_len);
  if negb a then mret tt else
  let crc := Z.lxor (kcrc32 0xFFFFFFFF data_buf) 0xFFFFFFFF in
  let comp_cap := LZ4_compressBound data_len in
  a ← lcall (λ l, l_kvmalloc l comp_cap);
  if negb a then mret tt else
  let comp_buf := LZ4_compress data_buf comp_cap in
  if zlen comp_buf <=? 0 then mret tt else
  ts ← lcall l_ktime_get_real_ns;
  s ← get;
  log_append (enc_write_record (u64 ts) (log_seq s) (log_block (rq_pos rq)) data_len crc
                (zlen comp_buf)) [comp_buf].

Definition lbd_log_discard (pos_sector nbytes : Z) : ML unit :=
  ts ← lcall l_ktime_get_real_ns;
  s ← get;
  log_append (enc_trim_record (u64 ts) (log_seq s) (log_block pos_sector) (u32 nbytes)) [].

End Ops.
