(* ===== verification/LogProof.v ===== *)
(** * The write log keeps every entry ([src/src/lbd_main.c])

    The abstract log of a device is a list of closed segments and an open one,
    each a header and a list of entries.  [lbd_log_write], [lbd_log_discard],
    the rotation and the finalisation implement it: the bytes of the open
    segment are the [.log.tmp] file followed by the buffer, a closed segment is
    the [.log] file of its label. *)
From S2P Require Import Prelude Kernel Format Crc Cbor Qcow2State Qcow2Io Log.

(** ** Abstract entries and their bytes *)
Inductive log_entry : Type :=
| LWrite (ts seq block len crc : Z) (comp : bytes)
| LTrim (ts seq block len : Z).

Definition kv_bytes (k v : Z) : bytes := head_bytes 0 k ++ head_bytes 0 v.
Definition kt_bytes (k : Z) (t : bytes) : bytes := head_bytes 0 k ++ text_bytes t.

Definition write_head (ts seq block len crc n : Z) : bytes :=
  head_bytes 5 7 ++ kt_bytes 1 (str "W") ++ kv_bytes 2 ts ++ kv_bytes 3 seq ++ kv_bytes 4 block
  ++ kv_bytes 5 len ++ kv_bytes 6 crc ++ head_bytes 0 7 ++ head_bytes 2 n.
Definition trim_bytes (ts seq block len : Z) : bytes :=
  head_bytes 5 5 ++ kt_bytes 1 (str "T") ++ kv_bytes 2 ts ++ kv_bytes 3 seq ++ kv_bytes 4 block
  ++ kv_bytes 5 len.

Definition entry_bytes (e : log_entry) : bytes :=
  match e with
  | LWrite ts seq block len crc comp => write_head ts seq block len crc (zlen comp) ++ comp
  | LTrim ts seq block len => trim_bytes ts seq block len
  end.

Definition log_header_bytes (label : bytes) (size : Z) (path : bytes) : bytes :=
  head_bytes 5 5 ++ kv_bytes 1 2 ++ kv_bytes 2 4096 ++ kt_bytes 3 label ++ kv_bytes 4 size
  ++ kt_bytes 5 path.

(** ** The encoders produce these bytes and never overflow their buffers *)
Lemma enc_kv_puts k v e : enc_kv k v e = puts e (kv_bytes k v).
Proof. unfold enc_kv, cbor_enc_uint, kv_bytes. by rewrite !cbor_enc_head_puts, puts_app. Qed.

Lemma enc_kt_puts k t e : enc_kt k t e = puts e (kt_bytes k t).
Proof.
  unfold enc_kt, cbor_enc_uint, kt_bytes. by rewrite cbor_enc_text_puts, cbor_enc_head_puts, puts_app.
Qed.

Lemma enc_fresh cap l : 0 ≤ cap → zlen l ≤ cap →
  enc_err (puts (cbor_enc_init (zeros cap) cap) l) = 0 ∧
  enc_out (puts (cbor_enc_init (zeros cap) cap) l) = l.
Proof.
  intros Hc Hl. destruct (puts_fits (cbor_enc_init (zeros cap) cap) l) as (H1 & _ & H3).
  - split; simpl; [by apply zlen_zeros|lia].
  - done.
  - simpl. lia.
  - split; [done|]. by rewrite H3.
Qed.

Lemma zlen_kv k v : 0 ≤ k → 0 ≤ v → zlen (kv_bytes k v) ≤ 18.
Proof.
  intros. unfold kv_bytes. rewrite zlen_app.
  pose proof (length_head_bytes 0 k). pose proof (length_head_bytes 0 v). lia.
Qed.

Lemma zlen_head_small m v : v < 24 → zlen (head_bytes m v) = 1.
Proof. intros. unfold head_bytes. destruct (Z.ltb_spec v 24); [done|lia]. Qed.

Lemma zlen_kv_small k v : k < 24 → 0 ≤ v → zlen (kv_bytes k v) ≤ 10.
Proof.
  intros. unfold kv_bytes. rewrite zlen_app, zlen_head_small by done.
  pose proof (length_head_bytes 0 v). lia.
Qed.

Lemma zlen_write_head ts seq block len crc n :
  0 ≤ ts → 0 ≤ seq → 0 ≤ block → 0 ≤ len → 0 ≤ crc → 0 ≤ n →
  zlen (write_head ts seq block len crc n) ≤ 64.
Proof.
  intros. unfold write_head. rewrite !zlen_app.
  pose proof (zlen_kv_small 2 ts). pose proof (zlen_kv_small 3 seq).
  pose proof (zlen_kv_small 4 block). pose proof (zlen_kv_small 5 len).
  pose proof (zlen_kv_small 6 crc). pose proof (length_head_bytes 2 n).
  change (zlen (head_bytes 5 7)) with 1. change (zlen (kt_bytes 1 (str "W"))) with 3.
  change (zlen (head_bytes 0 7)) with 1. lia.
Qed.

Lemma enc_write_record_bytes ts seq block len crc n :
  0 ≤ ts → 0 ≤ seq → 0 ≤ block → 0 ≤ len → 0 ≤ crc → 0 ≤ n →
  enc_err (enc_write_record ts seq block len crc n) = 0 ∧
  enc_out (enc_write_record ts seq block len crc n) = write_head ts seq block len crc n.
Proof.
  intros. pose proof (zlen_write_head ts seq block len crc n).
  pose proof (enc_fresh 128 (write_head ts seq block len crc n)) as Hf.
  unfold enc_write_record, cbor_enc_map, cbor_enc_bytes_hdr, cbor_enc_uint. cbv zeta.
  rewrite !enc_kv_puts, enc_kt_puts, !cbor_enc_head_puts, <- !puts_app.
  apply Hf; lia.
Qed.

Lemma zlen_trim ts seq block len : 0 ≤ ts → 0 ≤ seq → 0 ≤ block → 0 ≤ len →
  zlen (trim_bytes ts seq block len) ≤ 44.
Proof.
  intros. unfold trim_bytes. rewrite !zlen_app.
  pose proof (zlen_kv_small 2 ts). pose proof (zlen_kv_small 3 seq).
  pose proof (zlen_kv_small 4 block). pose proof (zlen_kv_small 5 len).
  change (zlen (head_bytes 5 5)) with 1. change (zlen (kt_bytes 1 (str "T"))) with 3. lia.
Qed.

Lemma enc_trim_record_bytes ts seq block len :
  0 ≤ ts → 0 ≤ seq → 0 ≤ block → 0 ≤ len →
  enc_err (enc_trim_record ts seq block len) = 0 ∧
  enc_out (enc_trim_record ts seq block len) = trim_bytes ts seq block len.
Proof.
  intros. pose proof (zlen_trim ts seq block len).
  pose proof (enc_fresh 64 (trim_bytes ts seq block len)) as Hf.
  unfold enc_trim_record, cbor_enc_map. cbv zeta.
  rewrite !enc_kv_puts, enc_kt_puts, !cbor_enc_head_puts, <- !puts_app.
  apply Hf; lia.
Qed.

(** The header fits in its 512 bytes for every label and path a device can have. *)
Lemma zlen_kt k t : k < 24 → zlen (kt_bytes k t) ≤ 10 + zlen t.
Proof.
  intros. unfold kt_bytes, text_bytes. rewrite !zlen_app, zlen_head_small by done.
  pose proof (length_head_bytes 3 (zlen t) (zlen_nonneg t)). lia.
Qed.

Lemma zlen_log_header label size path :
  zlen label ≤ 24 → 0 ≤ size → zlen path < 256 → zlen (log_header_bytes label size path) ≤ 400.
Proof.
  intros. unfold log_header_bytes. rewrite !zlen_app.
  pose proof (zlen_kv_small 4 size). pose proof (zlen_kt 3 label). pose proof (zlen_kt 5 path).
  change (zlen (head_bytes 5 5)) with 1. change (zlen (kv_bytes 1 2)) with 2.
  change (zlen (kv_bytes 2 4096)) with 4. lia.
Qed.

Lemma enc_log_header_bytes label size path :
  zlen label ≤ 24 → 0 ≤ size → zlen path < 256 →
  enc_err (enc_log_header label size path) = 0 ∧
  enc_out (enc_log_header label size path) = log_header_bytes label size path.
Proof.
  intros. pose proof (zlen_log_header label size path).
  pose proof (enc_fresh 512 (log_header_bytes label size path)) as Hf.
  unfold enc_log_header, cbor_enc_map. cbv zeta.
  rewrite !enc_kv_puts, !enc_kt_puts, !cbor_enc_head_puts, <- !puts_app.
  apply Hf; lia.
Qed.

(** ** Names *)
Definition tmp_name (label : bytes) : bytes := lbd_log_name_tmp label 48.
Definition final_name (label : bytes) : bytes := lbd_log_name_final label 48.

Lemma tmp_name_eq label : length label = 24%nat →
  tmp_name label = str "disk." ++ label ++ str ".log.tmp".
Proof. intros H. unfold tmp_name, lbd_log_name_tmp. apply take_ge. rewrite !length_app, H. simpl. lia. Qed.

Lemma final_name_eq label : length label = 24%nat →
  final_name label = str "disk." ++ label ++ str ".log".
Proof. intros H. unfold final_name, lbd_log_name_final. apply take_ge. rewrite !length_app, H. simpl. lia. Qed.

Lemma tmp_ne_final a b : length a = 24%nat → length b = 24%nat → tmp_name a ≠ final_name b.
Proof.
  intros Ha Hb E. rewrite tmp_name_eq, final_name_eq in E by done.
  apply (f_equal length) in E. rewrite !length_app, Ha, Hb in E. simpl in E. lia.
Qed.

Lemma final_name_inj a b : length a = 24%nat → length b = 24%nat →
  final_name a = final_name b → a = b.
Proof.
  intros Ha Hb E. rewrite !final_name_eq in E by done. apply app_inv_head in E.
  by apply app_inv_tail in E.
Qed.

Lemma length_hexn n v : length (hexn n v) = n.
Proof. revert v. induction n; intros v; simpl; [done|]. rewrite length_app, IHn. simpl. lia. Qed.

Lemma length_tai64n s n : length (tai64n s n) = 24%nat.
Proof. unfold tai64n. rewrite length_take, length_app, !length_hexn. done. Qed.

(** ** The bytes of the open segment *)
Section Proof.
Context {L : Type} `{HL : LogLaws L} `{HZ : LZ4Laws} `{HC : Crc32Laws}.
Implicit Types s : log_state L.

(** The device's own parameters are in range. *)
Record dev_ok s : Prop := {
  do_path : zlen (backing_path s) < LBD_LOG_PATH_MAX;
  do_size : 0 ≤ dev_size s < 2 ^ 63;
  do_seq : 0 ≤ log_seq s < 2 ^ 64;
  do_healthy : l_healthy (lfs s)
}.

(** The open file (if any) followed by the buffer is [bs]. *)
Record stream_rep s (bs : bytes) : Prop := {
  sr_dev : dev_ok s;
  sr_label : length (log_segment_label s) = 24%nat;
  sr_buf : zlen (log_buf s) ≤ LBD_LOG_BUF_SIZE;
  sr_stream : match log_file s with
    | None => log_buf s = bs
    | Some f => f = tmp_name (log_segment_label s) ∧
        ∃ c, l_content (lfs s) f = Some c ∧ c ++ log_buf s = bs
    end
}.

(** Only the file system, the open file and the buffer change. *)
Definition patch (l : L) (f : option bytes) (b : bytes) s : log_state L :=
  set_lfs l (set_log_file f (set_log_buf b s)).

Definition frame_tmp s (l : L) : Prop :=
  ∀ g, g ≠ tmp_name (log_segment_label s) → l_content l g = l_content (lfs s) g.

Lemma lcall_run {A} (f : L → A * L) s a l : f (lfs s) = (a, l) → lcall f s = (Ok a, set_lfs l s).
Proof. intros E. unfold lcall. by rewrite E. Qed.

Lemma get_run s : get s = (Ok s, s). Proof. done. Qed.
Lemma modify_run (f : log_state L → log_state L) s : modify f s = (Ok tt, f s). Proof. done. Qed.

Lemma open_log_file_spec s : dev_ok s →
  ∃ l, lbd_open_log_file s = (Ok tt, patch l (Some (tmp_name (log_segment_label s))) (log_buf s) s) ∧
    l_healthy l ∧ l_content l (tmp_name (log_segment_label s)) = Some [] ∧ frame_tmp s l.
Proof.
  intros [_ _ _ Hh]. destruct (l_open_ok _ (tmp_name (log_segment_label s)) Hh) as (l & E & Hl & Hc & Hf).
  exists l. unfold lbd_open_log_file. mstep (get_run s).
  mstep (lcall_run (λ l, l_open l (lbd_log_name_tmp (log_segment_label s) 48)) s _ _ E).
  split_and!; done.
Qed.

Lemma flush_file_spec s f c : stream_rep s (c ++ log_buf s) → log_file s = Some f →
  l_content (lfs s) f = Some c →
  ∃ l, lcall (λ l, l_write l f (l_isize l f) (log_buf s)) s = (Ok (zlen (log_buf s)), set_lfs l s) ∧
    stream_rep (patch l (Some f) [] s) (c ++ log_buf s) ∧ frame_tmp s l.
Proof.
  intros [[Hp Hs Hq Hh] Hlab Hb Hst] Hf Hc. rewrite Hf in Hst. destruct Hst as [-> (c' & Hc' & Ecc)].
  destruct (l_write_ok _ _ _ (log_buf s) Hh Hc) as (l & E & Hl & Hlc & Hfr).
  exists l. rewrite <- (l_isize_ok _ _ _ Hc) in E. split_and!.
  - by apply lcall_run.
  - split; simpl; [by split|done|unfold zlen, LBD_LOG_BUF_SIZE; simpl; lia|].
    split; [done|]. eexists. split; [exact Hlc|]. apply app_nil_r.
  - exact Hfr.
Qed.

Lemma flush_spec s bs : stream_rep s bs →
  ∃ l f, lbd_log_flush s = (Ok tt, patch l f [] s) ∧ stream_rep (patch l f [] s) bs ∧
    frame_tmp s l ∧ (bs ≠ [] → f = Some (tmp_name (log_segment_label s))).
Proof.
  intros Hr. pose proof Hr as [Hd Hlab Hb Hst]. unfold lbd_log_flush. mstep (get_run s).
  destruct (Z.eqb_spec (zlen (log_buf s)) 0) as [E0|E0].
  { assert (Hnil : log_buf s = []) by (destruct (log_buf s); [done|unfold zlen in E0; simpl in E0; lia]).
    exists (lfs s), (log_file s).
    assert (Hs : patch (lfs s) (log_file s) [] s = s) by (rewrite <- Hnil; by destruct s).
    rewrite Hs. split_and!; [done|done|by intros g Hg|]. intros Hne.
    destruct (log_file s) as [f|]; [by destruct Hst as [-> _]|congruence]. }
  destruct (log_file s) as [f|] eqn:Ef.
  - destruct Hst as [Hn (c & Hc & <-)]. mstep (eq_refl (@mret (M (log_state L)) _ _ (Ok tt) s)).
    destruct (flush_file_spec s f c Hr Ef Hc) as (l & E & Hr' & Hfr).
    mstep (get_run s). rewrite Ef. mstep E. mstep (modify_run (set_log_buf []) (set_lfs l s)).
    rewrite Z.eqb_refl. exists l, (Some f). split_and!; [|done|done|by subst].
    unfold patch. destruct s; simpl in *; by subst.
  - destruct (open_log_file_spec s Hd) as (l1 & E1 & Hl1 & Hc1 & Hfr1).
    mstep (try_ok _ _ _ _ E1). set (s1 := patch l1 _ _ s). mstep (get_run s1).
    assert (Hr1 : stream_rep s1 ([] ++ log_buf s1)).
    { split; simpl; [|done|done|]; [by destruct Hd; split|]. split; [done|]. by exists []. }
    destruct (flush_file_spec s1 _ [] Hr1 eq_refl Hc1) as (l & E & Hr' & Hfr).
    change (log_file s1) with (Some (tmp_name (log_segment_label s))). cbv iota.
    mstep E. mstep (modify_run (set_log_buf []) (set_lfs l s1)). rewrite Z.eqb_refl.
    exists l, (Some (tmp_name (log_segment_label s))). split_and!; [done|by rewrite <- Hst| |done].
    intros g Hg. rewrite (Hfr g Hg). by apply Hfr1.
Qed.

Lemma buf_append_spec s bs d : stream_rep s bs → zlen d ≤ LBD_LOG_BUF_SIZE →
  ∃ l f b, lbd_log_buf_append d s = (Ok tt, patch l f b s) ∧
    stream_rep (patch l f b s) (bs ++ d) ∧ frame_tmp s l.
Proof.
  intros Hr Hd. unfold lbd_log_buf_append. mstep (get_run s).
  assert (Hstep : ∃ l f b, (if u64 (zlen (log_buf s) + zlen d) >? LBD_LOG_BUF_SIZE
      then lbd_log_flush else mret tt) s = (Ok tt, patch l f b s) ∧
      stream_rep (patch l f b s) bs ∧ frame_tmp s l ∧ zlen b + zlen d ≤ LBD_LOG_BUF_SIZE).
  { pose proof (sr_buf _ _ Hr). pose proof (zlen_nonneg (log_buf s)). pose proof (zlen_nonneg d).
    rewrite u64_small by (unfold LBD_LOG_BUF_SIZE in *; lia).
    destruct (Z.gtb_spec (zlen (log_buf s) + zlen d) LBD_LOG_BUF_SIZE).
    - destruct (flush_spec s bs Hr) as (l & f & E & Hr' & Hfr & _).
      exists l, f, []. split_and!; try done.
    - exists (lfs s), (log_file s), (log_buf s).
      assert (Hs : patch (lfs s) (log_file s) (log_buf s) s = s) by (by destruct s).
      rewrite Hs. split_and!; try done. }
  destruct Hstep as (l & f & b & E & Hr' & Hfr & Hfit). mstep E.
  set (s1 := patch l f b s) in *. mstep (get_run s1).
  destruct (Z.gtb_spec (zlen (log_buf s1) + zlen d) LBD_LOG_BUF_SIZE); [simpl in *; lia|].
  exists l, f, (b ++ d). split_and!; [done| |done].
  destruct Hr' as [[] ? ? Hst]. split; simpl in *; [by split|done|rewrite zlen_app; lia|].
  destruct f as [f|]; [|by rewrite Hst].
  destruct Hst as [-> (c & Hc & <-)]. split; [done|]. exists c. by rewrite app_assoc.
Qed.

(** ** Segments *)

(** What [lbd_begin_segment] makes of the state: a new label and its header. *)
Definition seg_header s (label : bytes) : bytes :=
  log_header_bytes label (u64 (dev_size s)) (backing_path s).

Definition fresh_segment (l : L) (label : bytes) (t : Z) s : log_state L :=
  set_lfs l (set_label label (set_start_time t (set_has_entries false
    (set_log_file None (set_log_buf (seg_header s label) s))))).

(** Appending to an empty buffer never flushes. *)
Lemma buf_append_empty s d : log_buf s = [] → zlen d ≤ LBD_LOG_BUF_SIZE →
  lbd_log_buf_append d s = (Ok tt, set_log_buf d s).
Proof.
  intros Hb Hd. unfold lbd_log_buf_append. mstep (get_run s). rewrite Hb.
  pose proof (zlen_nonneg d). change (zlen (@nil byte)) with 0.
  rewrite Z.add_0_l, u64_small by (unfold LBD_LOG_BUF_SIZE in *; lia).
  destruct (Z.gtb_spec (zlen d) LBD_LOG_BUF_SIZE); [lia|].
  rewrite (bind_ok (mret tt) _ s tt s) by done. mstep (get_run s). rewrite Hb.
  change (zlen (@nil byte)) with 0. rewrite Z.add_0_l.
  destruct (Z.gtb_spec (zlen d) LBD_LOG_BUF_SIZE); [lia|done].
Qed.

Lemma begin_segment_spec s : dev_ok s →
  ∃ l label t, lbd_begin_segment s = (Ok tt, fresh_segment l label t s) ∧
    stream_rep (fresh_segment l label t s) (seg_header s label) ∧
    ∀ g, l_content l g = l_content (lfs s) g.
Proof.
  intros [Hp Hs Hq Hh]. unfold lbd_begin_segment.
  mstep (modify_run (set_log_file None) s). set (s1 := set_log_file None s).
  mstep (modify_run (set_log_buf []) s1). set (s2 := set_log_buf [] s1).
  mstep (modify_run (set_has_entries false) s2). set (s3 := set_has_entries false s2).
  destruct (l_mono_ok (lfs s) Hh) as (t & l1 & E1 & Hh1 & Hf1).
  mstep (lcall_run _ s3 _ _ E1). set (s4 := set_lfs l1 s3).
  mstep (modify_run (set_start_time t) s4). set (s5 := set_start_time t s4).
  destruct (l_real_ok l1 Hh1) as (tr & l2 & E2 & Htr & Hh2 & Hf2).
  set (label := tai64n (tr / 1000000000) (tr mod 1000000000)).
  assert (El : lbd_tai64n_label s5 = (Ok tt, set_label label (set_lfs l2 s5))).
  { unfold lbd_tai64n_label. by mstep (lcall_run _ s5 _ _ E2). }
  mstep El. set (s6 := set_label label (set_lfs l2 s5)).
  assert (Hlen : zlen label ≤ 24) by (unfold zlen; subst label; rewrite length_tai64n; lia).
  pose proof (u64_range (dev_size s)) as Hu.
  destruct (enc_log_header_bytes label (u64 (dev_size s)) (backing_path s) Hlen ltac:(lia) Hp) as [Ee Eo].
  assert (Hb : zlen (seg_header s label) ≤ 400) by (unfold seg_header; apply zlen_log_header; [done|lia|done]).
  assert (Ew : lbd_write_log_header s6 = (Ok tt, fresh_segment l2 label t s)).
  { unfold lbd_write_log_header. mstep (get_run s6).
    change (log_segment_label s6) with label. change (dev_size s6) with (dev_size s).
    change (backing_path s6) with (backing_path s).
    rewrite Ee. cbn [Z.eqb negb]. cbv iota. rewrite Eo. apply buf_append_empty; [done|unfold seg_header, LBD_LOG_BUF_SIZE in *; lia]. }
  mstep (try_ok _ _ _ _ Ew). exists l2, label, t. split_and!; [done| |].
  - split; [by split|apply length_tai64n| |done].
    change (zlen (seg_header s label) ≤ LBD_LOG_BUF_SIZE). unfold LBD_LOG_BUF_SIZE; lia.
  - intros g. by rewrite Hf2, Hf1.
Qed.

(** The event a rotation of [s] announces. *)
Definition rotation_event s : lbd_watcher_event :=
  Event (log_index s) (log_seq s) (u64 (dev_size s)) (log_segment_label s)
    (take (Z.to_nat (LBD_LOG_PATH_MAX - 1)) (log_dir s)).

(** The state after a rotation: a fresh segment, one rotation and one event more. *)
Definition rotated (l : L) (label : bytes) (t : Z) s : log_state L :=
  let s' := fresh_segment l label t (add_event (rotation_event s) (inc_rotations s)) in
  if log_max_age_secs s >? 0 then set_dwork (Some (u32 (log_max_age_secs s * 1000))) s' else s'.

(** The closed segment [bs] of [s] is the [.log] file, and no other file changed. *)
Definition closed_as s (l : L) (bs : bytes) : Prop :=
  l_content l (final_name (log_segment_label s)) = Some bs ∧
  ∀ g, g ≠ tmp_name (log_segment_label s) → g ≠ final_name (log_segment_label s) →
    l_content l g = l_content (lfs s) g.

(** Syncing and renaming a flushed segment. *)
Lemma rename_closed s1 bs : stream_rep s1 bs →
  patch (lfs s1) (Some (tmp_name (log_segment_label s1))) [] s1 = s1 →
  ∃ r l' l'', lcall (λ l, l_fsync l (tmp_name (log_segment_label s1))) s1 = (Ok r, set_lfs l' s1) ∧
    lbd_rename_file (tmp_name (log_segment_label s1)) (final_name (log_segment_label s1)) (set_lfs l' s1)
      = (Ok 0, set_lfs l'' s1) ∧ l_healthy l'' ∧ closed_as s1 l'' bs.
Proof.
  intros [[_ _ _ Hh] Hlab _ Hst] Hs1. rewrite <- Hs1 in Hst. simpl in Hst.
  destruct Hst as [_ (c & Hc & Ebs)]. rewrite app_nil_r in Ebs. subst c.
  destruct (l_fsync_ok _ (tmp_name (log_segment_label s1)) Hh) as (r & l2 & E2 & Hh2 & Hf2).
  destruct (l_lookup_ok l2 (final_name (log_segment_label s1)) Hh2) as (l3 & E3 & Hh3 & Hf3).
  assert (Hc3 : l_content l3 (tmp_name (log_segment_label s1)) = Some bs) by (by rewrite Hf3, Hf2).
  pose proof (tmp_ne_final _ _ Hlab Hlab) as Hneq.
  destruct (l_rename_ok l3 _ (final_name (log_segment_label s1)) _ Hh3 Hc3 Hneq)
    as (l4 & E4 & Hh4 & Hc4 & _ & Hf4).
  exists r, l2, l4. split_and!; [by apply (lcall_run (λ l, l_fsync l _))| |done|].
  - unfold lbd_rename_file.
    mstep (lcall_run (λ l, l_lookup l (final_name (log_segment_label s1))) (set_lfs l2 s1) _ _ E3).
    cbn [Z.ltb Z.compare]. by apply (lcall_run (λ l, l_rename l _ _) (set_lfs l3 (set_lfs l2 s1))).
  - split; [done|]. intros g Hg1 Hg2. by rewrite (Hf4 g Hg1 Hg2), Hf3, Hf2.
Qed.

Lemma close_file_spec s bs : stream_rep s bs → bs ≠ [] →
  ∃ l, close_segment s = (Ok tt, patch l None [] s) ∧ l_healthy l ∧ closed_as s l bs.
Proof.
  intros Hr Hne. destruct (flush_spec s bs Hr) as (l & f & E & Hr' & Hfr & Hf). specialize (Hf Hne). subst f.
  unfold close_segment. mstep (try_ok _ _ _ _ E). set (s1 := patch l _ [] s) in *. mstep (get_run s1).
  change (log_file s1) with (Some (tmp_name (log_segment_label s))). cbv iota.
  destruct (rename_closed s1 bs Hr' eq_refl) as (r & l' & l'' & E2 & E3 & Hh & Hcl).
  mstep E2. mstep E3. exists l''. split_and!; [done|done|].
  destruct Hcl as [Hc1 Hc2]. split; [done|]. intros g Hg1 Hg2. rewrite (Hc2 g Hg1 Hg2). by apply Hfr.
Qed.

Lemma rotate_spec s bs : stream_rep s bs → bs ≠ [] → log_has_entries s = true →
  ∃ l label t, lbd_rotate_segment s = (Ok tt, rotated l label t s) ∧
    stream_rep (rotated l label t s) (seg_header s label) ∧ closed_as s l bs.
Proof.
  intros Hr Hne Hh. destruct (close_file_spec s bs Hr Hne) as (l & E & Hl & Hcl).
  unfold lbd_rotate_segment. mstep (get_run s). rewrite Hh. cbn [negb]. cbv iota.
  mstep E. set (s1 := patch l None [] s). mstep (modify_run inc_rotations s1).
  set (s2 := inc_rotations s1).
  assert (En : lbd_notify_watchers s2 = (Ok tt, add_event (rotation_event s) s2)) by done.
  mstep En. set (s3 := add_event _ s2).
  assert (Hd3 : dev_ok s3) by (destruct (sr_dev _ _ Hr); by split).
  destruct (begin_segment_spec s3 Hd3) as (l' & label & t & Eb & Hrb & Hfb). mstep Eb.
  exists l', label, t. split_and!.
  - unfold arm_timer. mstep (get_run (fresh_segment l' label t s3)). unfold rotated.
    change (log_max_age_secs (fresh_segment l' label t s3)) with (log_max_age_secs s).
    destruct (log_max_age_secs s >? 0); done.
  - destruct Hrb as [Hd Hlab Hb Hst]. unfold rotated.
    destruct (log_max_age_secs s >? 0); split; try done; by destruct Hd; split.
  - destruct Hcl as [Hc Hf]. split; [by rewrite Hfb|]. intros g Hg1 Hg2. rewrite Hfb. by apply Hf.
Qed.

(** ** The abstract log: entries of the open segment, and steps on it *)
Definition seg_bytes s (label : bytes) (es : list log_entry) : bytes :=
  seg_header s label ++ concat (entry_bytes <$> es).

Record log_rep s (es : list log_entry) : Prop := {
  lr_stream : stream_rep s (seg_bytes s (log_segment_label s) es);
  lr_flag : log_has_entries s = negb (bool_decide (es = []))
}.

(** The fields of the device the log never changes. *)
Definition same_params s s' : Prop :=
  log_index s' = log_index s ∧ log_dir s' = log_dir s ∧ backing_path s' = backing_path s ∧
  dev_size s' = dev_size s ∧ log_max_size s' = log_max_size s ∧
  log_max_age_secs s' = log_max_age_secs s.

(** From an open segment [es] of [s] to an open segment [es'] of [s']: nothing
    closed, or the segment closed as [cl] and announced with sequence [seq]. *)
Inductive log_step s (es : list log_entry) s' (es' : list log_entry) (seq : Z) :
  option (bytes * list log_entry) → Prop :=
| step_open : log_rep s' es' → log_segment_label s' = log_segment_label s →
    frame_tmp s (lfs s') → notified s' = notified s → log_step s es s' es' seq None
| step_close cl : log_rep s' es' → es' = [] → cl ≠ [] →
    closed_as s (lfs s') (seg_bytes s (log_segment_label s) cl) →
    notified s' = notified s ++ [rotation_event (set_log_seq seq s)] →
    log_step s es s' es' seq (Some (log_segment_label s, cl)).

Lemma seg_bytes_ne s label es : seg_bytes s label es ≠ [].
Proof. done. Qed.

Lemma entry_flag (es : list log_entry) e : negb (bool_decide (es ++ [e] = [])) = true.
Proof. rewrite bool_decide_eq_false_2; [done|]. by destruct es. Qed.

(** A rotation of a state that differs from [s] only in the fields an append touches. *)
Lemma rotated_step s s1 es es1 : log_rep s1 es1 → es1 ≠ [] →
  log_segment_label s1 = log_segment_label s → same_params s s1 → frame_tmp s (lfs s1) →
  notified s1 = notified s →
  ∃ s', lbd_rotate_segment s1 = (Ok tt, s') ∧ log_step s es s' [] (log_seq s1) (Some (log_segment_label s, es1)) ∧
    same_params s s' ∧ log_seq s' = log_seq s1.
Proof.
  intros [Hr Hf] Hne Hlab (P1 & P2 & P3 & P4 & P5 & P6) Hfr Hn.
  rewrite (bool_decide_eq_false_2 _ Hne) in Hf.
  destruct (rotate_spec _ _ Hr (seg_bytes_ne _ _ _) Hf) as (l & label & t & E & Hr' & Hc & Hfc).
  exists (rotated l label t s1). split; [done|]. split; [apply step_close; [|done|done|..]|].
  - split; [|unfold rotated; by destruct (_ >? 0)].
    replace (seg_bytes _ _ _) with (seg_header s1 label); [done|].
    unfold rotated, seg_bytes, seg_header. destruct (_ >? 0); simpl; by rewrite app_nil_r.
  - assert (Hl : lfs (rotated l label t s1) = l) by (unfold rotated; by destruct (_ >? 0)).
    rewrite Hl. rewrite Hlab in *. split.
    + rewrite Hc. unfold seg_bytes, seg_header. by rewrite P3, P4.
    + intros g Hg1 Hg2. rewrite Hfc by done. by apply Hfr.
  - transitivity (notified s1 ++ [rotation_event s1]); [unfold rotated; by destruct (_ >? 0)|].
    rewrite Hn. unfold rotation_event; simpl. by rewrite P1, P2, P4, Hlab.
  - unfold rotated. destruct (_ >? 0); by repeat split.
Qed.

Lemma maybe_rotate_spec s s1 es es1 : log_rep s1 es1 → es1 ≠ [] →
  log_segment_label s1 = log_segment_label s → same_params s s1 → frame_tmp s (lfs s1) →
  notified s1 = notified s →
  ∃ s' cl es', lbd_maybe_rotate_segment s1 = (Ok tt, s') ∧ log_step s es s' es' (log_seq s1) cl ∧
    same_params s s' ∧ log_seq s' = log_seq s1 ∧
    (cl = None ∧ es' = es1 ∨ cl = Some (log_segment_label s, es1) ∧ es' = []).
Proof.
  intros Hr Hne Hlab Hp Hfr Hn. unfold lbd_maybe_rotate_segment. mstep (get_run s1).
  case_match.
  - destruct (rotated_step s s1 es es1) as (s' & E & Hs & Hp' & Hq); try done.
    exists s', (Some (log_segment_label s, es1)), []. split_and!; [done..|]. by right.
  - exists s1, None, es1. split_and!; [done| |done|done|by left]. by apply step_open.
Qed.

(** Appending one record, in one or two pieces. *)
Lemma log_append_spec s es e enc payload : log_rep s es →
  enc_err enc = 0 → entry_bytes e = enc_out enc ++ concat payload → (length payload ≤ 1)%nat →
  zlen (enc_out enc) ≤ LBD_LOG_BUF_SIZE → zlen (concat payload) ≤ LBD_LOG_BUF_SIZE →
  ∃ s' cl es', log_append enc payload s = (Ok tt, s') ∧
    log_step s es s' es' (u64 (log_seq s + 1)) cl ∧ same_params s s' ∧
    log_seq s' = u64 (log_seq s + 1) ∧
    (cl = None ∧ es' = es ++ [e] ∨ cl = Some (log_segment_label s, es ++ [e]) ∧ es' = []).
Proof.
  intros [Hr Hf] He Hb Hlen Hz1 Hz2. unfold log_append. mstep (get_run s).
  set (s0 := set_log_seq (u64 (log_seq s + 1)) s). mstep (modify_run (set_log_seq (u64 (log_seq s + 1))) s).
  fold s0. rewrite He. cbn [Z.eqb negb]. cbv iota.
  assert (Hr0 : stream_rep s0 (seg_bytes s (log_segment_label s) es)).
  { destruct Hr as [[] ???]. split; try done. split; try done. apply u64_range. }
  destruct (buf_append_spec s0 _ (enc_out enc) Hr0 Hz1) as (l & f & b & E & Hr1 & Hf1).
  set (s1 := patch l f b s0) in *.
  assert (Hap : ∃ l' f' b', (lbd_log_buf_append (enc_out enc);;
      match payload with [] => mret tt | d :: _ => lbd_log_buf_append d end) s0 =
      (Ok tt, patch l' f' b' s0) ∧
      stream_rep (patch l' f' b' s0) (seg_bytes s (log_segment_label s) (es ++ [e])) ∧ frame_tmp s0 l').
  { mstep E. unfold seg_bytes. rewrite fmap_app, concat_app.
    change (concat (entry_bytes <$> [e])) with (entry_bytes e ++ []).
    rewrite app_nil_r, Hb. destruct payload as [|d [|]]; [| |simpl in Hlen; lia].
    - exists l, f, b. split_and!; [done| |done]. change (concat []) with (@nil byte).
      rewrite app_nil_r. by rewrite app_assoc.
    - cbn [concat] in Hz2 |- *. rewrite app_nil_r in *.
      destruct (buf_append_spec s1 _ d Hr1 Hz2) as (l' & f' & b' & E' & Hr2 & Hf2).
      exists l', f', b'. split_and!; [done| |].
      + unfold seg_bytes in Hr2. by rewrite <- !app_assoc in Hr2.
      + intros g Hg. rewrite Hf2 by done. by apply Hf1. }
  destruct Hap as (l' & f' & b' & E' & Hr2 & Hf2). mstep (try_ok _ _ _ _ E').
  set (s2 := patch l' f' b' s0) in *. mstep (modify_run (set_has_entries true) s2).
  destruct (maybe_rotate_spec s (set_has_entries true s2) es (es ++ [e])) as (s' & cl & es' & E3 & Hs & Hp & Hq & Hc).
  - split; [|simpl; by rewrite entry_flag]. destruct Hr2 as [[] ???]. by split.
  - by destruct es.
  - done.
  - by repeat split.
  - exact Hf2.
  - done.
  - exists s', cl, es'. by split_and!.
Qed.

(** ** Operations on the log *)

(** The entry a write and a trim must leave. *)
Definition rq_comp (rq : request) : bytes :=
  LZ4_compress (concat (rq_segs rq)) (LZ4_compressBound (u32 (blk_rq_bytes rq))).
Definition write_entry (ts seq : Z) (rq : request) : log_entry :=
  LWrite ts seq (log_block (rq_pos rq)) (u32 (blk_rq_bytes rq)) (crc32_calc (concat (rq_segs rq)))
    (rq_comp rq).

(** [max_hw_sectors = 256]: a write carries at most 128 KiB. *)
Definition MAX_RQ_BYTES : Z := 131072.
Definition rq_ok (rq : request) : Prop := 0 < blk_rq_bytes rq ≤ MAX_RQ_BYTES.

(** Compression into a buffer of the bound's size succeeds. *)
Lemma rq_comp_ne rq : rq_ok rq → rq_comp rq ≠ [].
Proof.
  unfold rq_ok, MAX_RQ_BYTES, rq_comp, blk_rq_bytes. intros Hb. rewrite u32_small by lia.
  apply lz4_succeeds. unfold LZ4_MAX_INPUT_SIZE. lia.
Qed.

Lemma crc32_kernel d : Z.lxor (kcrc32 0xFFFFFFFF d) 0xFFFFFFFF = crc32_calc d.
Proof.
  unfold crc32_calc, crc32_init. rewrite crc_calc_ref by auto with lbd. by rewrite kcrc32_ref.
Qed.

Lemma crc32_calc_range d : 0 ≤ crc32_calc d < 2 ^ 32.
Proof.
  unfold crc32_calc, crc32_init. rewrite crc_calc_ref by auto with lbd.
  apply crc_ref_u32. auto with lbd.
Qed.

Lemma zlen_rq_comp rq : 0 ≤ blk_rq_bytes rq ≤ MAX_RQ_BYTES → zlen (rq_comp rq) ≤ 131603.
Proof.
  unfold MAX_RQ_BYTES. intros Hb. unfold rq_comp. rewrite u32_small by lia.
  etransitivity; [apply lz4_bound|]. apply Z.max_lub; [lia|].
  unfold LZ4_compressBound. case_match; [lia|].
  pose proof (Z.div_le_upper_bound (blk_rq_bytes rq) 255 515). lia.
Qed.

Lemma rep_set_lfs s es l : log_rep s es → l_healthy l →
  (∀ g, l_content l g = l_content (lfs s) g) → log_rep (set_lfs l s) es.
Proof.
  intros [[[] ?? Hst] Hf] Hh Hc. split; [|done]. split; [by split|done..|].
  simpl. destruct (log_file s) as [f|]; [|done]. by rewrite Hc.
Qed.

(** A step of a state that differs from [s] only in the kernel under it. *)
Lemma step_set_lfs s l es s' es' q cl : (∀ g, l_content l g = l_content (lfs s) g) →
  log_step (set_lfs l s) es s' es' q cl → log_step s es s' es' q cl.
Proof.
  intros Hc [Hr Hl Hf Hn|c Hr He Hne [Hc1 Hc2] Hn].
  - apply step_open; try done. intros g Hg. rewrite (Hf g Hg). apply Hc.
  - change (log_segment_label (set_lfs l s)) with (log_segment_label s) in *.
    apply step_close; try done. split; [done|]. intros g Hg1 Hg2. rewrite (Hc2 g Hg1 Hg2). apply Hc.
Qed.

Lemma log_write_spec s es rq : log_rep s es → rq_ok rq →
  ∃ ts s' cl es', lbd_log_write rq s = (Ok tt, s') ∧ 0 ≤ ts < 2 ^ 64 ∧
    log_step s es s' es' (u64 (log_seq s + 1)) cl ∧ same_params s s' ∧
    log_seq s' = u64 (log_seq s + 1) ∧
    (cl = None ∧ es' = es ++ [write_entry ts (log_seq s) rq] ∨
     cl = Some (log_segment_label s, es ++ [write_entry ts (log_seq s) rq]) ∧ es' = []).
Proof.
  intros Hr Hb. pose proof (rq_comp_ne rq Hb) as Hc. unfold rq_ok in Hb. unfold lbd_log_write. fold (rq_comp rq). cbv zeta.
  assert (Hu : u32 (blk_rq_bytes rq) = blk_rq_bytes rq) by (unfold MAX_RQ_BYTES in Hb; apply u32_small; lia).
  destruct (Z.eqb_spec (u32 (blk_rq_bytes rq)) 0); [lia|].
  destruct (l_alloc_ok _ (u32 (blk_rq_bytes rq)) (do_healthy _ (sr_dev _ _ (lr_stream _ _ Hr))))
    as (l1 & E1 & Hh1 & Hc1).
  mstep (lcall_run (λ l, l_kvmalloc l (u32 (blk_rq_bytes rq))) s _ _ E1). cbn [negb]. cbv iota.
  destruct (l_alloc_ok _ (LZ4_compressBound (u32 (blk_rq_bytes rq))) Hh1) as (l2 & E2 & Hh2 & Hc2).
  mstep (lcall_run (λ l, l_kvmalloc l (LZ4_compressBound (u32 (blk_rq_bytes rq)))) (set_lfs l1 s) _ _ E2).
  cbn [negb]. cbv iota.
  assert (0 < zlen (rq_comp rq)) by (unfold zlen; destruct (rq_comp rq); [done|simpl; lia]).
  destruct (Z.leb_spec (zlen (rq_comp rq)) 0); [lia|].
  destruct (l_real_ok _ Hh2) as (ts & l3 & E3 & Hts & Hh3 & Hc3).
  mstep (lcall_run l_ktime_get_real_ns (set_lfs l2 (set_lfs l1 s)) _ _ E3).
  set (s3 := set_lfs l3 _). mstep (get_run s3). rewrite crc32_kernel, (u64_small ts) by lia.
  change (log_seq s3) with (log_seq s).
  assert (Hall : ∀ g, l_content l3 g = l_content (lfs s) g) by (intros g; by rewrite Hc3, Hc2, Hc1).
  assert (Hr3 : log_rep s3 es) by exact (rep_set_lfs s es l3 Hr Hh3 Hall).
  pose proof (crc32_calc_range (concat (rq_segs rq))).
  pose proof (do_seq _ (sr_dev _ _ (lr_stream _ _ Hr))).
  pose proof (u64_range (Z.quot (s64 (rq_pos rq * 512)) LBD_BLOCK_SIZE)) as Hblk.
  fold (log_block (rq_pos rq)) in Hblk. pose proof (zlen_rq_comp rq ltac:(lia)).
  destruct (enc_write_record_bytes ts (log_seq s) (log_block (rq_pos rq)) (u32 (blk_rq_bytes rq))
    (crc32_calc (concat (rq_segs rq))) (zlen (rq_comp rq))) as [Ee Eo]; [lia..|].
  destruct (log_append_spec s3 es (write_entry ts (log_seq s) rq)
    (enc_write_record ts (log_seq s) (log_block (rq_pos rq)) (u32 (blk_rq_bytes rq))
       (crc32_calc (concat (rq_segs rq))) (zlen (rq_comp rq))) [rq_comp rq] Hr3 Ee)
    as (s' & cl & es' & E & Hs & Hp & Hq & Hcl).
  - rewrite Eo. cbn [concat]. by rewrite app_nil_r.
  - done.
  - rewrite Eo. pose proof (zlen_write_head ts (log_seq s) (log_block (rq_pos rq))
      (u32 (blk_rq_bytes rq)) (crc32_calc (concat (rq_segs rq))) (zlen (rq_comp rq))).
    unfold LBD_LOG_BUF_SIZE. lia.
  - cbn [concat]. rewrite app_nil_r. unfold LBD_LOG_BUF_SIZE. lia.
  - exists ts, s', cl, es'. split_and!; [done|lia|lia| |done|done|done].
    by apply (step_set_lfs s l3).
Qed.

Lemma log_discard_spec s es pos n : log_rep s es →
  ∃ ts s' cl es', lbd_log_discard pos n s = (Ok tt, s') ∧ 0 ≤ ts < 2 ^ 64 ∧
    log_step s es s' es' (u64 (log_seq s + 1)) cl ∧ same_params s s' ∧
    log_seq s' = u64 (log_seq s + 1) ∧
    (cl = None ∧ es' = es ++ [LTrim ts (log_seq s) (log_block pos) (u32 n)] ∨
     cl = Some (log_segment_label s, es ++ [LTrim ts (log_seq s) (log_block pos) (u32 n)]) ∧ es' = []).
Proof.
  intros Hr. unfold lbd_log_discard.
  destruct (l_real_ok _ (do_healthy _ (sr_dev _ _ (lr_stream _ _ Hr)))) as (ts & l & E1 & Hts & Hh & Hc).
  mstep (lcall_run l_ktime_get_real_ns s _ _ E1). mstep (get_run (set_lfs l s)).
  rewrite (u64_small ts) by lia. change (log_seq (set_lfs l s)) with (log_seq s).
  pose proof (do_seq _ (sr_dev _ _ (lr_stream _ _ Hr))). pose proof (u32_range n).
  pose proof (u64_range (Z.quot (s64 (pos * 512)) LBD_BLOCK_SIZE)) as Hblk. fold (log_block pos) in Hblk.
  destruct (enc_trim_record_bytes ts (log_seq s) (log_block pos) (u32 n)) as [Ee Eo]; [lia..|].
  destruct (log_append_spec (set_lfs l s) es (LTrim ts (log_seq s) (log_block pos) (u32 n))
    (enc_trim_record ts (log_seq s) (log_block pos) (u32 n)) []) as (s' & cl & es' & E & Hs & Hp & Hq & Hcl).
  - by apply rep_set_lfs.
  - done.
  - rewrite Eo. by rewrite app_nil_r.
  - simpl; lia.
  - rewrite Eo. pose proof (zlen_trim ts (log_seq s) (log_block pos) (u32 n)). unfold LBD_LOG_BUF_SIZE. lia.
  - unfold zlen, LBD_LOG_BUF_SIZE; simpl; lia.
  - exists ts, s', cl, es'. split_and!; [done|lia|lia| |done|done|done]. by apply (step_set_lfs s l).
Qed.

Lemma rotate_work_spec s es : log_rep s es →
  ∃ s' cl es', lbd_log_rotate_work_fn s = (Ok tt, s') ∧ log_step s es s' es' (log_seq s) cl ∧
    same_params s s' ∧ log_seq s' = log_seq s ∧ es' = [] ∧
    cl = if bool_decide (es = []) then None else Some (log_segment_label s, es).
Proof.
  intros Hr. pose proof Hr as [Hst Hf]. unfold lbd_log_rotate_work_fn. mstep (get_run s). rewrite Hf.
  destruct (bool_decide (es = [])) eqn:Eb; cbn [negb].
  - apply bool_decide_eq_true in Eb as ->. exists s, None, []. split_and!; try done.
    apply step_open; by try done.
  - apply bool_decide_eq_false in Eb.
    destruct (rotated_step s s es es) as (s' & E & Hs & Hp & Hq); try done.
    exists s', (Some (log_segment_label s, es)), []. by split_and!.
Qed.

(** ** Histories *)

(** A request on the device, or the age timer (a [REQ_OP_FLUSH] rotates alike). *)
Inductive log_op : Type :=
| OpWrite (rq : request)
| OpTrim (pos nbytes : Z)
| OpRotate.

Definition log_exec (op : log_op) : M (log_state L) unit :=
  match op with
  | OpWrite rq => lbd_log_write rq
  | OpTrim pos n => lbd_log_discard pos n
  | OpRotate => lbd_log_rotate_work_fn
  end.

Fixpoint log_run (ops : list log_op) : M (log_state L) unit :=
  match ops with
  | [] => mret tt
  | op :: ops' => log_exec op;; log_run ops'
  end.

Definition op_ok (op : log_op) : Prop :=
  match op with OpWrite rq => rq_ok rq | _ => True end.

(** The entries operations must leave, from sequence number [seq] on. *)
Fixpoint expected (seq : Z) (ops : list log_op) (es : list log_entry) : Prop :=
  match ops with
  | [] => es = []
  | OpWrite rq :: ops' => ∃ ts es', 0 ≤ ts < 2 ^ 64 ∧ es = write_entry ts seq rq :: es' ∧
      expected (u64 (seq + 1)) ops' es'
  | OpTrim pos n :: ops' => ∃ ts es', 0 ≤ ts < 2 ^ 64 ∧ es = LTrim ts seq (log_block pos) (u32 n) :: es' ∧
      expected (u64 (seq + 1)) ops' es'
  | OpRotate :: ops' => expected seq ops' es
  end.

(** Each closed segment is its file, as long as no label was used twice. *)
Definition closed_files s (hist : list (bytes * list log_entry)) : Prop :=
  NoDup hist.*1 → ∀ label es, (label, es) ∈ hist →
    l_content (lfs s) (final_name label) = Some (seg_bytes s label es).

Record history s (hist : list (bytes * list log_entry)) (es : list log_entry) : Prop := {
  hi_rep : log_rep s es;
  hi_labels : Forall (λ h, length h.1 = 24%nat) hist;
  hi_files : closed_files s hist
}.

Lemma seg_bytes_params s s' label es : same_params s s' → seg_bytes s' label es = seg_bytes s label es.
Proof. intros (_ & _ & P3 & P4 & _). unfold seg_bytes, seg_header. by rewrite P3, P4. Qed.

Lemma same_params_trans s1 s2 s3 : same_params s1 s2 → same_params s2 s3 → same_params s1 s3.
Proof. unfold same_params. intuition congruence. Qed.

(** Closing one more segment keeps the files of the earlier ones. *)
Lemma closed_files_snoc s s' hist lab cl : length lab = 24%nat → log_segment_label s = lab →
  Forall (λ h, length h.1 = 24%nat) hist → closed_files s hist → same_params s s' →
  closed_as s (lfs s') (seg_bytes s lab cl) → closed_files s' (hist ++ [(lab, cl)]).
Proof.
  intros Hlen Hlab Hall Hf Hp [Hc Hfr] Hnd label es Hin.
  rewrite fmap_app in Hnd. apply list.NoDup_app in Hnd as (Hnd & Hdis & _).
  rewrite (seg_bytes_params s s') by done. apply elem_of_app in Hin as [Hin|Hin].
  - assert (Hl : length label = 24%nat) by (rewrite list.Forall_forall in Hall; by apply (Hall _ Hin)).
    rewrite Hfr; [by apply Hf| |].
    + rewrite Hlab. intros E. by apply (tmp_ne_final lab label).
    + rewrite Hlab. intros E. apply final_name_inj in E; [|done..]. subst label.
      apply (Hdis lab); [by apply (list_elem_of_fmap_2' fst _ (lab, es))|]. by apply list_elem_of_singleton.
  - apply list_elem_of_singleton in Hin as [= -> ->]. by rewrite <- Hlab at 1.
Qed.

Lemma closed_files_frame s s' hist : length (log_segment_label s) = 24%nat →
  Forall (λ h, length h.1 = 24%nat) hist → same_params s s' →
  frame_tmp s (lfs s') → closed_files s hist → closed_files s' hist.
Proof.
  intros Hlen Hall Hp Hfr Hf Hnd label es Hin. rewrite (seg_bytes_params s s') by done.
  rewrite Hfr; [by apply Hf|]. rewrite list.Forall_forall in Hall. specialize (Hall _ Hin).
  intros E. by apply (tmp_ne_final (log_segment_label s) label).
Qed.

(** One step of the history. *)
Lemma history_step s hist es s' es' q cl : history s hist es → log_step s es s' es' q cl →
  same_params s s' → history s' (hist ++ option_list cl) es'.
Proof.
  intros [Hr Hall Hf] Hs Hp. pose proof (sr_label _ _ (lr_stream _ _ Hr)) as Hlen.
  destruct Hs as [Hr' Hl Hfr Hn|c Hr' He Hne Hc Hn]; simpl.
  - rewrite app_nil_r. split; [done|done|]. by apply (closed_files_frame s).
  - split; [done| |by apply (closed_files_snoc s)]. apply list.Forall_app. by repeat constructor.
Qed.

(** The labels announced to the watchers are those of the closed segments. *)
Definition announced {A} s s' (hist : list (bytes * A)) : Prop :=
  ev_segment_label <$> notified s' = (ev_segment_label <$> notified s) ++ hist.*1.

Lemma step_announced s es s' es' q cl : log_step s es s' es' q cl → announced s s' (option_list cl).
Proof.
  unfold announced. intros [Hr Hl Hf ->|c Hr He Hne Hc ->]; simpl; [by rewrite app_nil_r|].
  by rewrite fmap_app.
Qed.

(** What one operation does to a history. *)
Lemma log_exec_spec s hist es op ops : history s hist es → op_ok op →
  ∃ s' cl es' new, log_exec op s = (Ok tt, s') ∧ history s' (hist ++ option_list cl) es' ∧
    same_params s s' ∧ announced s s' (option_list cl) ∧
    concat (option_list cl).*2 ++ es' = es ++ new ∧
    (∀ rest, expected (log_seq s') ops rest → expected (log_seq s) (op :: ops) (new ++ rest)).
Proof.
  intros Hh Hop. pose proof (hi_rep _ _ _ Hh) as Hr. destruct op as [rq|pos n|]; simpl in *.
  - destruct (log_write_spec s es rq Hr Hop) as (ts & s' & cl & es' & E & Hts & Hs & Hp & Hq & Hcl).
    exists s', cl, es', [write_entry ts (log_seq s) rq].
    split_and!; [done|by eapply history_step|done|by eapply step_announced| |].
    + destruct Hcl as [[-> ->]|[-> ->]]; simpl; by rewrite ?app_nil_r.
    + intros rest Hx. exists ts, rest. by rewrite <- Hq.
  - destruct (log_discard_spec s es pos n Hr) as (ts & s' & cl & es' & E & Hts & Hs & Hp & Hq & Hcl).
    exists s', cl, es', [LTrim ts (log_seq s) (log_block pos) (u32 n)].
    split_and!; [done|by eapply history_step|done|by eapply step_announced| |].
    + destruct Hcl as [[-> ->]|[-> ->]]; simpl; by rewrite ?app_nil_r.
    + intros rest Hx. exists ts, rest. by rewrite <- Hq.
  - destruct (rotate_work_spec s es Hr) as (s' & cl & es' & E & Hs & Hp & Hq & -> & Hcl).
    exists s', cl, [], []. split_and!; [done|by eapply history_step|done|by eapply step_announced| |].
    + subst cl. case_bool_decide; subst; simpl; by rewrite ?app_nil_r.
    + intros rest Hx. by rewrite <- Hq.
Qed.

Lemma log_run_spec s hist es ops : history s hist es → Forall op_ok ops →
  ∃ s' hist' es' new, log_run ops s = (Ok tt, s') ∧ history s' (hist ++ hist') es' ∧
    same_params s s' ∧ announced s s' hist' ∧ concat hist'.*2 ++ es' = es ++ new ∧
    expected (log_seq s) ops new.
Proof.
  intros Hh Hops. revert s hist es Hh. induction Hops as [|op ops Hop Hops IH]; intros s hist es Hh.
  { exists s, [], es, []. rewrite !app_nil_r. split_and!; try done. unfold announced. by rewrite app_nil_r. }
  destruct (log_exec_spec s hist es op ops Hh Hop) as (s1 & cl & es1 & new & E & Hh1 & Hp1 & Ha1 & He & Hx).
  destruct (IH s1 _ es1 Hh1) as (s2 & hist' & es2 & new2 & E2 & Hh2 & Hp2 & Ha2 & He2 & Hx2).
  exists s2, (option_list cl ++ hist'), es2, (new ++ new2). simpl. mstep E.
  split_and!; [done|by rewrite app_assoc|by eapply same_params_trans| | |by apply Hx].
  - unfold announced in *. by rewrite Ha2, Ha1, fmap_app, <- app_assoc.
  - rewrite fmap_app, concat_app, <- app_assoc, He2, app_assoc, He. by rewrite app_assoc.
Qed.

(** [lbd_finalize_log] closes the last segment if it has entries. *)
Lemma finalize_spec s hist es : history s hist es →
  ∃ s' hist', lbd_finalize_log s = (Ok tt, s') ∧ closed_files s' (hist ++ hist') ∧
    same_params s s' ∧ announced s s' hist' ∧ concat hist'.*2 = es ∧ log_file s' = None ∧
    Forall (λ h, length h.1 = 24%nat) hist'.
Proof.
  intros [Hr Hall Hf]. pose proof Hr as [Hst Hfl]. unfold lbd_finalize_log. mstep (get_run s). rewrite Hfl.
  destruct (bool_decide (es = [])) eqn:Eb; cbn [negb]; cbv iota.
  - apply bool_decide_eq_true in Eb as ->. rewrite (bind_ok (mret tt) _ s tt s) by done.
    mstep (get_run s). destruct (log_file s) as [f|] eqn:Ef.
    + destruct (l_fsync_ok _ f (do_healthy _ (sr_dev _ _ Hst))) as (r & l & E & Hh & Hc).
      mstep (lcall_run (λ l, l_fsync l f) s _ _ E). rewrite Hfl. cbn [negb bool_decide].
      rewrite (bind_ok (mret tt) _ (set_lfs l s) tt (set_lfs l s)) by done.
      exists (set_log_file None (set_lfs l s)), []. rewrite app_nil_r. split_and!; try done.
      * apply (closed_files_frame s); try done; [by apply (sr_label _ _ Hst)|by intros g _; apply Hc].
      * unfold announced. by rewrite app_nil_r.
    + exists s, []. rewrite app_nil_r. split_and!; try done. unfold announced. by rewrite app_nil_r.
  - apply bool_decide_eq_false in Eb.
    destruct (flush_spec s _ Hst) as (l & f & E & Hr' & Hfr & Hff). specialize (Hff (seg_bytes_ne _ _ _)). subst f.
    rewrite (bind_ok _ _ s tt (patch l (Some (tmp_name (log_segment_label s))) [] s))
      by (by rewrite (bind_ok _ _ _ _ _ (try_ok _ _ _ _ E))).
    set (s1 := patch l _ [] s) in *. mstep (get_run s1).
    change (log_file s1) with (Some (tmp_name (log_segment_label s))). cbv iota.
    destruct (rename_closed s1 _ Hr' eq_refl) as (r & l' & l'' & E2 & E3 & _ & Hcl).
    mstep E2. change (log_has_entries s1) with (log_has_entries s). rewrite Hfl.
    cbn [negb]. cbv iota.
    rewrite (bind_ok _ _ (set_lfs l' s1) tt (add_event (rotation_event s) (set_lfs l'' s1)))
      by (by rewrite (bind_ok _ _ _ _ _ E3)).
    eexists _, [(log_segment_label s, es)]. split_and!; [done| |done| |by simpl; rewrite app_nil_r|done|].
    + apply (closed_files_snoc s); try done; [by apply (sr_label _ _ Hst)|].
      destruct Hcl as [Hc1 Hc2]. split; [done|]. intros g Hg1 Hg2. simpl. rewrite Hc2 by done. by apply Hfr.
    + unfold announced. simpl. by rewrite fmap_app.
    + repeat constructor. by apply (sr_label _ _ Hst).
Qed.

(** A whole life of the log: start, operations, finalisation. *)
Lemma log_life s ops : dev_ok s → Forall op_ok ops →
  ∃ s' hist,
    (lbd_begin_segment;; log_run ops;; lbd_finalize_log) s = (Ok tt, s') ∧
    expected (log_seq s) ops (concat hist.*2) ∧ announced s s' hist ∧
    Forall (λ h, length h.1 = 24%nat) hist ∧
    (NoDup hist.*1 → ∀ label es, (label, es) ∈ hist →
       l_content (lfs s') (final_name label) = Some (seg_bytes s label es)).
Proof.
  intros Hd Hops.
  destruct (begin_segment_spec s Hd) as (l & label & t & E1 & Hr1 & _).
  set (s1 := fresh_segment l label t s) in *.
  assert (Hh : history s1 [] []).
  { split; [|done|by intros _ ? ? ?%elem_of_nil]. split; [|done]. unfold seg_bytes. by rewrite app_nil_r. }
  destruct (log_run_spec s1 [] [] ops Hh Hops) as (s2 & hist & es & new & E2 & Hh2 & Hp2 & Ha2 & He2 & Hx).
  destruct (finalize_spec s2 hist es Hh2) as (s3 & hist' & E3 & Hf3 & Hp3 & Ha3 & He3 & _ & Hl3).
  exists s3, (hist ++ hist'). mstep E1. mstep E2. split_and!; [done| | | |].
  - rewrite fmap_app, concat_app, He3, He2. exact Hx.
  - unfold announced in *. by rewrite Ha3, Ha2, fmap_app, app_assoc.
  - apply list.Forall_app. split; [exact (hi_labels _ _ _ Hh2)|done].
  - intros Hnd lb es' Hin. rewrite (Hf3 Hnd _ _ Hin). f_equal.
    apply (seg_bytes_params s1). by eapply same_params_trans.
Qed.
End Proof.

(** ** Whatever the kernel answers: no undefined behaviour, and the buffer is
    never overrun.  No law of [LogOps] is used here. *)
Section Safe.
Context {L : Type} `{LogOps L} `{HZ : LZ4Laws} `{Crc32Ops}.
Implicit Types s : log_state L.

Definition buf_ok s : Prop := zlen (log_buf s) ≤ LBD_LOG_BUF_SIZE.

Definition lsafe {A} (m : M (log_state L) A) : Prop :=
  ∀ s, buf_ok s → match m s with (Panic, _) => False | (_, s') => buf_ok s' end.

Lemma lsafe_ret {A} (a : A) : lsafe (mret a).
Proof. by intros s Hs. Qed.

Lemma lsafe_throw {A} e : lsafe (throw e : M (log_state L) A).
Proof. by intros s Hs. Qed.

Lemma lsafe_bind {A B} (m : M (log_state L) A) (f : A → M (log_state L) B) :
  lsafe m → (∀ a, lsafe (f a)) → lsafe (m ≫= f).
Proof.
  intros Hm Hf s Hs. specialize (Hm s Hs). unfold mbind, M_bind.
  destruct (m s) as [[a|e|] s']; [by apply Hf|done|done].
Qed.

Lemma lsafe_get {B} (f : log_state L → M (log_state L) B) :
  (∀ s, buf_ok s → match f s s with (Panic, _) => False | (_, s') => buf_ok s' end) →
  lsafe (get ≫= f).
Proof. intros Hf s Hs. by apply Hf. Qed.

Lemma lsafe_try {A} (m : M (log_state L) A) : lsafe m → lsafe (try m).
Proof.
  intros Hm s Hs. specialize (Hm s Hs). unfold try. by destruct (m s) as [[] ?].
Qed.

Lemma lsafe_modify (f : log_state L → log_state L) :
  (∀ s, zlen (log_buf (f s)) ≤ Z.max 0 (zlen (log_buf s))) → lsafe (modify f).
Proof.
  intros Hf s Hs. unfold modify, buf_ok in *. specialize (Hf s). pose proof (zlen_nonneg (log_buf s)). lia.
Qed.

Lemma lsafe_lcall {A} (f : L → A * L) : lsafe (lcall f).
Proof. intros s Hs. unfold lcall. by destruct (f (lfs s)). Qed.

Lemma lsafe_at {A} (m : M (log_state L) A) s : lsafe m → buf_ok s →
  match m s with (Panic, _) => False | (_, s') => buf_ok s' end.
Proof. intros Hm Hs. exact (Hm s Hs). Qed.

Lemma open_safe : lsafe lbd_open_log_file.
Proof.
  apply lsafe_get. intros s Hs. apply (lsafe_at (_ ≫= _)); [|done].
  apply lsafe_bind; [apply lsafe_lcall|]. intros r.
  case_match; [apply lsafe_throw|apply lsafe_modify; simpl; lia].
Qed.

(** After a flush, failed or not, the buffer is empty. *)
Lemma flush_empties s : buf_ok s →
  match lbd_log_flush s with (Panic, _) => False | (_, s') => log_buf s' = [] end.
Proof.
  intros Hs. unfold lbd_log_flush. rewrite (bind_ok get _ s s s) by done.
  destruct (Z.eqb_spec (zlen (log_buf s)) 0) as [E|E].
  { simpl. destruct (log_buf s); [done|unfold zlen in E; simpl in E; lia]. }
  assert (Hw : ∀ s1 f, log_file s1 = Some f →
    match (s ← get; match log_file s with
      | None => panic
      | Some f => ret ← lcall (λ l, l_write l f (l_isize l f) (log_buf s));
          modify (set_log_buf []);;
          if negb (ret =? zlen (log_buf s)) then throw (io_err ret) else mret tt
      end) s1 with (Panic, _) => False | (_, s') => log_buf s' = [] end).
  { intros s1 f Hf. rewrite (bind_ok get _ s1 s1 s1) by done. rewrite Hf. unfold mbind, M_bind, lcall.
    destruct (l_write _ _ _ _) as [r l]. unfold modify. by destruct (negb _). }
  destruct (log_file s) as [f|] eqn:Ef; [by apply (Hw s f)|].
  unfold mbind at 1, M_bind at 1, try, lbd_open_log_file.
  rewrite (bind_ok get _ s s s) by done. unfold mbind at 1, M_bind at 1, lcall at 1.
  destruct (l_open _ _) as [r l]. destruct (r <? 0); [done|].
  by apply (Hw _ (lbd_log_name_tmp (log_segment_label s) 48)).
Qed.

Lemma flush_safe : lsafe lbd_log_flush.
Proof.
  intros s Hs. pose proof (flush_empties s Hs) as He. destruct (lbd_log_flush s) as [[|e|] s'];
    [..|done]; unfold buf_ok; by rewrite He.
Qed.

Lemma buf_append_safe d : zlen d ≤ LBD_LOG_BUF_SIZE → lsafe (lbd_log_buf_append d).
Proof.
  intros Hd. apply lsafe_get. intros s Hs.
  assert (Hlast : ∀ s1, zlen (log_buf s1) + zlen d ≤ LBD_LOG_BUF_SIZE →
    match (s ← get; if zlen (log_buf s) + zlen d >? LBD_LOG_BUF_SIZE then panic
      else modify (set_log_buf (log_buf s ++ d))) s1 with
    | (Panic, _) => False | (_, s') => buf_ok s' end).
  { intros s1 Hs1. rewrite (bind_ok get _ s1 s1 s1) by done.
    destruct (Z.gtb_spec (zlen (log_buf s1) + zlen d) LBD_LOG_BUF_SIZE); [lia|].
    unfold buf_ok; simpl. by rewrite zlen_app. }
  pose proof (zlen_nonneg d). pose proof (zlen_nonneg (log_buf s)). unfold buf_ok in Hs.
  rewrite u64_small by (unfold LBD_LOG_BUF_SIZE in *; lia).
  destruct (Z.gtb_spec (zlen (log_buf s) + zlen d) LBD_LOG_BUF_SIZE).
  - pose proof (flush_empties s Hs) as He. unfold mbind at 1, M_bind at 1.
    destruct (lbd_log_flush s) as [[[]|e|] s1]; [|by unfold buf_ok; rewrite He|done].
    apply Hlast. rewrite He. unfold zlen at 1; simpl. lia.
  - rewrite (bind_ok (mret tt) _ s tt s) by done. by apply Hlast.
Qed.

Lemma enc_out_bound e l : enc_wf e → zlen (enc_out (puts e l)) ≤ enc_cap e.
Proof.
  intros He. destruct (puts_wf e l He) as [[_ Hp] Hc]. unfold enc_out, zlen. rewrite length_take. lia.
Qed.

Lemma init_wf cap : 0 ≤ cap → enc_wf (cbor_enc_init (zeros cap) cap).
Proof. intros. split; simpl; [by apply zlen_zeros|lia]. Qed.

Lemma header_safe : lsafe lbd_write_log_header.
Proof.
  apply lsafe_get. intros s Hs. apply lsafe_at; [|done]. cbv zeta.
  match goal with |- lsafe (if ?b then _ else _) => destruct b end; [apply lsafe_throw|].
  apply buf_append_safe. unfold enc_log_header, cbor_enc_map. cbv zeta.
  rewrite !enc_kv_puts, !enc_kt_puts, !cbor_enc_head_puts, <- !puts_app.
  etransitivity; [apply enc_out_bound, init_wf; lia|]. unfold LBD_LOG_BUF_SIZE; simpl; lia.
Qed.

(** The [void] functions: they always return. *)
Definition lok {A} (m : M (log_state L) A) : Prop :=
  ∀ s, buf_ok s → ∃ a s', m s = (Ok a, s') ∧ buf_ok s'.

Lemma lok_ret {A} (a : A) : lok (mret a).
Proof. intros s Hs. by exists a, s. Qed.

Lemma lok_bind {A B} (m : M (log_state L) A) (f : A → M (log_state L) B) :
  lok m → (∀ a, lok (f a)) → lok (m ≫= f).
Proof. intros Hm Hf s Hs. destruct (Hm s Hs) as (a & s' & E & Hs'). rewrite (bind_ok _ _ _ _ _ E). by apply Hf. Qed.

Lemma lok_get {B} (f : log_state L → M (log_state L) B) : (∀ s, lok (f s)) → lok (get ≫= f).
Proof. intros Hf s Hs. by apply Hf. Qed.

Lemma lok_modify (f : log_state L → log_state L) :
  (∀ s, zlen (log_buf (f s)) ≤ Z.max 0 (zlen (log_buf s))) → lok (modify f).
Proof. intros Hf s Hs. exists tt, (f s). split; [done|]. by apply (lsafe_modify f Hf s Hs). Qed.

Lemma lok_lcall {A} (f : L → A * L) : lok (lcall f).
Proof. intros s Hs. unfold lcall. destruct (f (lfs s)) as [a l]. by exists a, (set_lfs l s). Qed.

Lemma lok_try_bind {A B} (m : M (log_state L) A) (f : res A → M (log_state L) B) :
  lsafe m → (∀ r, r ≠ Panic → lok (f r)) → lok (try m ≫= f).
Proof.
  intros Hm Hf s Hs. specialize (Hm s Hs). unfold try, mbind, M_bind.
  destruct (m s) as [[]]; [by apply Hf..|done].
Qed.

Ltac lok :=
  repeat lazymatch goal with
  | |- lok (try _ ≫= _) => apply lok_try_bind; [|intros ? ?]
  | |- lok (get ≫= _) => apply lok_get; intros ?
  | |- lok (_ ≫= _) => apply lok_bind; [|intros ?]
  | |- lok (lcall _) => apply lok_lcall
  | |- lok (mret _) => apply lok_ret
  | |- lok (modify _) => apply lok_modify; simpl; intros; unfold zlen; simpl; lia
  | |- lok (if ?b then _ else _) => destruct b
  | |- lsafe lbd_log_flush => apply flush_safe
  | |- lsafe lbd_write_log_header => apply header_safe
  end.

Lemma begin_segment_ok : lok lbd_begin_segment.
Proof. unfold lbd_begin_segment, lbd_tai64n_label. lok. Qed.

Lemma rename_ok f g : lok (lbd_rename_file f g).
Proof. unfold lbd_rename_file. lok. Qed.

Lemma close_segment_ok : lok close_segment.
Proof. unfold close_segment. lok. case_match; lok. apply rename_ok. Qed.

Lemma rotate_ok : lok lbd_rotate_segment.
Proof.
  unfold lbd_rotate_segment, arm_timer, lbd_notify_watchers.
  lok; [apply close_segment_ok|apply begin_segment_ok].
Qed.

Lemma maybe_rotate_ok : lok lbd_maybe_rotate_segment.
Proof. unfold lbd_maybe_rotate_segment. lok. apply rotate_ok. Qed.

Lemma finalize_ok : lok lbd_finalize_log.
Proof.
  unfold lbd_finalize_log, lbd_notify_watchers. lok. case_match; lok. apply rename_ok.
Qed.

Lemma log_append_ok e payload : zlen (enc_out e) ≤ LBD_LOG_BUF_SIZE →
  Forall (λ d, zlen d ≤ LBD_LOG_BUF_SIZE) payload → lok (log_append e payload).
Proof.
  intros He Hp. unfold log_append. lok.
  - apply lsafe_bind; [by apply buf_append_safe|intros _].
    destruct Hp; [apply lsafe_ret|by apply buf_append_safe].
  - match goal with |- lok (match ?r with _ => _ end) => destruct r end; [|lok|done].
    lok. apply maybe_rotate_ok.
Qed.

Lemma log_write_ok rq : 0 ≤ blk_rq_bytes rq ≤ MAX_RQ_BYTES → lok (lbd_log_write rq).
Proof.
  intros Hb. unfold lbd_log_write. fold (rq_comp rq). cbv zeta. lok. apply log_append_ok.
  - unfold enc_write_record, cbor_enc_map, cbor_enc_bytes_hdr, cbor_enc_uint. cbv zeta.
    rewrite !enc_kv_puts, enc_kt_puts, !cbor_enc_head_puts, <- !puts_app.
    etransitivity; [apply enc_out_bound, init_wf; lia|]. unfold LBD_LOG_BUF_SIZE; simpl; lia.
  - repeat constructor. pose proof (zlen_rq_comp rq Hb). unfold LBD_LOG_BUF_SIZE. lia.
Qed.

Lemma log_discard_ok pos n : lok (lbd_log_discard pos n).
Proof.
  unfold lbd_log_discard. lok. apply log_append_ok; [|done]. unfold enc_trim_record, cbor_enc_map. cbv zeta.
  rewrite !enc_kv_puts, enc_kt_puts, !cbor_enc_head_puts, <- !puts_app.
  etransitivity; [apply enc_out_bound, init_wf; lia|]. unfold LBD_LOG_BUF_SIZE; simpl; lia.
Qed.
End Safe.
