(* ===== verification/LogTheorems.v ===== *)
(** * Theorems on the write log ([src/src/lbd_main.c])

    A concrete log directory for the witnesses and the properties of the log:
    nothing written is lost or reordered on a healthy system, no fault makes the
    log overrun its buffer or fail the I/O, and what a failed flush does. *)
From S2P Require Import Prelude Kernel Format Crc Cbor Qcow2State Qcow2Io Log LogProof Posix.

(** ** A concrete log directory: named files, faults to inject, a clock *)
Record simlog : Type := Simlog { sl_fs : ufs; sl_clock : Z }.

Definition sl_upd (f : ufs → ufs) (l : simlog) : simlog := Simlog (f (sl_fs l)) (sl_clock l).
Definition sl_next (l : simlog) : io_fault * simlog :=
  match u_next (sl_fs l) with
  | (Ok f, fs) => (f, Simlog fs (sl_clock l))
  | _ => (FOk, l)
  end.
Definition sl_tick (l : simlog) : Z * simlog :=
  (sl_clock l mod 2 ^ 63, Simlog (sl_fs l) (sl_clock l + 1)).
Definition sl_content (l : simlog) (f : bytes) : option bytes := lookup_file f (u_files (sl_fs l)).
Definition sl_errno (f : io_fault) : Z := match f with FErr e => Z.neg e | _ => - EIO end.

Definition sl_alloc (l : simlog) (n : Z) : bool * simlog :=
  let '(f, l') := sl_next l in (match f with FOk => true | _ => false end, l').
Definition sl_call (upd : simlog → simlog) (l : simlog) : Z * simlog :=
  let '(f, l') := sl_next l in
  match f with FOk => (0, upd l') | _ => (sl_errno f, l') end.
Definition sl_open (l : simlog) (f : bytes) : Z * simlog := sl_call (sl_upd (set_file f [])) l.
Definition sl_write (l : simlog) (f : bytes) (pos : Z) (d : bytes) : Z * simlog :=
  let '(x, l') := sl_next l in
  match x, sl_content l f with
  | FErr e, _ => (Z.neg e, l')
  | _, None => (- EIO, l')
  | _, Some c =>
      let d' := match x with FShort n => take (Z.to_nat n) d | _ => d end in
      (zlen d', sl_upd (set_file f (write_at c pos d')) l')
  end.
Definition sl_rename (l : simlog) (f g : bytes) : Z * simlog :=
  match sl_content l f with
  | None => (- EIO, l)
  | Some c => sl_call (λ l, sl_upd (set_file g c) (sl_upd (del_file f) l)) l
  end.

#[global] Instance simlog_ops : LogOps simlog := {
  l_kvmalloc := sl_alloc; l_ktime_get_real_ns := sl_tick; l_ktime_get := sl_tick;
  l_open := sl_open; l_isize := λ l f, zlen (default [] (sl_content l f));
  l_write := sl_write; l_fsync := λ l _, sl_call id l; l_lookup := λ l _, sl_call id l;
  l_rename := sl_rename; l_content := sl_content
}.

Lemma sl_next_calm l : calm (sl_fs l) → sl_next l = (FOk, l).
Proof. intros Hc. unfold sl_next. rewrite (u_next_calm _ Hc). by destruct l. Qed.

Lemma sl_call_calm upd l : calm (sl_fs l) → sl_call upd l = (0, upd l).
Proof. intros Hc. unfold sl_call. by rewrite sl_next_calm. Qed.

Lemma lookup_del_file p p' s : p' ≠ p →
  lookup_file p' (u_files (del_file p s)) = lookup_file p' (u_files s).
Proof.
  intros Hne. rewrite <- (lookup_set_file_ne p p' [] s Hne). simpl. by rewrite decide_False.
Qed.

Lemma lookup_del_same p s : lookup_file p (u_files (del_file p s)) = None.
Proof.
  simpl. induction (u_files s) as [|[q d] l IH]; [done|]. rewrite filter_cons. simpl.
  case_decide as Hq; simpl; [by rewrite decide_False by congruence|done].
Qed.

#[global] Instance simlog_laws : LogLaws simlog.
Proof.
  refine {| l_healthy := λ l, calm (sl_fs l) |}; simpl.
  - intros l n Hc. exists l. unfold sl_alloc. by rewrite sl_next_calm.
  - intros l Hc. eexists _, _. split; [done|]. split; [apply Z.mod_pos_bound; lia|]. done.
  - intros l Hc. eexists _, _. by split.
  - intros l f Hc. eexists. split; [by apply sl_call_calm|]. split; [done|]. split.
    + apply lookup_set_file.
    + intros g Hg. by apply lookup_set_file_ne.
  - intros l f c Hf. by rewrite Hf.
  - intros l f c d Hc Hf. unfold sl_write. rewrite sl_next_calm, Hf by done.
    eexists. split; [done|]. split; [done|]. split.
    + unfold sl_content, sl_upd. cbn [sl_fs]. rewrite lookup_set_file. by rewrite write_at_end.
    + intros g Hg. by apply lookup_set_file_ne.
  - intros l f Hc. eexists _, _. split; [by apply sl_call_calm|]. done.
  - intros l f Hc. eexists. split; [by apply sl_call_calm|]. done.
  - intros l f g c Hc Hf Hne. unfold sl_rename. rewrite Hf. eexists. split; [by apply sl_call_calm|].
    split; [done|]. unfold sl_content, sl_upd. cbn [sl_fs]. split_and!.
    + apply lookup_set_file.
    + rewrite lookup_set_file_ne by done. apply lookup_del_same.
    + intros h Hh1 Hh2. rewrite lookup_set_file_ne, lookup_del_file by done. done.
Defined.

(** A device whose log starts on an empty directory at a given time. *)
Definition log0 (max_size : Z) (faults : list io_fault) : log_state simlog :=
  LogState (Simlog (Ufs [] faults) 1700000000000000000) 0 (str "/var/log/lbd") (str "/srv/disk.img")
    1048576 None [] false 0 [] 0 max_size 60 0 None [].

Definition rq_fill (sector : Z) (b : byte) : request := Rq sector [replicate 4096 b].

(** ** Properties *)
Section Theorems.
Context {L : Type} `{HL : LogLaws L} `{HZ : LZ4Laws} `{HC : Crc32Laws}.
Implicit Types s : log_state L.

(** C27: whatever the allocator and the log directory answer, [lbd_log_write]
    and [lbd_log_discard] return normally (a logging failure never fails the
    I/O) and never write past the 5 MiB log buffer, nor do the rotation and the
    finalisation. *)
Theorem log_faults_safe s rq pos n :
  zlen (log_buf s) ≤ LBD_LOG_BUF_SIZE → blk_rq_bytes rq ≤ MAX_RQ_BYTES →
  ∀ m, m ∈ [lbd_log_write rq; lbd_log_discard pos n; lbd_rotate_segment; lbd_finalize_log] →
  ∃ s', m s = (Ok tt, s') ∧ zlen (log_buf s') ≤ LBD_LOG_BUF_SIZE.
Proof.
  intros Hs Hb m Hm.
  assert (Hok : lok m).
  { assert (0 ≤ blk_rq_bytes rq) by apply zlen_nonneg.
    repeat (apply elem_of_cons in Hm as [-> |Hm]); [by apply log_write_ok|apply log_discard_ok
      |apply rotate_ok|apply finalize_ok|by apply elem_of_nil in Hm]. }
  destruct (Hok s Hs) as ([] & s' & E & Hs'). by exists s'.
Qed.

End Theorems.

Lemma log_faults_safe_witness :
  ∃ s', lbd_log_write (rq_fill 8 x41) (log0 100 [FOk; FOk; FErr 28]) = (Ok tt, s') ∧
    zlen (log_buf s') ≤ LBD_LOG_BUF_SIZE.
Proof.
  apply (log_faults_safe (log0 100 [FOk; FOk; FErr 28]) (rq_fill 8 x41) 0 0); [done|done|].
  apply elem_of_cons. by left.
Defined.

(** *** Labels sort as the clock does *)

(** [strcmp(a, b) < 0] on strings of the same length. *)
Definition lex_lt (a b : bytes) : Prop :=
  ∃ p x y a' b', a = p ++ x :: a' ∧ b = p ++ y :: b' ∧ b2z x < b2z y.

Lemma lex_lt_app a b c d : lex_lt a b → lex_lt (a ++ c) (b ++ d).
Proof.
  intros (p & x & y & a' & b' & -> & -> & Hlt). exists p, x, y, (a' ++ c), (b' ++ d).
  by rewrite <- !app_assoc.
Qed.

Lemma lex_lt_app_l p a b : lex_lt a b → lex_lt (p ++ a) (p ++ b).
Proof.
  intros (q & x & y & a' & b' & -> & -> & Hlt). exists (p ++ q), x, y, a', b'. by rewrite <- !app_assoc.
Qed.

Lemma hex_digit_lt a b : 0 ≤ a < b → b < 16 → b2z (hex_digit a) < b2z (hex_digit b).
Proof.
  intros Ha Hb. unfold hex_digit. rewrite !b2z_z2b.
  destruct (Z.ltb_spec a 10), (Z.ltb_spec b 10); rewrite !Z.mod_small by lia; lia.
Qed.

Lemma hexn_lt n a b : 0 ≤ a < b → b < 16 ^ Z.of_nat n → lex_lt (hexn n a) (hexn n b).
Proof.
  revert a b. induction n as [|n IH]; intros a b Ha Hb.
  { change (16 ^ Z.of_nat 0) with 1 in Hb. lia. }
  rewrite Nat2Z.inj_succ, Z.pow_succ_r in Hb by lia. simpl.
  pose proof (Z.div_mod a 16). pose proof (Z.div_mod b 16).
  pose proof (Z.mod_pos_bound a 16). pose proof (Z.mod_pos_bound b 16).
  assert (0 ≤ a / 16) by (apply Z.div_pos; lia).
  assert (b / 16 < 16 ^ Z.of_nat n) by (apply Z.div_lt_upper_bound; lia).
  destruct (decide (a / 16 = b / 16)) as [Heq|Hne].
  - rewrite Heq. apply lex_lt_app_l. exists [], (hex_digit (a mod 16)), (hex_digit (b mod 16)), [], [].
    split_and!; [done..|]. apply hex_digit_lt; lia.
  - apply lex_lt_app, IH; lia.
Qed.

(** the labels of the segments are 24 hexadecimal digits that order as
    the clock does: of two readings in nanoseconds the later one has the
    lexicographically larger label, so sorting the file names sorts the segments. *)
Theorem label_order t1 t2 : 0 ≤ t1 < t2 → t2 < 2 ^ 63 →
  length (tai64n (t1 / 1000000000) (t1 mod 1000000000)) = 24%nat ∧
  lex_lt (tai64n (t1 / 1000000000) (t1 mod 1000000000)) (tai64n (t2 / 1000000000) (t2 mod 1000000000)).
Proof.
  intros H1 H2. split; [apply length_tai64n|]. unfold tai64n.
  rewrite !take_ge by (rewrite length_app, !length_hexn; lia).
  pose proof (Z.div_mod t1 1000000000). pose proof (Z.div_mod t2 1000000000).
  pose proof (Z.mod_pos_bound t1 1000000000). pose proof (Z.mod_pos_bound t2 1000000000).
  assert (0 ≤ t1 / 1000000000) by (apply Z.div_pos; lia).
  rewrite !u64_small by lia.
  destruct (decide (t1 / 1000000000 = t2 / 1000000000)) as [Heq|Hne].
  - rewrite Heq. apply lex_lt_app_l, hexn_lt; [lia|]. change (16 ^ Z.of_nat 8) with 4294967296. lia.
  - apply lex_lt_app, hexn_lt; [lia|]. change (16 ^ Z.of_nat 16) with (2 ^ 64). lia.
Qed.

Lemma label_order_witness : lex_lt (tai64n 1 999999999) (tai64n 2 0).
Proof. apply (label_order 1999999999 2000000000); lia. Defined.

(** *** A rotation that fails is announced all the same *)

(** when the segment file cannot be opened at rotation, the buffered
    header and entries are dropped, no [.log] file exists, and the watchers are
    told of the segment as if it had been written. *)
Theorem failed_rotation_announced :
  let '(r, s) := (lbd_begin_segment;; lbd_log_write (rq_fill 8 x41)) (log0 16 [FOk; FOk; FErr 28]) in
  r = Ok tt ∧ u_files (sl_fs (lfs s)) = [] ∧ stat_log_rotations s = 1 ∧
  (ev_segment_label <$> notified s) = [tai64n 1700000000 1].
Proof. vm_compute. split_and!; reflexivity. Qed.
