(* ===== verification/Json.v ===== *)
(** * JSON: values, and a reference reader of text

    The reader is independent of the tool: a lexer, one byte at a time, and a
    recursive-descent parser over its tokens.  It follows RFC 8259 except that
    it refuses exponents and surrogates, which the tool never prints, and takes
    bytes from 0x80 on as they are.  A number is a [Z] and the count of its
    decimals: [JNum 123 1] is 12.3. *)
From S2P Require Import Prelude.

#[local] Unset Elimination Schemes.
Inductive json : Type :=
| JNull
| JBool (b : bool)
| JNum (m : Z) (decimals : nat)
| JStr (s : bytes)
| JArr (l : list json)
| JObj (l : list (bytes * json)).
#[local] Set Elimination Schemes.

(** ** Tokens *)
Inductive token : Type := TP (c : byte) | TStr (s : bytes) | TNum (m : Z) (decimals : nat) | TBool (b : bool) | TNull.

Definition is_ws (c : byte) : bool := bool_decide (c ∈ [x20; x09; x0a; x0d]).
Definition is_punct (c : byte) : bool := bool_decide (c ∈ [x7b; x7d; x5b; x5d; x2c; x3a]).
Definition is_digit (c : byte) : bool := (48 <=? b2z c) && (b2z c <=? 57).
Definition is_letter (c : byte) : bool := (97 <=? b2z c) && (b2z c <=? 122).
Definition is_number_char (c : byte) : bool := is_digit c || bool_decide (c ∈ [x2d; x2e]).

(** The value of a string of digits. *)
Definition digits_val (s : bytes) : Z := foldl (λ a c, 10 * a + (b2z c - 48)) 0 s.

Fixpoint span_digits (s : bytes) : bytes * bytes :=
  match s with
  | c :: s' => if is_digit c then let '(a, b) := span_digits s' in (c :: a, b) else ([], s)
  | [] => ([], [])
  end.

(** An optional minus, digits without a leading zero, optionally a point and digits. *)
Definition number (s : bytes) : option (Z * nat) :=
  let '(neg, s) := match s with x2d :: s' => (true, s') | _ => (false, s) end in
  let '(int, rest) := span_digits s in
  let ok := match int with [] => false | [_] => true | c :: _ => negb (bool_decide (c = x30)) end in
  let signed (v : Z) := if neg : bool then - v else v in
  if negb ok then None else
  match rest with
  | [] => Some (signed (digits_val int), O)
  | x2e :: frac =>
      match span_digits frac with
      | (_ :: _, []) => Some (signed (digits_val (int ++ frac)), length frac)
      | _ => None
      end
  | _ => None
  end.

Definition word (s : bytes) : option token :=
  if decide (s = str "true") then Some (TBool true)
  else if decide (s = str "false") then Some (TBool false)
  else if decide (s = str "null") then Some TNull
  else None.

Definition hex_val (c : byte) : option Z :=
  let b := b2z c in
  if is_digit c then Some (b - 48)
  else if (97 <=? b) && (b <=? 102) then Some (b - 87)
  else if (65 <=? b) && (b <=? 70) then Some (b - 55)
  else None.

(** UTF-8 of a code point given by [\u]; surrogates are refused. *)
Definition utf8 (v : Z) : option bytes :=
  if v <? 0x80 then Some [z2b v]
  else if v <? 0x800 then Some [z2b (0xC0 + v / 64); z2b (0x80 + v mod 64)]
  else if (0xD800 <=? v) && (v <=? 0xDFFF) then None
  else Some [z2b (0xE0 + v / 4096); z2b (0x80 + v / 64 mod 64); z2b (0x80 + v mod 64)].

(** The character after a backslash. *)
Definition unescape (c : byte) : option byte :=
  match c with
  | x22 => Some x22 | x5c => Some x5c | x2f => Some x2f
  | x62 => Some x08 | x66 => Some x0c | x6e => Some x0a | x72 => Some x0d | x74 => Some x09
  | _ => None
  end.

(** Between tokens; in a string, after a backslash, in the [n] digits left of a
    [\u]; in a number; in a word. *)
Inductive lex_state : Type :=
| LNone
| LStr (acc : bytes)
| LEsc (acc : bytes)
| LHex (acc : bytes) (n : nat) (v : Z)
| LNum (acc : bytes)
| LWord (acc : bytes).

Definition lex_start (c : byte) : option (lex_state * list token) :=
  if is_ws c then Some (LNone, [])
  else if is_punct c then Some (LNone, [TP c])
  else if decide (c = x22) then Some (LStr [], [])
  else if is_digit c || bool_decide (c = x2d) then Some (LNum [c], [])
  else if is_letter c then Some (LWord [c], [])
  else None.

Definition lex_step (st : lex_state) (c : byte) : option (lex_state * list token) :=
  match st with
  | LNone => lex_start c
  | LStr acc =>
      if decide (c = x22) then Some (LNone, [TStr acc])
      else if decide (c = x5c) then Some (LEsc acc, [])
      else if b2z c <? 32 then None
      else Some (LStr (acc ++ [c]), [])
  | LEsc acc =>
      if decide (c = x75) then Some (LHex acc 4 0, [])
      else x ← unescape c; Some (LStr (acc ++ [x]), [])
  | LHex acc n v =>
      h ← hex_val c;
      match n with
      | O => None
      | S O => u ← utf8 (16 * v + h); Some (LStr (acc ++ u), [])
      | S n' => Some (LHex acc n' (16 * v + h), [])
      end
  | LNum acc =>
      if is_number_char c then Some (LNum (acc ++ [c]), [])
      else '(m, d) ← number acc; '(st', ts) ← lex_start c; Some (st', TNum m d :: ts)
  | LWord acc =>
      if is_letter c then Some (LWord (acc ++ [c]), [])
      else t ← word acc; '(st', ts) ← lex_start c; Some (st', t :: ts)
  end.

Fixpoint lex (st : lex_state) (s : bytes) : option (lex_state * list token) :=
  match s with
  | [] => Some (st, [])
  | c :: s' => '(st1, t1) ← lex_step st c; '(st2, t2) ← lex st1 s'; Some (st2, t1 ++ t2)
  end.

Definition lex_end (st : lex_state) : option (list token) :=
  match st with
  | LNone => Some []
  | LNum acc => '(m, d) ← number acc; Some [TNum m d]
  | LWord acc => t ← word acc; Some [t]
  | _ => None
  end.

Definition tokens (s : bytes) : option (list token) :=
  '(st, ts) ← lex LNone s; ts' ← lex_end st; Some (ts ++ ts').

(** ** The parser *)
Fixpoint value (fuel : nat) (ts : list token) : option (json * list token) :=
  match fuel with
  | O => None
  | S f =>
      match ts with
      | TNull :: r => Some (JNull, r)
      | TBool b :: r => Some (JBool b, r)
      | TNum m d :: r => Some (JNum m d, r)
      | TStr s :: r => Some (JStr s, r)
      | TP x5b :: TP x5d :: r => Some (JArr [], r)
      | TP x5b :: r => '(l, r') ← elements f r; Some (JArr l, r')
      | TP x7b :: TP x7d :: r => Some (JObj [], r)
      | TP x7b :: r => '(l, r') ← members f r; Some (JObj l, r')
      | _ => None
      end
  end
with elements (fuel : nat) (ts : list token) : option (list json * list token) :=
  match fuel with
  | O => None
  | S f =>
      '(v, r) ← value f ts;
      match r with
      | TP x2c :: r' => '(l, r'') ← elements f r'; Some (v :: l, r'')
      | TP x5d :: r' => Some ([v], r')
      | _ => None
      end
  end
with members (fuel : nat) (ts : list token) : option (list (bytes * json) * list token) :=
  match fuel with
  | O => None
  | S f =>
      match ts with
      | TStr k :: TP x3a :: r =>
          '(v, r) ← value f r;
          match r with
          | TP x2c :: r' => '(l, r'') ← members f r'; Some ((k, v) :: l, r'')
          | TP x7d :: r' => Some ([(k, v)], r')
          | _ => None
          end
      | _ => None
      end
  end.

(** A text is one value; there are never more calls than tokens. *)
Definition json_parse (s : bytes) : option json :=
  ts ← tokens s;
  '(v, r) ← value (length ts) ts;
  match r with [] => Some v | _ => None end.

(** ** The tokens of a value *)
Fixpoint sep {A} (x : A) (l : list (list A)) : list A :=
  match l with
  | [] => []
  | [a] => a
  | a :: l' => a ++ x :: sep x l'
  end.

Fixpoint toks (v : json) : list token :=
  match v with
  | JNull => [TNull]
  | JBool b => [TBool b]
  | JNum m d => [TNum m d]
  | JStr s => [TStr s]
  | JArr l => TP x5b :: sep (TP x2c) (map toks l) ++ [TP x5d]
  | JObj l => TP x7b :: sep (TP x2c) (map (λ m, TStr m.1 :: TP x3a :: toks m.2) l) ++ [TP x7d]
  end.

(** ** Reading back *)

(** A value starts with none of the closing brackets. *)
Lemma toks_start v : ∃ t ts, toks v = t :: ts ∧ t ≠ TP x5d ∧ t ≠ TP x7d.
Proof. destruct v; simpl; eexists _, _; (split; [reflexivity|done]). Qed.

Lemma value_open_arr f t ts : t ≠ TP x5d → value (S f) (TP x5b :: t :: ts) = ('(l, r) ← elements f (t :: ts); Some (JArr l, r)).
Proof. intros Ht. destruct t as [c| | | |]; try reflexivity. by destruct c. Qed.

Definition mtoks (m : bytes * json) : list token := TStr m.1 :: TP x3a :: toks m.2.

Lemma value_open_obj f k ts : value (S f) (TP x7b :: TStr k :: ts) = ('(l, r) ← members f (TStr k :: ts); Some (JObj l, r)).
Proof. reflexivity. Qed.

Lemma value_toks_all fuel :
  (∀ v r, (length (toks v) ≤ fuel)%nat → value fuel (toks v ++ r) = Some (v, r)) ∧
  (∀ v l r, (length (sep (TP x2c) (map toks (v :: l))) < fuel)%nat →
     elements fuel (sep (TP x2c) (map toks (v :: l)) ++ TP x5d :: r) = Some (v :: l, r)) ∧
  (∀ m l r, (length (sep (TP x2c) (map mtoks (m :: l))) < fuel)%nat →
     members fuel (sep (TP x2c) (map mtoks (m :: l)) ++ TP x7d :: r) = Some (m :: l, r)).
Proof.
  induction fuel as [|f (IHv & IHe & IHm)].
  { split_and!; intros; [|lia..]. destruct (toks_start v) as (t & ts & E & _). rewrite E in *. simpl in *. lia. }
  split_and!.
  - intros v r Hl. destruct v as [|b|m d|s|l|l]; try reflexivity; cbn [toks] in *; rewrite length_cons, length_app in Hl; simpl in Hl.
    + destruct l as [|v l]; [reflexivity|]. destruct (toks_start v) as (t & ts & E & Ht & _).
      assert (Es : ∃ ts', sep (TP x2c) (map toks (v :: l)) = t :: ts').
      { cbn [map]. destruct (map toks l); cbn [sep]; rewrite E; by eexists. }
      destruct Es as [ts' Es]. rewrite <- app_comm_cons, <- app_assoc. cbn [app]. rewrite Es in *.
      rewrite <- app_comm_cons, value_open_arr by done. rewrite app_comm_cons, <- Es. rewrite IHe; [done|]. rewrite Es. simpl in *. lia.
    + destruct l as [|[k v] l]; [reflexivity|]. rewrite <- app_comm_cons, <- app_assoc. cbn [app].
      change (λ m : bytes * json, TStr m.1 :: TP x3a :: toks m.2) with mtoks in *.
      assert (Es : ∃ ts', sep (TP x2c) (map mtoks ((k, v) :: l)) = TStr k :: ts').
      { cbn [map]. destruct (map mtoks l); by eexists. }
      destruct Es as [ts' Es]. rewrite Es in *. rewrite <- app_comm_cons, value_open_obj.
      rewrite app_comm_cons, <- Es. rewrite IHm; [done|]. rewrite Es. simpl in *. lia.
  - intros v l r Hl. cbn [map] in *. destruct l as [|v' l]; cbn [map sep] in *.
    + cbn [elements]. rewrite IHv by lia. reflexivity.
    + rewrite length_app, length_cons in Hl. rewrite <- app_assoc, <- app_comm_cons. cbn [elements]. rewrite IHv by lia.
      cbn. change (toks v' :: map toks l) with (map toks (v' :: l)) in *. rewrite IHe by lia. reflexivity.
  - intros [k v] l r Hl. cbn [map] in *. destruct l as [|m' l]; cbn [map sep] in *.
    + unfold mtoks in *. cbn [app members fst snd] in *. simpl in Hl. rewrite IHv by lia. reflexivity.
    + unfold mtoks at 1. unfold mtoks at 1 in Hl. cbn [fst snd app] in *. rewrite !length_cons, length_app, length_cons in Hl.
      rewrite <- app_assoc, <- app_comm_cons. cbn [members]. rewrite IHv by lia.
      cbn. change (mtoks m' :: map mtoks l) with (map mtoks (m' :: l)) in *. rewrite IHm by lia. reflexivity.
Qed.

Lemma json_parse_toks s v : tokens s = Some (toks v) → json_parse s = Some v.
Proof.
  intros E. unfold json_parse. rewrite E. cbn [mbind option_bind].
  destruct (value_toks_all (length (toks v))) as [Hv _]. specialize (Hv v [] ltac:(lia)). rewrite app_nil_r in Hv. by rewrite Hv.
Qed.

(** ** The lexer on pieces of text *)
Lemma lex_app st s t : lex st (s ++ t) = ('(st1, t1) ← lex st s; '(st2, t2) ← lex st1 t; Some (st2, t1 ++ t2)).
Proof.
  revert st. induction s as [|c s IH]; intros st.
  - cbn. by destruct (lex st t) as [[]|].
  - cbn [app lex]. destruct (lex_step st c) as [[st1 t1]|]; [|done]. cbn. rewrite IH.
    destruct (lex st1 s) as [[st2 t2]|]; [|done]. cbn. destruct (lex st2 t) as [[st3 t3]|]; [|done]. cbn. by rewrite app_assoc.
Qed.

Lemma lex_trans st s t st1 t1 st2 t2 : lex st s = Some (st1, t1) → lex st1 t = Some (st2, t2) →
  lex st (s ++ t) = Some (st2, t1 ++ t2).
Proof. intros E1 E2. rewrite lex_app, E1. cbn. by rewrite E2. Qed.

(** A number ends at the first character that cannot belong to it. *)
Lemma lex_num_end acc m d c s st ts : number acc = Some (m, d) → is_number_char c = false →
  lex LNone (c :: s) = Some (st, ts) → lex (LNum acc) (c :: s) = Some (st, TNum m d :: ts).
Proof.
  intros E Hc. cbn [lex lex_step]. rewrite E, Hc. cbn. destruct (lex_start c) as [[st1 t1]|]; [|done]. cbn.
  destruct (lex st1 s) as [[st2 t2]|]; [|done]. cbn. by intros [= -> ->].
Qed.

Lemma lex_num acc s : forallb is_number_char s = true → lex (LNum acc) s = Some (LNum (acc ++ s), []).
Proof.
  revert acc. induction s as [|c s IH]; intros acc; [by rewrite app_nil_r|]. cbn [forallb]. intros [Hc Hs]%andb_true_iff.
  cbn [lex lex_step]. rewrite Hc. cbn. rewrite IH by done. by rewrite <- app_assoc.
Qed.
