(* ===== verification/CtlTextProof.v ===== *)
(** * The text of the tool read back

    Numbers, strings and dates as the JSON reader of [Json] and the calendar of
    POSIX understand them. *)
From S2P Require Import Prelude Json CtlText.
#[local] Ltac Zify.zify_post_hook ::= Z.div_mod_to_equations.

(** ** Digits *)
Lemma is_digit_z2b d : 0 ≤ d < 10 → is_digit (z2b (48 + d)) = true ∧ b2z (z2b (48 + d)) = 48 + d.
Proof.
  intros Hd. assert (E : b2z (z2b (48 + d)) = 48 + d) by (rewrite b2z_z2b; apply Z.mod_small; lia).
  split; [|done]. unfold is_digit. rewrite E. apply andb_true_iff. split; apply Z.leb_le; lia.
Qed.

Lemma digits_val_snoc s c : digits_val (s ++ [c]) = 10 * digits_val s + (b2z c - 48).
Proof. unfold digits_val. by rewrite foldl_app. Qed.

(** A decimal numeral of [n]. *)
Record numeral (s : bytes) (n : Z) : Prop := {
  nu_digits : forallb is_digit s = true;
  nu_val : digits_val s = n;
  nu_start : match s with [] => False | [_] => True | c :: _ => c ≠ x30 end
}.

Lemma dec_digits_numeral f : ∀ n acc, (0 < f)%nat → 0 ≤ n < 10 ^ Z.of_nat f → ∃ s, dec_digits f n acc = s ++ acc ∧ numeral s n.
Proof.
  induction f as [|f IH]; intros n acc Hf Hn; [lia|]. cbn [dec_digits].
  destruct (is_digit_z2b (n mod 10)) as [Hd Hb]; [lia|].
  destruct (Z.ltb_spec n 10) as [Hs|Hs].
  - exists [z2b (48 + n mod 10)]. split; [done|]. split; [by cbn; rewrite Hd| |done].
    unfold digits_val. cbn [foldl]. rewrite Hb. lia.
  - rewrite Nat2Z.inj_succ, Z.pow_succ_r in Hn by lia.
    destruct f as [|f]; [simpl in Hn; lia|].
    destruct (IH (n / 10) (z2b (48 + n mod 10) :: acc)) as (s & E & Hs'); [lia|lia|].
    rewrite E. exists (s ++ [z2b (48 + n mod 10)]). split; [by rewrite <- app_assoc|]. destruct Hs' as [N1 N2 N3]. split.
    + rewrite forallb_app, N1. cbn. by rewrite Hd.
    + rewrite digits_val_snoc, N2, Hb. lia.
    + destruct s as [|c [|c' s]]; [done| |done]. cbn. intros ->.
      unfold digits_val in N2. simpl in N2. change (b2z x30) with 48 in N2. lia.
Qed.

Lemma digits_of_numeral n : 0 ≤ n → numeral (digits_of n) n.
Proof.
  intros Hn. unfold digits_of.
  destruct (dec_digits_numeral (S (Z.to_nat (Z.log2 n))) n []) as (s & E & Hs); [lia| |by rewrite E, app_nil_r].
  split; [done|]. rewrite Nat2Z.inj_succ, Z2Nat.id by apply Z.log2_nonneg.
  destruct (Z.eq_dec n 0) as [->|]; [done|]. pose proof (Z.log2_spec n ltac:(lia)) as [_ Hl].
  pose proof (Z.pow_le_mono_l 2 10 (Z.succ (Z.log2 n)) ltac:(lia)). lia.
Qed.

(** ** Numbers of JSON *)
Lemma span_all s t : forallb is_digit s = true → match t with c :: _ => is_digit c = false | [] => True end →
  span_digits (s ++ t) = (s, t).
Proof.
  intros Hs Ht. induction s as [|c s IH].
  - destruct t as [|c t]; [done|]. simpl. by rewrite Ht.
  - cbn [forallb] in Hs. apply andb_true_iff in Hs as [Hc Hs]. cbn [app span_digits]. by rewrite Hc, IH.
Qed.

Lemma number_numeral s n t : numeral s n → match t with c :: _ => is_digit c = false | [] => True end →
  number (s ++ t) = match t with
    | [] => Some (n, O)
    | x2e :: frac => match span_digits frac with
                     | (_ :: _, []) => Some (digits_val (s ++ frac), length frac)
                     | _ => None end
    | _ => None end.
Proof.
  intros [Hd Hv Hs] Ht. destruct s as [|c s]; [done|]. assert (Hc : c ≠ x2d).
  { intros ->. by cbn in Hd. }
  unfold number. assert (E : match (c :: s) ++ t with x2d :: s' => (true, s') | _ => (false, (c :: s) ++ t) end = (false, (c :: s) ++ t)).
  { cbn [app]. destruct c; done. }
  rewrite E. rewrite (span_all (c :: s) t Hd Ht). rewrite Hv.
  assert (Ho : match c :: s with [] => false | [_] => true | c :: _ => negb (bool_decide (c = x30)) end = true).
  { destruct s; [done|]. by rewrite bool_decide_false. }
  rewrite Ho. done.
Qed.

Lemma number_minus s m d : number s = Some (m, d) → match s with c :: _ => c ≠ x2d | [] => True end →
  number (x2d :: s) = Some (- m, d).
Proof.
  intros E Hs. assert (Es : match s with x2d :: s' => (true, s') | _ => (false, s) end = (false, s)).
  { destruct s as [|c s]; [done|]. by destruct c. }
  unfold number in *. rewrite Es in E. destruct (span_digits s) as [int rest].
  destruct (negb _); [done|]. destruct rest as [|c frac]; [by injection E as <- <-|].
  destruct c; try done. destruct (span_digits frac) as [[|] []]; try done. by injection E as <- <-.
Qed.

(** ** Texts that are read as a value *)

(** [s], followed by a comma, a brace or the end of a line, is the value [v]. *)
Definition ends (c : byte) : bool := bool_decide (c ∈ [x2c; x7d; x0a]).
Definition reads (s : bytes) (v : json) : Prop := ∀ c rest st ts, ends c = true →
  lex LNone (c :: rest) = Some (st, ts) → lex LNone (s ++ c :: rest) = Some (st, toks v ++ ts).

Lemma lex_digit c : is_digit c = true → lex LNone [c] = Some (LNum [c], []).
Proof. by destruct c. Qed.

Lemma digits_number_chars s : forallb is_digit s = true → forallb is_number_char s = true.
Proof.
  induction s as [|c s IH]; [done|]. cbn [forallb]. rewrite !andb_true_iff. intros [Hc Hs].
  split; [unfold is_number_char; by rewrite Hc|by apply IH].
Qed.

(** The text of a number: a digit or a minus, then characters of numbers. *)
Lemma reads_number c s m d : is_digit c || bool_decide (c = x2d) = true → forallb is_number_char s = true →
  number (c :: s) = Some (m, d) → reads (c :: s) (JNum m d).
Proof.
  intros Hc Hs Hn e rest st ts He Hl. change (c :: s) with ([c] ++ s) at 1. rewrite <- app_assoc.
  assert (E : lex LNone [c] = Some (LNum [c], [])) by (destruct c; done).
  change (toks (JNum m d) ++ ts) with ([] ++ [] ++ TNum m d :: ts). eapply lex_trans; [exact E|].
  eapply lex_trans; [by apply lex_num|]. apply lex_num_end; [done|by destruct e|done].
Qed.

Lemma reads_numeral s n : numeral s n → reads s (JNum n 0).
Proof.
  intros Hn. pose proof (number_numeral s n [] Hn I) as E. rewrite app_nil_r in E. destruct Hn as [Hd _ Hs].
  destruct s as [|c s]; [done|]. cbn [forallb] in Hd. apply andb_true_iff in Hd as [Hc Hd].
  apply reads_number; [by rewrite Hc|by apply digits_number_chars|done].
Qed.

Lemma reads_minus s n d : (∃ c s', s = c :: s' ∧ is_digit c = true) → forallb is_number_char s = true →
  number s = Some (n, d) → reads (x2d :: s) (JNum (- n) d).
Proof.
  intros (c & s' & -> & Hc) Hs Hn. apply reads_number; [done|done|]. apply number_minus; [done|]. intros ->. by cbn in Hc.
Qed.

Lemma numeral_cons s n : numeral s n → ∃ c s', s = c :: s' ∧ is_digit c = true.
Proof. intros [Hd _ Hs]. destruct s as [|c s]; [done|]. cbn [forallb] in Hd. apply andb_true_iff in Hd as [Hc _]. by exists c, s. Qed.

Lemma reads_dec n : - 10 ^ 20 < n < 10 ^ 20 → reads (dec n) (JNum n 0).
Proof.
  intros Hn. unfold dec. destruct (Z.ltb_spec n 0).
  - destruct (dec_digits_numeral 20 (- n) []) as (s & E & Hs); [lia|change (10 ^ Z.of_nat 20) with (10 ^ 20); lia|].
    rewrite E, app_nil_r. replace n with (- - n) at 1 by lia. change (z2b 45) with x2d.
    apply reads_minus; [by eapply numeral_cons|by apply digits_number_chars, Hs|].
    pose proof (number_numeral s (- n) [] Hs I) as En. by rewrite app_nil_r in En.
  - destruct (dec_digits_numeral 20 n []) as (s & E & Hs); [lia|change (10 ^ Z.of_nat 20) with (10 ^ 20); lia|].
    rewrite E, app_nil_r. by apply reads_numeral.
Qed.

Lemma reads_llu v : reads (llu v) (JNum (u64 v) 0).
Proof. apply reads_dec. pose proof (u64_range v). lia. Qed.

Lemma reads_uint v : reads (uint v) (JNum (u32 v) 0).
Proof. apply reads_dec. pose proof (u32_range v). lia. Qed.

(** *** Decimals *)
Lemma rne_sign n d : 0 < d → (n < 0 → rne n d ≤ 0) ∧ (0 ≤ n → 0 ≤ rne n d).
Proof.
  intros Hd. assert (H1 : n < 0 → n / d < 0) by (intros; apply Z.div_lt_upper_bound; lia).
  assert (H2 : 0 ≤ n → 0 ≤ n / d) by (intros; by apply Z.div_pos).
  unfold rne. generalize (n mod d). generalize dependent (n / d). intros q H1 H2 r. split; intros; repeat case_match; lia.
Qed.

Lemma rnd_den x : 0 < (rnd x).2.
Proof.
  destruct x as [n d]. unfold rnd. destruct (n =? 0); [done|]. cbv zeta. destruct (Z.leb_spec 0 (floor_log2 (Z.abs n) d - 52)); cbn [snd]; [done|].
  apply Z.pow_pos_nonneg; lia.
Qed.

Lemma reads_f1 x : 0 < x.2 → reads (fmt_f1 x) (JNum (rne (10 * x.1) x.2) 1).
Proof.
  intros Hd. unfold fmt_f1. set (r := rne (10 * x.1) x.2). destruct (rne_sign (10 * x.1) x.2 Hd) as [R1 R2]. fold r in R1, R2.
  pose proof (digits_of_numeral (Z.abs r / 10) ltac:(lia)) as N1.
  pose proof (digits_of_numeral (Z.abs r mod 10) ltac:(lia)) as N2.
  assert (Hl : length (digits_of (Z.abs r mod 10)) = 1%nat).
  { unfold digits_of. cbn [dec_digits]. by rewrite (proj2 (Z.ltb_lt _ 10)) by lia. }
  set (a := digits_of (Z.abs r / 10)) in *. set (b := digits_of (Z.abs r mod 10)) in *.
  assert (E : number (a ++ x2e :: b) = Some (Z.abs r, 1%nat)).
  { rewrite (number_numeral a _ _ N1) by done. pose proof (span_all b [] (nu_digits _ _ N2) I) as Es. rewrite app_nil_r in Es.
    rewrite Es. destruct b as [|c [|? ?]]; try done. rewrite digits_val_snoc, (nu_val _ _ N1).
    pose proof (nu_val _ _ N2) as Hc. unfold digits_val in Hc. simpl in Hc. do 2 f_equal. lia. }
  assert (Hch : forallb is_number_char (a ++ x2e :: b) = true).
  { rewrite forallb_app. cbn [forallb]. rewrite (digits_number_chars _ (nu_digits _ _ N1)), (digits_number_chars _ (nu_digits _ _ N2)). done. }
  destruct (numeral_cons _ _ N1) as (c & s & Ea & Hc).
  destruct (Z.ltb_spec x.1 0); cbn [app].
  - replace r with (- Z.abs r) by lia. apply reads_minus; [|done|done]. rewrite Ea. by exists c, (s ++ x2e :: b).
  - replace r with (Z.abs r) by lia. rewrite Ea in *. cbn [app] in *. apply reads_number; [by rewrite Hc| |done].
    cbn [forallb] in Hch. by apply andb_true_iff in Hch as [_ ?].
Qed.

(** *** Strings and words *)
Definition plain_char (c : byte) : bool := (32 <=? b2z c) && negb (bool_decide (c = x22)) && negb (bool_decide (c = x5c)).
Abbreviation plain s := (forallb plain_char s = true).

Lemma lex_plain acc s : plain s → lex (LStr acc) s = Some (LStr (acc ++ s), []).
Proof.
  revert acc. induction s as [|c s IH]; intros acc; [by rewrite app_nil_r|]. cbn [forallb]. rewrite andb_true_iff.
  intros [Hc Hs]. assert (E : lex_step (LStr acc) c = Some (LStr (acc ++ [c]), [])) by by destruct c.
  cbn [lex]. rewrite E. cbn. rewrite IH by done. by rewrite <- app_assoc.
Qed.

Lemma lex_json_chars acc l : lex (LStr acc) (concat (json_char <$> l)) = Some (LStr (acc ++ l), []).
Proof.
  revert acc. induction l as [|c l IH]; intros acc; [by rewrite app_nil_r|]. cbn [fmap list_fmap concat].
  replace (acc ++ c :: l) with ((acc ++ [c]) ++ l) by by rewrite <- app_assoc.
  change (@nil token) with (@nil token ++ []). eapply lex_trans; [|apply IH].
  destruct c; vm_compute; reflexivity.
Qed.

(** A quoted text that lexes to the string [s]. *)
Lemma lex_quoted t s : (∀ acc, lex (LStr acc) t = Some (LStr (acc ++ s), [])) → lex LNone (quoted t) = Some (LNone, [TStr s]).
Proof.
  intros Ht. unfold quoted. change [TStr s] with ([] ++ [] ++ [TStr ([] ++ s)]). eapply lex_trans; [done|].
  eapply lex_trans; [apply Ht|]. done.
Qed.

Lemma reads_strong t v : lex LNone t = Some (LNone, toks v) → reads t v.
Proof. intros E c rest st ts _ Hr. by eapply lex_trans. Qed.

Lemma reads_plain s : plain s → reads (quoted s) (JStr s).
Proof. intros Hs. apply reads_strong, lex_quoted. intros acc. by apply lex_plain. Qed.

Lemma reads_string s : reads (json_print_string s) (JStr (cstr s)).
Proof. apply reads_strong, lex_quoted. intros acc. apply lex_json_chars. Qed.

Lemma reads_bool (b : bool) : reads (if b then str "true" else str "false") (JBool b).
Proof.
  intros c rest st ts Hc E. assert (El : ∀ acc, word acc = Some (TBool b) →
    lex (LWord acc) (c :: rest) = Some (st, TBool b :: ts)).
  { intros acc Hw. revert E. cbn [lex lex_step]. rewrite Hw.
    assert (is_letter c = false) as -> by by destruct c. cbn.
    destruct (lex_start c) as [[st1 t1]|]; [|done]. cbn. destruct (lex st1 rest) as [[st2 t2]|]; [|done]. cbn. by intros [= -> ->]. }
  change (toks (JBool b) ++ ts) with ([] ++ TBool b :: ts). destruct b.
  - eapply (lex_trans _ (str "true") _ (LWord (str "true"))); [done|by apply El].
  - eapply (lex_trans _ (str "false") _ (LWord (str "false"))); [done|by apply El].
Qed.

(** ** Objects and arrays as the tool lays them out *)
Definition comma_nl : bytes := str "," ++ newline.
Fixpoint joined (l : list bytes) : bytes :=
  match l with
  | [] => []
  | [a] => a
  | a :: l' => a ++ comma_nl ++ joined l'
  end.

Abbreviation blank s := (forallb is_ws s = true).
Lemma lex_blank s : blank s → lex LNone s = Some (LNone, []).
Proof.
  induction s as [|c s IH]; [done|]. cbn [forallb]. rewrite andb_true_iff. intros [Hc Hs]. cbn [lex lex_step]. unfold lex_start.
  rewrite Hc. cbn. by rewrite IH.
Qed.

Lemma reads_indent ind s v : blank ind → reads s v → reads (ind ++ s) v.
Proof.
  intros Hi Hs c rest st ts Hc E. rewrite <- app_assoc. change (toks v ++ ts) with ([] ++ toks v ++ ts).
  eapply lex_trans; [by apply lex_blank|by apply Hs].
Qed.

(** Texts that lex to the tokens of the items of a list, with a comma between. *)
Definition items (s : bytes) (ts : list token) : Prop := ∀ c rest st ts', ends c = true →
  lex LNone (c :: rest) = Some (st, ts') → lex LNone (s ++ c :: rest) = Some (st, ts ++ ts').

Lemma items_joined {A} (text : A → bytes) (tk : A → list token) (l : list A) :
  (∀ a, a ∈ l → items (text a) (tk a)) → items (joined (text <$> l)) (sep (TP x2c) (map tk l)).
Proof.
  induction l as [|a l IH]; intros Hl; [by intros c rest st ts' _ E|].
  assert (Ha : items (text a) (tk a)) by (apply Hl; left).
  assert (Hr : items (joined (text <$> l)) (sep (TP x2c) (map tk l))) by (apply IH; intros b Hb; apply Hl; by right).
  destruct l as [|b l]; [exact Ha|]. intros c rest st ts' Hc E.
  change (joined (text <$> a :: b :: l)) with (text a ++ comma_nl ++ joined (text <$> b :: l)).
  change (sep (TP x2c) (map tk (a :: b :: l))) with (tk a ++ TP x2c :: sep (TP x2c) (map tk (b :: l))).
  rewrite <- !app_assoc. apply (Ha x2c); [done|].
  change (lex LNone (comma_nl ++ (joined (text <$> b :: l) ++ c :: rest))
          = Some (st, [TP x2c] ++ sep (TP x2c) (map tk (b :: l)) ++ ts')).
  eapply lex_trans; [done|]. by apply Hr.
Qed.

(** Brackets around items, each on its own lines. *)
Lemma reads_brackets o c body ts ind v : is_punct o = true → is_punct c = true → blank ind → items body ts →
  toks v = TP o :: ts ++ [TP c] → reads (o :: newline ++ body ++ newline ++ ind ++ [c]) v.
Proof.
  intros Ho Hc Hi Hb Ev. apply reads_strong. rewrite Ev.
  assert (Lp : ∀ x, is_punct x = true → lex LNone [x] = Some (LNone, [TP x])) by by intros [].
  change (o :: newline ++ body ++ newline ++ ind ++ [c]) with ([o] ++ newline ++ body ++ x0a :: ind ++ [c]).
  change (TP o :: ts ++ [TP c]) with ([TP o] ++ [] ++ ts ++ [TP c]).
  eapply lex_trans; [by apply Lp|]. eapply lex_trans; [done|]. apply Hb; [done|].
  change (lex LNone (newline ++ (ind ++ [c])) = Some (LNone, [] ++ [] ++ [TP c])).
  eapply lex_trans; [done|]. eapply lex_trans; [by apply lex_blank|by apply Lp].
Qed.

Lemma reads_items t v : reads t v → items t (toks v).
Proof. done. Qed.

(** An item of the layout: key, text and value. *)
Record item : Type := Item { i_key : bytes; i_text : bytes; i_val : json }.
Definition item_ok (i : item) : Prop := plain (i_key i) ∧ reads (i_text i) (i_val i).
Definition member_text (ind : bytes) (i : item) : bytes := ind ++ json_key (i_key i) ++ i_text i.
Definition obj_text (ind ind' : bytes) (l : list item) : bytes :=
  x7b :: newline ++ joined (member_text ind <$> l) ++ newline ++ ind' ++ [x7d].
Definition obj_val (l : list item) : json := JObj ((λ i, (i_key i, i_val i)) <$> l).
Definition arr_text (ind' : bytes) (l : list bytes) : bytes := x5b :: newline ++ joined l ++ newline ++ ind' ++ [x5d].

Lemma reads_obj ind ind' l : blank ind → blank ind' → Forall item_ok l → reads (obj_text ind ind' l) (obj_val l).
Proof.
  intros Hi Hi' Hl. eapply (reads_brackets x7b x7d _ (sep (TP x2c) (map (λ i, TStr (i_key i) :: TP x3a :: toks (i_val i)) l)));
    [done|done|done| |].
  - apply items_joined. intros i Hin. rewrite list.Forall_forall in Hl. destruct (Hl i Hin) as [Hk Hr].
    intros c rest st ts' Hc E. unfold member_text, json_key. rewrite <- !app_assoc.
    change ((TStr (i_key i) :: TP x3a :: toks (i_val i)) ++ ts') with ([] ++ [TStr (i_key i)] ++ [TP x3a] ++ toks (i_val i) ++ ts').
    eapply lex_trans; [by apply lex_blank|]. eapply lex_trans; [apply lex_quoted; intros acc; by apply lex_plain|].
    eapply lex_trans; [done|]. by apply Hr.
  - unfold obj_val. cbn [toks]. rewrite map_map. done.
Qed.

Lemma reads_arr {A} ind' (text : A → bytes) (val : A → json) (l : list A) : blank ind' →
  (∀ a, reads (text a) (val a)) → reads (arr_text ind' (text <$> l)) (JArr (val <$> l)).
Proof.
  intros Hi Hr. eapply (reads_brackets x5b x5d _ (sep (TP x2c) (map (λ a, toks (val a)) l))); [done|done|done| |].
  - apply items_joined. intros a _. apply Hr.
  - cbn [toks]. rewrite map_map. done.
Qed.

(** A text of one value on lines of its own is that value. *)
Lemma json_parse_reads s v : reads s v → json_parse (s ++ newline) = Some v.
Proof.
  intros Hr. apply json_parse_toks. unfold tokens, newline. rewrite (Hr x0a [] LNone []); [|done|done]. cbn. by rewrite !app_nil_r.
Qed.

(** A member without spaces, followed by what ends it. *)
Lemma lex_field k t v c rest st ts : plain k → reads t v → ends c = true → lex LNone (c :: rest) = Some (st, ts) →
  lex LNone (quoted k ++ str ":" ++ t ++ c :: rest) = Some (st, TStr k :: TP x3a :: toks v ++ ts).
Proof.
  intros Hk Ht Hc Hr. change (TStr k :: TP x3a :: toks v ++ ts) with ([TStr k] ++ [TP x3a] ++ toks v ++ ts).
  eapply lex_trans; [apply lex_quoted; intros acc; by apply lex_plain|]. eapply lex_trans; [done|]. by apply Ht.
Qed.

Lemma lex_punct c rest st ts : is_punct c = true → lex LNone rest = Some (st, ts) → lex LNone (c :: rest) = Some (st, TP c :: ts).
Proof.
  intros Hc E. change (TP c :: ts) with ([TP c] ++ ts). eapply (lex_trans _ [c]); [by destruct c|done].
Qed.

(** ** Dates *)

(** The day of the year, and the seconds since the Epoch as POSIX defines them
    (there the year counts from 1900). *)
Definition tm_yday (t : tm) : Z := foldr Z.add 0 (take (Z.to_nat (tm_mon t - 1)) (month_days (tm_year t))) + tm_mday t - 1.
Definition posix_seconds (t : tm) : Z :=
  let year := tm_year t - 1900 in
  tm_sec t + tm_min t * 60 + tm_hour t * 3600 + tm_yday t * 86400 + (year - 70) * 31536000
    + ((year - 69) / 4) * 86400 - ((year - 1) / 100) * 86400 + ((year + 299) / 400) * 86400.

(** A date of the calendar and a time of the day. *)
Definition valid_tm (t : tm) : Prop :=
  1 ≤ tm_mon t ≤ 12 ∧ 1 ≤ tm_mday t ∧ (∃ n, month_days (tm_year t) !! Z.to_nat (tm_mon t - 1) = Some n ∧ tm_mday t ≤ n)
  ∧ 0 ≤ tm_hour t < 24 ∧ 0 ≤ tm_min t < 60 ∧ 0 ≤ tm_sec t < 60.

(** Days from the Epoch to the first of January. *)
Definition year_start (y : Z) : Z :=
  (y - 1970) * 365 + (y - 1969) / 4 - (y - 1901) / 100 + (y - 1601) / 400.

Lemma year_start_next y : year_start (y + 1) = year_start y + year_days y.
Proof.
  unfold year_start, year_days, leap.
  destruct (Z.eqb_spec (y mod 4) 0), (Z.eqb_spec (y mod 100) 0), (Z.eqb_spec (y mod 400) 0); cbn [andb orb negb]; lia.
Qed.

Lemma year_days_range y : 365 ≤ year_days y ≤ 366.
Proof. unfold year_days. destruct (leap y); lia. Qed.

Lemma find_year_spec fuel : ∀ y days, 0 ≤ days < 365 * Z.of_nat fuel →
  let '(y', d) := find_year fuel y days in
  y ≤ y' ∧ 0 ≤ d < year_days y' ∧ year_start y' + d = year_start y + days ∧ (y' - y) * 365 ≤ days.
Proof.
  induction fuel as [|f IH]; intros y days Hd; [lia|]. cbn [find_year]. pose proof (year_days_range y).
  destruct (Z.ltb_spec days (year_days y)); [lia|].
  specialize (IH (y + 1) (days - year_days y) ltac:(lia)). destruct (find_year f (y + 1) (days - year_days y)) as [y' d].
  rewrite year_start_next in IH. lia.
Qed.

Lemma find_month_spec ms : ∀ m day, 0 ≤ day < foldr Z.add 0 ms →
  let '(m', d) := find_month ms m day in
  m ≤ m' < m + zlen ms ∧ 0 ≤ d ∧ (∃ n, ms !! Z.to_nat (m' - m) = Some n ∧ d < n)
  ∧ foldr Z.add 0 (take (Z.to_nat (m' - m)) ms) + d = day.
Proof.
  induction ms as [|n ms IH]; intros m day Hd; [simpl in Hd; lia|]. cbn [find_month foldr] in *.
  unfold zlen. rewrite length_cons. destruct (Z.ltb_spec day n).
  - rewrite Z.sub_diag. split_and!; [lia|lia|lia| |simpl; lia]. by exists n.
  - specialize (IH (m + 1) (day - n) ltac:(lia)). destruct (find_month ms (m + 1) (day - n)) as [m' d].
    destruct IH as (Hm & Hd' & (n' & Hn & Hlt) & Hs). unfold zlen in Hm.
    replace (Z.to_nat (m' - m)) with (S (Z.to_nat (m' - (m + 1)))) by lia. split_and!; [lia|lia|lia| |cbn [take foldr]; lia].
    by exists n'.
Qed.

Lemma month_days_sum y : foldr Z.add 0 (month_days y) = year_days y.
Proof. unfold month_days, year_days. by destruct (leap y). Qed.

Lemma gmtime_spec s : 0 ≤ s < 18446744074 →
  valid_tm (gmtime s) ∧ posix_seconds (gmtime s) = s ∧ 1970 ≤ tm_year (gmtime s) < 2570.
Proof.
  intros Hs. unfold gmtime. pose proof (find_year_spec 600 1970 (s / 86400) ltac:(lia)) as Hy.
  destruct (find_year 600 1970 (s / 86400)) as [y yday]. destruct Hy as (Hy1 & Hy2 & Hy3 & Hy4).
  pose proof (find_month_spec (month_days y) 1 yday ltac:(by rewrite month_days_sum)) as Hm.
  destruct (find_month (month_days y) 1 yday) as [m d]. destruct Hm as (Hm1 & Hm2 & (n & Hn & Hlt) & Hm3).
  change (zlen (month_days y)) with 12 in Hm1. split_and!; cbn [tm_year]; [| |lia|lia].
  - unfold valid_tm. cbn [tm_mon tm_mday tm_year tm_hour tm_min tm_sec]. split_and!; try lia. exists n. split; [done|lia].
  - unfold posix_seconds, tm_yday. cbn [tm_mon tm_mday tm_year tm_hour tm_min tm_sec].
    unfold year_start in Hy3. replace (foldr Z.add 0 (take (Z.to_nat (m - 1)) (month_days y))) with (yday - d) by lia.
    replace (y - 1900 - 69) with (y - 1969) by lia. replace (y - 1900 - 1) with (y - 1901) by lia.
    replace (y - 1900 + 299) with (y - 1601) by lia. change ((1970 - 1969) / 4) with 0 in Hy3.
    change ((1970 - 1901) / 100) with 0 in Hy3. change ((1970 - 1601) / 400) with 0 in Hy3.
    generalize dependent ((y - 1969) / 4). generalize dependent ((y - 1901) / 100). generalize dependent ((y - 1601) / 400).
    intros a b c Hy3. lia.
Qed.

(** The instant a time stamp names, in nanoseconds: the fields are at fixed places. *)
Definition field_val (s : bytes) (at_ n : nat) : Z := digits_val (take n (drop at_ s)).
Definition read_timestamp (s : bytes) : Z :=
  posix_seconds (Tm (field_val s 0 4) (field_val s 5 2) (field_val s 8 2) (field_val s 11 2) (field_val s 14 2) (field_val s 17 2))
    * 1000000000 + field_val s 20 9.

Lemma length_decn n : ∀ v, length (decn n v) = n.
Proof. induction n as [|n IH]; intros v; [done|]. cbn [decn]. rewrite length_app, IH. simpl. lia. Qed.

Lemma decn_spec n : ∀ v, 0 ≤ v < 10 ^ Z.of_nat n → digits_val (decn n v) = v ∧ forallb is_digit (decn n v) = true.
Proof.
  induction n as [|n IH]; intros v Hv; [simpl in Hv; split; [cbn; lia|done]|]. cbn [decn].
  rewrite Nat2Z.inj_succ, Z.pow_succ_r in Hv by lia. destruct (is_digit_z2b (v mod 10) ltac:(lia)) as [Hd Hb].
  destruct (IH (v / 10) ltac:(lia)) as [E1 E2]. rewrite digits_val_snoc, E1, Hb, forallb_app, E2. cbn [forallb]. rewrite Hd.
  split; [lia|done].
Qed.

Lemma dec_year y : 1000 ≤ y < 10000 → dec y = decn 4 y.
Proof.
  intros Hy. unfold dec. rewrite (proj2 (Z.ltb_ge y 0)) by lia. cbn [dec_digits decn app].
  rewrite !Z.div_div by lia. rewrite (proj2 (Z.ltb_ge y 10)), (proj2 (Z.ltb_ge (y / 10) 10)) by lia.
  change (10 * 10) with 100. rewrite (proj2 (Z.ltb_ge (y / 100) 10)) by lia. change (100 * 10) with 1000.
  by rewrite (proj2 (Z.ltb_lt (y / 1000) 10)) by lia.
Qed.

(** The layout of a time stamp. *)
Lemma timestamp_fields sep ts : 0 ≤ ts < 2 ^ 64 → let t := gmtime (ts / 1000000000) in
  timestamp_text sep ts = decn 4 (tm_year t) ++ str "-" ++ decn 2 (tm_mon t) ++ str "-" ++ decn 2 (tm_mday t) ++ [sep]
    ++ decn 2 (tm_hour t) ++ str ":" ++ decn 2 (tm_min t) ++ str ":" ++ decn 2 (tm_sec t) ++ str "." ++ decn 9 (ts mod 1000000000).
Proof.
  intros Hts t. destruct (gmtime_spec (ts / 1000000000) ltac:(lia)) as (_ & _ & Hy).
  unfold timestamp_text, strftime. fold t. rewrite (dec_year (tm_year t)) by (fold t in Hy; lia). by rewrite <- !app_assoc.
Qed.

Lemma field_here n v s : 0 ≤ v < 10 ^ Z.of_nat n → field_val (decn n v ++ s) 0 n = v.
Proof. intros Hv. unfold field_val. rewrite drop_0, take_app_length' by (by rewrite length_decn). by apply decn_spec. Qed.

Lemma field_skip p s at_ n : (length p ≤ at_)%nat → field_val (p ++ s) at_ n = field_val s (at_ - length p) n.
Proof. intros Hl. unfold field_val. rewrite drop_app_ge by done. done. Qed.

(** Skip to the field that starts the text. *)
Ltac at_field := repeat (rewrite field_skip by (rewrite ?length_decn; cbn; lia); rewrite ?length_decn; cbn [length str Nat.sub]).

Lemma read_timestamp_text sep ts r : 0 ≤ ts < 2 ^ 64 → read_timestamp (timestamp_text sep ts ++ r) = ts.
Proof.
  intros Hts. rewrite timestamp_fields by done. destruct (gmtime_spec (ts / 1000000000) ltac:(lia)) as (Hv & Hp & Hy).
  destruct (gmtime (ts / 1000000000)) as [y m d hh mm ss]. cbn [tm_year tm_mon tm_mday tm_hour tm_min tm_sec] in *.
  destruct Hv as (V1 & V2 & (n & Vn & Vd) & V3 & V4 & V5). cbn [tm_year tm_mon tm_mday tm_hour tm_min tm_sec] in *.
  assert (d ≤ 31).
  { assert (Hm : Forall (λ n, n ≤ 31) (month_days y)) by (unfold month_days; destruct (leap y); repeat constructor; lia).
    pose proof (Forall_lookup_1 _ _ _ _ Hm Vn). simpl in *. lia. }
  assert (P4 : 0 ≤ y < 10 ^ Z.of_nat 4) by (simpl; lia).
  assert (P2 : ∀ v, 0 ≤ v < 100 → 0 ≤ v < 10 ^ Z.of_nat 2) by (intros v; simpl; lia).
  assert (P9 : 0 ≤ ts mod 1000000000 < 10 ^ Z.of_nat 9) by (simpl; lia).
  set (s := (decn 4 y ++ _) ++ r). assert (Es : s = decn 4 y ++ str "-" ++ decn 2 m ++ str "-" ++ decn 2 d ++ [sep] ++ decn 2 hh
    ++ str ":" ++ decn 2 mm ++ str ":" ++ decn 2 ss ++ str "." ++ decn 9 (ts mod 1000000000) ++ r) by (unfold s; by rewrite <- !app_assoc).
  assert (field_val s 0 4 = y) as F1 by (rewrite Es; by apply field_here).
  assert (field_val s 5 2 = m) as F2 by (rewrite Es; at_field; apply field_here, P2; lia).
  assert (field_val s 8 2 = d) as F3 by (rewrite Es; at_field; apply field_here, P2; lia).
  assert (field_val s 11 2 = hh) as F4 by (rewrite Es; at_field; apply field_here, P2; lia).
  assert (field_val s 14 2 = mm) as F5 by (rewrite Es; at_field; apply field_here, P2; lia).
  assert (field_val s 17 2 = ss) as F6 by (rewrite Es; at_field; apply field_here, P2; lia).
  assert (field_val s 20 9 = ts mod 1000000000) as F7 by (rewrite Es; at_field; by apply field_here).
  unfold read_timestamp. rewrite F1, F2, F3, F4, F5, F6, F7, Hp. lia.
Qed.

(** ** Hexadecimal *)
Lemma hex_cases d : 0 ≤ d < 16 → hex_val (hex_digit d) = Some d ∧ plain_char (hex_digit d) = true ∧ hex_digit d ≠ x20.
Proof.
  intros Hd. assert (Hc : d = 0 ∨ d = 1 ∨ d = 2 ∨ d = 3 ∨ d = 4 ∨ d = 5 ∨ d = 6 ∨ d = 7 ∨ d = 8 ∨ d = 9 ∨ d = 10 ∨ d = 11
    ∨ d = 12 ∨ d = 13 ∨ d = 14 ∨ d = 15) by lia.
  by repeat destruct Hc as [-> | Hc]; [..|subst d].
Qed.

(** The value of a string of hexadecimal digits. *)
Definition hex_value (s : bytes) : option Z :=
  foldl (λ a c, v ← a; h ← hex_val c; Some (16 * v + h)) (Some 0) s.

Lemma hexn_value n : ∀ v, 0 ≤ v < 16 ^ Z.of_nat n → hex_value (hexn n v) = Some v.
Proof.
  induction n as [|n IH]; intros v Hv; [simpl in Hv; by replace v with 0 by lia|]. cbn [hexn].
  rewrite Nat2Z.inj_succ, Z.pow_succ_r in Hv by lia. unfold hex_value in *. rewrite foldl_app, IH by lia. cbn.
  rewrite (proj1 (hex_cases (v mod 16) ltac:(lia))). cbn. f_equal. lia.
Qed.

Lemma hexn_plain n : ∀ v, plain (hexn n v).
Proof.
  induction n as [|n IH]; intros v; [done|]. cbn [hexn]. rewrite forallb_app, IH. cbn.
  by rewrite (proj1 (proj2 (hex_cases (v mod 16) ltac:(lia)))).
Qed.

Lemma digits_plain s : forallb is_digit s = true → plain s.
Proof.
  induction s as [|c s IH]; [done|]. cbn [forallb]. rewrite !andb_true_iff. intros [Hc Hs]. split; [by destruct c|by apply IH].
Qed.

Lemma dec_plain n : plain (dec n).
Proof.
  assert (Hd : ∀ f n acc, plain acc → plain (dec_digits f n acc)).
  { induction f as [|f IH]; intros m acc Ha; [done|]. cbn [dec_digits].
    assert (plain (z2b (48 + m mod 10) :: acc)).
    { cbn [forallb]. rewrite Ha, andb_true_r. destruct (is_digit_z2b (m mod 10) ltac:(lia)) as [Hd _].
      revert Hd. by destruct (z2b (48 + m mod 10)). }
    destruct (m <? 10); [done|by apply IH]. }
  unfold dec. destruct (n <? 0); [cbn [forallb]; by rewrite Hd|by apply Hd].
Qed.

Lemma decn_plain n : ∀ v, plain (decn n v).
Proof.
  induction n as [|n IH]; intros v; [done|]. cbn [decn]. rewrite forallb_app, IH. cbn [forallb].
  destruct (is_digit_z2b (v mod 10) ltac:(lia)) as [Hd _]. revert Hd. by destruct (z2b (48 + v mod 10)).
Qed.

Lemma timestamp_plain ts : plain (timestamp_text x54 ts ++ str "Z").
Proof. unfold timestamp_text, strftime. rewrite !forallb_app, dec_plain, !decn_plain. done. Qed.

(** Two digits per byte. *)
Fixpoint unhex (s : bytes) : option bytes :=
  match s with
  | [] => Some []
  | a :: b :: s' => h ← hex_val a; l ← hex_val b; d ← unhex s'; Some (z2b (16 * h + l) :: d)
  | _ => None
  end.

Lemma hexn_byte b : hexn 2 (b2z b) = [hex_digit (b2z b / 16); hex_digit (b2z b mod 16)].
Proof. pose proof (b2z_range b). cbn [hexn app]. by rewrite (Z.mod_small (b2z b / 16)) by lia. Qed.

Lemma byte_nibbles b : hex_val (hex_digit (b2z b / 16)) = Some (b2z b / 16) ∧ hex_val (hex_digit (b2z b mod 16)) = Some (b2z b mod 16)
  ∧ z2b (16 * (b2z b / 16) + b2z b mod 16) = b.
Proof.
  pose proof (b2z_range b). split; [apply hex_cases; lia|]. split; [apply hex_cases; lia|].
  rewrite <- Z.div_mod by lia. apply z2b_b2z.
Qed.

Lemma unhex_bytes l : unhex (concat ((λ b, hexn 2 (b2z b)) <$> l)) = Some l.
Proof.
  induction l as [|b l IH]; [done|]. rewrite fmap_cons. cbn [concat]. rewrite hexn_byte. cbn [app unhex].
  destruct (byte_nibbles b) as (-> & -> & E). cbn [mbind option_bind]. rewrite IH. cbn [mbind option_bind]. by rewrite E.
Qed.

Lemma hex_bytes_plain l : plain (concat ((λ b, hexn 2 (b2z b)) <$> l)).
Proof. induction l as [|b l IH]; [done|]. rewrite fmap_cons. cbn [concat]. rewrite forallb_app, hexn_plain. exact IH. Qed.

(** *** Reading a hex dump *)
Fixpoint strip (p s : bytes) : option bytes :=
  match p, s with
  | [], _ => Some s
  | a :: p', b :: s' => if decide (a = b) then strip p' s' else None
  | _, _ => None
  end.

Fixpoint span_hex (s : bytes) : bytes * bytes :=
  match s with
  | c :: s' => match hex_val c with Some _ => let '(a, b) := span_hex s' in (c :: a, b) | None => ([], s) end
  | [] => ([], [])
  end.

(** The bytes of the columns; blank ones are at the end. *)
Fixpoint read_columns (n : nat) (i : Z) (s : bytes) : option (bytes * bytes) :=
  match n, s with
  | O, _ => Some ([], s)
  | S n', a :: b :: x20 :: s' =>
      '(d, r) ← read_columns n' (i + 1) (if i =? 7 then tail s' else s');
      match hex_val a, hex_val b with
      | Some h, Some l => Some (z2b (16 * h + l) :: d, r)
      | _, _ => match d with [] => Some ([], r) | _ => None end
      end
  | _, _ => None
  end.

(** One line: the offset must be right and the characters must fit the bytes. *)
Definition read_line (indent : bytes) (off : Z) (s : bytes) : option (bytes * bytes) :=
  s ← strip indent s;
  let '(h, s) := span_hex s in
  v ← hex_value h;
  if negb (v =? off) then None else
  s ← strip (str "  ") s;
  '(d, s) ← read_columns 16 0 s;
  s ← strip (str " |" ++ (ascii_char <$> d) ++ str "|" ++ newline) s;
  Some (d, s).

Fixpoint read_dump (fuel : nat) (indent : bytes) (off : Z) (s : bytes) : option bytes :=
  match s, fuel with
  | [], _ => Some []
  | _, O => None
  | _, S f => '(d, s') ← read_line indent off s; d' ← read_dump f indent (off + 16) s'; Some (d ++ d')
  end.

Lemma strip_app p s : strip p (p ++ s) = Some s.
Proof. induction p as [|a p IH]; [done|]. cbn. by rewrite decide_True. Qed.

Lemma span_hex_app n : ∀ v s, match s with c :: _ => hex_val c = None | [] => True end → span_hex (hexn n v ++ s) = (hexn n v, s).
Proof.
  induction n as [|n IH]; intros v s Hs; [destruct s; [done|]; cbn; by rewrite Hs|]. cbn [hexn].
  assert (Hg : ∀ l s', Forall (λ c, is_Some (hex_val c)) l → span_hex s' = ([], s') → span_hex (l ++ s') = (l, s')).
  { clear. intros l s' Hl Hs. induction Hl as [|c l [h Hc] _ IH]; [done|]. cbn. by rewrite Hc, IH. }
  apply Hg; [|destruct s; [done|]; cbn; by rewrite Hs].
  clear. change (hexn n (v / 16) ++ [hex_digit (v mod 16)]) with (hexn (S n) v). revert v.
  induction (S n) as [|m IH]; intros v; [constructor|]. cbn [hexn]. apply Forall_app. split; [apply IH|].
  constructor; [|constructor]. rewrite (proj1 (hex_cases (v mod 16) ltac:(lia))). by eexists.
Qed.

Lemma read_columns_spec n : ∀ i l r, (length l ≤ n)%nat → read_columns n i (hex_columns n i l ++ r) = Some (l, r).
Proof.
  induction n as [|n IH]; intros i l r Hl; [destruct l; [done|simpl in Hl; lia]|]. cbn [hex_columns]. destruct l as [|b l]; cbn [tail].
  - specialize (IH (i + 1) [] r ltac:(simpl; lia)). destruct (i =? 7) eqn:E; cbn [app read_columns str]; rewrite <- ?app_assoc;
      cbn; rewrite E; cbn [tail app]; by rewrite IH.
  - simpl in Hl. specialize (IH (i + 1) l r ltac:(lia)). rewrite hexn_byte. destruct (byte_nibbles b) as (E1 & E2 & E3).
    destruct (i =? 7) eqn:E; cbn [app]; rewrite <- ?app_assoc; cbn [str app read_columns]; cbn; rewrite E; cbn [tail app];
      rewrite IH; cbn; by rewrite E1, E2, E3.
Qed.

Lemma hexw_value w v : 0 ≤ v → hex_value (hexw w v) = Some v.
Proof.
  intros Hv. apply hexn_value. split; [done|]. rewrite Nat2Z.inj_max, Nat2Z.inj_succ, Z2Nat.id by (apply Z.div_pos; [apply Z.log2_nonneg|lia]).
  apply (Z.lt_le_trans _ (16 ^ Z.succ (Z.log2 v / 4))); [|apply Z.pow_le_mono_r; lia].
  destruct (Z.eq_dec v 0) as [->|]; [done|]. pose proof (Z.log2_spec v ltac:(lia)) as [_ Hl].
  change 16 with (2 ^ 4). rewrite <- Z.pow_mul_r by (pose proof (Z.log2_nonneg v); lia).
  eapply Z.lt_le_trans; [exact Hl|]. apply Z.pow_le_mono_r; lia.
Qed.

Lemma read_line_spec indent off l s : 0 ≤ off → (length l ≤ 16)%nat → read_line indent off (hex_line indent off l ++ s) = Some (l, s).
Proof.
  intros Ho Hl. unfold read_line, hex_line. rewrite <- !app_assoc, strip_app. cbn [mbind option_bind].
  unfold hexw at 1. rewrite span_hex_app by done. fold (hexw 8 off). rewrite hexw_value by done. cbn [mbind option_bind].
  rewrite Z.eqb_refl. cbn [negb]. rewrite strip_app. cbn [mbind option_bind]. rewrite read_columns_spec by done. cbn [mbind option_bind].
  pose proof (strip_app (str " |" ++ (ascii_char <$> l) ++ str "|" ++ newline) s) as E. rewrite <- !app_assoc in E. by rewrite E.
Qed.

Lemma read_dump_lines fuel : ∀ g indent off data, 0 ≤ off → (length data ≤ fuel)%nat → (length data ≤ g)%nat →
  read_dump g indent off (hex_lines fuel indent off data) = Some data.
Proof.
  induction fuel as [|f IH]; intros g indent off data Ho Hl Hg; (destruct data as [|b data]; [by destruct g|]); [simpl in Hl; lia|].
  destruct g as [|g]; [simpl in Hg; lia|].
  cbn [hex_lines]. set (l := take 16 (b :: data)). set (rest := drop 16 (b :: data)).
  assert (Hne : ∃ c s, hex_line indent off l ++ hex_lines f indent (off + 16) rest = c :: s).
  { destruct (hex_line indent off l) as [|c s] eqn:E; [|by exists c, (s ++ hex_lines f indent (off + 16) rest)].
    unfold hex_line in E. apply app_eq_nil in E as [_ E]. apply app_eq_nil in E as [_ E]. done. }
  destruct Hne as (c & s & Ec). cbn [read_dump]. rewrite Ec. cbn [read_dump]. rewrite <- Ec.
  rewrite read_line_spec; [|done|unfold l; rewrite length_take; lia]. cbn [mbind option_bind].
  rewrite IH; [|lia|unfold rest; rewrite length_drop; simpl in *; lia..]. cbn [mbind option_bind].
  unfold l, rest. f_equal. apply (take_drop 16).
Qed.

(** A dump has more characters than bytes were dumped. *)
Lemma hex_lines_length fuel : ∀ indent off data, (length data ≤ fuel)%nat → (length data ≤ length (hex_lines fuel indent off data))%nat.
Proof.
  induction fuel as [|f IH]; intros indent off data Hl; [lia|]. destruct data as [|b data]; [simpl; lia|]. cbn [hex_lines].
  rewrite length_app. specialize (IH indent (off + 16) (drop 16 (b :: data)) ltac:(rewrite length_drop; simpl in *; lia)).
  rewrite length_drop in IH. unfold hex_line. rewrite !length_app, length_fmap, length_take. lia.
Qed.

Definition read_hex_dump (indent s : bytes) : option bytes := read_dump (length s) indent 0 s.

Lemma read_hex_dump_spec data indent : read_hex_dump indent (hex_dump data indent) = Some data.
Proof. unfold read_hex_dump, hex_dump. apply read_dump_lines; [done|done|]. by apply hex_lines_length. Qed.
