(* ===== verification/CtlLog.v ===== *)
(** * Reading a log: the streaming CBOR decoder and [lbdctl log]
      ([src/src/lbdctl.c])

    [read] may return fewer bytes than asked for, be interrupted or fail, and
    [malloc] may fail; a file descriptor carries the bytes that are left and the
    behaviour of the calls to come.  [cmd_log_cbor] here gives the values it prints
    ([report]); [CtlLogText] turns them into text.  Loops whose length the input controls run on fuel
    bounded by the bytes that are left; [FUEL] is the result of running out. *)
From S2P Require Import Prelude Kernel Format Crc Cbor Qcow2State Log.

(** ** [read] *)
Inductive rd_event : Type :=
| RdMax (n : positive)   (** return at most [n] bytes *)
| RdIntr                 (** -1 with [EINTR] *)
| RdFail.                (** -1 with another errno *)

Record rfd : Type := Rfd { rd_rest : bytes; rd_plan : list rd_event; rd_oom : list bool }.
Abbreviation MR := (M rfd).

Inductive rd_res : Type := RdGot (d : bytes) | RdEintr | RdError.

Definition u_read (n : Z) : MR rd_res := λ s,
  let got (m : Z) (plan : list rd_event) :=
    (Ok (RdGot (take (Z.to_nat m) (rd_rest s))), Rfd (drop (Z.to_nat m) (rd_rest s)) plan (rd_oom s)) in
  match rd_plan s with
  | [] => got n []
  | RdMax m :: p => got (Z.min (Z.pos m) n) p
  | RdIntr :: p => (Ok RdEintr, Rfd (rd_rest s) p (rd_oom s))
  | RdFail :: p => (Ok RdError, Rfd (rd_rest s) p (rd_oom s))
  end.

(** [malloc]: whether it succeeded; it always does once the list is used up. *)
Definition r_malloc : MR bool := λ s,
  match rd_oom s with
  | [] => (Ok true, s)
  | b :: l => (Ok (negb b), Rfd (rd_rest s) (rd_plan s) l)
  end.

(** Out of fuel: no return value of the code. *)
Definition FUEL : Z := 77.

(** The loop of [read_exact]; the result is 1, 0 or -1 and what was read. *)
Fixpoint read_loop (fuel : nat) (need : Z) (done : bytes) : MR (Z * bytes) :=
  if need <=? 0 then mret (1, done) else
  match fuel with
  | O => throw FUEL
  | S f =>
      r ← u_read need;
      match r with
      | RdError => mret (-1, done)
      | RdEintr => read_loop f need done
      | RdGot [] => mret (match done with [] => 0 | _ => -1 end, done)
      | RdGot d => read_loop f (need - zlen d) (done ++ d)
      end
  end.

Definition read_exact (len : Z) : MR (Z * bytes) := λ s,
  read_loop (length (rd_plan s) + length (rd_rest s) + 1) len [] s.

(** ** CBOR items; errors: [-1] end of file, [-2] malformed *)

(** [if (read_exact(fd, b, n) <= 0) return -2;]. *)
Definition must_read (n : Z) : MR bytes :=
  '(r, d) ← read_exact n; if r <=? 0 then throw (-2) else mret d.

(** [b[i]] of a buffer just filled. *)
Definition bi (d : bytes) (i : nat) : Z := b2z (nth i d x00).

Definition cbor_read_head : MR (Z * Z) :=
  '(ret, d) ← read_exact 1;
  if ret =? 0 then throw (-1)
  else if ret <? 0 then throw (-2) else
  let ib := bi d 0 in
  let major := Z.shiftr ib 5 in
  let ai := Z.land ib 0x1F in
  if ai <? 24 then mret (major, ai)
  else if ai =? 24 then b ← must_read 1; mret (major, bi b 0)
  else if ai =? 25 then b ← must_read 2; mret (major, Z.lor (Z.shiftl (bi b 0) 8) (bi b 1))
  else if ai =? 26 then b ← must_read 4;
    mret (major, Z.lor (Z.lor (Z.lor (Z.shiftl (bi b 0) 24) (Z.shiftl (bi b 1) 16))
                   (Z.shiftl (bi b 2) 8)) (bi b 3))
  else if ai =? 27 then b ← must_read 8;
    mret (major, Z.lor (Z.lor (Z.lor (Z.lor (Z.lor (Z.lor (Z.lor
      (Z.shiftl (bi b 0) 56) (Z.shiftl (bi b 1) 48)) (Z.shiftl (bi b 2) 40)) (Z.shiftl (bi b 3) 32))
      (Z.shiftl (bi b 4) 24)) (Z.shiftl (bi b 5) 16)) (Z.shiftl (bi b 6) 8)) (bi b 7))
  else throw (-2).

Definition cbor_read_typed (m : Z) : MR Z :=
  '(major, v) ← cbor_read_head; if negb (major =? m) then throw (-2) else mret v.
Definition cbor_read_uint : MR Z := cbor_read_typed 0.
Definition cbor_read_bytes_hdr : MR Z := cbor_read_typed 2.
Definition cbor_read_map : MR Z := cbor_read_typed 5.

(** The text with its terminating NUL fits in [cap] bytes. *)
Definition cbor_read_text (cap : Z) : MR bytes :=
  len ← cbor_read_typed 3;
  if len >=? cap then throw (-2)
  else if len >? 0 then must_read len else mret [].

(** Bytes of a string, 256 at a time. *)
Fixpoint skip_bytes (fuel : nat) (val : Z) : MR unit :=
  if val <=? 0 then mret tt else
  match fuel with
  | O => throw FUEL
  | S f => let chunk := if val <? 256 then val else 256 in
           must_read chunk;; skip_bytes f (val - chunk)
  end.

(** [for (i = 0; i < n; i++) body]. *)
Fixpoint repeat_m (fuel : nat) (n : Z) (body : MR unit) : MR unit :=
  if n <=? 0 then mret tt else
  match fuel with
  | O => throw FUEL
  | S f => body;; repeat_m f (n - 1) body
  end.

(** [if (cbor_skip(fd)) return -2;]. *)
Definition or_malformed (m : MR unit) : MR unit := λ s,
  match m s with
  | (Err e, s') => (Err (if e =? FUEL then FUEL else -2), s')
  | o => o
  end.

Fixpoint cbor_skip_fuel (fuel : nat) : MR unit :=
  match fuel with
  | O => throw FUEL
  | S f =>
      '(major, val) ← cbor_read_head;
      if (major =? 0) || (major =? 1) || (major =? 7) then mret tt
      else if (major =? 2) || (major =? 3) then skip_bytes f val
      else if major =? 4 then repeat_m f val (or_malformed (cbor_skip_fuel f))
      else if major =? 5 then
        repeat_m f val (or_malformed (cbor_skip_fuel f);; or_malformed (cbor_skip_fuel f))
      else throw (-2)
  end.

Definition cbor_skip : MR unit := λ s, cbor_skip_fuel (S (length (rd_rest s))) s.

(** ** [lbdctl log] *)
Record log_hdr : Type := LogHdr {
  h_version : Z; h_block_size : Z; h_label : bytes; h_device_size : Z; h_path : bytes
}.

(** One key of the header map. *)
Definition read_hdr_key (h : log_hdr) : MR log_hdr :=
  key ← cbor_read_uint;
  if key =? LBD_CBOR_KEY_HDR_VERSION then
    v ← cbor_read_uint; mret (LogHdr (u32 v) (h_block_size h) (h_label h) (h_device_size h) (h_path h))
  else if key =? LBD_CBOR_KEY_HDR_BLOCK_SIZE then
    v ← cbor_read_uint; mret (LogHdr (h_version h) (u32 v) (h_label h) (h_device_size h) (h_path h))
  else if key =? LBD_CBOR_KEY_HDR_SEGMENT_LABEL then
    t ← cbor_read_text 32; mret (LogHdr (h_version h) (h_block_size h) t (h_device_size h) (h_path h))
  else if key =? LBD_CBOR_KEY_HDR_DEVICE_SIZE then
    v ← cbor_read_uint; mret (LogHdr (h_version h) (h_block_size h) (h_label h) v (h_path h))
  else if key =? LBD_CBOR_KEY_HDR_BACKING_PATH then
    t ← cbor_read_text LBD_LOG_PATH_MAX; mret (LogHdr (h_version h) (h_block_size h) (h_label h) (h_device_size h) t)
  else cbor_skip;; mret h.

Fixpoint iter_m {A} (fuel : nat) (n : Z) (body : A → MR A) (a : A) : MR A :=
  if n <=? 0 then mret a else
  match fuel with
  | O => throw FUEL
  | S f => a' ← body a; iter_m f (n - 1) body a'
  end.

(** The local variables of the loop over one entry's map.  [e_op] is the first
    character of the text, NUL when it is empty; [e_cap] is [data_cap], the size
    of the payload buffer, which outlives the entry. *)
Record entry_vars : Type := EV {
  e_op : byte; e_ts : Z; e_seq : Z; e_block : Z; e_length : Z;
  e_checksum : option Z; e_data : option bytes; e_cap : Z
}.
Definition ev0 (cap : Z) : entry_vars := EV x00 0 0 0 0 None None cap.

Definition read_entry_key (v : entry_vars) : MR entry_vars :=
  key ← cbor_read_uint;
  if key =? LBD_CBOR_KEY_OP then
    t ← cbor_read_text 4;
    mret (EV (nth 0 t x00) (e_ts v) (e_seq v) (e_block v) (e_length v) (e_checksum v) (e_data v) (e_cap v))
  else if key =? LBD_CBOR_KEY_TIMESTAMP then
    x ← cbor_read_uint; mret (EV (e_op v) x (e_seq v) (e_block v) (e_length v) (e_checksum v) (e_data v) (e_cap v))
  else if key =? LBD_CBOR_KEY_SEQUENCE then
    x ← cbor_read_uint; mret (EV (e_op v) (e_ts v) x (e_block v) (e_length v) (e_checksum v) (e_data v) (e_cap v))
  else if key =? LBD_CBOR_KEY_BLOCK then
    x ← cbor_read_uint; mret (EV (e_op v) (e_ts v) (e_seq v) x (e_length v) (e_checksum v) (e_data v) (e_cap v))
  else if key =? LBD_CBOR_KEY_LENGTH then
    x ← cbor_read_uint; mret (EV (e_op v) (e_ts v) (e_seq v) (e_block v) (u32 x) (e_checksum v) (e_data v) (e_cap v))
  else if key =? LBD_CBOR_KEY_CHECKSUM then
    x ← cbor_read_uint; mret (EV (e_op v) (e_ts v) (e_seq v) (e_block v) (e_length v) (Some (u32 x)) (e_data v) (e_cap v))
  else if key =? LBD_CBOR_KEY_DATA then
    n ← cbor_read_bytes_hdr;
    a ← (if n >? e_cap v then r_malloc else mret true);
    if negb a then throw (-2) else
    d ← (if n >? 0 then must_read n else mret []);
    mret (EV (e_op v) (e_ts v) (e_seq v) (e_block v) (e_length v) (e_checksum v) (Some d)
            (Z.max n (e_cap v)))
  else cbor_skip;; mret v.

(** What is printed for one entry. *)
Record report : Type := Report {
  r_trim : bool; r_seq : Z; r_ts : Z; r_block : Z; r_block_end : Z; r_offset : Z; r_length : Z;
  r_comp_size : option Z; r_checksum : option (Z * bool); r_data : option bytes
}.

Section LogCmd.
Context `{LZ4Ops}.

(** The values printed for an entry whose data, decompressed, is [data].
    Dividing by a zero block size is undefined behaviour. *)
Definition report_of (bs : Z) (v : entry_vars) (data : option bytes) : MR report :=
  if bs =? 0 then panic else
  let comp := match e_data v with
    | Some c => if zlen c >? 0 then Some (zlen c) else None
    | None => None end in
  let crc := match e_checksum v with
    | None => None
    | Some c => Some (c, match data with Some d => crc32_calc d =? c | None => true end) end in
  mret (Report (b2z (e_op v) =? 84) (e_seq v) (e_ts v) (e_block v)
    (u64 (e_block v + e_length v / bs - 1)) (u64 (e_block v * bs)) (e_length v) comp crc data).

(** Decompress and check one entry; an error ends the listing. *)
Definition report_entry (bs : Z) (v : entry_vars) : MR (report * Z) :=
  match e_data v with
  | Some c =>
      if (e_length v >? 0) && (zlen c >? 0) then
        a ← r_malloc;
        if negb a then throw (-2) else
        match LZ4_decompress_safe c (s32 (e_length v)) with
        | None => throw (-2)
        | Some d =>
            a ← (if e_length v >? e_cap v then r_malloc else mret true);
            if negb a then throw (-2) else
            r ← report_of bs v (Some d); mret (r, Z.max (e_length v) (e_cap v))
        end
      else r ← report_of bs v (Some c); mret (r, e_cap v)
  | None => r ← report_of bs v None; mret (r, e_cap v)
  end.

(** The loop over entries: it ends at the end of the file or at the first
    entry that cannot be read. *)
Fixpoint read_entries (fuel : nat) (bs cap : Z) (acc : list report) : MR (list report) :=
  match fuel with
  | O => throw FUEL
  | S f =>
      r ← try ('(major, n) ← cbor_read_head;
               if negb (major =? 5) then throw (-2) else
               v ← iter_m f n read_entry_key (ev0 cap);
               report_entry bs v);
      match r with
      | Ok (x, cap') => read_entries f bs cap' (acc ++ [x])
      | Err e => if e =? FUEL then throw FUEL else mret acc
      | Panic => panic
      end
  end.

(** [cmd_log_cbor]: the header and the entries, or exit status 1. *)
Definition cmd_log_cbor : MR (log_hdr * list report) := λ s,
  let fuel := S (length (rd_rest s)) in
  match (n ← cbor_read_map;
         h ← iter_m fuel n read_hdr_key (LogHdr 0 4096 [] 0 []);
         rs ← read_entries fuel (h_block_size h) 0 [];
         mret (h, rs)) s with
  | (Err e, s') => (Err (if e =? FUEL then FUEL else 1), s')
  | o => o
  end.
End LogCmd.
