(* ===== verification/CtlLogProof.v ===== *)
(** * What [lbdctl log] reads is what the driver logged ([src/src/lbdctl.c])

    The streaming decoder reads back every item the driver's encoder writes,
    however [read] cuts the file into pieces, and every loop of the log reader
    ends on every input. *)
From S2P Require Import Prelude Kernel Format Crc Cbor Qcow2State Qcow2Io Log LogProof CtlLog.

(** ** Reading *)

(** The descriptor stands before [r] and neither [read] nor [malloc] fails. *)
Record on (s : rfd) (r : bytes) : Prop := {
  on_rest : rd_rest s = r;
  on_plan : RdFail ∉ rd_plan s;
  on_oom : rd_oom s = []
}.

Lemma u_read_on s r n : on s r → 0 < n →
  (u_read n s = (Ok RdEintr, Rfd r (tail (rd_plan s)) []) ∧ rd_plan s ≠ []) ∨
  ∃ d r', u_read n s = (Ok (RdGot d), Rfd r' (tail (rd_plan s)) []) ∧
    r = d ++ r' ∧ zlen d ≤ n ∧ (d = [] → r = []).
Proof.
  intros [<- Hp Ho] Hn. unfold u_read. destruct (rd_plan s) as [|ev p]; rewrite Ho.
  - right. eexists _, _. split; [done|]. split; [by rewrite take_drop|]. split; [len|].
    intros Hd. apply (f_equal length) in Hd. rewrite length_take in Hd. simpl in Hd.
    destruct (rd_rest s); [done|simpl in *; lia].
  - destruct ev as [m| |]; [right|by left|by destruct Hp; left].
    eexists _, _. split; [done|]. split; [by rewrite take_drop|]. split; [len|].
    intros Hd. apply (f_equal length) in Hd. rewrite length_take in Hd. simpl in Hd.
    destruct (rd_rest s); [done|simpl in *; lia].
Qed.

Lemma on_tail s r r' : on s r → on (Rfd r' (tail (rd_plan s)) []) r'.
Proof.
  intros [_ Hp _]. split; simpl; try done. intros Hin. apply Hp.
  destruct (rd_plan s); simpl in *; [done|by right].
Qed.

Lemma read_loop_on fuel s need done d r : on s (d ++ r) → zlen d = need →
  (length (rd_plan s) + length (rd_rest s) < fuel)%nat →
  ∃ s', read_loop fuel need done s = (Ok (1, done ++ d), s') ∧ on s' r.
Proof.
  revert s need done d. induction fuel as [|f IH]; intros s need done d Hon Hd Hf; [lia|].
  simpl. destruct (Z.leb_spec need 0).
  { assert (d = []) as -> by (destruct d; [done|unfold zlen in Hd; simpl in Hd; lia]).
    exists s. by rewrite app_nil_r. }
  pose proof (on_rest _ _ Hon) as Hrest.
  destruct (u_read_on s _ need Hon ltac:(lia)) as [[E Hne]|(x & r' & E & Hx & Hlen & Hnil)]; mstep E.
  - destruct (IH _ need done d (on_tail s _ (d ++ r) Hon) Hd) as (s' & E' & Hs').
    + simpl. rewrite Hrest in Hf. destruct (rd_plan s); [done|simpl in *; lia].
    + by exists s'.
  - destruct x as [|b x].
    { specialize (Hnil eq_refl). apply app_eq_nil in Hnil as [-> _]. unfold zlen in Hd; simpl in Hd; lia. }
    set (xs := b :: x) in *.
    assert (∃ y, d = xs ++ y) as [y ->].
    { exists (drop (length xs) d).
      apply (f_equal (take (length xs))) in Hx as Hx'. rewrite take_app_length in Hx'.
      rewrite take_app_le in Hx' by (unfold zlen in *; lia). rewrite <- Hx' at 1. by rewrite take_drop. }
    rewrite <- app_assoc in Hx. apply app_inv_head in Hx. subst r'.
    destruct (IH _ (need - zlen xs) (done ++ xs) y (on_tail s _ (y ++ r) Hon)) as (s' & E' & Hs').
    + rewrite zlen_app in Hd. lia.
    + simpl. rewrite Hrest, !length_app in Hf. rewrite length_app. simpl in Hf. destruct (rd_plan s); simpl in *; lia.
    + exists s'. by rewrite app_assoc.
Qed.

(** [read_exact] returns the bytes asked for, whatever pieces [read] returns. *)
Lemma read_exact_on s d r n : on s (d ++ r) → zlen d = n →
  ∃ s', read_exact n s = (Ok (1, d), s') ∧ on s' r.
Proof. intros Hon Hd. unfold read_exact. apply (read_loop_on _ s n [] d r); [done..|lia]. Qed.

(** At the end of the file it returns 0. *)
Lemma read_exact_eof s n : on s [] → 0 < n → ∃ s', read_exact n s = (Ok (0, []), s') ∧ on s' [].
Proof.
  intros Hon Hn. unfold read_exact. pose proof (on_rest _ _ Hon) as Hr. rewrite Hr. simpl.
  assert (Hlt : (length (rd_plan s) < length (rd_plan s) + 0 + 1)%nat) by lia.
  revert Hlt. generalize (length (rd_plan s) + 0 + 1)%nat. intros fuel. revert s Hon Hr.
  induction fuel as [|f IH]; intros s Hon Hr Hlt; [lia|]. simpl.
  destruct (Z.leb_spec n 0); [lia|].
  destruct (u_read_on s _ n Hon ltac:(lia)) as [[E Hne]|(x & r' & E & Hx & Hlen & Hnil)]; mstep E.
  - apply IH; [by apply (on_tail s [])|done|]. simpl. destruct (rd_plan s); [done|simpl in *; lia].
  - symmetry in Hx. apply app_eq_nil in Hx as [-> ->]. exists (Rfd [] (tail (rd_plan s)) []).
    split; [done|exact (on_tail s _ [] Hon)].
Qed.

Lemma must_read_on s d r n : on s (d ++ r) → zlen d = n →
  ∃ s', must_read n s = (Ok d, s') ∧ on s' r.
Proof.
  intros Hon Hd. destruct (read_exact_on s d r n Hon Hd) as (s' & E & Hs').
  exists s'. unfold must_read. by mstep E.
Qed.

(** ** Items *)
Lemma cbor_read_head_on s m v r : 0 ≤ m < 8 → 0 ≤ v < 2 ^ 64 → on s (head_bytes m v ++ r) →
  ∃ s', cbor_read_head s = (Ok (m, v), s') ∧ on s' r.
Proof.
  intros Hm Hv. unfold head_bytes. cbv zeta.
  destruct (Z.ltb_spec v 24); [|destruct (Z.leb_spec v 0xFF);
    [|destruct (Z.leb_spec v 0xFFFF); [|destruct (Z.leb_spec v 0xFFFFFFFF)]]]; cbn [app]; intros Hon.
  all: match type of Hon with on _ (?b :: ?l) =>
    destruct (read_exact_on s [b] l 1 Hon eq_refl) as (s1 & E1 & Hs1) end.
  all: match type of Hon with on _ (z2b (Z.lor _ ?x) :: _) =>
    assert (Hx : 0 ≤ x < 32) by (unfold u8; rewrite ?Z.mod_small; lia);
    destruct (head_byte_split m x Hm Hx) as [Ea Eb] end.
  all: unfold cbor_read_head; mstep E1; cbn [Z.eqb Z.ltb Z.compare]; cbv iota;
    match goal with |- context [bi [?b] 0] => change (bi [b] 0) with (b2z b) end; rewrite Ea, Eb.
  - assert (Hu : u8 v = v) by (apply Z.mod_small; lia). rewrite Hu. destruct (Z.ltb_spec v 24); [|lia]. by exists s1.
  - destruct (must_read_on s1 [z2b v] r 1 Hs1 eq_refl) as (s2 & E2 & Hs2).
    zconst. mstep E2. exists s2. unfold bi; cbn [nth]. by rewrite b2z_byte by lia.
  - unfold be16 in *. destruct (must_read_on s1 _ r 2 Hs1 eq_refl) as (s2 & E2 & Hs2).
    zconst. mstep E2. exists s2. unfold bi; cbn [nth]. by rewrite be16_bytes by lia.
  - unfold be32 in *. destruct (must_read_on s1 _ r 4 Hs1 eq_refl) as (s2 & E2 & Hs2).
    zconst. mstep E2. exists s2. unfold bi; cbn [nth]. by rewrite be32_bytes by lia.
  - unfold be64 in *. destruct (must_read_on s1 _ r 8 Hs1 eq_refl) as (s2 & E2 & Hs2).
    zconst. mstep E2. exists s2. unfold bi; cbn [nth]. by rewrite be64_bytes by lia.
Qed.

Lemma cbor_read_typed_on s m v r : 0 ≤ m < 8 → 0 ≤ v < 2 ^ 64 → on s (head_bytes m v ++ r) →
  ∃ s', cbor_read_typed m s = (Ok v, s') ∧ on s' r.
Proof.
  intros Hm Hv Hon. destruct (cbor_read_head_on s m v r Hm Hv Hon) as (s' & E & Hs').
  exists s'. unfold cbor_read_typed. mstep E. by rewrite Z.eqb_refl.
Qed.

Lemma cbor_read_text_on s t r cap : zlen t < cap → zlen t < 2 ^ 63 → on s (text_bytes t ++ r) →
  ∃ s', cbor_read_text cap s = (Ok t, s') ∧ on s' r.
Proof.
  intros Hc Ht Hon. unfold text_bytes in Hon. rewrite <- app_assoc in Hon.
  pose proof (zlen_nonneg t).
  destruct (cbor_read_typed_on s 3 (zlen t) _ ltac:(lia) ltac:(lia) Hon) as (s1 & E1 & Hs1).
  unfold cbor_read_text. mstep E1. destruct (Z.geb_spec (zlen t) cap); [lia|].
  destruct (Z.gtb_spec (zlen t) 0).
  - by apply must_read_on.
  - assert (t = []) as -> by (destruct t; [done|unfold zlen in *; simpl in *; lia]). by exists s1.
Qed.

(** ** Termination: no loop runs out of fuel *)

(** The call does not run out of fuel and reads forward; [strict] when it must
    have read something to succeed. *)
Definition forward_from {A} (strict : bool) (m : MR A) (s : rfd) : Prop :=
  match m s with
  | (Ok _, s') => (length (rd_rest s') + (if strict then 1 else 0) ≤ length (rd_rest s))%nat
  | (Err e, s') => e ≠ FUEL ∧ (length (rd_rest s') ≤ length (rd_rest s))%nat
  | (Panic, s') => (length (rd_rest s') ≤ length (rd_rest s))%nat
  end.
Definition forward {A} (strict : bool) (m : MR A) : Prop := ∀ s, forward_from strict m s.

(** The same for inputs shorter than [n], the fuel of a loop. *)
Definition forward_below {A} (n : nat) (strict : bool) (m : MR A) : Prop :=
  ∀ s, (length (rd_rest s) < n)%nat → forward_from strict m s.

Lemma read_loop_forward fuel s need done : (length (rd_plan s) + length (rd_rest s) < fuel)%nat →
  match read_loop fuel need done s with
  | (Ok (r, _), s') => (length (rd_rest s') ≤ length (rd_rest s))%nat ∧
      (0 < r → Z.of_nat (length (rd_rest s')) + Z.max 0 need ≤ Z.of_nat (length (rd_rest s)))
  | _ => False
  end.
Proof.
  revert s need done. induction fuel as [|f IH]; intros s need done Hf; [lia|]. cbn [read_loop].
  destruct (Z.leb_spec need 0); [simpl; lia|]. unfold mbind, M_bind, u_read.
  assert (Hgot : ∀ m p, 0 < m ≤ need → (length p ≤ length (rd_plan s))%nat →
    match (match RdGot (take (Z.to_nat m) (rd_rest s)) with
      | RdError => mret (-1, done) | RdEintr => read_loop f need done
      | RdGot [] => mret (match done with [] => 0 | _ => -1 end, done)
      | RdGot d => read_loop f (need - zlen d) (done ++ d) end)
      (Rfd (drop (Z.to_nat m) (rd_rest s)) p (rd_oom s)) with
    | (Ok (r, _), s') => (length (rd_rest s') ≤ length (rd_rest s))%nat ∧
      (0 < r → Z.of_nat (length (rd_rest s')) + Z.max 0 need ≤ Z.of_nat (length (rd_rest s)))
    | _ => False end).
  { intros m p Hm Hp. pose proof (take_drop (Z.to_nat m) (rd_rest s)) as Ht.
    apply (f_equal length) in Ht. rewrite length_app in Ht. destruct (take _ _) as [|b x] eqn:Ex.
    - simpl. split; [rewrite length_drop; lia|]. destruct done; lia.
    - specialize (IH (Rfd (drop (Z.to_nat m) (rd_rest s)) p (rd_oom s)) (need - zlen (b :: x)) (done ++ b :: x)).
      simpl in IH, Ht. destruct (read_loop _ _ _ _) as [[[r d]|e|] s']; [|by apply IH; lia..].
      destruct IH as [IH1 IH2]; [lia|]. split; [lia|]. intros Hr. specialize (IH2 Hr).
      unfold zlen in *; simpl length in *. lia. }
  destruct (rd_plan s) as [|[m| |] p] eqn:Ep; [apply Hgot; [lia|done]|apply Hgot; [lia|simpl; lia]| |simpl; lia].
  specialize (IH (Rfd (rd_rest s) p (rd_oom s)) need done). simpl in IH. apply IH. simpl in Hf. lia.
Qed.

Lemma must_read_forward n : 0 < n → forward true (must_read n).
Proof.
  intros Hn s. unfold forward_from, must_read, read_exact, mbind, M_bind.
  pose proof (read_loop_forward (length (rd_plan s) + length (rd_rest s) + 1) s n [] ltac:(lia)) as Hr.
  destruct (read_loop _ _ _ s) as [[[r d]|e|] s']; [|done..]. destruct Hr as [Hr1 Hr2].
  destruct (Z.leb_spec r 0); [by simpl; split|]. simpl. specialize (Hr2 ltac:(lia)). lia.
Qed.

Lemma forward_weaken {A} b (m : MR A) : forward b m → forward false m.
Proof. intros Hm s. specialize (Hm s). unfold forward_from in *. destruct (m s) as [[] ?], b; lia || done. Qed.

Lemma forward_ret {A} (a : A) : forward false (mret a : MR A).
Proof. intros s. unfold forward_from; simpl. lia. Qed.

Lemma forward_throw {A} b e : e ≠ FUEL → forward b (throw e : MR A).
Proof. intros He s. unfold forward_from; simpl. by split. Qed.

Lemma forward_panic {A} b : forward b (panic : MR A).
Proof. intros s. unfold forward_from; simpl. lia. Qed.

Lemma forward_bind {A B} b1 b2 (m : MR A) (f : A → MR B) :
  forward b1 m → (∀ a, forward b2 (f a)) → forward (b1 || b2) (m ≫= f).
Proof.
  intros Hm Hf s. specialize (Hm s). unfold forward_from in *. unfold mbind, M_bind. destruct (m s) as [[a|e|] s']; [|done..].
  specialize (Hf a s'). unfold forward_from in Hf. destruct (f a s') as [[] ?]; [|destruct b1; lia..].
  destruct b1, b2; simpl in *; lia.
Qed.

(** The first call reads something. *)
Lemma forward_bind_l {A B} (m : MR A) (f : A → MR B) :
  forward true m → (∀ a, forward false (f a)) → forward true (m ≫= f).
Proof. apply (forward_bind true false). Qed.

Lemma forward_bind_any {A B} (m : MR A) (f : A → MR B) :
  forward false m → (∀ a, forward false (f a)) → forward false (m ≫= f).
Proof. apply (forward_bind false false). Qed.

Lemma forward_malloc : forward false r_malloc.
Proof. intros s. unfold forward_from, r_malloc. destruct (rd_oom s); simpl; lia. Qed.

Lemma cbor_read_head_forward : forward true cbor_read_head.
Proof.
  intros s. unfold forward_from, cbor_read_head, read_exact. unfold mbind at 1, M_bind at 1.
  pose proof (read_loop_forward (length (rd_plan s) + length (rd_rest s) + 1) s 1 [] ltac:(lia)) as Hr.
  destruct (read_loop _ _ _ s) as [[[r d]|e|] s']; [|done..]. destruct Hr as [Hr1 Hr2].
  destruct (Z.eqb_spec r 0); [simpl; by split|]. destruct (Z.ltb_spec r 0); [simpl; by split|].
  specialize (Hr2 ltac:(lia)). cbv zeta.
  match goal with |- match ?m s' with _ => _ end => assert (Hm : forward false m) end.
  { repeat (match goal with |- forward _ (if ?b then _ else _) => destruct b end);
      try apply forward_ret; try (by apply forward_throw).
    all: apply forward_bind_any; [apply (forward_weaken true), must_read_forward; lia|intros; apply forward_ret]. }
  specialize (Hm s'). unfold forward_from in Hm. match goal with |- match ?m with _ => _ end => destruct m as [[] ?] end; lia.
Qed.

Lemma cbor_read_typed_forward m : forward true (cbor_read_typed m).
Proof.
  apply forward_bind_l; [apply cbor_read_head_forward|]. intros [m' v].
  destruct (negb _); [by apply forward_throw|apply forward_ret].
Qed.

Lemma cbor_read_text_forward cap : forward true (cbor_read_text cap).
Proof.
  apply forward_bind_l; [apply cbor_read_typed_forward|]. intros v.
  destruct (_ >=? _); [by apply forward_throw|]. destruct (Z.gtb_spec v 0); [|apply forward_ret].
  by apply (forward_weaken true), must_read_forward.
Qed.

Lemma forward_at {A} n b (m : MR A) : forward b m → forward_below n b m.
Proof. intros Hm s _. apply Hm. Qed.

Lemma forward_le {A} n k b (m : MR A) : (k ≤ n)%nat → forward_below n b m → forward_below k b m.
Proof. intros Hle Hm s Hs. apply Hm. lia. Qed.

(** After a call that read something, less fuel is enough. *)
Lemma below_bind {A B} n (m : MR A) (f : A → MR B) :
  forward_below (S n) true m → (∀ a, forward_below n false (f a)) → forward_below (S n) true (m ≫= f).
Proof.
  intros Hm Hf s Hs. specialize (Hm s Hs). unfold forward_from, mbind, M_bind in *.
  destruct (m s) as [[a|e|] s']; [|done..]. specialize (Hf a s' ltac:(lia)). unfold forward_from in Hf.
  destruct (f a s') as [[] ?]; lia.
Qed.

Lemma below_weaken {A} n (m : MR A) : forward_below n true m → forward_below n false m.
Proof.
  intros Hm s Hs. specialize (Hm s Hs). unfold forward_from in *. destruct (m s) as [[] ?]; lia || done.
Qed.

Lemma skip_bytes_below f val : forward_below f false (skip_bytes f val).
Proof.
  revert val. induction f as [|f IH]; intros val; [intros s Hs; lia|]. cbn [skip_bytes].
  destruct (Z.leb_spec val 0); [apply forward_at, forward_ret|]. cbv zeta.
  apply below_weaken, below_bind; [|done]. apply forward_at, must_read_forward.
  destruct (Z.ltb_spec val 256); lia.
Qed.

Lemma repeat_m_below f n body : forward_below f true body → forward_below f false (repeat_m f n body).
Proof.
  revert n. induction f as [|f IH]; intros n Hb; [intros s Hs; lia|]. cbn [repeat_m].
  destruct (Z.leb_spec n 0); [apply forward_at, forward_ret|].
  apply below_weaken, below_bind; [done|]. intros _. apply IH. apply (forward_le (S f)); [lia|done].
Qed.

Lemma iter_m_below {A} f n (body : A → MR A) a : (∀ a, forward_below f true (body a)) →
  forward_below f false (iter_m f n body a).
Proof.
  revert n a. induction f as [|f IH]; intros n a Hb; [intros s Hs; lia|]. cbn [iter_m].
  destruct (Z.leb_spec n 0); [apply forward_at, forward_ret|].
  apply below_weaken, below_bind; [done|]. intros a'. apply IH. intros a2. apply (forward_le (S f)); [lia|done].
Qed.

Lemma or_malformed_below n b m : forward_below n b m → forward_below n b (or_malformed m).
Proof.
  intros Hm s Hs. specialize (Hm s Hs). unfold forward_from, or_malformed in *.
  destruct (m s) as [[|e|] s']; [done| |done]. destruct Hm as [He Hm]. split; [|done].
  by destruct (Z.eqb_spec e FUEL).
Qed.

Lemma below_bind_same {A B} n (m : MR A) (f : A → MR B) :
  forward_below n true m → (∀ a, forward_below n false (f a)) → forward_below n true (m ≫= f).
Proof.
  intros Hm Hf s Hs. specialize (Hm s Hs). unfold forward_from, mbind, M_bind in *.
  destruct (m s) as [[a|e|] s']; [|done..]. specialize (Hf a s' ltac:(lia)). unfold forward_from in Hf.
  destruct (f a s') as [[] ?]; lia.
Qed.

Lemma cbor_skip_below f : forward_below f true (cbor_skip_fuel f).
Proof.
  induction f as [|f IH]; [intros s Hs; lia|]. cbn [cbor_skip_fuel].
  apply below_bind; [apply forward_at, cbor_read_head_forward|]. intros [major val].
  repeat match goal with |- forward_below _ _ (if ?b then _ else _) => destruct b end.
  - apply forward_at, forward_ret.
  - apply skip_bytes_below.
  - by apply repeat_m_below, or_malformed_below.
  - apply repeat_m_below, below_bind_same; [by apply or_malformed_below|].
    intros _. by apply below_weaken, or_malformed_below.
  - by apply forward_at, forward_throw.
Qed.

Lemma cbor_skip_forward : forward true cbor_skip.
Proof. intros s. apply (cbor_skip_below (S (length (rd_rest s)))). lia. Qed.

(** Close a [forward] goal on straight-line code. *)
Ltac fwd :=
  repeat match goal with
  | |- forward true (cbor_read_uint ≫= _) => apply forward_bind_l; [apply cbor_read_typed_forward|intros ?]
  | |- forward false (_ ≫= _) => apply forward_bind_any; [|intros ?]
  | |- forward _ (if ?b then _ else _) => destruct b eqn:?
  | |- forward false (mret _) => apply forward_ret
  | |- forward _ (throw _) => by apply forward_throw
  | |- forward _ panic => apply forward_panic
  | |- forward false r_malloc => apply forward_malloc
  | |- forward false cbor_skip => apply (forward_weaken true), cbor_skip_forward
  | |- forward false cbor_read_uint => apply (forward_weaken true), cbor_read_typed_forward
  | |- forward false cbor_read_bytes_hdr => apply (forward_weaken true), cbor_read_typed_forward
  | |- forward false (cbor_read_text _) => apply (forward_weaken true), cbor_read_text_forward
  | H : (?n >? 0) = true |- forward false (must_read ?n) =>
      apply (forward_weaken true), must_read_forward; lia
  end.

Lemma read_hdr_key_forward h : forward true (read_hdr_key h).
Proof. unfold read_hdr_key. fwd. Qed.

Lemma read_entry_key_forward v : forward true (read_entry_key v).
Proof. unfold read_entry_key. fwd. Qed.

Section Term.
Context `{LZ4Ops}.

Lemma report_entry_forward bs v : forward false (report_entry bs v).
Proof. unfold report_entry, report_of. cbv zeta. repeat case_match; fwd. Qed.

Lemma read_entries_below f bs cap acc : forward_below f false (read_entries f bs cap acc).
Proof.
  revert cap acc. induction f as [|f IH]; intros cap acc; [intros s Hs; lia|]. intros s Hs. cbn [read_entries].
  assert (Hb : forward_below (S f) true ('(major, n) ← cbor_read_head;
     if negb (major =? 5) then throw (-2) else
     v ← iter_m f n read_entry_key (ev0 cap); report_entry bs v)).
  { apply below_bind; [apply forward_at, cbor_read_head_forward|]. intros [major n].
    destruct (negb _); [by apply forward_at, forward_throw|].
    intros s1 Hs1. pose proof (iter_m_below f n read_entry_key (ev0 cap)
      ltac:(intros; apply forward_at, read_entry_key_forward) s1 Hs1) as Hi.
    unfold forward_from, mbind, M_bind in *. destruct (iter_m _ _ _ _ _) as [[v|e|] s2]; [|done..].
    pose proof (report_entry_forward bs v s2) as Hr. unfold forward_from in Hr.
    destruct (report_entry bs v s2) as [[] ?]; lia. }
  specialize (Hb s Hs). unfold forward_from in *. unfold mbind at 1, M_bind at 1, try.
  destruct (('(major, n) ← cbor_read_head; _) s) as [[[x cap']|e|] s1]; [| |done].
  - specialize (IH cap' (acc ++ [x]) s1 ltac:(lia)). unfold forward_from in IH.
    destruct (read_entries _ _ _ _ _) as [[] ?]; lia.
  - destruct Hb as [He Hb]. destruct (Z.eqb_spec e FUEL); [done|]. simpl. lia.
Qed.

Lemma cmd_log_forward s : forward_from false cmd_log_cbor s.
Proof.
  set (f := S (length (rd_rest s))).
  assert (Hb : forward_below f true (n ← cbor_read_map;
     h ← iter_m f n read_hdr_key (LogHdr 0 4096 [] 0 []);
     rs ← read_entries f (h_block_size h) 0 []; mret (h, rs))).
  { apply below_bind_same; [apply forward_at, cbor_read_typed_forward|]. intros n s1 Hs1.
    pose proof (iter_m_below f n read_hdr_key (LogHdr 0 4096 [] 0 [])
      ltac:(intros; apply forward_at, read_hdr_key_forward) s1 Hs1) as Hi.
    unfold forward_from, mbind, M_bind in *. destruct (iter_m _ _ _ _ _) as [[h|e|] s2]; [|done..].
    pose proof (read_entries_below f (h_block_size h) 0 [] s2 ltac:(lia)) as Hr. unfold forward_from in Hr.
    destruct (read_entries _ _ _ _ _) as [[] ?]; simpl; lia. }
  specialize (Hb s ltac:(unfold f; lia)). unfold forward_from, cmd_log_cbor in *. cbv zeta. fold f.
  destruct ((n ← cbor_read_map; _) s) as [[|e|] s1]; [lia| |done]. destruct Hb as [He Hb].
  destruct (Z.eqb_spec e FUEL); [done|]. split; [done|lia].
Qed.
End Term.

(** ** Reading back a segment *)
Lemma kv_on s k v r : on s (kv_bytes k v ++ r) → 0 ≤ k < 2 ^ 64 → 0 ≤ v < 2 ^ 64 →
  ∃ s1 s2, cbor_read_uint s = (Ok k, s1) ∧ cbor_read_uint s1 = (Ok v, s2) ∧ on s2 r.
Proof.
  intros Hon Hk Hv. unfold kv_bytes in Hon. rewrite <- app_assoc in Hon.
  destruct (cbor_read_typed_on s 0 k _ ltac:(lia) Hk Hon) as (s1 & E1 & H1).
  destruct (cbor_read_typed_on s1 0 v _ ltac:(lia) Hv H1) as (s2 & E2 & H2). by exists s1, s2.
Qed.

Lemma kt_on s k t r cap : on s (kt_bytes k t ++ r) → 0 ≤ k < 2 ^ 64 → zlen t < cap →
  zlen t < 2 ^ 63 →
  ∃ s1 s2, cbor_read_uint s = (Ok k, s1) ∧ cbor_read_text cap s1 = (Ok t, s2) ∧ on s2 r.
Proof.
  intros Hon Hk Hc Ht. unfold kt_bytes in Hon. rewrite <- app_assoc in Hon.
  destruct (cbor_read_typed_on s 0 k _ ltac:(lia) Hk Hon) as (s1 & E1 & H1).
  destruct (cbor_read_text_on s1 t _ cap Hc Ht H1) as (s2 & E2 & H2). by exists s1, s2.
Qed.

Lemma iter_m_step {A} f n (body : A → MR A) a s a' s' : 0 < n → body a s = (Ok a', s') →
  iter_m (S f) n body a s = iter_m f (n - 1) body a' s'.
Proof.
  intros Hn E. cbn [iter_m]. destruct (Z.leb_spec n 0); [lia|]. by rewrite (bind_ok _ _ _ _ _ E).
Qed.

(** Run one key of a map on the bytes the descriptor stands on. *)
Ltac map_kv H s1 :=
  let m := fresh "sm" in let E1 := fresh "E" in let E2 := fresh "E" in let H' := fresh "H" in
  destruct (kv_on _ _ _ _ H ltac:(lia) ltac:(lia)) as (m & s1 & E1 & E2 & H');
  erewrite iter_m_step; [|lia|
    match goal with |- ?f _ _ = _ => unfold f end; mstep E1; zconst; mstep E2; reflexivity];
  clear H E1 E2; rename H' into H;
  cbn [e_op e_ts e_seq e_block e_length e_checksum e_data e_cap
       h_version h_block_size h_label h_device_size h_path].
Ltac map_kt H cap s1 :=
  let m := fresh "sm" in let E1 := fresh "E" in let E2 := fresh "E" in let H' := fresh "H" in
  destruct (kt_on _ _ _ _ cap H ltac:(lia)
    ltac:(unfold LBD_LOG_PATH_MAX in *; first [lia | vm_compute; reflexivity])
    ltac:(unfold LBD_LOG_PATH_MAX in *; first [lia | vm_compute; reflexivity]))
    as (m & s1 & E1 & E2 & H');
  erewrite iter_m_step; [|lia|
    match goal with |- ?f _ _ = _ => unfold f end; mstep E1; zconst; mstep E2; reflexivity];
  clear H E1 E2; rename H' into H;
  cbn [e_op e_ts e_seq e_block e_length e_checksum e_data e_cap
       h_version h_block_size h_label h_device_size h_path].

Lemma read_header_on f s label size path r :
  zlen label < 32 → 0 ≤ size < 2 ^ 64 → zlen path < LBD_LOG_PATH_MAX → (5 ≤ f)%nat →
  on s (log_header_bytes label size path ++ r) →
  ∃ s1 s2, cbor_read_map s = (Ok 5, s1) ∧
    iter_m f 5 read_hdr_key (LogHdr 0 4096 [] 0 []) s1 = (Ok (LogHdr 2 4096 label size path), s2) ∧ on s2 r.
Proof.
  intros Hl Hs Hp Hf Hon. unfold log_header_bytes in Hon. rewrite <- !app_assoc in Hon.
  destruct (cbor_read_typed_on s 5 5 _ ltac:(lia) ltac:(lia) Hon) as (s0 & E0 & H0).
  exists s0. do 5 (destruct f as [|f]; [lia|]).
  map_kv H0 s1. map_kv H0 s2. map_kt H0 32 s3. map_kv H0 s4. map_kt H0 LBD_LOG_PATH_MAX s5.
  exists s5. split_and!; [done| |done]. by destruct f.
Qed.

Section RoundTrip.
Context `{HZ : LZ4Laws}.

(** The values of an entry are in range, and its data decompresses to what the
    checksum was computed from. *)
Definition entry_ok (e : log_entry) : Prop :=
  match e with
  | LWrite ts seq block len crc comp =>
      0 ≤ ts < 2 ^ 64 ∧ 0 ≤ seq < 2 ^ 64 ∧ 0 ≤ block < 2 ^ 64 ∧ 0 < len < 2 ^ 31 ∧
      0 < zlen comp < 2 ^ 63 ∧
      ∃ d, LZ4_decompress_safe comp len = Some d ∧ crc32_calc d = crc
  | LTrim ts seq block len =>
      0 ≤ ts < 2 ^ 64 ∧ 0 ≤ seq < 2 ^ 64 ∧ 0 ≤ block < 2 ^ 64 ∧ 0 ≤ len < 2 ^ 32
  end.

(** What the listing must show for an entry, for a block size [bs]. *)
Definition show_entry (bs : Z) (e : log_entry) : report :=
  match e with
  | LWrite ts seq block len crc comp =>
      Report false seq ts block (u64 (block + len / bs - 1)) (u64 (block * bs)) len
        (Some (zlen comp)) (Some (crc, true)) (LZ4_decompress_safe comp len)
  | LTrim ts seq block len =>
      Report true seq ts block (u64 (block + len / bs - 1)) (u64 (block * bs)) len None None None
  end.

Lemma data_key_on f n s v comp r : 0 < n → 0 < zlen comp < 2 ^ 63 →
  on s (head_bytes 0 7 ++ head_bytes 2 (zlen comp) ++ comp ++ r) →
  ∃ s', iter_m (S f) n read_entry_key v s =
    iter_m f (n - 1) read_entry_key (EV (e_op v) (e_ts v) (e_seq v) (e_block v) (e_length v)
      (e_checksum v) (Some comp) (Z.max (zlen comp) (e_cap v))) s' ∧ on s' r.
Proof.
  intros Hn Hc Hon.
  destruct (cbor_read_typed_on s 0 7 _ ltac:(lia) ltac:(lia) Hon) as (s1 & E1 & H1).
  destruct (cbor_read_typed_on s1 2 (zlen comp) _ ltac:(lia) ltac:(lia) H1) as (s2 & E2 & H2).
  destruct (must_read_on s2 comp r (zlen comp) H2 eq_refl) as (s3 & E3 & H3).
  exists s3. split; [|done]. apply iter_m_step; [done|]. unfold read_entry_key. mstep E1. zconst. mstep E2.
  assert (Ea : (if zlen comp >? e_cap v then r_malloc else mret true) s2 = (Ok true, s2)).
  { destruct (_ >? _); [|done]. unfold r_malloc. by rewrite (on_oom _ _ H2). }
  mstep Ea. cbn [negb]. cbv iota. destruct (Z.gtb_spec (zlen comp) 0); [|lia]. by mstep E3.
Qed.

(** The map of a write entry fills the variables of the loop. *)
Lemma read_write_vars f s cap ts seq block len crc comp r :
  entry_ok (LWrite ts seq block len crc comp) → (7 ≤ f)%nat →
  on s (write_head ts seq block len crc (zlen comp) ++ comp ++ r) →
  ∃ s1 s', cbor_read_head s = (Ok (5, 7), s1) ∧
    iter_m f 7 read_entry_key (ev0 cap) s1 =
      (Ok (EV x57 ts seq block len (Some crc) (Some comp) (Z.max (zlen comp) cap)), s') ∧ on s' r.
Proof.
  intros (Hts & Hseq & Hblk & Hlen & Hcomp & d & Hd & Hcrc) Hf Hon.
  assert (Hc32 : 0 ≤ crc < 2 ^ 32) by (subst crc; apply crc32_calc_range).
  unfold write_head in Hon. rewrite <- !app_assoc in Hon.
  destruct (cbor_read_head_on s 5 7 _ ltac:(lia) ltac:(lia) Hon) as (s0 & E0 & H0).
  exists s0. do 7 (destruct f as [|f]; [lia|]). unfold ev0.
  map_kt H0 4 s1. map_kv H0 s2. map_kv H0 s3. map_kv H0 s4. map_kv H0 s5. map_kv H0 s6.
  match goal with |- context [iter_m (S f) ?n _ ?v _] =>
    destruct (data_key_on f n s6 v comp r ltac:(lia) Hcomp H0) as (s7 & E7 & H7) end.
  exists s7. rewrite E7. split_and!; [done| |done]. rewrite !u32_small by lia. by destruct f.
Qed.

Lemma read_trim_vars f s cap ts seq block len r : entry_ok (LTrim ts seq block len) → (7 ≤ f)%nat →
  on s (trim_bytes ts seq block len ++ r) →
  ∃ s1 s', cbor_read_head s = (Ok (5, 5), s1) ∧
    iter_m f 5 read_entry_key (ev0 cap) s1 = (Ok (EV x54 ts seq block len None None cap), s') ∧ on s' r.
Proof.
  intros (Hts & Hseq & Hblk & Hlen) Hf Hon. unfold trim_bytes in Hon. rewrite <- !app_assoc in Hon.
  destruct (cbor_read_head_on s 5 5 _ ltac:(lia) ltac:(lia) Hon) as (s0 & E0 & H0).
  exists s0. do 7 (destruct f as [|f]; [lia|]). unfold ev0.
  map_kt H0 4 s1. map_kv H0 s2. map_kv H0 s3. map_kv H0 s4. map_kv H0 s5.
  exists s5. split_and!; [done| |done]. rewrite !u32_small by lia. done.
Qed.

Lemma report_write_on bs s r ts seq block len crc comp cap :
  entry_ok (LWrite ts seq block len crc comp) → bs ≠ 0 → on s r →
  ∃ cap', report_entry bs (EV x57 ts seq block len (Some crc) (Some comp) cap) s =
    (Ok (show_entry bs (LWrite ts seq block len crc comp), cap'), s).
Proof.
  intros (_ & _ & _ & Hlen & Hcomp & d & Hd & Hcrc) Hbs Hs. unfold report_entry.
  cbn [e_data e_length e_cap].
  destruct (Z.gtb_spec len 0); [|lia]. destruct (Z.gtb_spec (zlen comp) 0) as [Hz|]; [|lia]. cbn [andb].
  assert (Em : r_malloc s = (Ok true, s)) by (unfold r_malloc; by rewrite (on_oom _ _ Hs)).
  mstep Em. cbn [negb]. cbv iota. rewrite s32_small, Hd by lia.
  assert (Ea : (if len >? cap then r_malloc else mret true) s = (Ok true, s)) by (by destruct (_ >? _)).
  mstep Ea. cbn [negb]. cbv iota. eexists. unfold report_of.
  destruct (Z.eqb_spec bs 0); [done|]. cbn [e_data e_checksum e_op e_seq e_ts e_block e_length].
  destruct (Z.gtb_spec (zlen comp) 0); [|lia]. subst crc. rewrite Z.eqb_refl. unfold show_entry. by rewrite Hd.
Qed.

Lemma read_entry_on f bs s cap e r : entry_ok e → bs ≠ 0 → (7 ≤ f)%nat → on s (entry_bytes e ++ r) →
  ∃ s' cap', ('(major, n) ← cbor_read_head;
     if negb (major =? 5) then throw (-2) else
     v ← iter_m f n read_entry_key (ev0 cap); report_entry bs v) s = (Ok (show_entry bs e, cap'), s') ∧ on s' r.
Proof.
  intros He Hbs Hf Hon. destruct e as [ts seq block len crc comp|ts seq block len]; cbn [entry_bytes] in Hon.
  - rewrite <- app_assoc in Hon.
    destruct (read_write_vars f s cap ts seq block len crc comp r He Hf Hon) as (s0 & s' & E0 & E & Hs').
    mstep E0. cbn [Z.eqb Pos.eqb negb]. cbv iota. mstep E.
    destruct (report_write_on bs s' r ts seq block len crc comp (Z.max (zlen comp) cap) He Hbs Hs') as [cap' Er].
    by exists s', cap'.
  - destruct (read_trim_vars f s cap ts seq block len r He Hf Hon) as (s0 & s' & E0 & E & Hs').
    mstep E0. cbn [Z.eqb Pos.eqb negb]. cbv iota. mstep E. exists s', cap. split; [|done].
    unfold report_entry, report_of. cbn [e_data]. by destruct (Z.eqb_spec bs 0).
Qed.

Lemma length_entry_bytes e : entry_ok e → (7 < length (entry_bytes e))%nat.
Proof.
  intros He. assert (Hh : ∀ m v, 0 ≤ v → (1 ≤ length (head_bytes m v))%nat).
  { intros m v Hv. pose proof (length_head_bytes m v Hv). unfold zlen in *. lia. }
  destruct e as [ts seq block len crc comp|ts seq block len]; simpl in He;
    unfold entry_bytes, write_head, trim_bytes, kt_bytes, kv_bytes; rewrite !length_app.
  - destruct He as (? & ? & ? & ? & ? & d & Hd & <-). pose proof (crc32_calc_range d).
    pose proof (Hh 0 ts). pose proof (Hh 0 seq). pose proof (Hh 0 block). simpl; lia.
  - pose proof (Hh 0 ts). pose proof (Hh 0 seq). pose proof (Hh 0 block). simpl; lia.
Qed.

Lemma read_entries_on f bs s cap acc es : Forall entry_ok es → bs ≠ 0 →
  (length (concat (entry_bytes <$> es)) < f)%nat → on s (concat (entry_bytes <$> es)) →
  ∃ s', read_entries f bs cap acc s = (Ok (acc ++ (show_entry bs <$> es)), s').
Proof.
  intros Hes Hbs. revert f s cap acc. induction Hes as [|e es He Hes IH]; intros f s cap acc Hf Hon.
  - destruct f as [|f]; [simpl in Hf; lia|]. cbn [read_entries]. cbn in Hon.
    destruct (read_exact_eof s 1 Hon ltac:(lia)) as (s1 & E & Hs1).
    assert (Eh : cbor_read_head s = (Err (-1), s1)) by (unfold cbor_read_head; by mstep E).
    exists s1. rewrite (bind_ok _ _ _ _ _ (try_err _ _ _ _ (bind_err _ _ _ _ _ Eh))).
    cbn [fmap list_fmap]. by rewrite app_nil_r.
  - cbn [fmap list_fmap concat] in Hf, Hon. rewrite length_app in Hf.
    pose proof (length_entry_bytes e He). destruct f as [|f]; [lia|]. cbn [read_entries].
    destruct (read_entry_on f bs s cap e _ He Hbs ltac:(lia) Hon) as (s1 & cap' & E & Hs1).
    rewrite (bind_ok _ _ _ _ _ (try_ok _ _ _ _ E)). cbn beta iota.
    destruct (IH f s1 cap' (acc ++ [show_entry bs e]) ltac:(unfold fmap in *; lia) Hs1) as (s' & E').
    exists s'. rewrite E'. by rewrite <- app_assoc.
Qed.

(** [lbdctl log] on a segment lists its header and every entry. *)
Lemma cmd_log_on s label size path es :
  zlen label < 32 → 0 ≤ size < 2 ^ 64 → zlen path < LBD_LOG_PATH_MAX → Forall entry_ok es →
  on s (log_header_bytes label size path ++ concat (entry_bytes <$> es)) →
  ∃ s', cmd_log_cbor s = (Ok (LogHdr 2 4096 label size path, show_entry 4096 <$> es), s').
Proof.
  intros Hl Hs Hp Hes Hon. unfold cmd_log_cbor. cbv zeta. rewrite (on_rest _ _ Hon).
  set (f := S (length (log_header_bytes _ _ _ ++ _))).
  assert (Hf : (5 ≤ f)%nat ∧ (length (concat (entry_bytes <$> es)) < f)%nat).
  { subst f. rewrite length_app. unfold log_header_bytes, kv_bytes. rewrite !length_app. simpl. lia. }
  destruct (read_header_on f s label size path _ Hl Hs Hp (proj1 Hf) Hon) as (s1 & s2 & E1 & E2 & H2).
  destruct (read_entries_on f 4096 s2 0 [] es Hes ltac:(lia) (proj2 Hf) H2) as (s3 & E3).
  exists s3. rewrite (bind_ok _ _ _ _ _ E1), (bind_ok _ _ _ _ _ E2). by rewrite (bind_ok _ _ _ _ _ E3).
Qed.
End RoundTrip.
