(* ===== verification/CtlLogTheorems.v ===== *)
(** * From the driver's log to the listing of [lbdctl log]

    End to end: what the driver logs, the tool lists, with the data of every
    write and its checksum verified; and the tool ends on every file. *)
From S2P Require Import Prelude Kernel Format Crc Cbor Qcow2State Qcow2Io Log LogProof Posix LogTheorems.
From S2P Require Import CtlLog CtlLogProof.

(** The line of the listing an operation must have. *)
Definition write_report `{LZ4Ops} (ts seq : Z) (rq : request) : report :=
  Report false seq ts (log_block (rq_pos rq))
    (u64 (log_block (rq_pos rq) + blk_rq_bytes rq / 4096 - 1)) (u64 (log_block (rq_pos rq) * 4096))
    (blk_rq_bytes rq) (Some (zlen (rq_comp rq))) (Some (crc32_calc (concat (rq_segs rq)), true))
    (Some (concat (rq_segs rq))).
Definition trim_report (ts seq pos n : Z) : report :=
  Report true seq ts (log_block pos) (u64 (log_block pos + u32 n / 4096 - 1)) (u64 (log_block pos * 4096))
    (u32 n) None None None.

(** The listing the operations must give, from sequence number [seq] on. *)
Fixpoint listed `{LZ4Ops} (seq : Z) (ops : list log_op) (rs : list report) : Prop :=
  match ops with
  | [] => rs = []
  | OpWrite rq :: ops' => ∃ ts rs', rs = write_report ts seq rq :: rs' ∧ listed (u64 (seq + 1)) ops' rs'
  | OpTrim pos n :: ops' => ∃ ts rs', rs = trim_report ts seq pos n :: rs' ∧ listed (u64 (seq + 1)) ops' rs'
  | OpRotate :: ops' => listed seq ops' rs
  end.

Section EndToEnd.
Context `{HZ : LZ4Laws}.

(** A logged write reads back as the data that was written. *)
Lemma write_entry_ok ts seq rq : 0 ≤ ts < 2 ^ 64 → 0 ≤ seq < 2 ^ 64 → rq_ok rq →
  entry_ok (write_entry ts seq rq) ∧ show_entry 4096 (write_entry ts seq rq) = write_report ts seq rq.
Proof.
  intros Hts Hseq Hb. pose proof (rq_comp_ne rq Hb) as Hc. unfold rq_ok, MAX_RQ_BYTES in Hb. unfold write_entry, entry_ok, show_entry, write_report.
  rewrite (u32_small (blk_rq_bytes rq)) by lia.
  pose proof (zlen_rq_comp rq ltac:(unfold MAX_RQ_BYTES; lia)).
  pose proof (u64_range (Z.quot (s64 (rq_pos rq * 512)) LBD_BLOCK_SIZE)) as Hblk.
  fold (log_block (rq_pos rq)) in Hblk.
  assert (0 < zlen (rq_comp rq)) by (unfold zlen; destruct (rq_comp rq); [done|simpl; lia]).
  assert (Hd : LZ4_decompress_safe (rq_comp rq) (blk_rq_bytes rq) = Some (concat (rq_segs rq))).
  { apply lz4_roundtrip; [done|]. unfold blk_rq_bytes in *. lia. }
  split; [|by rewrite Hd]. split_and!; try lia. eexists. by split.
Qed.

Lemma expected_listed seq ops es : 0 ≤ seq < 2 ^ 64 → Forall op_ok ops → expected seq ops es →
  Forall entry_ok es ∧ listed seq ops (show_entry 4096 <$> es).
Proof.
  intros Hseq Hops. revert seq es Hseq. induction Hops as [|op ops Hop Hops IH]; intros seq es Hseq Hx; simpl in Hx.
  { by subst es. }
  pose proof (u64_range (seq + 1)). destruct op as [rq|pos n|].
  - destruct Hx as (ts & es' & Hts & -> & Hx). destruct (IH (u64 (seq + 1)) es') as [H1 H2]; [lia|done|].
    destruct (write_entry_ok ts seq rq Hts Hseq Hop) as [He Hs].
    split; [by constructor|]. simpl. exists ts, (show_entry 4096 <$> es'). by rewrite <- Hs.
  - destruct Hx as (ts & es' & Hts & -> & Hx). destruct (IH (u64 (seq + 1)) es') as [H1 H2]; [lia|done|].
    split; [constructor; [|done]|simpl; by exists ts, (show_entry 4096 <$> es')].
    pose proof (u64_range (Z.quot (s64 (pos * 512)) LBD_BLOCK_SIZE)). pose proof (u32_range n).
    unfold entry_ok, log_block. lia.
  - by apply IH.
Qed.

Context {L : Type} `{HL : LogLaws L} `{HC : Crc32Laws}.

(** What the closed segments of a device list, for any sequence of operations. *)
Lemma listing_life (s : log_state L) ops : dev_ok s → Forall op_ok ops →
  ∃ s' (segs : list (bytes * list report)),
    (lbd_begin_segment;; log_run ops;; lbd_finalize_log) s = (Ok tt, s') ∧
    listed (log_seq s) ops (concat segs.*2) ∧ announced s s' segs ∧
    (NoDup segs.*1 → ∀ label rs, (label, rs) ∈ segs →
       ∃ c, l_content (lfs s') (final_name label) = Some c ∧
         ∀ fd, on fd c → ∃ fd', cmd_log_cbor fd =
           (Ok (LogHdr 2 4096 label (u64 (dev_size s)) (backing_path s), rs), fd')).
Proof.
  intros Hd Hops. destruct (log_life s ops Hd Hops) as (s' & hist & E & Hx & Ha & Hlab & Hf).
  destruct (expected_listed (log_seq s) ops _ (do_seq _ Hd) Hops Hx) as [Hok Hl].
  set (F := λ h : bytes * list log_entry, (h.1, show_entry 4096 <$> h.2)).
  assert (E1 : (F <$> hist).*1 = hist.*1) by (clear; induction hist as [|h hist IH]; [done|by cbn; rewrite IH]).
  exists s', (F <$> hist). split_and!; [done| |unfold announced; by rewrite E1|].
  - replace (concat _) with (show_entry 4096 <$> concat hist.*2); [done|].
    clear. induction hist as [|h hist IH]; [done|]. cbn. by rewrite fmap_app, IH.
  - rewrite E1. intros Hnd label rs Hin. apply list_elem_of_fmap in Hin as ([lb es] & [= -> ->] & Hin).
    eexists. split; [by apply Hf|]. intros fd Hon.
    rewrite list.Forall_forall in Hlab. specialize (Hlab _ Hin). simpl in Hlab.
    apply (cmd_log_on fd lb (u64 (dev_size s)) (backing_path s) es); [unfold zlen; lia| | | |done].
    + apply u64_range.
    + apply (do_path _ Hd).
    + rewrite list.Forall_forall in Hok |- *. intros e He. apply Hok.
      apply list_elem_of_In, in_concat. exists es. split; [|by apply list_elem_of_In].
      apply list_elem_of_In. by apply (list_elem_of_fmap_2' snd _ (lb, es)).
Qed.

(** C34: [lbdctl log] ends on every input: whatever the bytes of the file, the
    results of [read] and the allocations, no loop of the decoder (nested
    arrays and maps, huge lengths, the map and entry loops) runs forever. *)
Theorem log_reader_terminates fd :
  (cmd_log_cbor fd).1 ≠ Err FUEL ∧ (cbor_skip fd).1 ≠ Err FUEL.
Proof.
  pose proof (cmd_log_forward fd) as Hc. pose proof (cbor_skip_forward fd) as Hk.
  unfold forward_from in *. split.
  - destruct (cmd_log_cbor fd) as [[] ?]; simpl in *; [done| |done]. intros [= ->]. by destruct Hc.
  - destruct (cbor_skip fd) as [[] ?]; simpl in *; [done| |done]. intros [= ->]. by destruct Hk.
Qed.
End EndToEnd.

(** A log file whose header gives block size 0 makes the listing divide by
    zero at its first entry. *)
Theorem log_zero_block_size :
  (cmd_log_cbor (Rfd (head_bytes 5 1 ++ kv_bytes 2 0 ++ head_bytes 5 0) [] [])).1 = Panic.
Proof. vm_compute. reflexivity. Qed.
