(* ===== verification/CtlLogRange.v ===== *)
(** * The ranges of what [lbdctl log] decodes

    Whatever the file holds and however [read] behaves, the values of a listing
    fit the C types they are printed from. *)
From S2P Require Import Prelude Kernel Format Crc Cbor Qcow2State Log CtlLog.

(** Every value the call returns satisfies [P]. *)
Definition returns {A} (P : A → Prop) (m : MR A) : Prop := ∀ s,
  match m s with (Ok a, _) => P a | _ => True end.

Lemma returns_ret {A} (P : A → Prop) (a : A) : P a → returns P (mret a).
Proof. by intros Ha s. Qed.

Lemma returns_throw {A} (P : A → Prop) e : returns P (throw e).
Proof. by intros s. Qed.

Lemma returns_panic {A} (P : A → Prop) : returns P panic.
Proof. by intros s. Qed.

Lemma returns_bind {A B} (P : A → Prop) (Q : B → Prop) (m : MR A) (f : A → MR B) :
  returns P m → (∀ a, P a → returns Q (f a)) → returns Q (m ≫= f).
Proof.
  intros Hm Hf s. specialize (Hm s). unfold mbind, M_bind. destruct (m s) as [[a|e|] s']; [|done..].
  apply (Hf a Hm s').
Qed.

Lemma returns_any {A} (m : MR A) : returns (λ _, True) m.
Proof. intros s. by destruct (m s) as [[]]. Qed.

Lemma returns_weaken {A} (P Q : A → Prop) (m : MR A) : (∀ a, P a → Q a) → returns P m → returns Q m.
Proof. intros HPQ Hm s. specialize (Hm s). destruct (m s) as [[]]; auto. Qed.

Create HintDb returns.
#[export] Hint Resolve returns_throw returns_panic returns_any : returns.

(** ** Reading *)
Lemma read_loop_returns fuel : ∀ need done, 0 ≤ need →
  returns (λ x, 0 < x.1 → zlen x.2 = zlen done + need) (read_loop fuel need done).
Proof.
  induction fuel as [|f IH]; intros need done Hn s; cbn [read_loop]; destruct (Z.leb_spec need 0); cbn; try (intros; lia); try done.
  unfold mbind, M_bind, u_read.
  assert (Hgot : ∀ m p, 0 < m ≤ need →
    match (match RdGot (take (Z.to_nat m) (rd_rest s)) with
      | RdError => mret (-1, done) | RdEintr => read_loop f need done
      | RdGot [] => mret (match done with [] => 0 | _ => -1 end, done)
      | RdGot d => read_loop f (need - zlen d) (done ++ d) end)
      (Rfd (drop (Z.to_nat m) (rd_rest s)) p (rd_oom s)) with
    | (Ok x, _) => 0 < x.1 → zlen x.2 = zlen done + need
    | _ => True end).
  { intros m p Hm. pose proof (length_take (rd_rest s) (Z.to_nat m)) as Hl. destruct (take _ _) as [|b x].
    - cbn. destruct done; cbn; lia.
    - assert (zlen (b :: x) ≤ need) by (unfold zlen; lia).
      specialize (IH (need - zlen (b :: x)) (done ++ b :: x) ltac:(lia) (Rfd (drop (Z.to_nat m) (rd_rest s)) p (rd_oom s))).
      destruct (read_loop _ _ _ _) as [[]]; [|done..]. intros Hr. rewrite (IH Hr). unfold zlen. rewrite length_app. lia. }
  destruct (rd_plan s) as [|[m| |] p]; [apply Hgot; lia|apply Hgot; lia|apply IH; lia|cbn; lia].
Qed.

Lemma must_read_returns n : 0 ≤ n → returns (λ d, zlen d = n) (must_read n).
Proof.
  intros Hn. unfold must_read. eapply returns_bind.
  - intros s. unfold read_exact. apply (read_loop_returns _ n [] Hn s).
  - intros [r d] Hr. destruct (Z.leb_spec r 0); [auto with returns|]. apply returns_ret. cbn in Hr. specialize (Hr ltac:(lia)). unfold zlen in *. simpl in *. lia.
Qed.

Lemma lor_range a b n : 0 ≤ n → 0 ≤ a < 2 ^ n → 0 ≤ b < 2 ^ n → 0 ≤ Z.lor a b < 2 ^ n.
Proof.
  intros Hn Ha Hb. assert (0 ≤ Z.lor a b) by (apply Z.lor_nonneg; lia). split; [done|].
  destruct (Z.eq_dec (Z.lor a b) 0) as [->|]; [lia|]. apply Z.log2_lt_pow2; [lia|]. rewrite Z.log2_lor by lia.
  apply Z.max_lub_lt.
  - destruct (Z.eq_dec a 0) as [->|]; [|apply Z.log2_lt_pow2; lia]. destruct (Z.eq_dec n 0) as [->|]; [|cbn; lia].
    exfalso. assert (b = 0) by lia. subst b. done.
  - destruct (Z.eq_dec b 0) as [->|]; [|apply Z.log2_lt_pow2; lia]. destruct (Z.eq_dec n 0) as [->|]; [|cbn; lia].
    exfalso. assert (a = 0) by lia. subst a. done.
Qed.

Lemma bi_shift d i k : 0 ≤ k ≤ 56 → 0 ≤ Z.shiftl (bi d i) k < 2 ^ 64.
Proof.
  intros Hk. unfold bi. pose proof (b2z_range (nth i d x00)). rewrite Z.shiftl_mul_pow2 by lia.
  pose proof (Z.pow_pos_nonneg 2 k ltac:(lia) ltac:(lia)). pose proof (Z.pow_le_mono_r 2 k 56 ltac:(lia) ltac:(lia)). nia.
Qed.

Abbreviation is_u64 v := (0 ≤ v < 2 ^ 64).
Abbreviation is_u32 v := (0 ≤ v < 2 ^ 32).

Lemma bi_range d i : is_u64 (bi d i).
Proof. pose proof (bi_shift d i 0 ltac:(lia)) as Hb. by rewrite Z.shiftl_0_r in Hb. Qed.

Lemma cbor_read_head_returns : returns (λ x, is_u64 x.2) cbor_read_head.
Proof.
  unfold cbor_read_head. eapply returns_bind; [apply returns_any|]. intros [ret d] _.
  assert (Hor : ∀ a b, is_u64 a → is_u64 b → is_u64 (Z.lor a b)) by (intros; by apply lor_range).
  assert (Hai : is_u64 (Z.land (bi d 0) 0x1F)).
  { change 0x1F with (Z.ones 5). rewrite Z.land_ones by lia. pose proof (Z.mod_pos_bound (bi d 0) (2 ^ 5) ltac:(lia)). lia. }
  repeat case_match; auto with returns; try (by apply returns_ret);
    (eapply returns_bind; [apply returns_any|]; intros b _; apply returns_ret; cbn [snd]);
    repeat apply Hor; try apply bi_shift; try apply bi_range; lia.
Qed.

Lemma cbor_read_typed_returns m : returns (λ v, is_u64 v) (cbor_read_typed m).
Proof.
  unfold cbor_read_typed. eapply returns_bind; [apply cbor_read_head_returns|]. intros [major v] Hv.
  destruct (negb _); [auto with returns|by apply returns_ret].
Qed.

(** [x ← m; f x] where [m] returns an unsigned integer. *)
Lemma returns_uint {B} (Q : B → Prop) m (f : Z → MR B) : (∀ v, is_u64 v → returns Q (f v)) → returns Q (cbor_read_typed m ≫= f).
Proof. intros Hf. eapply returns_bind; [apply cbor_read_typed_returns|]. apply Hf. Qed.

Lemma returns_other {A B} (Q : B → Prop) (m : MR A) (f : A → MR B) : (∀ a, returns Q (f a)) → returns Q (m ≫= f).
Proof. intros Hf. eapply returns_bind; [apply returns_any|]. auto. Qed.

Lemma iter_m_returns {A} (P : A → Prop) f : ∀ n (body : A → MR A) a, (∀ a, P a → returns P (body a)) → P a →
  returns P (iter_m f n body a).
Proof.
  induction f as [|f IH]; intros n body a Hb Ha; cbn [iter_m]; (destruct (n <=? 0); [by apply returns_ret|]); [auto with returns|].
  eapply returns_bind; [by apply Hb|]. intros a' Ha'. by apply IH.
Qed.

(** ** The header *)
Record hdr_ok (h : log_hdr) : Prop := {
  ho_version : is_u32 (h_version h);
  ho_bs : is_u32 (h_block_size h);
  ho_size : is_u64 (h_device_size h)
}.

(** One key: read a value, then the record with one field replaced. *)
Ltac ranges :=
  repeat match goal with
  | |- returns _ (cbor_read_uint ≫= _) => apply returns_uint; intros ? ?
  | |- returns _ (cbor_read_bytes_hdr ≫= _) => apply returns_uint; intros ? ?
  | |- returns _ (if ?b then _ else _) => destruct b eqn:?
  | |- returns _ (mret _) => apply returns_ret
  | |- returns _ (throw _) => apply returns_throw
  | |- returns _ panic => apply returns_panic
  end.

Lemma read_hdr_key_returns h : hdr_ok h → returns hdr_ok (read_hdr_key h).
Proof.
  intros [H1 H2 H3]. unfold read_hdr_key. ranges; try (split; cbn; try done; apply u32_range);
    apply returns_other; intros ?; apply returns_ret; by split.
Qed.

(** ** Entries *)
Record ev_ok (v : entry_vars) : Prop := {
  eo_ts : is_u64 (e_ts v);
  eo_seq : is_u64 (e_seq v);
  eo_block : is_u64 (e_block v);
  eo_length : is_u32 (e_length v);
  eo_checksum : from_option (λ c, is_u32 c) True (e_checksum v);
  eo_data : from_option (λ d, zlen d < 2 ^ 64) True (e_data v)
}.

Lemma read_entry_key_returns v : ev_ok v → returns ev_ok (read_entry_key v).
Proof.
  intros [H1 H2 H3 H4 H5 H6]. unfold read_entry_key. ranges; try (split; cbn; try done; apply u32_range).
  - apply returns_other. intros t. ranges. by split.
  - apply returns_other. intros a. ranges. eapply (returns_bind (λ d, zlen d < 2 ^ 64)).
    + ranges; [|done]. eapply returns_weaken; [|apply must_read_returns; lia]. cbn. intros d. lia.
    + intros d Hd. ranges. by split.
  - apply returns_other. intros _. ranges. by split.
Qed.

(** A listed entry fits the types it is printed from. *)
Record report_ok (r : report) : Prop := {
  ro_seq : is_u64 (r_seq r);
  ro_ts : is_u64 (r_ts r);
  ro_block : is_u64 (r_block r);
  ro_end : is_u64 (r_block_end r);
  ro_offset : is_u64 (r_offset r);
  ro_length : is_u32 (r_length r);
  ro_comp : from_option (λ n, is_u64 n) True (r_comp_size r);
  ro_crc : from_option (λ c, is_u32 c.1) True (r_checksum r)
}.

Section Entries.
Context `{LZ4Ops}.

Lemma report_of_returns bs v data : ev_ok v → returns report_ok (report_of bs v data).
Proof.
  intros [H1 H2 H3 H4 H5 H6]. unfold report_of. ranges. split; cbn; try done; try apply u64_range.
  - destruct (e_data v) as [c|]; [|done]. cbn in *. destruct (Z.gtb_spec (zlen c) 0); cbn; [lia|done].
  - by destruct (e_checksum v).
Qed.

Lemma report_entry_returns bs v : ev_ok v → returns (λ x, report_ok x.1) (report_entry bs v).
Proof.
  intros Hv. unfold report_entry.
  assert (Hr : ∀ data (cap : Z), returns (λ x, report_ok x.1) (r ← report_of bs v data; mret (r, cap))).
  { intros data cap. eapply returns_bind; [by apply report_of_returns|]. intros r Hr. by apply returns_ret. }
  destruct (e_data v) as [c|]; [|apply Hr]. ranges; [|apply Hr]. apply returns_other. intros a. ranges.
  destruct (LZ4_decompress_safe _ _) as [d|]; [|auto with returns]. apply returns_other. intros a'. ranges. apply Hr.
Qed.

Lemma returns_try {A} (P : A → Prop) (m : MR A) : returns P m → returns (λ r, match r with Ok a => P a | _ => True end) (try m).
Proof. intros Hm s. specialize (Hm s). unfold try. destruct (m s) as [[]]; done. Qed.

Lemma read_entries_returns f : ∀ bs cap acc, Forall report_ok acc → returns (Forall report_ok) (read_entries f bs cap acc).
Proof.
  induction f as [|f IH]; intros bs cap acc Hacc; cbn [read_entries]; [auto with returns|].
  eapply returns_bind.
  - apply (returns_try (λ x : report * Z, report_ok x.1)). apply returns_other. intros [major n]. ranges.
    eapply returns_bind; [apply (iter_m_returns ev_ok); [intros; by apply read_entry_key_returns|by split]|].
    intros v Hv. by apply report_entry_returns.
  - intros [[r cap']|e|] Hr; ranges; [|done]. apply IH. apply Forall_app. split; [done|]. by constructor.
Qed.

Lemma cmd_log_returns : returns (λ x, hdr_ok x.1 ∧ Forall report_ok x.2) cmd_log_cbor.
Proof.
  intros s. set (f := S (length (rd_rest s))).
  assert (Hb : returns (λ x, hdr_ok x.1 ∧ Forall report_ok x.2) (n ← cbor_read_map;
     h ← iter_m f n read_hdr_key (LogHdr 0 4096 [] 0 []);
     rs ← read_entries f (h_block_size h) 0 []; mret (h, rs))).
  { apply returns_other. intros n. eapply returns_bind; [apply (iter_m_returns hdr_ok); [apply read_hdr_key_returns|by split]|].
    intros h Hh. eapply returns_bind; [by apply read_entries_returns|]. intros rs Hrs. by apply returns_ret. }
  specialize (Hb s). unfold cmd_log_cbor. cbv zeta. fold f. by destruct ((n ← cbor_read_map; _) s) as [[|e|] s1].
Qed.
End Entries.
