(* ===== verification/CtlLogText.v ===== *)
(** * The listing of [lbdctl log] as text and as JSON ([src/src/lbdctl.c])

    [CtlLog] decodes a log into a header and the values of its entries; here is
    what is printed for them. *)
From S2P Require Import Prelude Kernel Format Crc Cbor Qcow2State Log CtlLog CtlText.

(** A member of an object: indented, with the end of the line before it. *)
Definition pad6 : bytes := str "      ".
Definition member (k v : bytes) : bytes := pad6 ++ json_key k ++ v.
Definition comma : bytes := str "," ++ newline.

(** ** JSON *)
Definition json_header (h : log_hdr) : bytes :=
  str "{" ++ newline ++ str "  " ++ json_key (str "header") ++ str "{" ++ newline
    ++ str "    " ++ json_key (str "version") ++ uint (h_version h) ++ comma
    ++ str "    " ++ json_key (str "block_size") ++ uint (h_block_size h) ++ comma
    ++ str "    " ++ json_key (str "segment_label") ++ json_print_string (h_label h) ++ comma
    ++ str "    " ++ json_key (str "device_size") ++ llu (h_device_size h) ++ comma
    ++ str "    " ++ json_key (str "backing_path") ++ json_print_string (h_path h)
    ++ newline ++ str "  }" ++ comma ++ str "  " ++ json_key (str "entries") ++ str "[" ++ newline.

(** [length > 0 ? (1.0 - (double)comp_size / length) * 100.0 : 0.0] *)
Definition reduction (comp_size length : Z) : double :=
  if length >? 0 then percent_saved comp_size length else (0, 1).

Definition json_compression (r : report) : bytes :=
  match r_comp_size r with
  | None => []
  | Some n => comma ++ member (str "compressed_size") (llu n)
                ++ comma ++ member (str "compression_ratio") (fmt_f1 (reduction n (r_length r)))
  end.
Definition json_checksum (r : report) : bytes :=
  match r_checksum r with
  | None => []
  | Some (c, ok) => comma ++ member (str "checksum") (quoted (str "0x" ++ hexn 8 c))
                      ++ comma ++ member (str "checksum_valid") (if ok : bool then str "true" else str "false")
  end.
Definition json_data (show_data : bool) (r : report) : bytes :=
  match r_data r with
  | Some d => if show_data then comma ++ member (str "data_hex") (quoted (concat ((λ b, hexn 2 (b2z b)) <$> d))) else []
  | None => []
  end.

Definition json_entry (show_data : bool) (r : report) : bytes :=
  str "    {" ++ newline
    ++ member (str "type") (quoted (if r_trim r then str "trim" else str "write")) ++ comma
    ++ member (str "sequence") (llu (r_seq r)) ++ comma
    ++ member (str "timestamp_ns") (llu (r_ts r)) ++ comma
    ++ member (str "timestamp") (quoted (timestamp_text x54 (r_ts r) ++ str "Z")) ++ comma
    ++ member (str "block") (llu (r_block r)) ++ comma
    ++ member (str "block_end") (llu (r_block_end r)) ++ comma
    ++ member (str "extent") (quoted (llu (r_block r) ++ str "-" ++ llu (r_block_end r))) ++ comma
    ++ member (str "offset_bytes") (llu (r_offset r)) ++ comma
    ++ member (str "length") (uint (r_length r))
    ++ json_compression r ++ json_checksum r ++ json_data show_data r
    ++ newline ++ str "    }".

(** [if (entry_count > 0) printf(",\n");] before each entry. *)
Fixpoint json_entries (show_data : bool) (count : nat) (rs : list report) : bytes :=
  match rs with
  | [] => []
  | r :: rs' => (if decide (count = O) then [] else comma) ++ json_entry show_data r ++ json_entries show_data (S count) rs'
  end.

Definition json_footer (entry_count : Z) : bytes :=
  newline ++ str "  ]" ++ comma ++ str "  " ++ json_key (str "entry_count") ++ dec (s32 entry_count) ++ newline ++ str "}" ++ newline.

Definition log_json (show_data : bool) (h : log_hdr) (rs : list report) : bytes :=
  json_header h ++ json_entries show_data 0 rs ++ json_footer (zlen rs).

(** ** Text *)
Definition text_header (path : bytes) (h : log_hdr) : bytes :=
  str "=== LBD Log: " ++ cstr path ++ str " ===" ++ newline
    ++ str "Version:      " ++ uint (h_version h) ++ newline
    ++ str "Block size:   " ++ uint (h_block_size h) ++ newline
    ++ str "Segment:      " ++ cstr (h_label h) ++ newline
    ++ str "Device size:  " ++ fmt_size (h_device_size h) 32 ++ str " (" ++ llu (h_device_size h) ++ str " bytes)" ++ newline
    ++ str "Backing file: " ++ cstr (h_path h) ++ newline ++ newline.

Definition text_compression (r : report) : bytes :=
  match r_comp_size r with
  | None => []
  | Some n => str "  LZ4:      " ++ fmt_size n 32 ++ str " compressed (" ++ fmt_f1 (reduction n (r_length r))
                ++ str "% reduction)" ++ newline
  end.

(** The second format is an argument of the first [printf]: its [%08x] is printed
    as it is. *)
Definition text_checksum (r : report) : bytes :=
  match r_checksum r with
  | None => []
  | Some (c, ok) =>
      str "  CRC32:    0x" ++ hexn 8 c ++ str " "
        ++ (if ok : bool then str "(OK)" else str "(MISMATCH - computed 0x%08x)") ++ newline
        ++ (if ok then [] else str "            computed: 0x"
              ++ hexn 8 (match r_data r with Some d => crc32_calc d | None => 0 end) ++ newline)
  end.

Definition text_entry (show_data : bool) (bs : Z) (r : report) : bytes :=
  str "--- Entry #" ++ llu (r_seq r) ++ str " [" ++ (if r_trim r then str "TRIM" else str "WRITE") ++ str "] ---" ++ newline
    ++ str "  Time:     " ++ timestamp_text x20 (r_ts r) ++ str " UTC" ++ newline
    ++ str "  Extent:   " ++ llu (r_block r) ++ str "-" ++ llu (r_block_end r)
    ++ str " (" ++ uint (r_length r / bs) ++ str " blocks)" ++ newline
    ++ str "  Offset:   0x" ++ hexw 1 (r_offset r) ++ str "-0x" ++ hexw 1 (u64 (r_block r * bs + r_length r - 1)) ++ newline
    ++ str "  Length:   " ++ fmt_size (r_length r) 32 ++ str " (" ++ uint (r_length r) ++ str " bytes)" ++ newline
    ++ text_compression r ++ text_checksum r
    ++ (match r_data r with
        | Some d => if show_data then str "  Data:" ++ newline ++ hex_dump d (str "    ") else []
        | None => []
        end)
    ++ newline.

Definition text_footer (entry_count : Z) : bytes := str "Total entries: " ++ dec (s32 entry_count) ++ newline.

Definition log_text (show_data : bool) (path : bytes) (h : log_hdr) (rs : list report) : bytes :=
  text_header path h ++ concat (text_entry show_data (h_block_size h) <$> rs) ++ text_footer (zlen rs).

(** ** [cmd_log]: exit status and standard output; [opened] is whether [open] succeeds. *)
Definition cmd_log `{LZ4Ops} (path : bytes) (json show_data opened : bool) : MR (Z * bytes) := λ s,
  if negb opened then (Ok (1, []), s) else
  match cmd_log_cbor s with
  | (Ok (h, rs), s') => (Ok (0, if json then log_json show_data h rs else log_text show_data path h rs), s')
  | (Err e, s') => (if e =? FUEL then Err e else Ok (1, []), s')
  | (Panic, s') => (Panic, s')
  end.
