(* ===== verification/CtlLogTextTheorems.v ===== *)
(** * The listing of [lbdctl log] read back

    The JSON listing is a well-formed document whatever was listed, and a reader
    that knows nothing of the tool gets back the header and every entry from it;
    together with the log of the driver this ties the operations of a device to
    the text the tool prints.  The hex dumps of the text listing read back too. *)
From S2P Require Import Prelude Kernel Format Crc Cbor Qcow2State Qcow2Io Log LogProof Posix LogTheorems.
From S2P Require Import CtlLog CtlLogProof CtlLogTheorems CtlLogRange Json CtlText CtlTextProof CtlLogText.

(** ** The document *)
Definition num (n : Z) : json := JNum n 0.

Definition header_items (h : log_hdr) : list item :=
  [Item (str "version") (uint (h_version h)) (num (u32 (h_version h)));
   Item (str "block_size") (uint (h_block_size h)) (num (u32 (h_block_size h)));
   Item (str "segment_label") (json_print_string (h_label h)) (JStr (cstr (h_label h)));
   Item (str "device_size") (llu (h_device_size h)) (num (u64 (h_device_size h)));
   Item (str "backing_path") (json_print_string (h_path h)) (JStr (cstr (h_path h)))].

Definition text_item (k s : bytes) : item := Item k (quoted s) (JStr s).

Definition comp_items (r : report) : list item :=
  match r_comp_size r with
  | None => []
  | Some n => let x := reduction n (r_length r) in
              [Item (str "compressed_size") (llu n) (num (u64 n));
               Item (str "compression_ratio") (fmt_f1 x) (JNum (rne (10 * x.1) x.2) 1)]
  end.
Definition crc_items (r : report) : list item :=
  match r_checksum r with
  | None => []
  | Some (c, ok) => [text_item (str "checksum") (str "0x" ++ hexn 8 c);
                     Item (str "checksum_valid") (if ok : bool then str "true" else str "false") (JBool ok)]
  end.
Definition data_items (show_data : bool) (r : report) : list item :=
  match r_data r with
  | Some d => if show_data then [text_item (str "data_hex") (concat ((λ b, hexn 2 (b2z b)) <$> d))] else []
  | None => []
  end.
Definition base_items (r : report) : list item :=
  [text_item (str "type") (if r_trim r then str "trim" else str "write");
   Item (str "sequence") (llu (r_seq r)) (num (u64 (r_seq r)));
   Item (str "timestamp_ns") (llu (r_ts r)) (num (u64 (r_ts r)));
   text_item (str "timestamp") (timestamp_text x54 (r_ts r) ++ str "Z");
   Item (str "block") (llu (r_block r)) (num (u64 (r_block r)));
   Item (str "block_end") (llu (r_block_end r)) (num (u64 (r_block_end r)));
   text_item (str "extent") (llu (r_block r) ++ str "-" ++ llu (r_block_end r));
   Item (str "offset_bytes") (llu (r_offset r)) (num (u64 (r_offset r)));
   Item (str "length") (uint (r_length r)) (num (u32 (r_length r)))].
Definition entry_items (show_data : bool) (r : report) : list item :=
  base_items r ++ comp_items r ++ crc_items r ++ data_items show_data r.

(** The document the listing must be. *)
Definition log_doc (show_data : bool) (h : log_hdr) (rs : list report) : json :=
  JObj [(str "header", obj_val (header_items h));
        (str "entries", JArr ((λ r, obj_val (entry_items show_data r)) <$> rs));
        (str "entry_count", num (s32 (zlen rs)))].

(** ** The text is the document laid out *)
Definition entry_text (show_data : bool) (r : report) : bytes :=
  str "    " ++ obj_text pad6 (str "    ") (entry_items show_data r).

Lemma joined_cons a l : joined (a :: l) = a ++ concat ((λ x, comma_nl ++ x) <$> l).
Proof.
  revert a. induction l as [|b l IH]; intros a; [by rewrite app_nil_r|].
  change (joined (a :: b :: l)) with (a ++ comma_nl ++ joined (b :: l)). rewrite IH, fmap_cons. cbn [concat]. by rewrite <- !app_assoc.
Qed.

Abbreviation tail_text l := (concat ((λ x, comma_nl ++ x) <$> (member_text pad6 <$> l))).

Lemma tail_comp r : tail_text (comp_items r) = json_compression r.
Proof. unfold comp_items, json_compression, member. destruct (r_comp_size r); [|done]. rewrite !fmap_cons. cbn [concat fmap list_fmap]. by rewrite <- !app_assoc, app_nil_r. Qed.

Lemma tail_crc r : tail_text (crc_items r) = json_checksum r.
Proof. unfold crc_items, json_checksum, member. destruct (r_checksum r) as [[c ok]|]; [|done]. rewrite !fmap_cons. cbn [concat fmap list_fmap]. by rewrite <- !app_assoc, app_nil_r. Qed.

Lemma tail_data show_data r : tail_text (data_items show_data r) = json_data show_data r.
Proof.
  unfold data_items, json_data, member. destruct (r_data r) as [d|]; [|done]. destruct show_data; [|done].
  rewrite !fmap_cons. cbn [concat fmap list_fmap]. by rewrite <- !app_assoc, app_nil_r.
Qed.

Lemma entry_text_eq show_data r : json_entry show_data r = entry_text show_data r.
Proof.
  unfold entry_text, entry_items, obj_text. set (rest := comp_items r ++ crc_items r ++ data_items show_data r).
  unfold base_items. cbn [app]. rewrite fmap_cons, joined_cons, !fmap_cons. cbn [concat]. unfold rest.
  rewrite !fmap_app, !concat_app, tail_comp, tail_crc, tail_data.
  unfold json_entry, member, member_text. change comma_nl with comma. cbn [i_key i_text text_item].
  change (str "    {") with (str "    " ++ [x7b]). change (str "    }") with (str "    " ++ [x7d]). rewrite <- !app_assoc.
  cbn [app]. reflexivity.
Qed.

Lemma json_entries_cons show_data count rs :
  json_entries show_data (S count) rs = concat ((λ x, comma_nl ++ x) <$> (entry_text show_data <$> rs)).
Proof.
  revert count. induction rs as [|r rs IH]; intros count; [done|]. cbn [json_entries]. rewrite IH, entry_text_eq, !fmap_cons.
  cbn [concat]. by rewrite <- app_assoc.
Qed.

Lemma json_entries_eq show_data rs : json_entries show_data 0 rs = joined (entry_text show_data <$> rs).
Proof. destruct rs as [|r rs]; [done|]. cbn [json_entries]. rewrite json_entries_cons, entry_text_eq, fmap_cons, joined_cons. done. Qed.

(** The members of the whole document. *)
Definition log_items (show_data : bool) (h : log_hdr) (rs : list report) : list item :=
  [Item (str "header") (obj_text (str "    ") (str "  ") (header_items h)) (obj_val (header_items h));
   Item (str "entries") (arr_text (str "  ") (entry_text show_data <$> rs))
     (JArr ((λ r, obj_val (entry_items show_data r)) <$> rs));
   Item (str "entry_count") (dec (s32 (zlen rs))) (num (s32 (zlen rs)))].

Lemma header_text_eq h : joined (member_text (str "    ") <$> header_items h) =
  str "    " ++ json_key (str "version") ++ uint (h_version h) ++ comma
    ++ str "    " ++ json_key (str "block_size") ++ uint (h_block_size h) ++ comma
    ++ str "    " ++ json_key (str "segment_label") ++ json_print_string (h_label h) ++ comma
    ++ str "    " ++ json_key (str "device_size") ++ llu (h_device_size h) ++ comma
    ++ str "    " ++ json_key (str "backing_path") ++ json_print_string (h_path h).
Proof.
  unfold header_items. rewrite !fmap_cons. cbn [joined fmap list_fmap]. unfold member_text. cbn [i_key i_text].
  change comma_nl with comma. by rewrite <- !app_assoc.
Qed.

Lemma log_json_eq show_data h rs : log_json show_data h rs = obj_text (str "  ") [] (log_items show_data h rs) ++ newline.
Proof.
  unfold log_json, json_header, json_footer. rewrite json_entries_eq.
  unfold obj_text at 1, log_items. rewrite !fmap_cons. cbn [joined fmap list_fmap]. unfold member_text at 1 2 3. cbn [i_key i_text].
  unfold obj_text, arr_text. rewrite header_text_eq. change comma_nl with comma.
  change (str "{") with [x7b]. change (str "}") with [x7d]. change (str "[") with [x5b].
  change (str "  }") with (str "  " ++ [x7d]). change (str "  ]") with (str "  " ++ [x5d]).
  generalize (joined (entry_text show_data <$> rs)). intros body. repeat (rewrite <- ?app_assoc; progress cbn [app]).
  reflexivity.
Qed.

Lemma s32_range v : - 2 ^ 31 ≤ s32 v < 2 ^ 31.
Proof. unfold s32. pose proof (Z.mod_pos_bound (v + 2 ^ 31) (2 ^ 32) ltac:(lia)). lia. Qed.

(** ** The document reads as itself *)
Lemma text_item_ok k s : plain k → plain s → item_ok (text_item k s).
Proof. intros Hk Hs. split; [done|by apply reads_plain]. Qed.

Lemma reduction_den n len : 0 < (reduction n len).2.
Proof. unfold reduction, percent_saved. destruct (len >? 0); [apply rnd_den|done]. Qed.

Lemma Item_ok k t v : plain k → reads t v → item_ok (Item k t v).
Proof. by split. Qed.

(** The items of a list one by one, those of the common kinds at once. *)
Ltac each_item := repeat apply List.Forall_cons; try apply List.Forall_nil;
  try match goal with
  | |- item_ok (Item _ (uint ?v) _) => apply Item_ok; [reflexivity|exact (reads_uint v)]
  | |- item_ok (Item _ (llu ?v) _) => apply Item_ok; [reflexivity|exact (reads_llu v)]
  | |- item_ok (Item _ (json_print_string ?v) _) => apply Item_ok; [reflexivity|exact (reads_string v)]
  | |- item_ok (Item _ (if ?b then _ else _) _) => apply Item_ok; [reflexivity|exact (reads_bool b)]
  end.

Lemma header_items_ok h : Forall item_ok (header_items h).
Proof. unfold header_items. each_item. Qed.

Lemma entry_items_ok show_data r : Forall item_ok (entry_items show_data r).
Proof.
  unfold entry_items. rewrite !Forall_app. split_and!.
  - unfold base_items. each_item; apply text_item_ok; try done.
    + by destruct (r_trim r).
    + apply timestamp_plain.
    + unfold llu. by rewrite !forallb_app, !dec_plain.
  - unfold comp_items. destruct (r_comp_size r) as [n|]; [|constructor]. each_item.
    apply Item_ok; [done|]. apply reads_f1, reduction_den.
  - unfold crc_items. destruct (r_checksum r) as [[c ok]|]; [|constructor]. each_item.
    apply text_item_ok; [done|]. by rewrite forallb_app, hexn_plain.
  - unfold data_items. destruct (r_data r) as [d|]; [|constructor]. destruct show_data; [|constructor]. each_item.
    apply text_item_ok; [done|]. apply hex_bytes_plain.
Qed.

Lemma log_json_parses show_data h rs : json_parse (log_json show_data h rs) = Some (log_doc show_data h rs).
Proof.
  rewrite log_json_eq. apply json_parse_reads. change (log_doc show_data h rs) with (obj_val (log_items show_data h rs)).
  apply reads_obj; [done|done|]. repeat apply List.Forall_cons; [| | |constructor]; split; try done; cbn [i_text i_val].
  - apply reads_obj; [done|done|]. apply header_items_ok.
  - apply reads_arr; [done|]. intros r. apply reads_indent; [done|]. apply reads_obj; [done|done|]. apply entry_items_ok.
  - apply reads_dec. pose proof (s32_range (zlen rs)). lia.
Qed.

(** ** A reader of the document *)
Fixpoint jget (k : bytes) (l : list (bytes * json)) : option json :=
  match l with
  | [] => None
  | (k', v) :: l' => if bool_decide (k = k') then Some v else jget k l'
  end.
Definition get_num (k : bytes) (l : list (bytes * json)) : option Z :=
  match jget k l with Some (JNum n O) => Some n | _ => None end.
Definition get_str (k : bytes) (l : list (bytes * json)) : option bytes :=
  match jget k l with Some (JStr s) => Some s | _ => None end.

(** A member that may be missing. *)
Definition get_opt {A} (k : bytes) (read : json → option A) (l : list (bytes * json)) : option (option A) :=
  match jget k l with None => Some None | Some v => x ← read v; Some (Some x) end.

Definition doc_header (j : json) : option log_hdr :=
  match j with
  | JObj l =>
      v ← get_num (str "version") l; bs ← get_num (str "block_size") l; lb ← get_str (str "segment_label") l;
      sz ← get_num (str "device_size") l; p ← get_str (str "backing_path") l;
      Some (LogHdr v bs lb sz p)
  | _ => None
  end.

Definition doc_type (s : bytes) : option bool :=
  if bool_decide (s = str "trim") then Some true else if bool_decide (s = str "write") then Some false else None.

(** An entry; the date must be that of the time stamp and the extent that of the blocks. *)
Definition doc_entry (j : json) : option report :=
  match j with
  | JObj l =>
      trim ← get_str (str "type") l ≫= doc_type;
      seq ← get_num (str "sequence") l;
      ts ← get_num (str "timestamp_ns") l;
      date ← get_str (str "timestamp") l;
      if negb (read_timestamp date =? ts) then None else
      b ← get_num (str "block") l;
      e ← get_num (str "block_end") l;
      extent ← get_str (str "extent") l;
      if negb (bool_decide (extent = dec b ++ str "-" ++ dec e)) then None else
      off ← get_num (str "offset_bytes") l;
      len ← get_num (str "length") l;
      comp ← get_opt (str "compressed_size") (λ v, match v with JNum n O => Some n | _ => None end) l;
      crc ← get_opt (str "checksum") (λ v, match v with JStr (x30 :: x78 :: s) => hex_value s | _ => None end) l;
      valid ← get_opt (str "checksum_valid") (λ v, match v with JBool x => Some x | _ => None end) l;
      data ← get_opt (str "data_hex") (λ v, match v with JStr s => unhex s | _ => None end) l;
      Some (Report trim seq ts b e off len comp (c ← crc; v ← valid; Some (c, v)) data)
  | _ => None
  end.

(** The header and the entries, of which there must be as many as are counted. *)
Definition read_listing (j : json) : option (log_hdr * list report) :=
  match j with
  | JObj l =>
      h ← jget (str "header") l ≫= doc_header;
      n ← get_num (str "entry_count") l;
      match jget (str "entries") l with
      | Some (JArr es) =>
          rs ← mapM doc_entry es;
          if zlen rs =? n then Some (h, rs) else None
      | _ => None
      end
  | _ => None
  end.

(** ** The listing reads back *)
Lemma get_app k l l' : jget k (l ++ l') = match jget k l with Some v => Some v | None => jget k l' end.
Proof. induction l as [|[k' v] l IH]; [done|]. cbn [app jget]. by destruct (bool_decide (k = k')). Qed.

Abbreviation vals l := ((λ i, (i_key i, i_val i)) <$> l).

(** The members an entry need not have. *)
Lemma get_comp k r : jget k (vals (comp_items r)) =
  match r_comp_size r with
  | Some n => if bool_decide (k = str "compressed_size") then Some (num (u64 n))
              else if bool_decide (k = str "compression_ratio")
                   then Some (JNum (rne (10 * (reduction n (r_length r)).1) (reduction n (r_length r)).2) 1) else None
  | None => None end.
Proof. unfold comp_items. by destruct (r_comp_size r). Qed.

Lemma get_crc k r : jget k (vals (crc_items r)) =
  match r_checksum r with
  | Some (c, ok) => if bool_decide (k = str "checksum") then Some (JStr (str "0x" ++ hexn 8 c))
                    else if bool_decide (k = str "checksum_valid") then Some (JBool ok) else None
  | None => None end.
Proof. unfold crc_items. by destruct (r_checksum r) as [[]|]. Qed.

Lemma get_data k r : jget k (vals (data_items true r)) =
  match r_data r with
  | Some d => if bool_decide (k = str "data_hex") then Some (JStr (concat ((λ b, hexn 2 (b2z b)) <$> d))) else None
  | None => None end.
Proof. unfold data_items. by destruct (r_data r). Qed.

Lemma get_optional k r : jget k (vals (base_items r)) = None → jget k (vals (entry_items true r)) =
  match jget k (vals (comp_items r)) with
  | Some v => Some v
  | None => match jget k (vals (crc_items r)) with Some v => Some v | None => jget k (vals (data_items true r)) end
  end.
Proof. intros E. unfold entry_items. by rewrite !fmap_app, !get_app, E. Qed.

Lemma get_base k v r : jget k (vals (base_items r)) = Some v → jget k (vals (entry_items true r)) = Some v.
Proof. intros E. unfold entry_items. by rewrite fmap_app, get_app, E. Qed.

Lemma get_members r : let l := vals (entry_items true r) in
  jget (str "compressed_size") l = (λ n, num (u64 n)) <$> r_comp_size r ∧
  jget (str "checksum") l = (λ c, JStr (x30 :: x78 :: hexn 8 c.1)) <$> r_checksum r ∧
  jget (str "checksum_valid") l = (λ c, JBool c.2) <$> r_checksum r ∧
  jget (str "data_hex") l = (λ d, JStr (concat ((λ b, hexn 2 (b2z b)) <$> d))) <$> r_data r.
Proof.
  intros l. unfold l. rewrite !get_optional by reflexivity. rewrite !get_comp, !get_crc, !get_data.
  split_and!; (destruct (r_comp_size r) as [n|], (r_checksum r) as [[c ok]|], (r_data r) as [d|]; reflexivity).
Qed.

Lemma get_fields r : let l := vals (entry_items true r) in
  jget (str "type") l = Some (JStr (if r_trim r then str "trim" else str "write")) ∧
  jget (str "sequence") l = Some (num (u64 (r_seq r))) ∧
  jget (str "timestamp_ns") l = Some (num (u64 (r_ts r))) ∧
  jget (str "timestamp") l = Some (JStr (timestamp_text x54 (r_ts r) ++ str "Z")) ∧
  jget (str "block") l = Some (num (u64 (r_block r))) ∧
  jget (str "block_end") l = Some (num (u64 (r_block_end r))) ∧
  jget (str "extent") l = Some (JStr (llu (r_block r) ++ str "-" ++ llu (r_block_end r))) ∧
  jget (str "offset_bytes") l = Some (num (u64 (r_offset r))) ∧
  jget (str "length") l = Some (num (u32 (r_length r))).
Proof. intros l. unfold l. split_and!; apply get_base; reflexivity. Qed.

(** The four members as the reader takes them. *)
Lemma doc_optional r : report_ok r →
  let l := vals (entry_items true r) in
  get_opt (str "compressed_size") (λ v, match v with JNum n O => Some n | _ => None end) l = Some (r_comp_size r) ∧
  get_opt (str "checksum") (λ v, match v with JStr (x30 :: x78 :: s) => hex_value s | _ => None end) l = Some (fst <$> r_checksum r) ∧
  get_opt (str "checksum_valid") (λ v, match v with JBool x => Some x | _ => None end) l = Some (snd <$> r_checksum r) ∧
  get_opt (str "data_hex") (λ v, match v with JStr s => unhex s | _ => None end) l = Some (r_data r).
Proof.
  intros [_ _ _ _ _ _ H7 H8] l. unfold get_opt, l. destruct (get_members r) as (-> & -> & -> & ->).
  split_and!.
  - destruct (r_comp_size r) as [n|]; [|done]. cbn in *. by rewrite u64_small.
  - destruct (r_checksum r) as [[c ok]|]; [|done]. cbn [from_option fmap option_fmap option_map fst app str] in *. by rewrite hexn_value.
  - by destruct (r_checksum r) as [[c ok]|].
  - destruct (r_data r) as [d|]; [|done]. cbn [fmap option_fmap option_map]. by rewrite unhex_bytes.
Qed.

Lemma doc_entry_spec r : report_ok r → doc_entry (obj_val (entry_items true r)) = Some r.
Proof.
  intros Hr. destruct (doc_optional r Hr) as (O1 & O2 & O3 & O4). destruct Hr as [H1 H2 H3 H4 H5 H6 _ _].
  pose proof (read_timestamp_text x54 (r_ts r) (str "Z") H2) as Ht.
  unfold doc_entry, obj_val, get_num, get_str. rewrite O1, O2, O3, O4.
  destruct (get_fields r) as (-> & -> & -> & -> & -> & -> & -> & -> & ->).
  unfold llu, num. rewrite !u64_small, u32_small by done.
  assert (Htype : doc_type (if r_trim r then str "trim" else str "write") = Some (r_trim r)) by by destruct (r_trim r).
  cbn [mbind option_bind]. rewrite Htype. cbn [mbind option_bind]. rewrite Ht, Z.eqb_refl. cbn [negb].
  rewrite bool_decide_true by done. cbn [negb].
  destruct r as [? ? ? ? ? ? ? ? [[]|] ?]; done.
Qed.

Definition printed_header (h : log_hdr) : log_hdr :=
  LogHdr (h_version h) (h_block_size h) (cstr (h_label h)) (h_device_size h) (cstr (h_path h)).

Lemma doc_header_spec h : hdr_ok h → doc_header (obj_val (header_items h)) = Some (printed_header h).
Proof.
  intros [H1 H2 H3]. unfold doc_header, obj_val, header_items, num. rewrite !u32_small, u64_small by done. reflexivity.
Qed.

Lemma read_listing_doc h rs : hdr_ok h → zlen rs < 2 ^ 31 → Forall report_ok rs →
  read_listing (log_doc true h rs) = Some (printed_header h, rs).
Proof.
  intros Hh Hn Hrs. unfold read_listing, log_doc, get_num. rewrite s32_small by (unfold zlen in *; lia).
  change (jget (str "header") _) with (Some (obj_val (header_items h))). cbn [mbind option_bind]. rewrite doc_header_spec by done.
  assert (Hm : mapM doc_entry ((λ r, obj_val (entry_items true r)) <$> rs) = Some rs).
  { apply mapM_Some. clear -Hrs. induction Hrs; constructor; [by apply doc_entry_spec|done]. }
  change (jget (str "entry_count") _) with (Some (num (zlen rs))).
  change (jget (str "entries") _) with (Some (JArr ((λ r, obj_val (entry_items true r)) <$> rs))).
  unfold num. cbn [mbind option_bind]. rewrite Hm. cbn [mbind option_bind]. by rewrite Z.eqb_refl.
Qed.

Section Tool.
Context `{HZ0 : LZ4Ops}.

Lemma cmd_log_ok path json show_data fd h rs fd' : cmd_log_cbor fd = (Ok (h, rs), fd') →
  cmd_log path json show_data true fd = (Ok (0, if json then log_json show_data h rs else log_text show_data path h rs), fd').
Proof. intros E. unfold cmd_log. cbn [negb]. by rewrite E. Qed.

Lemma listing_reads path fd h rs fd' : cmd_log_cbor fd = (Ok (h, rs), fd') → zlen rs < 2 ^ 31 →
  ∃ out, cmd_log path true true true fd = (Ok (0, out), fd') ∧
    json_parse out ≫= read_listing = Some (printed_header h, rs).
Proof.
  intros E Hn. eexists. split; [by apply cmd_log_ok|]. rewrite log_json_parses. cbn [mbind option_bind].
  pose proof (cmd_log_returns fd) as Hr. rewrite E in Hr. destruct Hr as [Hh Hrs]. by apply read_listing_doc.
Qed.


(** C25: what [lbdctl log --json --data] prints for any file carries everything
    that was decoded: a reader of the document gets the header and every entry
    back, with dates, checksums and data, from the text alone. *)
Theorem log_json_reads_back path fd h rs fd' : cmd_log_cbor fd = (Ok (h, rs), fd') → zlen rs < 2 ^ 31 →
  ∃ out, cmd_log path true true true fd = (Ok (0, out), fd') ∧
    json_parse out ≫= read_listing = Some (printed_header h, rs).
Proof. apply listing_reads. Qed.

End Tool.

(** The hex dump of the text listing loses nothing: the bytes are read back from
    its columns, with every offset and the characters at the right as they must be. *)
Theorem hex_dump_reads_back data indent : read_hex_dump indent (hex_dump data indent) = Some data.
Proof. apply read_hex_dump_spec. Qed.

(** ** From the operations of a device to the text *)
Section EndToEnd.
Context `{HZ : LZ4Laws}.

Lemma listed_length seq ops rs : listed seq ops rs → zlen rs ≤ zlen ops.
Proof.
  revert seq rs. induction ops as [|[rq|pos n|] ops IH]; intros seq rs; cbn [listed].
  - by intros ->.
  - intros (ts & rs' & -> & Hl). specialize (IH _ _ Hl). unfold zlen in *. simpl. lia.
  - intros (ts & rs' & -> & Hl). specialize (IH _ _ Hl). unfold zlen in *. simpl. lia.
  - intros Hl. specialize (IH _ _ Hl). unfold zlen in *. simpl. lia.
Qed.

Lemma in_concat_length {A B} (segs : list (A * list B)) a l : (a, l) ∈ segs → zlen l ≤ zlen (concat segs.*2).
Proof.
  induction segs as [|[b x] segs IH]; [by intros ?%elem_of_nil|]. rewrite fmap_cons. cbn [concat snd]. unfold zlen in *.
  rewrite length_app. intros [[= -> ->]|Hin]%elem_of_cons; [lia|]. specialize (IH Hin). lia.
Qed.

Context {L : Type} `{HL : LogLaws L} `{HC : Crc32Laws}.

(** C24: from the block device to the text of the tool.  On a healthy system,
    whatever writes, trims and rotations a device logs, every closed segment is
    announced to the watchers, and (if no label was used twice) [lbdctl log
    --json --data] on the segments prints documents that together read back as
    exactly those operations in order: for each write its sequence number,
    extent, data and a valid checksum, for each trim its extent, under a header
    with the segment's label and the device's size and path, whatever pieces
    [read] returns the files in. *)
Theorem device_log_json (s : log_state L) ops : dev_ok s → Forall op_ok ops → zlen ops < 2 ^ 31 →
  ∃ s' (segs : list (bytes * list report)),
    (lbd_begin_segment;; log_run ops;; lbd_finalize_log) s = (Ok tt, s') ∧
    listed (log_seq s) ops (concat segs.*2) ∧ announced s s' segs ∧
    (NoDup segs.*1 → ∀ label rs, (label, rs) ∈ segs →
       ∃ c, l_content (lfs s') (final_name label) = Some c ∧
         ∀ path fd, on fd c → ∃ out fd', cmd_log path true true true fd = (Ok (0, out), fd') ∧
           json_parse out ≫= read_listing =
             Some (LogHdr 2 4096 (cstr label) (u64 (dev_size s)) (cstr (backing_path s)), rs)).
Proof.
  intros Hd Hops Hn. destruct (listing_life s ops Hd Hops) as (s' & segs & E & Hl & Ha & Hf). exists s', segs. split_and!; [done|done|done|].
  intros Hnd label rs Hin. destruct (Hf Hnd label rs Hin) as (c & Ec & Hc). exists c. split; [done|].
  intros path fd Hon. destruct (Hc fd Hon) as [fd' Efd].
  pose proof (listed_length _ _ _ Hl). pose proof (in_concat_length _ _ _ Hin).
  destruct (listing_reads path fd _ _ _ Efd ltac:(lia)) as (out & Eo & Er). by exists out, fd'.
Qed.
End EndToEnd.

Lemma device_log_json_witness : ∃ s' (segs : list (bytes * list report)),
  (lbd_begin_segment;; log_run [OpWrite (rq_fill 8 x41); OpTrim 16 4096; OpRotate; OpWrite (rq_fill 0 x42)];;
     lbd_finalize_log) (log0 4096 []) = (Ok tt, s') ∧
  listed 0 [OpWrite (rq_fill 8 x41); OpTrim 16 4096; OpRotate; OpWrite (rq_fill 0 x42)] (concat segs.*2).
Proof.
  destruct (device_log_json (log0 4096 [])
    [OpWrite (rq_fill 8 x41); OpTrim 16 4096; OpRotate; OpWrite (rq_fill 0 x42)]) as (s' & segs & E & Hx & _).
  - split; vm_compute; [done|split; done|split; done|done].
  - repeat constructor; vm_compute; done.
  - done.
  - exists s', segs. split; [exact E|exact Hx].
Defined.

(** A log of one trim, cut short after it. *)
Definition small_log : rfd :=
  Rfd (log_header_bytes (str "a\b") 8192 (str "/tmp/disk") ++ entry_bytes (LTrim 1700000000123456789 7 2 4096) ++ [xa1]) [RdMax 3; RdIntr] [].

Lemma log_json_reads_back_witness :
  ∃ out, cmd_log (str "x.log") true true true small_log = (Ok (0, out), Rfd [] [] []) ∧
    json_parse out ≫= read_listing =
      Some (LogHdr 2 4096 (str "a\b") 8192 (str "/tmp/disk"),
            [Report true 7 1700000000123456789 2 2 8192 4096 None None None]).
Proof.
  exact (log_json_reads_back (str "x.log") small_log (LogHdr 2 4096 (str "a\b") 8192 (str "/tmp/disk"))
    [Report true 7 1700000000123456789 2 2 8192 4096 None None None] (Rfd [] [] [])
    ltac:(vm_compute; reflexivity) ltac:(vm_compute; reflexivity)).
Defined.
