(* ===== verification/Watch.v ===== *)
(** * The control device: watchers and miss handlers ([src/src/lbd_main.c])

    The kernel objects the control file descriptors share live in one [world]:
    the watchers ([lbd_watchers], in list order), the miss handlers and the
    device table ([lbd_devices]).  A pointer is a number; following a pointer to
    a freed object is undefined behaviour.  Each definition is one system call
    or one critical section; a blocking [wait_event] is the result [Blocked]
    naming the queue the caller sleeps on.  Devices are seen through [CtlDev]. *)
From stdpp Require Import gmap.
From S2P Require Import Prelude Kernel Format Cbor Qcow2State Qcow2Io Log.

(** ** Watcher queues *)
Definition LBD_WATCHER_QUEUE_SIZE : Z := 64.

Record lbd_watcher : Type := Watcher {
  w_queue : list lbd_watcher_event;   (** [LBD_WATCHER_QUEUE_SIZE] slots *)
  w_head : Z;
  w_tail : Z;
  w_count : Z;
  filter_dev : Z                      (** -1 = all *)
}.

Definition ev_zero : lbd_watcher_event := Event 0 0 0 [] [].

Definition lbd_watcher_new (filter : Z) : lbd_watcher :=
  Watcher (replicate (Z.to_nat LBD_WATCHER_QUEUE_SIZE) ev_zero) 0 0 0 filter.

Definition lbd_watcher_enqueue (ev : lbd_watcher_event) (w : lbd_watcher) : lbd_watcher :=
  let '(h, c) :=
    if w_count w =? LBD_WATCHER_QUEUE_SIZE
    then ((w_head w + 1) mod LBD_WATCHER_QUEUE_SIZE, w_count w - 1)
    else (w_head w, w_count w) in
  Watcher (<[Z.to_nat (w_tail w) := ev]> (w_queue w)) h
    ((w_tail w + 1) mod LBD_WATCHER_QUEUE_SIZE) (c + 1) (filter_dev w).

Definition lbd_watcher_peek (w : lbd_watcher) : option lbd_watcher_event :=
  if w_count w >? 0 then Some (nth (Z.to_nat (w_head w)) (w_queue w) ev_zero) else None.

Definition lbd_watcher_pop (w : lbd_watcher) : lbd_watcher :=
  if w_count w >? 0 then
    Watcher (w_queue w) ((w_head w + 1) mod LBD_WATCHER_QUEUE_SIZE) (w_tail w) (w_count w - 1)
      (filter_dev w)
  else w.

(** ** Miss handlers *)

(** [pending] is the waiting I/O thread, [None] when idle. *)
Record lbd_miss_handler : Type := MissHandler {
  mh_dev_index : Z;
  mh_pending : option nat;
  mh_has_event : bool;
  mh_cluster : Z
}.

(** ** Devices as the control device sees them *)
Class CtlDev (D : Type) : Type := {
  d_is_qcow2 : D → bool;
  d_swap_base : bytes → D → res unit * D
}.

#[global] Instance qdev_ctl {K} `{KernelOps K, LZ4Ops, CrcOps} : CtlDev (bool * qdev K) := {
  d_is_qcow2 := fst;
  d_swap_base := λ p d, let '(r, q) := lbd_qcow2_swap_base p d.2 in (r, (d.1, q))
}.

(** An entry of the device table, with its [miss_handler] pointer. *)
Record wdev (D : Type) : Type := WDev { wd_dev : D; wd_miss : option nat }.
Arguments WDev {D}.
Arguments wd_dev {D}.
Arguments wd_miss {D}.

(** [w_done] holds the completed misses: the thread and the action it was given.
    [w_oom] makes the next allocations fail. *)
Record world (D : Type) : Type := World {
  w_list : list nat;
  w_watch : gmap nat lbd_watcher;
  w_miss : gmap nat lbd_miss_handler;
  w_devs : gmap Z (wdev D);
  w_done : list (nat * lbd_miss_action);
  w_next : nat;
  w_oom : list bool
}.
Arguments World {D}.
Arguments w_list {D}.
Arguments w_watch {D}.
Arguments w_miss {D}.
Arguments w_devs {D}.
Arguments w_done {D}.
Arguments w_next {D}.
Arguments w_oom {D}.

(** [struct lbd_ctl_state]: what one open control descriptor refers to. *)
Record lbd_ctl_state : Type := CtlState { cs_watcher : option nat; cs_miss : option nat }.

(** What a [read] of the control device can return. *)
Inductive ctl_out : Type :=
| Out (d : bytes)
| Fail (e : Z)
| Blocked (on_miss : bool).

Section Ctl.
Context {D : Type} `{CtlDev D}.
Abbreviation MW := (M (world D)).

Definition set_list (l : list nat) (w : world D) : world D :=
  World l (w_watch w) (w_miss w) (w_devs w) (w_done w) (w_next w) (w_oom w).
Definition set_watch (m : gmap nat lbd_watcher) (w : world D) : world D :=
  World (w_list w) m (w_miss w) (w_devs w) (w_done w) (w_next w) (w_oom w).
Definition set_miss (m : gmap nat lbd_miss_handler) (w : world D) : world D :=
  World (w_list w) (w_watch w) m (w_devs w) (w_done w) (w_next w) (w_oom w).
Definition set_devs (m : gmap Z (wdev D)) (w : world D) : world D :=
  World (w_list w) (w_watch w) (w_miss w) m (w_done w) (w_next w) (w_oom w).
Definition set_done (l : list (nat * lbd_miss_action)) (w : world D) : world D :=
  World (w_list w) (w_watch w) (w_miss w) (w_devs w) l (w_next w) (w_oom w).

(** [kzalloc]: a fresh pointer, or [None]. *)
Definition w_alloc : MW (option nat) := λ w,
  match w_oom w with
  | true :: l => (Ok None, World (w_list w) (w_watch w) (w_miss w) (w_devs w) (w_done w) (w_next w) l)
  | _ => (Ok (Some (w_next w)),
          World (w_list w) (w_watch w) (w_miss w) (w_devs w) (w_done w) (S (w_next w)) (tail (w_oom w)))
  end.

Definition get_watcher (p : nat) : MW lbd_watcher :=
  w ← get; match w_watch w !! p with Some x => mret x | None => panic end.
Definition put_watcher (p : nat) (x : lbd_watcher) : MW unit :=
  modify (λ w, set_watch (<[p := x]> (w_watch w)) w).
Definition get_handler (p : nat) : MW lbd_miss_handler :=
  w ← get; match w_miss w !! p with Some x => mret x | None => panic end.
Definition put_handler (p : nat) (x : lbd_miss_handler) : MW unit :=
  modify (λ w, set_miss (<[p := x]> (w_miss w)) w).

Definition lbd_watcher_alloc (filter : Z) : MW (option nat) :=
  o ← w_alloc;
  match o with
  | None => mret None
  | Some p => put_watcher p (lbd_watcher_new filter);; mret (Some p)
  end.

(** [lbd_notify_watchers]: the watchers of the list, in order. *)
Fixpoint notify_list (l : list nat) (ev : lbd_watcher_event) : MW unit :=
  match l with
  | [] => mret tt
  | p :: l' =>
      x ← get_watcher p;
      (if (filter_dev x >=? 0) && negb (filter_dev x =? ev_dev_index ev) then mret tt
       else put_watcher p (lbd_watcher_enqueue ev x));;
      notify_list l' ev
  end.

Definition notify_watchers (ev : lbd_watcher_event) : MW unit :=
  w ← get; notify_list (w_list w) ev.

(** ** Misses *)
Definition lbd_miss_handler_alloc (dev_index : Z) : MW (option nat) :=
  o ← w_alloc;
  match o with
  | None => mret None
  | Some p => put_handler p (MissHandler dev_index None false 0);; mret (Some p)
  end.

(** [lbd_qcow2_handle_miss] up to [wait_for_completion]: [false] when there is
    no handler and the thread goes on with [LBD_MISS_CONTINUE] at once. *)
Definition handle_miss_post (thread : nat) (dev : Z) (cluster : Z) : MW bool :=
  w ← get;
  match w_devs w !! dev with
  | None => panic
  | Some x =>
      match wd_miss x with
      | None => mret false
      | Some p =>
          h ← get_handler p;
          put_handler p (MissHandler (mh_dev_index h) (Some thread) true cluster);;
          mret true
      end
  end.

(** The rest of it: [None] while the completion is not done. *)
Definition handle_miss_wait (thread : nat) : MW (option lbd_miss_action) :=
  w ← get; mret (snd <$> find (λ c, Nat.eqb c.1 thread) (w_done w)).

(** [pending->action = a; complete(); pending = NULL]. *)
Definition complete_pending (p : nat) (h : lbd_miss_handler) (a : lbd_miss_action) (ev : bool) : MW unit :=
  match mh_pending h with
  | None => mret tt
  | Some t =>
      modify (λ w, set_done ((t, a) :: w_done w) w);;
      put_handler p (MissHandler (mh_dev_index h) None ev (mh_cluster h))
  end.

(** ** File operations of the control device *)
Definition lbd_ctl_open : MW (option lbd_ctl_state) :=
  o ← w_alloc; mret (match o with None => None | Some _ => Some (CtlState None None) end).

Definition lbd_ctl_release (st : lbd_ctl_state) : MW unit :=
  match cs_watcher st with
  | None => mret tt
  | Some p =>
      get_watcher p;;
      modify (λ w, set_list (filter (λ q, q ≠ p) (w_list w)) w);;
      modify (λ w, set_watch (delete p (w_watch w)) w)
  end;;
  match cs_miss st with
  | None => mret tt
  | Some p =>
      h ← get_handler p;
      modify (λ w, match w_devs w !! mh_dev_index h with
        | Some x => if decide (wd_miss x = Some p)
                    then set_devs (<[mh_dev_index h := WDev (wd_dev x) None]> (w_devs w)) w else w
        | None => w end);;
      complete_pending p h LBD_MISS_CONTINUE (mh_has_event h);;
      modify (λ w, set_miss (delete p (w_miss w)) w)
  end.

(** The command map: command, device and path. *)
Record ctl_cmd : Type := Cmd { c_cmd : option bytes; c_dev : Z; c_path : option bytes }.

Fixpoint parse_keys (fuel : nat) (n : Z) (c : ctl_cmd) : M cbor_dec ctl_cmd :=
  if n <=? 0 then mret c else
  match fuel with
  | O => throw (- EINVAL)
  | S f =>
      key ← cbor_dec_uint;
      if key =? 1 then t ← cbor_dec_text 16; parse_keys f (n - 1) (Cmd (Some (cstr t)) (c_dev c) (c_path c))
      else if key =? 2 then v ← cbor_dec_uint; parse_keys f (n - 1) (Cmd (c_cmd c) (s32 v) (c_path c))
      else if key =? 3 then
        t ← cbor_dec_text LBD_LOG_PATH_MAX; parse_keys f (n - 1) (Cmd (c_cmd c) (c_dev c) (Some (cstr t)))
      else throw (- EINVAL)
  end.

(** Every key reads at least one byte, so the length of the buffer is fuel
    enough for any map. *)
Definition parse_cmd (kbuf : bytes) : res ctl_cmd * cbor_dec :=
  (n ← cbor_dec_map; parse_keys (S (length kbuf)) n (Cmd None (-1) None))
    (cbor_dec_init kbuf (zlen kbuf)).

Definition cmd_watch (st : lbd_ctl_state) (dev count : Z) : MW (Z * lbd_ctl_state) :=
  match cs_watcher st with
  | Some _ => mret (- EBUSY, st)
  | None =>
      o ← lbd_watcher_alloc dev;
      match o with
      | None => mret (- ENOMEM, st)
      | Some p => modify (λ w, set_list (w_list w ++ [p]) w);; mret (count, CtlState (Some p) (cs_miss st))
      end
  end.

Definition cmd_manage_misses (st : lbd_ctl_state) (dev count : Z) : MW (Z * lbd_ctl_state) :=
  match cs_miss st with
  | Some _ => mret (- EBUSY, st)
  | None =>
      if dev <? 0 then mret (- EINVAL, st) else
      o ← lbd_miss_handler_alloc dev;
      match o with
      | None => mret (- ENOMEM, st)
      | Some p =>
          let kfree (e : Z) := modify (λ w, set_miss (delete p (w_miss w)) w);; mret (e, st) in
          w ← get;
          match w_devs w !! dev with
          | None => kfree (- ENODEV)
          | Some x =>
              if negb (d_is_qcow2 (wd_dev x)) then kfree (- EINVAL) else
              match wd_miss x with
              | Some _ => kfree (- EBUSY)
              | None =>
                  modify (λ w, set_devs (<[dev := WDev (wd_dev x) (Some p)]> (w_devs w)) w);;
                  mret (count, CtlState (cs_watcher st) (Some p))
              end
          end
      end
  end.

(** [continue] and [retry]. *)
Definition cmd_respond (a : lbd_miss_action) (st : lbd_ctl_state) (count : Z) : MW (Z * lbd_ctl_state) :=
  match cs_miss st with
  | None => mret (- EINVAL, st)
  | Some p =>
      h ← get_handler p;
      match mh_pending h with
      | None => mret (- EINVAL, st)
      | Some _ => complete_pending p h a false;; mret (count, st)
      end
  end.

Definition cmd_swap (st : lbd_ctl_state) (path : option bytes) (count : Z) : MW (Z * lbd_ctl_state) :=
  match cs_miss st with
  | None => mret (- EINVAL, st)
  | Some p =>
      match path with
      | None | Some [] => mret (- EINVAL, st)
      | Some pth =>
          h ← get_handler p;
          w ← get;
          match w_devs w !! mh_dev_index h with
          | None => mret (- ENODEV, st)
          | Some x =>
              let '(r, d') := d_swap_base pth (wd_dev x) in
              modify (λ w, set_devs (<[mh_dev_index h := WDev d' (wd_miss x)]> (w_devs w)) w);;
              match r with
              | Ok _ => mret (count, st)
              | Err e => mret (e, st)
              | Panic => panic
              end
          end
      end
  end.

(** [copied] is whether [copy_from_user] succeeds. *)
Definition lbd_ctl_write (st : lbd_ctl_state) (ubuf : bytes) (copied : bool) : MW (Z * lbd_ctl_state) :=
  let count := zlen ubuf in
  if count >? 512 then mret (- EINVAL, st)
  else if negb copied then mret (- EFAULT, st) else
  match (parse_cmd ubuf).1 with
  | Panic => panic
  | Err _ => mret (- EINVAL, st)
  | Ok c =>
      match c_cmd c with
      | None => mret (- EINVAL, st)
      | Some cmd =>
          if decide (cmd = str "watch") then cmd_watch st (c_dev c) count
          else if decide (cmd = str "manage_misses") then cmd_manage_misses st (c_dev c) count
          else if decide (cmd = str "continue") then cmd_respond LBD_MISS_CONTINUE st count
          else if decide (cmd = str "retry") then cmd_respond LBD_MISS_RETRY st count
          else if decide (cmd = str "swap") then cmd_swap st (c_path c) count
          else mret (- EINVAL, st)
      end
  end.

Definition miss_has (st : lbd_ctl_state) : MW bool :=
  match cs_miss st with None => mret false | Some p => h ← get_handler p; mret (mh_has_event h) end.
Definition watch_front (st : lbd_ctl_state) : MW (option lbd_watcher_event) :=
  match cs_watcher st with None => mret None | Some p => x ← get_watcher p; mret (lbd_watcher_peek x) end.

Definition lbd_ctl_has_event (st : lbd_ctl_state) : MW bool :=
  m ← miss_has st;
  if (m : bool) then mret true else
  f ← watch_front st;
  mret (match f with Some _ => true | None => false end).

Definition enc_miss_event (dev cluster : Z) : cbor_enc :=
  let e := cbor_enc_map (cbor_enc_init (zeros 512) 512) 3 in
  let e := enc_kt 1 (str "block_miss") e in
  let e := enc_kv 2 (u64 dev) e in
  enc_kv 3 cluster e.

Definition enc_rotate_event (ev : lbd_watcher_event) : cbor_enc :=
  let e := cbor_enc_map (cbor_enc_init (zeros 512) 512) 6 in
  let e := enc_kt 1 (str "log_rotated") e in
  let e := enc_kv 2 (u64 (ev_dev_index ev)) e in
  let e := enc_kt 3 (ev_segment_label ev) e in
  let e := enc_kt 4 (ev_log_dir ev) e in
  let e := enc_kv 5 (ev_log_seq ev) e in
  enc_kv 6 (ev_device_size ev) e.

(** Copy an encoded event out: errors as in the source. *)
Definition copy_out (e : cbor_enc) (count : Z) (copied : bool) : ctl_out :=
  if negb (enc_err e =? 0) then Fail (- EINVAL)
  else if count <? cbor_enc_len e then Fail (- EINVAL)
  else if negb copied then Fail (- EFAULT)
  else Out (enc_out e).

(** A [read] up to the copy to user space, and whether an event is to be popped. *)
Definition ctl_read_front (st : lbd_ctl_state) (nonblock copied : bool) (count : Z) :
  MW (ctl_out * bool) :=
  match cs_watcher st, cs_miss st with
  | None, None => mret (Fail (- EINVAL), false)
  | _, _ =>
      has ← lbd_ctl_has_event st;
      if negb has then
        mret (if nonblock then Fail (- EAGAIN)
              else Blocked (match cs_miss st with Some _ => true | None => false end), false)
      else
      m ← miss_has st;
      match cs_miss st, (m : bool) with
      | Some p, true =>
          h ← get_handler p;
          mret (copy_out (enc_miss_event (mh_dev_index h) (mh_cluster h)) count copied, false)
      | _, _ =>
          f ← watch_front st;
          match f with
          | Some ev =>
              let o := copy_out (enc_rotate_event ev) count copied in
              mret (o, match o with Out _ => true | _ => false end)
          | None => mret (if nonblock then Fail (- EAGAIN) else Blocked false, false)
          end
      end
  end.

(** The pop that follows a successful copy. *)
Definition ctl_read_pop (st : lbd_ctl_state) : MW unit :=
  match cs_watcher st with
  | None => mret tt
  | Some p => x ← get_watcher p; put_watcher p (lbd_watcher_pop x)
  end.

Definition lbd_ctl_read (st : lbd_ctl_state) (nonblock copied : bool) (count : Z) : MW ctl_out :=
  r ← ctl_read_front st nonblock copied count;
  (if snd (r : ctl_out * bool) then ctl_read_pop st else mret tt);;
  mret (fst r).

(** [lbd_ctl_poll]: whether [EPOLLIN] is set. *)
Definition lbd_ctl_poll (st : lbd_ctl_state) : MW bool :=
  m ← miss_has st;
  f ← match cs_watcher st with
      | None => mret false
      | Some p => x ← get_watcher p; mret (w_count x >? 0)
      end;
  mret (m || f).

End Ctl.
