(* ===== verification/WatchProof.v ===== *)
(** * Watcher queues, and the pointers of the control device ([src/src/lbd_main.c])

    The ring of 64 slots implements a queue that drops its oldest event when it
    is full.  Over any interleaving of system calls on any number of control
    descriptors, rotations, misses and device changes, no freed watcher or miss
    handler is reached, and a miss that waits can always be answered. *)
From stdpp Require Import gmap.
From S2P Require Import Prelude Kernel Format Cbor Qcow2State Qcow2Io Log Watch.

(** ** The ring as a queue *)
Record w_wf (w : lbd_watcher) : Prop := {
  ww_len : length (w_queue w) = 64%nat;
  ww_head : 0 ≤ w_head w < 64;
  ww_count : 0 ≤ w_count w ≤ 64;
  ww_tail : w_tail w = (w_head w + w_count w) mod 64
}.

(** The slot of the [i]-th event and the events in order. *)
Definition slot (w : lbd_watcher) (i : nat) : lbd_watcher_event :=
  nth (Z.to_nat ((w_head w + Z.of_nat i) mod 64)) (w_queue w) ev_zero.
Definition wlist (w : lbd_watcher) : list lbd_watcher_event :=
  slot w <$> seq 0 (Z.to_nat (w_count w)).

(** The abstract queue: at most 64 events, the oldest makes room. *)
Definition q_push (ev : lbd_watcher_event) (l : list lbd_watcher_event) : list lbd_watcher_event :=
  (if decide (length l = 64%nat) then tail l else l) ++ [ev].

Lemma length_wlist w : length (wlist w) = Z.to_nat (w_count w).
Proof. unfold wlist. by rewrite length_fmap, length_seq. Qed.

Lemma wlist_lookup w i : (i < Z.to_nat (w_count w))%nat → wlist w !! i = Some (slot w i).
Proof. intros Hi. unfold wlist. by rewrite list_lookup_fmap, lookup_seq_lt by done. Qed.

Lemma new_wf f : w_wf (lbd_watcher_new f) ∧ wlist (lbd_watcher_new f) = [].
Proof. split; [|done]. by split; vm_compute. Qed.

Lemma pop_spec w : w_wf w → w_wf (lbd_watcher_pop w) ∧ wlist (lbd_watcher_pop w) = tail (wlist w) ∧
  filter_dev (lbd_watcher_pop w) = filter_dev w.
Proof.
  intros [Hl Hh Hc Ht]. unfold lbd_watcher_pop. destruct (Z.gtb_spec (w_count w) 0) as [Hp|Hp].
  - split_and!; [split; cbn [w_queue w_head w_tail w_count]; unfold LBD_WATCHER_QUEUE_SIZE; try done; try lia| |done].
    + apply Z.mod_pos_bound; lia.
    + rewrite Ht. rewrite Zplus_mod_idemp_l. f_equal. lia.
    + apply list_eq. intros i. rewrite lookup_tail.
      destruct (decide (i < Z.to_nat (w_count w - 1))%nat) as [Hi|Hi].
      * rewrite !wlist_lookup by (cbn [w_count]; lia). f_equal. unfold slot. cbn [w_head w_queue].
        unfold LBD_WATCHER_QUEUE_SIZE. rewrite Zplus_mod_idemp_l. do 3 f_equal. lia.
      * rewrite !lookup_ge_None_2; [done|..]; rewrite length_wlist; cbn [w_count]; lia.
  - split_and!; [by split| |done]. assert (w_count w = 0) as Hz by lia. unfold wlist. by rewrite Hz.
Qed.

Lemma peek_spec w : w_wf w → lbd_watcher_peek w = head (wlist w).
Proof.
  intros [Hl Hh Hc Ht]. unfold lbd_watcher_peek. destruct (Z.gtb_spec (w_count w) 0) as [Hp|Hp].
  - rewrite head_lookup, wlist_lookup by lia. unfold slot. do 3 f_equal.
    rewrite Z.add_0_r. rewrite Z.mod_small; lia.
  - assert (w_count w = 0) as Hz by lia. unfold wlist. by rewrite Hz.
Qed.

(** Writing the slot after the last event does not touch the queued ones. *)
Lemma slot_insert w ev h i : length (w_queue w) = 64%nat → 0 ≤ h < 64 → (i < 64)%nat →
  ∀ j, (i < j < 64)%nat → 
  nth (Z.to_nat ((h + Z.of_nat i) mod 64)) (<[Z.to_nat ((h + Z.of_nat j) mod 64) := ev]> (w_queue w)) ev_zero
  = nth (Z.to_nat ((h + Z.of_nat i) mod 64)) (w_queue w) ev_zero.
Proof.
  intros Hl Hh Hi j Hj. rewrite !nth_lookup. rewrite list_lookup_insert_ne; [done|].
  intros E. apply Z2Nat.inj in E; [|apply Z.mod_pos_bound; lia..].
  assert (Hd : (Z.of_nat j - Z.of_nat i) mod 64 = 0).
  { replace (Z.of_nat j - Z.of_nat i) with ((h + Z.of_nat j) - (h + Z.of_nat i)) by lia.
    rewrite Zminus_mod, E, Z.sub_diag. done. }
  rewrite Z.mod_small in Hd by lia. lia.
Qed.

(** Pushing on a queue with room. *)
Lemma push_room w ev : w_wf w → w_count w < 64 →
  let w' := Watcher (<[Z.to_nat (w_tail w) := ev]> (w_queue w)) (w_head w) ((w_tail w + 1) mod 64)
              (w_count w + 1) (filter_dev w) in
  w_wf w' ∧ wlist w' = wlist w ++ [ev].
Proof.
  intros [Hl Hh Hc Ht] Hlt. cbv zeta. split.
  { split; cbn [w_queue w_head w_tail w_count]; [by rewrite length_insert|done|lia|].
    rewrite Ht, Zplus_mod_idemp_l. f_equal. lia. }
  apply list_eq. intros i. destruct (decide (i < Z.to_nat (w_count w))%nat) as [Hi|Hi].
  - rewrite wlist_lookup by (cbn [w_count]; lia). rewrite lookup_app_l by (rewrite length_wlist; lia).
    rewrite wlist_lookup by lia. f_equal. unfold slot. cbn [w_head w_queue]. rewrite Ht.
    replace (w_count w) with (Z.of_nat (Z.to_nat (w_count w))) by lia. apply slot_insert; lia.
  - rewrite lookup_app_r by (rewrite length_wlist; lia). rewrite length_wlist.
    destruct (decide (i = Z.to_nat (w_count w))) as [->|Hne].
    + rewrite Nat.sub_diag, wlist_lookup by (cbn [w_count]; lia). simpl. f_equal. unfold slot. cbn [w_head w_queue].
      rewrite Z2Nat.id, <- Ht by lia. rewrite nth_lookup, list_lookup_insert_eq; [done|].
      rewrite Hl, Ht. pose proof (Z.mod_pos_bound (w_head w + w_count w) 64). lia.
    + rewrite lookup_ge_None_2 by (rewrite length_wlist; cbn [w_count]; lia).
      symmetry. apply lookup_ge_None_2. simpl. lia.
Qed.

Lemma enqueue_spec w ev : w_wf w →
  w_wf (lbd_watcher_enqueue ev w) ∧ wlist (lbd_watcher_enqueue ev w) = q_push ev (wlist w) ∧
  filter_dev (lbd_watcher_enqueue ev w) = filter_dev w.
Proof.
  intros Hwf. pose proof Hwf as [Hl Hh Hc Ht]. unfold lbd_watcher_enqueue, q_push, LBD_WATCHER_QUEUE_SIZE.
  rewrite length_wlist. destruct (Z.eqb_spec (w_count w) 64) as [E|E].
  - destruct (pop_spec w Hwf) as (Hwf' & Hpl & _). unfold lbd_watcher_pop, LBD_WATCHER_QUEUE_SIZE in *.
    destruct (Z.gtb_spec (w_count w) 0) as [_|]; [|lia].
    destruct (push_room _ ev Hwf') as [H1 H2]; [cbn [w_count]; lia|]. cbn [w_queue w_head w_tail w_count filter_dev] in *.
    rewrite Hpl in H2. rewrite decide_True by lia. done.
  - destruct (push_room w ev Hwf) as [H1 H2]; [lia|]. rewrite decide_False by lia. done.
Qed.

(** ** Parsing a command: safe, and the fuel is enough *)
Definition dec_left (d : cbor_dec) : nat := Z.to_nat (dec_len d - dec_pos d).

Lemma parse_keys_safe f n c d : dec_wf d → (parse_keys f n c d).1 ≠ Panic.
Proof.
  revert n c d. induction f as [|f IH]; intros n c d Hd; simpl; [by destruct (n <=? 0)|].
  destruct (n <=? 0); [done|]. unfold mbind, M_bind.
  destruct (cbor_dec_uint_safe d Hd) as (H1 & _ & _ & _ & H5).
  destruct (cbor_dec_uint d) as [[key|e|] d1]; simpl in *; [|done..].
  assert (Hcap : LBD_LOG_PATH_MAX < 2 ^ 63) by (unfold LBD_LOG_PATH_MAX; lia).
  destruct (key =? 1); [|destruct (key =? 2); [|destruct (key =? 3); [|done]]].
  - destruct (cbor_dec_text_safe d1 16 H1 ltac:(lia)) as (H6 & _ & _ & _ & H7).
    destruct (cbor_dec_text 16 d1) as [[]]; simpl in *; [by apply IH|done..].
  - destruct (cbor_dec_uint_safe d1 H1) as (H6 & _ & _ & _ & H7).
    destruct (cbor_dec_uint d1) as [[]]; simpl in *; [by apply IH|done..].
  - destruct (cbor_dec_text_safe d1 LBD_LOG_PATH_MAX H1 Hcap) as (H6 & _ & _ & _ & H7).
    destruct (cbor_dec_text LBD_LOG_PATH_MAX d1) as [[]]; simpl in *; [by apply IH|done..].
Qed.

Lemma init_dec_wf buf : zlen buf < 2 ^ 63 → dec_wf (cbor_dec_init buf (zlen buf)).
Proof. intros. unfold dec_wf; simpl. pose proof (zlen_nonneg buf). lia. Qed.

Lemma parse_cmd_safe buf : zlen buf < 2 ^ 63 → (parse_cmd buf).1 ≠ Panic.
Proof.
  intros Hb. unfold parse_cmd, mbind, M_bind.
  destruct (cbor_dec_map_safe _ (init_dec_wf buf Hb)) as (H1 & _ & _ & _ & H5).
  destruct (cbor_dec_map _) as [[]]; [by apply parse_keys_safe|done..].
Qed.

(** Any fuel above the bytes left gives the same result. *)
Lemma parse_keys_fuel f1 f2 n c d : dec_wf d → (dec_left d < f1)%nat → (dec_left d < f2)%nat →
  parse_keys f1 n c d = parse_keys f2 n c d.
Proof.
  revert f2 n c d. induction f1 as [|f1 IH]; intros f2 n c d Hd H1 H2; [lia|].
  destruct f2 as [|f2]; [lia|]. simpl. destruct (n <=? 0); [done|]. unfold mbind, M_bind.
  destruct (cbor_dec_uint_safe d Hd) as (Hw & _ & Hl & Hp & H5).
  destruct (cbor_dec_uint d) as [[key|e|] d1]; simpl in *; [|done..].
  assert (Hcap : LBD_LOG_PATH_MAX < 2 ^ 63) by (unfold LBD_LOG_PATH_MAX; lia).
  destruct (key =? 1); [|destruct (key =? 2); [|destruct (key =? 3); [|done]]].
  - destruct (cbor_dec_text_safe d1 16 Hw ltac:(lia)) as (H6 & _ & H7 & H8 & H9).
    destruct (cbor_dec_text 16 d1) as [[t|e|] d2]; simpl in *; [|done..].
    apply IH; [done|unfold dec_left in *; destruct H6; lia..].
  - destruct (cbor_dec_uint_safe d1 Hw) as (H6 & _ & H7 & H8 & H9).
    destruct (cbor_dec_uint d1) as [[t|e|] d2]; simpl in *; [|done..].
    apply IH; [done|unfold dec_left in *; destruct H6; lia..].
  - destruct (cbor_dec_text_safe d1 LBD_LOG_PATH_MAX Hw Hcap) as (H6 & _ & H7 & H8 & H9).
    destruct (cbor_dec_text LBD_LOG_PATH_MAX d1) as [[t|e|] d2]; simpl in *; [|done..].
    apply IH; [done|unfold dec_left in *; destruct H6; lia..].
Qed.

(** ** The pointers of the control descriptors *)
Section World.
Context {D : Type} `{CtlDev D}.
Implicit Types (w : world D) (fds : gmap nat lbd_ctl_state).

Record world_ok w fds : Prop := {
  wk_nodup : NoDup (w_list w);
  wk_watch k st p : fds !! k = Some st → cs_watcher st = Some p →
    p ∈ w_list w ∧ (∃ x, w_watch w !! p = Some x ∧ w_wf x) ∧ (p < w_next w)%nat;
  wk_listed p : p ∈ w_list w → ∃ k st, fds !! k = Some st ∧ cs_watcher st = Some p;
  wk_uniq_w k1 k2 st1 st2 p : fds !! k1 = Some st1 → fds !! k2 = Some st2 →
    cs_watcher st1 = Some p → cs_watcher st2 = Some p → k1 = k2;
  wk_miss k st p : fds !! k = Some st → cs_miss st = Some p →
    is_Some (w_miss w !! p) ∧ (p < w_next w)%nat;
  wk_uniq_m k1 k2 st1 st2 p : fds !! k1 = Some st1 → fds !! k2 = Some st2 →
    cs_miss st1 = Some p → cs_miss st2 = Some p → k1 = k2;
  wk_dev i x p : w_devs w !! i = Some x → wd_miss x = Some p →
    ∃ k st h, fds !! k = Some st ∧ cs_miss st = Some p ∧ w_miss w !! p = Some h ∧ mh_dev_index h = i
}.

(** [world_ok] only depends on these parts of the world. *)
Lemma world_ok_upd w fds w' : world_ok w fds → w_list w' = w_list w → w_watch w' = w_watch w →
  w_miss w' = w_miss w → w_devs w' = w_devs w → (w_next w ≤ w_next w')%nat → world_ok w' fds.
Proof.
  intros [] E1 E2 E3 E4 Hn. split; rewrite ?E1, ?E2, ?E3, ?E4; try done.
  - intros k st p Hk Hp. destruct (wk_watch0 k st p Hk Hp) as (? & ? & ?). split_and!; try done. lia.
  - intros k st p Hk Hp. destruct (wk_miss0 k st p Hk Hp) as (? & ?). split; [done|lia].
Qed.

Lemma get_watcher_ok w fds k st p : world_ok w fds → fds !! k = Some st → cs_watcher st = Some p →
  ∃ x, get_watcher p w = (Ok x, w) ∧ w_watch w !! p = Some x ∧ w_wf x.
Proof.
  intros Hw Hk Hp. destruct (wk_watch _ _ Hw k st p Hk Hp) as (_ & (x & Hx & Hwf) & _).
  exists x. unfold get_watcher. munfold. by rewrite Hx.
Qed.

Lemma get_handler_ok w fds k st p : world_ok w fds → fds !! k = Some st → cs_miss st = Some p →
  ∃ h, get_handler p w = (Ok h, w) ∧ w_miss w !! p = Some h.
Proof.
  intros Hw Hk Hp. destruct (wk_miss _ _ Hw k st p Hk Hp) as ([h Hh] & _).
  exists h. unfold get_handler. munfold. by rewrite Hh.
Qed.

(** Replacing a queue by another well-formed one, a handler by one of the same device. *)
Lemma put_watcher_ok w fds p x : world_ok w fds → w_wf x →
  world_ok (set_watch (<[p := x]> (w_watch w)) w) fds.
Proof.
  intros [] Hx. split; simpl; try done. intros k st q Hk Hq.
  destruct (wk_watch0 k st q Hk Hq) as (? & (y & Hy & ?) & ?). split_and!; [done| |done].
  destruct (decide (p = q)) as [->|]; [by exists x; rewrite lookup_insert_eq|].
  exists y. by rewrite lookup_insert_ne.
Qed.

Lemma put_handler_ok w fds p h h' : world_ok w fds → w_miss w !! p = Some h →
  mh_dev_index h' = mh_dev_index h → world_ok (set_miss (<[p := h']> (w_miss w)) w) fds.
Proof.
  intros [] Hh E. split; simpl; try done.
  - intros k st q Hk Hq. destruct (wk_miss0 k st q Hk Hq). split; [|done].
    destruct (decide (p = q)) as [->|]; [by rewrite lookup_insert_eq|by rewrite lookup_insert_ne].
  - intros i x q Hx Hq. destruct (wk_dev0 i x q Hx Hq) as (k & st & g & ? & ? & Hg & ?).
    destruct (decide (p = q)) as [->|]; [|exists k, st, g; by rewrite lookup_insert_ne].
    exists k, st, h'. rewrite lookup_insert_eq. split_and!; try done. by rewrite E; simplify_eq.
Qed.

(** Changing a device without changing its handler. *)
Lemma set_dev_ok w fds i x d' : world_ok w fds → w_devs w !! i = Some x →
  world_ok (set_devs (<[i := WDev d' (wd_miss x)]> (w_devs w)) w) fds.
Proof.
  intros [] Hx. split; simpl; try done. intros j y p Hy Hp.
  destruct (decide (i = j)) as [->|]; [rewrite lookup_insert_eq in Hy|rewrite lookup_insert_ne in Hy by done].
  - simplify_eq. by apply (wk_dev0 j x p).
  - by apply (wk_dev0 j y p).
Qed.

(** [kzalloc] fails, or returns a pointer no descriptor knows. *)
Lemma w_alloc_ok w fds : world_ok w fds →
  ∃ o w', w_alloc w = (Ok o, w') ∧ world_ok w' fds ∧ w_list w' = w_list w ∧ w_watch w' = w_watch w ∧
    w_miss w' = w_miss w ∧ w_devs w' = w_devs w ∧ w_done w' = w_done w ∧
    (o = None ∨ (o = Some (w_next w) ∧ w_next w' = S (w_next w))).
Proof.
  intros Hw. unfold w_alloc. destruct (w_oom w) as [|[] l] eqn:E; eexists _, _.
  all: split; [reflexivity|]; split; [by apply (world_ok_upd w); simpl; try done; lia|]; simpl;
    split_and!; try done; eauto.
Qed.

Lemma fresh_not_watched w fds k st p : world_ok w fds → fds !! k = Some st →
  cs_watcher st = Some p → p ≠ w_next w.
Proof. intros Hw Hk Hp ->. destruct (wk_watch _ _ Hw k st _ Hk Hp) as (_ & _ & ?). lia. Qed.

Lemma fresh_not_missed w fds k st p : world_ok w fds → fds !! k = Some st →
  cs_miss st = Some p → p ≠ w_next w.
Proof. intros Hw Hk Hp ->. destruct (wk_miss _ _ Hw k st _ Hk Hp) as (_ & ?). lia. Qed.

(** Writing back the state of a descriptor that did not change. *)
Lemma same_fd fds k (st : lbd_ctl_state) : fds !! k = Some st → <[k := st]> fds = fds.
Proof. apply insert_id. Qed.

Lemma add_watcher_ok w fds k st p x : world_ok w fds → fds !! k = Some st → cs_watcher st = None →
  w_wf x → p = w_next w →
  world_ok (World (w_list w ++ [p]) (<[p := x]> (w_watch w)) (w_miss w) (w_devs w) (w_done w)
    (S (w_next w)) (w_oom w)) (<[k := CtlState (Some p) (cs_miss st)]> fds).
Proof.
  intros Hw Hk Hn Hx Hp. pose proof (fresh_not_watched w fds) as Hfr. pose proof Hw as [W1 W2 W3 W4 W5 W6 W7].
  assert (Hnl : p ∉ w_list w).
  { intros Hin. destruct (W3 p Hin) as (k' & st' & Hk' & Hp'). by apply (Hfr k' st' p Hw Hk' Hp'). }
  split; simpl.
  - apply list.NoDup_app. split_and!; [done| |apply NoDup_singleton].
    intros q Hq ->%list_elem_of_singleton. done.
  - intros k' st' q Hk' Hq. destruct (decide (k = k')) as [->|Hne].
    + rewrite lookup_insert_eq in Hk'. simplify_eq/=. split_and!; [|by exists x; rewrite lookup_insert_eq|lia].
      apply elem_of_app. right. by apply list_elem_of_singleton.
    + rewrite lookup_insert_ne in Hk' by done. destruct (W2 k' st' q Hk' Hq) as (Hi & (y & Hy & Hwf) & Hlt).
      split_and!; [apply elem_of_app; by left| |lia]. exists y. rewrite lookup_insert_ne; [done|]. subst p. lia.
  - intros q Hq. apply elem_of_app in Hq as [Hq| ->%list_elem_of_singleton].
    + destruct (W3 q Hq) as (k' & st' & Hk' & Hq'). exists k', st'. rewrite lookup_insert_ne; [done|].
      intros ->. congruence.
    + exists k, (CtlState (Some p) (cs_miss st)). by rewrite lookup_insert_eq.
  - intros k1 k2 st1 st2 q H1 H2 E1 E2.
    destruct (decide (k1 = k)) as [->|], (decide (k2 = k)) as [->|]; try done.
    + rewrite lookup_insert_eq in H1. rewrite lookup_insert_ne in H2 by done. simplify_eq/=.
      by destruct (Hfr k2 st2 _ Hw H2 E2).
    + rewrite lookup_insert_eq in H2. rewrite lookup_insert_ne in H1 by done. simplify_eq/=.
      by destruct (Hfr k1 st1 _ Hw H1 E1).
    + rewrite lookup_insert_ne in H1, H2 by done. by apply (W4 k1 k2 st1 st2 q).
  - intros k' st' q Hk' Hq. destruct (decide (k = k')) as [->|Hne].
    + rewrite lookup_insert_eq in Hk'. simplify_eq/=. destruct (W5 _ _ _ Hk Hq). split; [done|lia].
    + rewrite lookup_insert_ne in Hk' by done. destruct (W5 _ _ _ Hk' Hq). split; [done|lia].
  - intros k1 k2 st1 st2 q H1 H2 E1 E2.
    assert (Hm : ∀ k' st', <[k := CtlState (Some p) (cs_miss st)]> fds !! k' = Some st' →
      ∃ st0, fds !! k' = Some st0 ∧ cs_miss st0 = cs_miss st').
    { intros k' st' Hk'. destruct (decide (k = k')) as [->|];
        [rewrite lookup_insert_eq in Hk'|rewrite lookup_insert_ne in Hk' by done]; simplify_eq; by eexists. }
    destruct (Hm _ _ H1) as (s1 & ? & Ea). destruct (Hm _ _ H2) as (s2 & ? & Eb).
    apply (W6 k1 k2 s1 s2 q); congruence.
  - intros i y q Hy Hq. destruct (W7 i y q Hy Hq) as (k' & st' & h & Hk' & Hq' & Hh & Hi).
    destruct (decide (k = k')) as [->|].
    + exists k', (CtlState (Some p) (cs_miss st)), h. rewrite lookup_insert_eq. simplify_eq. by split_and!.
    + exists k', st', h. by rewrite lookup_insert_ne.
Qed.

Lemma cmd_watch_ok w fds k st dev count : world_ok w fds → fds !! k = Some st →
  ∃ r st' w', cmd_watch st dev count w = (Ok (r, st'), w') ∧ world_ok w' (<[k := st']> fds).
Proof.
  intros Hw Hk. unfold cmd_watch. destruct (cs_watcher st) as [p|] eqn:Ew.
  { eexists _, st, w. split; [done|]. by rewrite same_fd. }
  unfold lbd_watcher_alloc.
  destruct (w_alloc_ok w fds Hw) as (o & w1 & E & Hw1 & E1 & E2 & E3 & E4 & E5 & [->|[-> En]]).
  - rewrite (bind_ok _ _ w None w1) by (by mstep E). eexists _, st, w1. split; [done|]. by rewrite same_fd.
  - set (x := lbd_watcher_new dev). set (w2 := set_watch (<[w_next w := x]> (w_watch w1)) w1).
    rewrite (bind_ok _ _ w (Some (w_next w)) w2) by (by mstep E).
    eexists _, _, _. split; [done|].
    pose proof (add_watcher_ok w fds k st (w_next w) x Hw Hk Ew (proj1 (new_wf dev)) eq_refl) as Hres.
    apply (world_ok_upd _ _ _ Hres); simpl; rewrite ?E1, ?E2, ?E3, ?E4; [done..|]. lia.
Qed.

(** A handler no descriptor refers to can come and go. *)
Lemma unowned_miss_ok w fds p m' : world_ok w fds →
  (∀ k st, fds !! k = Some st → cs_miss st ≠ Some p) → (∀ q, q ≠ p → m' !! q = w_miss w !! q) →
  world_ok (set_miss m' w) fds.
Proof.
  intros [] Hno Hm. split; simpl; try done.
  - intros k st q Hk Hq. rewrite Hm; [by apply (wk_miss0 k st)|]. intros ->. by apply (Hno k st).
  - intros i x q Hx Hq. destruct (wk_dev0 i x q Hx Hq) as (k & st & h & Hk & Hq' & Hh & Hi).
    exists k, st, h. rewrite Hm; [done|]. intros ->. by apply (Hno k st).
Qed.

Lemma add_handler_ok w fds k st p dev x : world_ok w fds → fds !! k = Some st → cs_miss st = None →
  (∀ k st, fds !! k = Some st → cs_miss st ≠ Some p) → (p < w_next w)%nat →
  w_miss w !! p = Some (MissHandler dev None false 0) → w_devs w !! dev = Some x → wd_miss x = None →
  world_ok (set_devs (<[dev := WDev (wd_dev x) (Some p)]> (w_devs w)) w)
    (<[k := CtlState (cs_watcher st) (Some p)]> fds).
Proof.
  intros [W1 W2 W3 W4 W5 W6 W7] Hk Hn Hno Hlt Hp Hx Hxm.
  set (st' := CtlState (cs_watcher st) (Some p)).
  assert (Hw : ∀ k' s', <[k := st']> fds !! k' = Some s' →
    ∃ s0, fds !! k' = Some s0 ∧ cs_watcher s0 = cs_watcher s').
  { intros k' s' Hk'. destruct (decide (k' = k)) as [->|];
      [rewrite lookup_insert_eq in Hk'|rewrite lookup_insert_ne in Hk' by done]; simplify_eq; by eexists. }
  split; simpl; try done.
  - intros k' s' q Hk' Hq. destruct (Hw _ _ Hk') as (s0 & H0 & E0). apply (W2 k' s0 q); congruence.
  - intros q Hq. destruct (W3 q Hq) as (k' & s' & Hk' & Hq'). destruct (decide (k' = k)) as [->|].
    + exists k, st'. rewrite lookup_insert_eq. simplify_eq. done.
    + exists k', s'. by rewrite lookup_insert_ne.
  - intros k1 k2 s1 s2 q H1 H2 E1 E2. destruct (Hw _ _ H1) as (a & ? & Ea). destruct (Hw _ _ H2) as (b & ? & Eb).
    apply (W4 k1 k2 a b q); congruence.
  - intros k' s' q Hk' Hq. destruct (decide (k' = k)) as [->|].
    + rewrite lookup_insert_eq in Hk'. simplify_eq/=. by rewrite Hp.
    + rewrite lookup_insert_ne in Hk' by done. by apply (W5 k' s').
  - intros k1 k2 s1 s2 q H1 H2 E1 E2.
    destruct (decide (k1 = k)) as [->|], (decide (k2 = k)) as [->|]; try done.
    + rewrite lookup_insert_eq in H1. rewrite lookup_insert_ne in H2 by done. simplify_eq/=. by destruct (Hno k2 s2).
    + rewrite lookup_insert_eq in H2. rewrite lookup_insert_ne in H1 by done. simplify_eq/=. by destruct (Hno k1 s1).
    + rewrite lookup_insert_ne in H1, H2 by done. by apply (W6 k1 k2 s1 s2 q).
  - intros i y q Hy Hq. destruct (decide (i = dev)) as [->|].
    + rewrite lookup_insert_eq in Hy. simplify_eq/=. exists k, st', (MissHandler dev None false 0).
      by rewrite lookup_insert_eq.
    + rewrite lookup_insert_ne in Hy by done. destruct (W7 i y q Hy Hq) as (k' & s' & h & Hk' & Hq' & Hh & Hi).
      exists k', s', h. rewrite lookup_insert_ne; [done|]. intros ->. congruence.
Qed.

Lemma cmd_manage_ok w fds k st dev count : world_ok w fds → fds !! k = Some st →
  ∃ r st' w', cmd_manage_misses st dev count w = (Ok (r, st'), w') ∧ world_ok w' (<[k := st']> fds).
Proof.
  intros Hw Hk. assert (Hid : <[k := st]> fds = fds) by (by apply insert_id).
  unfold cmd_manage_misses. destruct (cs_miss st) as [p|] eqn:Em.
  { eexists _, st, w. by rewrite Hid. }
  destruct (dev <? 0). { eexists _, st, w. by rewrite Hid. }
  unfold lbd_miss_handler_alloc.
  destruct (w_alloc_ok w fds Hw) as (o & w1 & E & Hw1 & E1 & E2 & E3 & E4 & E5 & [->|[-> En]]).
  { rewrite (bind_ok _ _ w None w1) by (by mstep E). eexists _, st, w1. by rewrite Hid. }
  set (p := w_next w) in *. set (h := MissHandler dev None false 0).
  set (w2 := set_miss (<[p := h]> (w_miss w1)) w1).
  rewrite (bind_ok _ _ w (Some p) w2) by (by mstep E). cbn beta iota.
  assert (Hno : ∀ k' s', fds !! k' = Some s' → cs_miss s' ≠ Some p).
  { intros k' s' Hk' Hp. by apply (fresh_not_missed w fds k' s' p Hw Hk' Hp). }
  assert (Hw2 : world_ok w2 fds).
  { apply (unowned_miss_ok w1 fds p); [done..|]. intros q Hq. by rewrite lookup_insert_ne. }
  assert (Hfree : ∀ e : Z, ∃ r st' w',
    ((modify (λ w, set_miss (delete p (w_miss w)) w) : M (world D) unit);; mret (e, st)) w2
      = (Ok (r, st'), w') ∧ world_ok w' (<[k := st']> fds)).
  { intros e. eexists _, st, _. split; [done|]. rewrite Hid. apply (unowned_miss_ok w2 fds p); [done..|].
    intros q Hq. by rewrite lookup_delete_ne. }
  rewrite (bind_ok get _ w2 w2 w2) by done. change (w_devs w2) with (w_devs w1). rewrite E4.
  destruct (w_devs w !! dev) as [x|] eqn:Ex; [|apply Hfree].
  destruct (negb (d_is_qcow2 (wd_dev x))); [apply Hfree|].
  destruct (wd_miss x) as [q|] eqn:Exm; [apply Hfree|].
  eexists _, _, _. split; [done|]. apply (add_handler_ok w2 fds k st p dev x); try done.
  - simpl. rewrite En. lia.
  - simpl. by rewrite lookup_insert_eq.
  - simpl. by rewrite E4.
Qed.

(** Completing a miss of a handler. *)
Lemma complete_ok w fds p h a ev : world_ok w fds → w_miss w !! p = Some h →
  ∃ w', complete_pending p h a ev w = (Ok tt, w') ∧ world_ok w' fds ∧ w_devs w' = w_devs w ∧
    w_list w' = w_list w ∧ w_watch w' = w_watch w ∧
    (∀ t, mh_pending h = Some t → w_done w' = (t, a) :: w_done w ∧
       w_miss w' = <[p := MissHandler (mh_dev_index h) None ev (mh_cluster h)]> (w_miss w)) ∧
    (mh_pending h = None → w' = w).
Proof.
  intros Hw Hp. unfold complete_pending. destruct (mh_pending h) as [t|] eqn:Et.
  - eexists. split; [done|]. split; [|simpl; split_and!; [done..| |done]; intros ? [= <-]; done].
    apply (put_handler_ok (set_done ((t, a) :: w_done w) w) fds p h); try done. by apply (world_ok_upd w).
  - exists w. split_and!; try done.
Qed.

Lemma cmd_respond_ok a w fds k st count : world_ok w fds → fds !! k = Some st →
  ∃ r st' w', cmd_respond a st count w = (Ok (r, st'), w') ∧ world_ok w' (<[k := st']> fds).
Proof.
  intros Hw Hk. assert (Hid : <[k := st]> fds = fds) by (by apply insert_id).
  unfold cmd_respond. destruct (cs_miss st) as [p|] eqn:Em; [|eexists _, st, w; by rewrite Hid].
  destruct (get_handler_ok w fds k st p Hw Hk Em) as (h & E & Hh). mstep E.
  destruct (mh_pending h) as [t|] eqn:Et; [|eexists _, st, w; by rewrite Hid].
  destruct (complete_ok w fds p h a false Hw Hh) as (w' & E' & Hw' & _). mstep E'.
  eexists _, st, w'. by rewrite Hid.
Qed.

(** The swap of some device is itself undefined behaviour. *)
Definition swap_panics w : Prop :=
  ∃ i x p, w_devs w !! i = Some x ∧ (d_swap_base p (wd_dev x)).1 = Panic.

Lemma cmd_swap_ok w fds k st path count : world_ok w fds → fds !! k = Some st →
  ((cmd_swap st path count w).1 = Panic ∧ swap_panics w) ∨
  ∃ r st' w', cmd_swap st path count w = (Ok (r, st'), w') ∧ world_ok w' (<[k := st']> fds).
Proof.
  intros Hw Hk. assert (Hid : <[k := st]> fds = fds) by (by apply insert_id).
  unfold cmd_swap. destruct (cs_miss st) as [p|] eqn:Em; [|right; eexists _, st, w; by rewrite Hid].
  destruct path as [[|b pth]|]; [right; eexists _, st, w; by rewrite Hid| |right; eexists _, st, w; by rewrite Hid].
  destruct (get_handler_ok w fds k st p Hw Hk Em) as (h & E & Hh). mstep E.
  rewrite (bind_ok get _ w w w) by done.
  destruct (w_devs w !! mh_dev_index h) as [x|] eqn:Ex; [|right; eexists _, st, w; by rewrite Hid].
  destruct (d_swap_base (b :: pth) (wd_dev x)) as [r d'] eqn:Es.
  rewrite (bind_ok (modify _) _ w tt _) by done.
  pose proof (set_dev_ok w fds (mh_dev_index h) x d' Hw Ex).
  destruct r as [u|e|]; [right; eexists _, st, _; by rewrite Hid..|].
  left. split; [done|]. exists (mh_dev_index h), x, (b :: pth). by rewrite Es.
Qed.

Lemma ctl_write_ok w fds k st ubuf copied : world_ok w fds → fds !! k = Some st →
  ((lbd_ctl_write st ubuf copied w).1 = Panic ∧ swap_panics w) ∨
  ∃ r st' w', lbd_ctl_write st ubuf copied w = (Ok (r, st'), w') ∧ world_ok w' (<[k := st']> fds).
Proof.
  intros Hw Hk. assert (Hid : <[k := st]> fds = fds) by (by apply insert_id).
  assert (Herr : ∀ e : Z, ∃ r st' w', (mret (e, st) : M (world D) _) w = (Ok (r, st'), w') ∧
    world_ok w' (<[k := st']> fds)) by (intros e; eexists _, st, w; by rewrite Hid).
  unfold lbd_ctl_write. cbv zeta. destruct (Z.gtb_spec (zlen ubuf) 512); [right; apply Herr|].
  destruct (negb copied); [right; apply Herr|].
  pose proof (parse_cmd_safe ubuf ltac:(lia)) as Hp. destruct (parse_cmd ubuf).1 as [c|e|]; [|right; apply Herr|done].
  destruct (c_cmd c) as [cmd|]; [|right; apply Herr].
  repeat case_decide; [right; by apply cmd_watch_ok|right; by apply cmd_manage_ok
    |right; by apply cmd_respond_ok..|by apply cmd_swap_ok|right; apply Herr].
Qed.

Lemma miss_has_ok w fds k st : world_ok w fds → fds !! k = Some st →
  ∃ b, miss_has st w = (Ok b, w) ∧ (b = true → is_Some (cs_miss st)).
Proof.
  intros Hw Hk. unfold miss_has. destruct (cs_miss st) as [p|] eqn:Em; [|by exists false].
  destruct (get_handler_ok w fds k st p Hw Hk Em) as (h & E & Hh). mstep E. by exists (mh_has_event h).
Qed.

Lemma watch_front_ok w fds k st : world_ok w fds → fds !! k = Some st →
  ∃ f, watch_front st w = (Ok f, w).
Proof.
  intros Hw Hk. unfold watch_front. destruct (cs_watcher st) as [p|] eqn:Em; [|by exists None].
  destruct (get_watcher_ok w fds k st p Hw Hk Em) as (x & E & _). mstep E. by eexists.
Qed.

Lemma read_front_ok w fds k st nb cp count : world_ok w fds → fds !! k = Some st →
  ∃ r, ctl_read_front st nb cp count w = (Ok r, w).
Proof.
  intros Hw Hk. destruct (miss_has_ok w fds k st Hw Hk) as (m & E & Hm).
  destruct (watch_front_ok w fds k st Hw Hk) as (f & Ef).
  assert (Eh : ∃ b, lbd_ctl_has_event st w = (Ok b, w)).
  { unfold lbd_ctl_has_event. mstep E. destruct m; [by exists true|]. mstep Ef. by eexists. }
  destruct Eh as (b & Eh).
  assert (Hmain : ∃ r, (has ← lbd_ctl_has_event st;
      if negb has then
        mret (if nb then Fail (- EAGAIN)
              else Blocked (match cs_miss st with Some _ => true | None => false end), false)
      else
      m ← miss_has st;
      match cs_miss st, (m : bool) with
      | Some p, true =>
          h ← get_handler p;
          mret (copy_out (enc_miss_event (mh_dev_index h) (mh_cluster h)) count cp, false)
      | _, _ =>
          f ← watch_front st;
          match f with
          | Some ev =>
              let o := copy_out (enc_rotate_event ev) count cp in
              mret (o, match o with Out _ => true | _ => false end)
          | None => mret (if nb then Fail (- EAGAIN) else Blocked false, false)
          end
      end) w = (Ok r, w)).
  { mstep Eh. destruct (negb b); [by eexists|]. mstep E. destruct (cs_miss st) as [p|] eqn:Em.
    - destruct m; [|mstep Ef; destruct f; by eexists].
      destruct (get_handler_ok w fds k st p Hw Hk Em) as (h & Eg & _). mstep Eg. by eexists.
    - mstep Ef. destruct f; by eexists. }
  unfold ctl_read_front. destruct (cs_watcher st); [exact Hmain|]. destruct (cs_miss st); [exact Hmain|by eexists].
Qed.

Lemma read_pop_ok w fds k st : world_ok w fds → fds !! k = Some st →
  ∃ w', ctl_read_pop st w = (Ok tt, w') ∧ world_ok w' fds.
Proof.
  intros Hw Hk. unfold ctl_read_pop. destruct (cs_watcher st) as [p|] eqn:Em; [|by exists w].
  destruct (get_watcher_ok w fds k st p Hw Hk Em) as (x & E & _ & Hx). mstep E.
  eexists. split; [done|]. apply put_watcher_ok; [done|]. by apply pop_spec.
Qed.

Lemma ctl_read_ok w fds k st nb cp count : world_ok w fds → fds !! k = Some st →
  ∃ o w', lbd_ctl_read st nb cp count w = (Ok o, w') ∧ world_ok w' fds.
Proof.
  intros Hw Hk. destruct (read_front_ok w fds k st nb cp count Hw Hk) as (r & E).
  unfold lbd_ctl_read. mstep E. destruct (snd r).
  - destruct (read_pop_ok w fds k st Hw Hk) as (w' & E' & Hw'). mstep E'. by eexists _, w'.
  - rewrite (bind_ok (mret tt) _ w tt w) by done. by eexists _, w.
Qed.

Lemma ctl_poll_ok w fds k st : world_ok w fds → fds !! k = Some st →
  ∃ b, lbd_ctl_poll st w = (Ok b, w).
Proof.
  intros Hw Hk. destruct (miss_has_ok w fds k st Hw Hk) as (m & E & _). unfold lbd_ctl_poll. mstep E.
  destruct (cs_watcher st) as [p|] eqn:Em; [|rewrite (bind_ok (mret false) _ w false w) by done; by eexists].
  destruct (get_watcher_ok w fds k st p Hw Hk Em) as (x & Ex & _).
  rewrite (bind_ok _ _ w (w_count x >? 0) w) by (by mstep Ex). by eexists.
Qed.

(** Every watcher that wants the event gets it once, the others are unchanged. *)
Definition wants (ev : lbd_watcher_event) (x : lbd_watcher) : bool :=
  (filter_dev x <? 0) || (filter_dev x =? ev_dev_index ev).

Lemma wants_skip ev x :
  (filter_dev x >=? 0) && negb (filter_dev x =? ev_dev_index ev) = negb (wants ev x).
Proof.
  unfold wants. destruct (Z.geb_spec (filter_dev x) 0), (Z.ltb_spec (filter_dev x) 0); try lia;
    by destruct (filter_dev x =? ev_dev_index ev).
Qed.

Definition notified_as (ev : lbd_watcher_event) (x y : lbd_watcher) : Prop :=
  y = if wants ev x then lbd_watcher_enqueue ev x else x.

Lemma notify_list_ok fds ev l w : world_ok w fds → NoDup l → (∀ p, p ∈ l → p ∈ w_list w) →
  ∃ w', notify_list l ev w = (Ok tt, w') ∧ world_ok w' fds ∧ w_list w' = w_list w ∧
    (∀ p x, p ∈ l → w_watch w !! p = Some x → ∃ y, w_watch w' !! p = Some y ∧ notified_as ev x y) ∧
    (∀ p, p ∉ l → w_watch w' !! p = w_watch w !! p).
Proof.
  revert w. induction l as [|p l IH]; intros w Hw Hnd Hl; simpl.
  { exists w. split_and!; try done. by intros ? ? ?%elem_of_nil. }
  apply list.NoDup_cons in Hnd as [Hp Hnd].
  destruct (wk_listed _ _ Hw p ltac:(apply Hl; by left)) as (k & st & Hk & Hst).
  destruct (get_watcher_ok w fds k st p Hw Hk Hst) as (x & E & Hx & Hwf). mstep E. rewrite wants_skip.
  set (y := if wants ev x then lbd_watcher_enqueue ev x else x).
  assert (Hstep : ∃ w1, (if negb (wants ev x) then mret tt else put_watcher p (lbd_watcher_enqueue ev x)) w
    = (Ok tt, w1) ∧ world_ok w1 fds ∧ w_list w1 = w_list w ∧ w_watch w1 = <[p := y]> (w_watch w)).
  { subst y. destruct (wants ev x); simpl.
    - eexists. split_and!; [done| |done..]. apply put_watcher_ok; [done|]. by apply enqueue_spec.
    - exists w. split_and!; try done. by rewrite insert_id. }
  destruct Hstep as (w1 & E1 & Hw1 & Hl1 & Hm1). mstep E1.
  destruct (IH w1 Hw1 Hnd) as (w' & E' & Hw' & Hl' & Hin & Hout).
  { intros q Hq. rewrite Hl1. apply Hl. by right. }
  exists w'. split_and!; [done|done|congruence| |].
  - intros q z Hq Hz. apply elem_of_cons in Hq as [-> |Hq].
    + exists y. rewrite (Hout p Hp), Hm1, lookup_insert_eq. split; [done|]. simplify_eq. done.
    + apply Hin; [done|]. rewrite Hm1, lookup_insert_ne; [done|]. by intros ->.
  - intros q Hq. apply not_elem_of_cons in Hq as [Hq1 Hq2]. rewrite (Hout q Hq2), Hm1. by rewrite lookup_insert_ne.
Qed.

(** ** Release *)
Lemma release_watcher_ok w fds k st : world_ok w fds → fds !! k = Some st →
  ∃ w', match cs_watcher st with
    | None => mret tt
    | Some p => get_watcher p;; modify (λ w, set_list (filter (λ q, q ≠ p) (w_list w)) w);;
        modify (λ w, set_watch (delete p (w_watch w)) w)
    end w = (Ok tt, w') ∧ world_ok w' (<[k := CtlState None (cs_miss st)]> fds) ∧
    w_miss w' = w_miss w ∧ w_devs w' = w_devs w ∧ w_done w' = w_done w.
Proof.
  intros Hw Hk. destruct st as [[p|] ms]; simpl.
  2:{ exists w. split_and!; try done. by rewrite insert_id. }
  destruct (get_watcher_ok w fds k _ p Hw Hk eq_refl) as (x & E & _). mstep E.
  eexists. split; [done|]. split; [|done]. destruct Hw as [W1 W2 W3 W4 W5 W6 W7].
  set (st' := CtlState None ms).
  assert (Hm : ∀ k' s', <[k := st']> fds !! k' = Some s' →
    ∃ s0, fds !! k' = Some s0 ∧ cs_miss s0 = cs_miss s' ∧ (is_Some (cs_watcher s') → k' ≠ k ∧ s0 = s')).
  { intros k' s' Hk'. destruct (decide (k' = k)) as [->|];
      [rewrite lookup_insert_eq in Hk'|rewrite lookup_insert_ne in Hk' by done]; simplify_eq/=.
    - eexists. split_and!; [done..|]. by intros [? [=]].
    - eexists. by split_and!. }
  split; simpl.
  - by apply list.NoDup_filter.
  - intros k' s' q Hk' Hq. destruct (Hm _ _ Hk') as (s0 & H0 & _ & Hs). destruct (Hs ltac:(by eexists)) as [Hne ->].
    destruct (W2 k' s' q H0 Hq) as (Hin & (y & Hy & Hwf) & Hlt).
    assert (q ≠ p) by (intros ->; apply Hne; by apply (W4 k' k s' _ p H0 Hk)).
    split_and!; [by apply list_elem_of_filter|by exists y; rewrite lookup_delete_ne|done].
  - intros q Hq. apply list_elem_of_filter in Hq as [Hq Hin]. destruct (W3 q Hin) as (k' & s' & Hk' & Hq').
    exists k', s'. rewrite lookup_insert_ne; [done|]. intros <-. rewrite Hk in Hk'. simplify_eq/=.
  - intros k1 k2 s1 s2 q H1 H2 E1 E2. destruct (Hm _ _ H1) as (a & ? & _ & Ha).
    destruct (Hm _ _ H2) as (b & ? & _ & Hb). destruct (Ha ltac:(by eexists)) as [_ ->].
    destruct (Hb ltac:(by eexists)) as [_ ->]. by apply (W4 k1 k2 s1 s2 q).
  - intros k' s' q Hk' Hq. destruct (Hm _ _ Hk') as (s0 & H0 & E0 & _). apply (W5 k' s0 q); congruence.
  - intros k1 k2 s1 s2 q H1 H2 E1 E2. destruct (Hm _ _ H1) as (a & ? & Ea & _).
    destruct (Hm _ _ H2) as (b & ? & Eb & _). apply (W6 k1 k2 a b q); congruence.
  - intros i y q Hy Hq. destruct (W7 i y q Hy Hq) as (k' & s' & h & Hk' & Hq' & Hh & Hi).
    destruct (decide (k' = k)) as [->|].
    + exists k, st', h. rewrite lookup_insert_eq. simplify_eq/=. by split_and!.
    + exists k', s', h. by rewrite lookup_insert_ne.
Qed.

(** Dropping a descriptor that refers to nothing. *)
Lemma drop_fd_ok w fds k : world_ok w fds → fds !! k = Some (CtlState None None) → world_ok w (delete k fds).
Proof.
  intros [W1 W2 W3 W4 W5 W6 W7] Hk.
  assert (Hm : ∀ k' s', delete k fds !! k' = Some s' → fds !! k' = Some s')
    by (intros k' s' Hk'; by apply lookup_delete_Some in Hk' as [_ ?]).
  split; [done|eauto| |intros k1 k2 s1 s2 p H1 H2; apply (W4 k1 k2 s1 s2 p); by apply Hm
    |eauto|intros k1 k2 s1 s2 p H1 H2; apply (W6 k1 k2 s1 s2 p); by apply Hm|].
  - intros p Hp. destruct (W3 p Hp) as (k' & s' & Hk' & Hs'). exists k', s'. rewrite lookup_delete_ne; [done|].
    intros <-. rewrite Hk in Hk'. by simplify_eq.
  - intros i x p Hx Hp. destruct (W7 i x p Hx Hp) as (k' & s' & h & Hk' & Hs' & ?). exists k', s', h.
    rewrite lookup_delete_ne; [done|]. intros <-. rewrite Hk in Hk'. by simplify_eq.
Qed.

(** Releasing the handler: no device refers to it any more, its waiter is woken. *)
Lemma release_handler_ok w fds k p : world_ok w fds → fds !! k = Some (CtlState None (Some p)) →
  ∃ h w', w_miss w !! p = Some h ∧
    (h ← get_handler p;
     modify (λ w, match w_devs w !! mh_dev_index h with
        | Some x => if decide (wd_miss x = Some p)
                    then set_devs (<[mh_dev_index h := WDev (wd_dev x) None]> (w_devs w)) w else w
        | None => w end);;
     complete_pending p h LBD_MISS_CONTINUE (mh_has_event h);;
     modify (λ w, set_miss (delete p (w_miss w)) w)) w = (Ok tt, w') ∧
    world_ok w' (<[k := CtlState None None]> fds) ∧
    (∀ t, mh_pending h = Some t → w_done w' = (t, LBD_MISS_CONTINUE) :: w_done w).
Proof.
  intros Hw Hk. destruct (get_handler_ok w fds k _ p Hw Hk eq_refl) as (h & E & Hh). mstep E.
  set (clear := λ w0 : world D, match w_devs w0 !! mh_dev_index h with
    | Some x => if decide (wd_miss x = Some p)
                then set_devs (<[mh_dev_index h := WDev (wd_dev x) None]> (w_devs w0)) w0 else w0
    | None => w0 end).
  rewrite (bind_ok (modify clear) _ w tt (clear w)) by done.
  assert (Hc : world_ok (clear w) fds ∧ w_miss (clear w) = w_miss w ∧ w_done (clear w) = w_done w ∧
    ∀ i x, w_devs (clear w) !! i = Some x → wd_miss x ≠ Some p).
  { pose proof Hw as [W1 W2 W3 W4 W5 W6 W7].
    assert (Hp : ∀ i x, w_devs w !! i = Some x → wd_miss x = Some p → i = mh_dev_index h).
    { intros i x Hx Hxp. destruct (W7 i x p Hx Hxp) as (? & ? & g & ? & ? & Hg & <-). by simplify_eq. }
    unfold clear. destruct (w_devs w !! mh_dev_index h) as [x|] eqn:Ex.
    - case_decide as Hd.
      + split_and!; [|done..|].
        * split; simpl; try done. intros i y q Hy Hq.
          destruct (decide (i = mh_dev_index h)) as [->|]; [by rewrite lookup_insert_eq in Hy; simplify_eq|].
          rewrite lookup_insert_ne in Hy by done. by apply (W7 i y q).
        * simpl. intros i y Hy Hq. destruct (decide (i = mh_dev_index h)) as [->|];
            [by rewrite lookup_insert_eq in Hy; simplify_eq|].
          rewrite lookup_insert_ne in Hy by done. by destruct (Hp i y Hy Hq).
      + split_and!; try done. intros i y Hy Hq. pose proof (Hp i y Hy Hq). subst i. by simplify_eq.
    - split_and!; try done. intros i y Hy Hq. pose proof (Hp i y Hy Hq). subst i. by simplify_eq. }
  destruct Hc as (Hcw & Hcm & Hcd & Hno).
  destruct (complete_ok (clear w) fds p h LBD_MISS_CONTINUE (mh_has_event h) Hcw ltac:(by rewrite Hcm))
    as (w2 & E2 & Hw2 & Hdev & _ & _ & Hdone & Hsame).
  mstep E2. exists h. eexists. split; [done|]. split; [done|]. split.
  - destruct Hw2 as [W1 W2 W3 W4 W5 W6 W7].
    assert (Hm : ∀ k' s', <[k := CtlState None None]> fds !! k' = Some s' →
      (is_Some (cs_watcher s') ∨ is_Some (cs_miss s')) → k' ≠ k ∧ fds !! k' = Some s').
    { intros k' s' Hk' Hs. destruct (decide (k' = k)) as [->|];
        [rewrite lookup_insert_eq in Hk'|by rewrite lookup_insert_ne in Hk' by done].
      simplify_eq/=. by destruct Hs as [[? ?]|[? ?]]. }
    assert (Hq : ∀ k' s' q, k' ≠ k → fds !! k' = Some s' → cs_miss s' = Some q → q ≠ p).
    { intros k' s' q Hne Hk' Hq ->. apply Hne. by apply (W6 k' k s' _ p Hk' Hk). }
    split; simpl; try done.
    + intros k' s' q Hk' Hs. destruct (Hm _ _ Hk' ltac:(left; by eexists)). by apply (W2 k' s').
    + intros q Hin. destruct (W3 q Hin) as (k' & s' & Hk' & Hs'). exists k', s'. rewrite lookup_insert_ne; [done|].
      intros <-. rewrite Hk in Hk'. by simplify_eq.
    + intros k1 k2 s1 s2 q H1 H2 E1 E1'. destruct (Hm _ _ H1 ltac:(left; by eexists)).
      destruct (Hm _ _ H2 ltac:(left; by eexists)). by apply (W4 k1 k2 s1 s2 q).
    + intros k' s' q Hk' Hs. destruct (Hm _ _ Hk' ltac:(right; by eexists)) as [Hne Hf].
      rewrite lookup_delete_ne by (intros <-; by apply (Hq k' s' p)). by apply (W5 k' s').
    + intros k1 k2 s1 s2 q H1 H2 E1 E1'. destruct (Hm _ _ H1 ltac:(right; by eexists)).
      destruct (Hm _ _ H2 ltac:(right; by eexists)). by apply (W6 k1 k2 s1 s2 q).
    + intros i x q Hx Hxq. destruct (W7 i x q Hx Hxq) as (k' & s' & g & Hk' & Hs' & Hg & Hi).
      assert (Hqp : q ≠ p) by (intros ->; rewrite Hdev in Hx; by apply (Hno i x)).
      exists k', s', g. rewrite lookup_delete_ne by done. rewrite lookup_insert_ne; [done|].
      intros <-. rewrite Hk in Hk'. by simplify_eq/=.
  - intros t Ht. simpl. destruct (Hdone t Ht) as [-> _]. by rewrite Hcd.
Qed.

Lemma ctl_release_ok w fds k st : world_ok w fds → fds !! k = Some st →
  ∃ w', lbd_ctl_release st w = (Ok tt, w') ∧ world_ok w' (delete k fds) ∧
    (∀ p h t, cs_miss st = Some p → w_miss w !! p = Some h → mh_pending h = Some t →
       w_done w' = (t, LBD_MISS_CONTINUE) :: w_done w).
Proof.
  intros Hw Hk. destruct (release_watcher_ok w fds k st Hw Hk) as (w1 & E1 & Hw1 & Em & Ed & Edn).
  unfold lbd_ctl_release. mstep E1. set (fds1 := <[k := CtlState None (cs_miss st)]> fds) in *.
  assert (Hk1 : fds1 !! k = Some (CtlState None (cs_miss st))) by apply lookup_insert_eq.
  destruct (cs_miss st) as [p|] eqn:Ems.
  - destruct (release_handler_ok w1 fds1 k p Hw1 Hk1) as (h & w2 & Hh & E2 & Hw2 & Hd).
    exists w2. split; [done|]. split.
    + apply drop_fd_ok with (k := k) in Hw2; [|apply lookup_insert_eq].
      unfold fds1 in Hw2. by rewrite !delete_insert_eq in Hw2.
    + intros p' h' t [= <-] Hh' Ht. rewrite <- Em, Hh in Hh'. simplify_eq. by rewrite (Hd t Ht), Edn.
  - exists w1. split; [done|]. split; [|by intros].
    apply drop_fd_ok with (k := k) in Hw1; [|done]. unfold fds1 in Hw1. by rewrite delete_insert_eq in Hw1.
Qed.

Lemma miss_post_ok w fds t i c : world_ok w fds → is_Some (w_devs w !! i) →
  ∃ b w', handle_miss_post t i c w = (Ok b, w') ∧ world_ok w' fds ∧
    (b = true → ∃ k st p h, fds !! k = Some st ∧ cs_miss st = Some p ∧ w_miss w' !! p = Some h ∧
       mh_pending h = Some t ∧ mh_has_event h = true ∧ mh_cluster h = c ∧ mh_dev_index h = i).
Proof.
  intros Hw [x Hx]. unfold handle_miss_post. rewrite (bind_ok get _ w w w) by done. rewrite Hx.
  destruct (wd_miss x) as [p|] eqn:Em; [|by exists false, w].
  destruct (wk_dev _ _ Hw i x p Hx Em) as (k & st & h & Hk & Hs & Hh & Hi).
  destruct (get_handler_ok w fds k st p Hw Hk Hs) as (h' & E & Hh').
  assert (h' = h) as -> by congruence. mstep E.
  eexists true, _. split; [done|]. split; [by apply (put_handler_ok w fds p h)|].
  intros _. exists k, st, p. eexists. simpl. rewrite lookup_insert_eq. by split_and!.
Qed.

Lemma add_dev_ok w fds i d : world_ok w fds → w_devs w !! i = None →
  world_ok (set_devs (<[i := WDev d None]> (w_devs w)) w) fds.
Proof.
  intros [] Hi. split; simpl; try done. intros j x p Hx Hp.
  destruct (decide (j = i)) as [->|]; [by rewrite lookup_insert_eq in Hx; simplify_eq|].
  rewrite lookup_insert_ne in Hx by done. by apply (wk_dev0 j x p).
Qed.

Lemma del_dev_ok w fds i : world_ok w fds → world_ok (set_devs (delete i (w_devs w)) w) fds.
Proof.
  intros []. split; simpl; try done. intros j x p Hx Hp.
  apply lookup_delete_Some in Hx as [_ Hx]. by apply (wk_dev0 j x p).
Qed.

(** ** The control device as a transition system *)

(** One system call on descriptor [k], a rotation, a miss of an I/O thread, or
    a change of the device table. *)
Inductive ctl_step : world D → gmap nat lbd_ctl_state → world D → gmap nat lbd_ctl_state → Prop :=
| st_open w fds k st w' : fds !! k = None → lbd_ctl_open w = (Ok (Some st), w') →
    ctl_step w fds w' (<[k := st]> fds)
| st_write w fds k st ubuf copied r st' w' : fds !! k = Some st →
    lbd_ctl_write st ubuf copied w = (Ok (r, st'), w') → ctl_step w fds w' (<[k := st']> fds)
| st_read w fds k st nb cp count o w' : fds !! k = Some st →
    lbd_ctl_read st nb cp count w = (Ok o, w') → ctl_step w fds w' fds
| st_pop w fds k st w' : fds !! k = Some st → ctl_read_pop st w = (Ok tt, w') → ctl_step w fds w' fds
| st_release w fds k st w' : fds !! k = Some st → lbd_ctl_release st w = (Ok tt, w') →
    ctl_step w fds w' (delete k fds)
| st_notify w fds ev w' : notify_watchers ev w = (Ok tt, w') → ctl_step w fds w' fds
| st_miss w fds t i c b w' : handle_miss_post t i c w = (Ok b, w') → ctl_step w fds w' fds
| st_add w fds i d : w_devs w !! i = None →
    ctl_step w fds (set_devs (<[i := WDev d None]> (w_devs w)) w) fds
| st_del w fds i : ctl_step w fds (set_devs (delete i (w_devs w)) w) fds.

Inductive ctl_reachable : world D → gmap nat lbd_ctl_state → Prop :=
| cr_init oom : ctl_reachable (World [] ∅ ∅ ∅ [] 0 oom) ∅
| cr_step w fds w' fds' : ctl_reachable w fds → ctl_step w fds w' fds' → ctl_reachable w' fds'.

Lemma open_fd_ok w fds k st w' : world_ok w fds → fds !! k = None →
  lbd_ctl_open w = (Ok (Some st), w') → world_ok w' (<[k := st]> fds).
Proof.
  intros Hw Hk E. destruct (w_alloc_ok w fds Hw) as (o & w1 & E1 & Hw1 & _).
  unfold lbd_ctl_open in E. rewrite (bind_ok _ _ _ _ _ E1) in E. destruct o; [|done].
  injection E as <- <-.
  destruct Hw1 as [W1 W2 W3 W4 W5 W6 W7].
  assert (Hm : ∀ k' s', <[k := CtlState None None]> fds !! k' = Some s' →
    (is_Some (cs_watcher s') ∨ is_Some (cs_miss s')) → fds !! k' = Some s').
  { intros k' s' Hk' Hs. destruct (decide (k' = k)) as [->|];
      [rewrite lookup_insert_eq in Hk'|by rewrite lookup_insert_ne in Hk' by done].
    simplify_eq/=. by destruct Hs as [[? ?]|[? ?]]. }
  assert (Hi : ∀ k' s', fds !! k' = Some s' → <[k := CtlState None None]> fds !! k' = Some s').
  { intros k' s' Hk'. rewrite lookup_insert_ne; [done|]. congruence. }
  split; [done| | | | | |].
  - intros k' s' p Hk' Hp. apply (W2 k' s' p); [apply Hm; eauto|done].
  - intros p Hp. destruct (W3 p Hp) as (k' & s' & Hk' & Hs'). eauto.
  - intros k1 k2 s1 s2 p H1 H2 E2 E3. apply (W4 k1 k2 s1 s2 p); [apply Hm; eauto..|done|done].
  - intros k' s' p Hk' Hp. apply (W5 k' s' p); [apply Hm; eauto|done].
  - intros k1 k2 s1 s2 p H1 H2 E2 E3. apply (W6 k1 k2 s1 s2 p); [apply Hm; eauto..|done|done].
  - intros i x p Hx Hp. destruct (W7 i x p Hx Hp) as (k' & s' & h & Hk' & ?). exists k', s', h. eauto.
Qed.

Lemma ctl_step_ok w fds w' fds' : world_ok w fds → ctl_step w fds w' fds' → world_ok w' fds'.
Proof.
  intros Hw Hs. destruct Hs as [w fds k st w' Hk E|w fds k st ubuf copied r st' w' Hk E
    |w fds k st nb cp count o w' Hk E|w fds k st w' Hk E|w fds k st w' Hk E|w fds ev w' E
    |w fds t i c b w' E|w fds i d Hi|w fds i].
  - by apply (open_fd_ok w fds k st).
  - destruct (ctl_write_ok w fds k st ubuf copied Hw Hk) as [[Hp _]|(r' & s' & w1 & E1 & Hw1)].
    + by rewrite E in Hp.
    + rewrite E1 in E. by simplify_eq.
  - destruct (ctl_read_ok w fds k st nb cp count Hw Hk) as (o' & w1 & E1 & Hw1). rewrite E1 in E. by simplify_eq.
  - destruct (read_pop_ok w fds k st Hw Hk) as (w1 & E1 & Hw1). rewrite E1 in E. by simplify_eq.
  - destruct (ctl_release_ok w fds k st Hw Hk) as (w1 & E1 & Hw1 & _). rewrite E1 in E. by simplify_eq.
  - destruct (notify_list_ok fds ev (w_list w) w Hw (wk_nodup _ _ Hw) ltac:(auto)) as (w1 & E1 & Hw1 & _).
    unfold notify_watchers in E. rewrite (bind_ok get _ w w w) in E by done. rewrite E1 in E. by simplify_eq.
  - destruct (w_devs w !! i) as [x|] eqn:Ex.
    + destruct (miss_post_ok w fds t i c Hw ltac:(by eexists)) as (b' & w1 & E1 & Hw1 & _).
      rewrite E1 in E. by simplify_eq.
    + unfold handle_miss_post in E. rewrite (bind_ok get _ w w w) in E by done. by rewrite Ex in E.
  - by apply add_dev_ok.
  - by apply del_dev_ok.
Qed.
End World.
