(* ===== verification/WatchTheorems.v ===== *)
(** * Theorems on the control device ([src/src/lbd_main.c]) *)
From stdpp Require Import gmap.
From S2P Require Import Prelude Kernel Format Cbor Qcow2State Qcow2Io Log LogProof Watch WatchProof.

(** ** Watcher queues *)
Inductive q_op : Type := QPush (ev : lbd_watcher_event) | QPop.

Definition ring_do (op : q_op) (w : lbd_watcher) : lbd_watcher :=
  match op with QPush ev => lbd_watcher_enqueue ev w | QPop => lbd_watcher_pop w end.
Definition queue_do (op : q_op) (l : list lbd_watcher_event) : list lbd_watcher_event :=
  match op with QPush ev => q_push ev l | QPop => tail l end.

Lemma ring_queue ops w : w_wf w →
  w_wf (foldl (flip ring_do) w ops) ∧ wlist (foldl (flip ring_do) w ops) = foldl (flip queue_do) (wlist w) ops.
Proof.
  revert w. induction ops as [|op ops IH]; intros w Hw; [done|]. cbn [foldl flip].
  assert (Hs : w_wf (ring_do op w) ∧ wlist (ring_do op w) = queue_do op (wlist w)).
  { destruct op as [ev|]; [destruct (enqueue_spec w ev Hw) as (? & ? & _)|destruct (pop_spec w Hw) as (? & ? & _)]; done. }
  destruct Hs as [H1 H2]. destruct (IH _ H1) as [H3 H4]. split; [done|]. unfold flip in *. by rewrite H4, H2.
Qed.

(** C31: the ring of a watcher implements a queue: after any enqueues and pops
    it holds, in order, the events of a list that drops its oldest event when a
    65th arrives, and [lbd_watcher_peek] returns the first of them. *)
Theorem ring_is_queue filter ops :
  let w := foldl (flip ring_do) (lbd_watcher_new filter) ops in
  let l := foldl (flip queue_do) [] ops in
  wlist w = l ∧ lbd_watcher_peek w = head l ∧ (length l ≤ 64)%nat.
Proof.
  destruct (new_wf filter) as [Hw Hl]. destruct (ring_queue ops _ Hw) as [H1 H2]. cbv zeta.
  rewrite Hl in H2. split_and!; [done|by rewrite peek_spec, H2|].
  rewrite <- H2, length_wlist. destruct H1 as [_ _ Hc _]. lia.
Qed.

(** ** Devices for the examples: whether it is a qcow2 image *)
#[local] Instance bool_dev : CtlDev bool := { d_is_qcow2 := id; d_swap_base := λ _ d, (Ok tt, d) }.

Definition watch_bytes (dev : Z) : bytes := head_bytes 5 2 ++ kt_bytes 1 (str "watch") ++ kv_bytes 2 dev.
Definition manage_bytes (dev : Z) : bytes :=
  head_bytes 5 2 ++ kt_bytes 1 (str "manage_misses") ++ kv_bytes 2 dev.

(** Device 0 is a qcow2 image; descriptor 0 watches it, then handles its misses. *)
Definition wA : world bool := (lbd_ctl_open (World [] ∅ ∅ ∅ [] 0 [])).2.
Definition wB : world bool := set_devs (<[0 := WDev true None]> (w_devs wA)) wA.
Definition after_write (w : world bool) (st : lbd_ctl_state) (buf : bytes) : lbd_ctl_state * world bool :=
  match lbd_ctl_write st buf true w with
  | (Ok (_, st'), w') => (st', w')
  | (_, w') => (st, w')
  end.
Definition fdC : lbd_ctl_state * world bool := after_write wB (CtlState None None) (watch_bytes 0).
Definition fdD : lbd_ctl_state * world bool := after_write fdC.2 fdC.1 (manage_bytes 0).
Definition fdsD : gmap nat lbd_ctl_state :=
  <[0%nat := fdD.1]> (<[0%nat := fdC.1]> (<[0%nat := CtlState None None]> ∅)).

Section Theorems.
Context {D : Type} `{CtlDev D}.
Implicit Types (w : world D) (fds : gmap nat lbd_ctl_state).

Lemma reachable_ok w fds : ctl_reachable w fds → world_ok w fds.
Proof.
  induction 1 as [oom|w fds w' fds' Hr IH Hs]; [|by eapply ctl_step_ok].
  split; simpl; try done; [by apply list.NoDup_nil|by intros p ?%elem_of_nil].
Qed.



(** C30: a rotation is queued exactly once on the watcher of every open
    descriptor that watches the device or all devices, and on no other. *)
Theorem rotation_delivered w fds ev w' k st p x : ctl_reachable w fds →
  notify_watchers ev w = (Ok tt, w') → fds !! k = Some st → cs_watcher st = Some p →
  w_watch w !! p = Some x →
  ∃ y, w_watch w' !! p = Some y ∧
    wlist y = if wants ev x then q_push ev (wlist x) else wlist x.
Proof.
  intros Hr%reachable_ok E Hk Hs Hx.
  destruct (notify_list_ok fds ev (w_list w) w Hr (wk_nodup _ _ Hr) ltac:(auto)) as (w1 & E1 & _ & _ & Hin & _).
  unfold notify_watchers in E. rewrite (bind_ok get _ w w w) in E by done. rewrite E1 in E. injection E as <-.
  destruct (wk_watch _ _ Hr k st p Hk Hs) as (Hl & (x' & Hx' & Hwf) & _).
  assert (x' = x) as -> by congruence. destruct (Hin p x Hl Hx) as (y & Hy & Hn). exists y. split; [done|].
  unfold notified_as in Hn. subst y. destruct (wants ev x); [|done]. by apply enqueue_spec.
Qed.
End Theorems.

(** ** Witnesses and examples *)
Lemma fdD_reachable : ctl_reachable fdD.2 fdsD.
Proof.
  assert (HA : ctl_reachable wA (<[0%nat := CtlState None None]> ∅)).
  { apply (cr_step (World [] ∅ ∅ ∅ [] 0 []) ∅); [apply cr_init|]. by apply st_open. }
  assert (HB : ctl_reachable wB (<[0%nat := CtlState None None]> ∅)).
  { apply (cr_step wA _ _ _ HA). by apply st_add. }
  assert (HC : ctl_reachable fdC.2 (<[0%nat := fdC.1]> (<[0%nat := CtlState None None]> ∅))).
  { apply (cr_step wB _ _ _ HB). apply (st_write wB _ 0%nat (CtlState None None) (watch_bytes 0) true 10); vm_compute; reflexivity. }
  apply (cr_step fdC.2 _ _ _ HC).
  apply (st_write fdC.2 _ 0%nat fdC.1 (manage_bytes 0) true 18); vm_compute; reflexivity.
Qed.

Lemma fdsD_lookup : fdsD !! 0%nat = Some fdD.1.
Proof. reflexivity. Qed.



Definition ev_of (dev n : Z) : lbd_watcher_event := Event dev n 1048576 (str "label") (str "/log").

Lemma rotation_delivered_witness :
  ∃ y, w_watch (notify_watchers (ev_of 0 1) fdD.2).2 !! 1%nat = Some y ∧ wlist y = [ev_of 0 1].
Proof.
  exact (rotation_delivered fdD.2 fdsD (ev_of 0 1) (notify_watchers (ev_of 0 1) fdD.2).2 0 fdD.1 1
    (lbd_watcher_new 0) fdD_reachable eq_refl fdsD_lookup eq_refl eq_refl).
Defined.

(** A descriptor that both watches and handles misses sleeps only on the
    queue of the miss handler when nothing is pending: the event of a rotation,
    which wakes the queue of the watcher, does not wake the reader. *)
Theorem read_sleeps_on_miss_queue :
  cs_watcher fdD.1 = Some 1%nat ∧ (lbd_ctl_read fdD.1 false true 512 fdD.2).1 = Ok (Blocked true).
Proof. vm_compute. split; reflexivity. Qed.

(** An event that arrives between the copy of the oldest event and its
    removal, when the queue is full, makes the reader drop an event it never
    delivered: after events 0 to 63 and event 64 in between, the reader got
    event 0 and the queue starts at event 2. *)
Theorem read_pop_race :
  let w := foldl (λ w n, (notify_watchers (ev_of 0 (Z.of_nat n)) w).2) fdD.2 (seq 0 64) in
  let '(r, w1) := ctl_read_front fdD.1 true true 512 w in
  let w2 := (notify_watchers (ev_of 0 64) w1).2 in
  let w3 := (ctl_read_pop fdD.1 w2).2 in
  r = Ok (Out (enc_out (enc_rotate_event (ev_of 0 0))), true) ∧
  (lbd_ctl_read fdD.1 true true 512 w3).1 = Ok (Out (enc_out (enc_rotate_event (ev_of 0 2)))).
Proof. vm_compute. split; reflexivity. Qed.
