(* ===== verification/CtlProto.v ===== *)
(** * The control protocol on the user side ([src/src/lbdctl.c])

    The commands [lbdctl] writes to [/dev/lbd-control] and the events it decodes.
    What the tool writes the driver parses back, what the driver encodes the
    tool decodes, and no buffer makes the tool's decoders read out of bounds. *)
From S2P Require Import Prelude Kernel Format Cbor Qcow2State Qcow2Io Log LogProof Posix Watch CtlText.

(** ** Commands *)

(** [cbor_write_head]: the bytes it stores; their number is its result. *)
Definition cbor_write_head (major val : Z) : bytes :=
  let mt := u8 (Z.shiftl major 5) in
  if val <? 24 then [z2b (Z.lor mt (u8 val))]
  else if val <=? 0xFF then [z2b (Z.lor mt 24); z2b val]
  else if val <=? 0xFFFF then [z2b (Z.lor mt 25); z2b (Z.shiftr val 8); z2b val]
  else if val <=? 0xFFFFFFFF then
    [z2b (Z.lor mt 26); z2b (Z.shiftr val 24); z2b (Z.shiftr val 16); z2b (Z.shiftr val 8); z2b val]
  else
    [z2b (Z.lor mt 27); z2b (Z.shiftr val 56); z2b (Z.shiftr val 48); z2b (Z.shiftr val 40);
     z2b (Z.shiftr val 32); z2b (Z.shiftr val 24); z2b (Z.shiftr val 16); z2b (Z.shiftr val 8); z2b val].

(** Key 1 and the command text. *)
Definition write_cmd (cmd : bytes) : bytes :=
  cbor_write_head 0 1 ++ cbor_write_head 3 (zlen cmd) ++ cmd.

(** [cbor_write_watch_cmd]: no device key for a negative index. *)
Definition cbor_write_watch_cmd (dev_index : Z) : bytes :=
  cbor_write_head 5 (if dev_index >=? 0 then 2 else 1) ++ write_cmd (str "watch") ++
  (if dev_index >=? 0 then cbor_write_head 0 2 ++ cbor_write_head 0 (u64 dev_index) else []).

Definition cbor_write_manage_misses_cmd (dev_index : Z) : bytes :=
  cbor_write_head 5 2 ++ write_cmd (str "manage_misses") ++
  cbor_write_head 0 2 ++ cbor_write_head 0 (u64 dev_index).

Definition cbor_write_miss_response (action : bytes) : bytes :=
  cbor_write_head 5 1 ++ write_cmd action.

(** [None] when the path does not fit in the 512-byte buffer. *)
Definition cbor_write_swap_cmd (path : bytes) : option bytes :=
  let pre := cbor_write_head 5 2 ++ write_cmd (str "swap") ++
             cbor_write_head 0 3 ++ cbor_write_head 3 (zlen path) in
  if zlen pre + zlen path >? 512 then None else Some (pre ++ path).

(** [write(fd, buf, pos)] and the checks on its result: 0, or -1. *)
Definition sent (n : Z) (buf : bytes) : Z := if n <? 0 then -1 else if negb (n =? zlen buf) then -1 else 0.

(** ** Events *)

(** [BUF_HEAD]: the head decoder of [cbor_dec.h], written out as a macro that
    returns -1 on any error. *)
Definition buf_head : M cbor_dec (Z * Z) := λ d,
  match cbor_dec_head d with
  | (Err _, d') => (Err (-1), d')
  | o => o
  end.

Definition buf_typed (m : Z) : M cbor_dec Z :=
  '(major, v) ← buf_head; if negb (major =? m) then throw (-1) else mret v.

(** [pos += slen] on a [size_t]. *)
Definition buf_skip (slen : Z) : M cbor_dec unit :=
  modify (λ d, CborDec (dec_buf d) (u64 (dec_pos d + slen)) (dec_len d)).

(** [if (pos + slen > len) return -1], a [size_t] sum. *)
Definition buf_fits (slen : Z) : M cbor_dec unit :=
  d ← get; if u64 (dec_pos d + slen) >? dec_len d then throw (-1) else mret tt.

(** A text copied into a buffer of [cap] bytes. *)
Definition buf_text (cap : Z) : M cbor_dec bytes :=
  slen ← buf_typed 3;
  if slen >=? cap then throw (-1) else
  buf_fits slen;; t ← dec_memcpy slen; buf_skip slen;; mret t.

(** A text that is skipped. *)
Definition buf_skip_text : M cbor_dec unit :=
  slen ← buf_typed 3; buf_fits slen;; buf_skip slen.

(** [for (i = 0; i < n; i++) body]; the fuel bounds the iterations. *)
Fixpoint dec_iter {A} (fuel : nat) (n : Z) (body : A → M cbor_dec A) (a : A) : M cbor_dec A :=
  if n <=? 0 then mret a else
  match fuel with
  | O => throw (-77)
  | S f => a' ← body a; dec_iter f (n - 1) body a'
  end.

Record watch_event : Type := WatchEvent {
  we_dev : Z; we_label : bytes; we_dir : bytes; we_seq : Z; we_size : Z
}.

Definition watch_key (label_cap dir_cap : Z) (e : watch_event) : M cbor_dec watch_event :=
  key ← buf_typed 0;
  if key =? 1 then buf_skip_text;; mret e
  else if key =? 2 then v ← buf_typed 0; mret (WatchEvent (s32 v) (we_label e) (we_dir e) (we_seq e) (we_size e))
  else if key =? 3 then t ← buf_text label_cap; mret (WatchEvent (we_dev e) t (we_dir e) (we_seq e) (we_size e))
  else if key =? 4 then t ← buf_text dir_cap; mret (WatchEvent (we_dev e) (we_label e) t (we_seq e) (we_size e))
  else if key =? 5 then v ← buf_typed 0; mret (WatchEvent (we_dev e) (we_label e) (we_dir e) v (we_size e))
  else if key =? 6 then v ← buf_typed 0; mret (WatchEvent (we_dev e) (we_label e) (we_dir e) (we_seq e) v)
  else throw (-1).

Definition decode_watch_event (fuel : nat) (buf : bytes) (label_cap dir_cap : Z) : res watch_event :=
  ((n ← buf_typed 5; dec_iter fuel n (watch_key label_cap dir_cap) (WatchEvent (-1) [] [] 0 0))
     (cbor_dec_init buf (zlen buf))).1.

(** Device and cluster of a miss. *)
Definition miss_key (e : Z * Z) : M cbor_dec (Z * Z) :=
  key ← buf_typed 0;
  if key =? 1 then buf_skip_text;; mret e
  else if key =? 2 then v ← buf_typed 0; mret (s32 v, e.2)
  else if key =? 3 then v ← buf_typed 0; mret (e.1, v)
  else throw (-1).

Definition decode_miss_event (fuel : nat) (buf : bytes) : res (Z * Z) :=
  ((n ← buf_typed 5; dec_iter fuel n miss_key (-1, 0)) (cbor_dec_init buf (zlen buf))).1.

(** ** The commands [watch], [miss-handler] and [swap] *)

(** What one round of the [poll] loop meets; the list ends when a signal clears
    [watch_running]. *)
Inductive read_ev : Type := REintr | RErr | REof | RData (d : bytes).
Inductive poll_ev : Type :=
| PEintr
| PErr
| PTimeout
| PReady (input : option read_ev) (hup : bool).

(** The [--dev N] and [--json] arguments: device and whether JSON. *)
Fixpoint dev_args (argv : list bytes) (dev : Z) (json : bool) : option (Z * bool) :=
  match argv with
  | [] => Some (dev, json)
  | a :: rest =>
      if decide (a = str "--dev") then
        match rest with [] => None | v :: rest' => dev_args rest' (atoi v) json end
      else if decide (a = str "--json") then dev_args rest dev true
      else None
  end.

(** What is printed for an event. *)
Definition watch_line (json : bool) (e : watch_event) : bytes :=
  if json then
    str "{" ++ quoted (str "type") ++ str ":" ++ quoted (str "log_rotated") ++ str ","
      ++ quoted (str "dev") ++ str ":" ++ dec (we_dev e) ++ str ","
      ++ quoted (str "segment_label") ++ str ":" ++ quoted (cstr (we_label e)) ++ str ","
      ++ quoted (str "log_dir") ++ str ":" ++ json_print_string (we_dir e) ++ str ","
      ++ quoted (str "log_seq") ++ str ":" ++ llu (we_seq e) ++ str ","
      ++ quoted (str "device_size") ++ str ":" ++ llu (we_size e) ++ str "}" ++ newline
  else str "lbd" ++ dec (we_dev e) ++ str ": " ++ cstr (we_dir e) ++ str "/disk." ++ cstr (we_label e) ++ str ".log (seq="
         ++ llu (we_seq e) ++ str ")" ++ newline.

Definition miss_line (json : bool) (e : Z * Z) : bytes :=
  if json then
    str "{" ++ quoted (str "type") ++ str ":" ++ quoted (str "block_miss") ++ str ","
      ++ quoted (str "dev") ++ str ":" ++ dec e.1 ++ str ","
      ++ quoted (str "cluster") ++ str ":" ++ llu e.2 ++ str "}" ++ newline
  else str "lbd" ++ dec e.1 ++ str ": block miss at cluster " ++ llu e.2 ++ newline.

(** The events [cmd_watch] prints. *)
Fixpoint watch_loop (fuel : nat) (evs : list poll_ev) : list watch_event :=
  match evs with
  | [] => []
  | PErr :: _ => []
  | PEintr :: r | PTimeout :: r => watch_loop fuel r
  | PReady inp hup :: r =>
      let rest := if (hup : bool) then [] else watch_loop fuel r in
      match inp with
      | None => rest
      | Some REintr => watch_loop fuel r
      | Some RErr | Some REof => []
      | Some (RData d) =>
          match decode_watch_event fuel d 32 LBD_LOG_PATH_MAX with
          | Ok e => e :: rest
          | _ => watch_loop fuel r
          end
      end
  end.

(** Exit status, what is written to the control device, what is printed.
    [wr] is the result of the [write] of the command. *)
Definition cmd_watch (fuel : nat) (argv : list bytes) (opened : bool) (wr : Z) (evs : list poll_ev) :
  Z * list bytes * bytes :=
  match dev_args argv (-1) false with
  | None => (1, [], [])
  | Some (dev, json) =>
      if negb opened then (1, [], []) else
      let cmd := cbor_write_watch_cmd dev in
      if sent wr cmd <? 0 then (1, [cmd], []) else (0, [cmd], concat (watch_line json <$> watch_loop fuel evs))
  end.

(** Each miss is printed and answered [continue]; [resp] are the results of the
    [write]s of the answers. *)
Fixpoint miss_loop (fuel : nat) (evs : list poll_ev) (resp : list Z) : list (Z * Z) * list bytes :=
  match evs with
  | [] => ([], [])
  | PErr :: _ => ([], [])
  | PEintr :: r | PTimeout :: r => miss_loop fuel r resp
  | PReady inp hup :: r =>
      match inp with
      | None => if (hup : bool) then ([], []) else miss_loop fuel r resp
      | Some REintr => miss_loop fuel r resp
      | Some RErr | Some REof => ([], [])
      | Some (RData d) =>
          match decode_miss_event fuel d with
          | Ok e =>
              let cmd := cbor_write_miss_response (str "continue") in
              let n := match resp with n :: _ => n | [] => zlen cmd end in
              if sent n cmd <? 0 then ([e], [cmd]) else
              let '(es, cs) := if (hup : bool) then ([], []) else miss_loop fuel r (tail resp) in
              (e :: es, cmd :: cs)
          | _ => miss_loop fuel r resp
          end
      end
  end.

Definition cmd_miss_handler (fuel : nat) (argv : list bytes) (opened : bool) (wr : Z)
  (evs : list poll_ev) (resp : list Z) : Z * list bytes * bytes :=
  match dev_args argv (-1) false with
  | None => (1, [], [])
  | Some (dev, json) =>
      if dev <? 0 then (1, [], [])
      else if negb opened then (1, [], []) else
      let cmd := cbor_write_manage_misses_cmd dev in
      if sent wr cmd <? 0 then (1, [cmd], []) else
      let '(es, cs) := miss_loop fuel evs resp in (0, cmd :: cs, concat (miss_line json <$> es))
  end.

Fixpoint swap_args (argv : list bytes) (dev : Z) (json : bool) (path : option bytes) : option (Z * bool * option bytes) :=
  match argv with
  | [] => Some (dev, json, path)
  | a :: rest =>
      if decide (a = str "--json") then swap_args rest dev true path
      else if decide (a = str "--dev") then
        match rest with [] => None | v :: rest' => swap_args rest' (atoi v) json path end
      else match path with None => swap_args rest dev json (Some a) | Some _ => None end
  end.

Definition swap_text (json : bool) (dev : Z) (resolved : bytes) : bytes :=
  if json then
    str "{" ++ json_key (str "device") ++ quoted (str "/dev/lbd" ++ dec dev) ++ str ", " ++ json_key (str "index") ++ dec dev
      ++ str ", " ++ json_key (str "base") ++ json_print_string resolved ++ str "}" ++ newline
  else str "Swapped base layer for lbd" ++ dec dev ++ str " to " ++ cstr resolved ++ newline.

(** Exit status, what is written to the control device, what is printed;
    [realpath] is the result for the path argument, [wr1] and [wr2] those of
    the two [write]s. *)
Definition cmd_swap_tool (argv : list bytes) (realpath : bytes → option bytes) (opened : bool)
  (wr1 wr2 : Z) : Z * list bytes * bytes :=
  match swap_args argv (-1) false None with
  | None => (1, [], [])
  | Some (dev, json, path) =>
      if dev <? 0 then (1, [], []) else
      match path with
      | None => (1, [], [])
      | Some path =>
          match realpath path with
          | None => (1, [], [])
          | Some resolved =>
              if negb opened then (1, [], []) else
              let m := cbor_write_manage_misses_cmd dev in
              if sent wr1 m <? 0 then (1, [m], []) else
              match cbor_write_swap_cmd resolved with
              | None => (1, [m], [])
              | Some c => if sent wr2 c <? 0 then (1, [m; c], []) else (0, [m; c], swap_text json dev resolved)
              end
          end
      end
  end.
