(* ===== verification/CtlProtoTheorems.v ===== *)
(** * Theorems on the control protocol ([src/src/lbdctl.c], [src/src/lbd_main.c],
      [src/src/cbor_enc.h], [src/src/cbor_dec.h]) *)
From stdpp Require Import gmap.
From S2P Require Import Prelude Kernel Format Cbor Qcow2State Qcow2Io Log LogProof Posix Watch.
From S2P Require Import WatchProof Json CtlText CtlTextProof CtlProto.









































(** ** No buffer makes a decoder read out of bounds *)
Definition dsafe {A} (m : M cbor_dec A) : Prop :=
  ∀ d, dec_wf d → match m d with (Panic, _) => False | (_, d') => dec_wf d' end.

Lemma dsafe_bind {A B} (m : M cbor_dec A) (f : A → M cbor_dec B) :
  dsafe m → (∀ a, dsafe (f a)) → dsafe (m ≫= f).
Proof.
  intros Hm Hf d Hd. specialize (Hm d Hd). unfold mbind, M_bind.
  destruct (m d) as [[a|e|] d']; [by apply Hf|done..].
Qed.

Lemma dsafe_ret {A} (a : A) : dsafe (mret a).
Proof. by intros d Hd. Qed.
Lemma dsafe_throw {A} e : dsafe (throw e : M cbor_dec A).
Proof. by intros d Hd. Qed.

Lemma buf_typed_range d m : dec_wf d →
  match buf_typed m d with (Ok v, d') => 0 ≤ v < 2 ^ 64 ∧ dec_wf d' | (Err _, d') => dec_wf d' | _ => False end.
Proof.
  intros Hd. destruct (cbor_dec_head_safe d Hd) as (H1 & _ & _ & _ & H5).
  unfold buf_typed, buf_head, mbind, M_bind. destruct (cbor_dec_head d) as [[[m' v]|e|] d']; simpl in *; [|done..].
  destruct (negb (m' =? m)); simpl; [done|]. split; [lia|done].
Qed.

Lemma buf_typed_safe m : dsafe (buf_typed m).
Proof.
  intros d Hd. pose proof (buf_typed_range d m Hd). destruct (buf_typed m d) as [[] ?]; [|done..]. by destruct H.
Qed.

(** A checked skip or copy stays inside the buffer, although the sum may wrap. *)
Lemma buf_skip_text_safe : dsafe buf_skip_text.
Proof.
  intros d Hd. unfold buf_skip_text, mbind, M_bind. pose proof (buf_typed_range d 3 Hd) as Ht.
  destruct (buf_typed 3 d) as [[slen|e|] d1]; [|done..]. destruct Ht as [Hs (H1 & H2 & H3)].
  unfold buf_fits, buf_skip. munfold. pose proof (u64_range (dec_pos d1 + slen)).
  destruct (Z.gtb_spec (u64 (dec_pos d1 + slen)) (dec_len d1)); simpl; [done|].
  unfold dec_wf; simpl. lia.
Qed.

Lemma buf_text_safe cap : cap < 2 ^ 63 → dsafe (buf_text cap).
Proof.
  intros Hc d Hd. unfold buf_text, mbind, M_bind. pose proof (buf_typed_range d 3 Hd) as Ht.
  destruct (buf_typed 3 d) as [[slen|e|] d1]; [|done..]. destruct Ht as [Hs (H1 & H2 & H3)].
  destruct (Z.geb_spec slen cap); [simpl; done|].
  unfold buf_fits, buf_skip, dec_memcpy. munfold. rewrite u64_small by lia.
  destruct (Z.gtb_spec (dec_pos d1 + slen) (dec_len d1)); simpl; [done|].
  destruct (Z.gtb_spec (dec_pos d1 + slen) (zlen (dec_buf d1))); [lia|]. unfold dec_wf; simpl. rewrite u64_small; lia.
Qed.

Lemma dec_iter_safe {A} fuel n (body : A → M cbor_dec A) a : (∀ a, dsafe (body a)) →
  dsafe (dec_iter fuel n body a).
Proof.
  intros Hb. revert n a. induction fuel as [|f IH]; intros n a; cbn [dec_iter]; destruct (n <=? 0);
    [apply dsafe_ret|apply dsafe_throw|apply dsafe_ret|apply dsafe_bind; [apply Hb|intros; apply IH]].
Qed.

Ltac dsafe :=
  repeat lazymatch goal with
  | |- dsafe (_ ≫= _) => apply dsafe_bind; [|intros ?]
  | |- dsafe (if ?b then _ else _) => destruct b
  | |- dsafe (mret _) => apply dsafe_ret
  | |- dsafe (throw _) => apply dsafe_throw
  | |- dsafe (buf_typed _) => apply buf_typed_safe
  | |- dsafe buf_skip_text => apply buf_skip_text_safe
  | |- dsafe (buf_text _) => apply buf_text_safe; assumption
  end.

(** C33: no message, however malformed, makes the tool's event decoders or the
    driver's command parser read outside the message. *)
Theorem decoders_memory_safe fuel buf label_cap dir_cap :
  zlen buf < 2 ^ 63 → label_cap < 2 ^ 63 → dir_cap < 2 ^ 63 →
  decode_watch_event fuel buf label_cap dir_cap ≠ Panic ∧ decode_miss_event fuel buf ≠ Panic ∧
  (parse_cmd buf).1 ≠ Panic.
Proof.
  intros Hb Hl Hd. pose proof (init_dec_wf buf Hb) as Hwf. split_and!; [| |by apply parse_cmd_safe].
  - unfold decode_watch_event.
    assert (Hs : dsafe (n ← buf_typed 5; dec_iter fuel n (watch_key label_cap dir_cap) (WatchEvent (-1) [] [] 0 0))).
    { dsafe. apply dec_iter_safe. intros e. unfold watch_key. dsafe. }
    specialize (Hs _ Hwf). revert Hs. by match goal with |- _ → (?o).1 ≠ _ => destruct o as [[] ?] end.
  - unfold decode_miss_event.
    assert (Hs : dsafe (n ← buf_typed 5; dec_iter fuel n miss_key (-1, 0))).
    { dsafe. apply dec_iter_safe. intros e. unfold miss_key. dsafe. }
    specialize (Hs _ Hwf). revert Hs. by match goal with |- _ → (?o).1 ≠ _ => destruct o as [[] ?] end.
Qed.

Lemma decoders_memory_safe_witness :
  decode_watch_event 6 (str "junk") 32 256 ≠ Panic ∧ decode_miss_event 6 (str "junk") ≠ Panic ∧
  (parse_cmd (str "junk")).1 ≠ Panic.
Proof. apply (decoders_memory_safe 6 (str "junk") 32 256); vm_compute; done. Defined.
