(* ===== verification/Device.v ===== *)
(** * The block device ([src/src/lbd_main.c], open to request completion)

    A request is read, written or trimmed in the image or in a raw backing file,
    and writes and trims are logged; requests are queued by the block layer and
    served in order by the device's worker.  [vfs_fsync] and the hole punching
    of the backing file are the parameters [BackingOps]. *)
From S2P Require Import Prelude Kernel Format Crc Cbor Qcow2State Qcow2Alloc Qcow2Cache Qcow2Io Log.

(** ** The kernel under the backing file *)

(** [has_fallocate] is whether [f_op->fallocate] of the backing file is set. *)
Class BackingOps (K : Type) : Type := {
  vfs_fsync : K → Z * K;
  has_fallocate : bool;
  punch_hole : K → Z → Z → Z * K
}.

(** [FALLOC_FL_PUNCH_HOLE | FALLOC_FL_KEEP_SIZE]: the bytes of the range that
    exist become zero. *)
Definition punched (f : bytes) (pos len : Z) : bytes := write_at f pos (zeros (Z.min len (zlen f - pos))).

Class BackingLaws (K : Type) `{KernelLaws K, BackingOps K} : Prop := {
  fsync_ok k : healthy k → ∃ k', vfs_fsync k = (0, k') ∧ healthy k' ∧ ∀ h, content k' h = content k h;
  punch_ok k pos len : healthy k → has_fallocate (K := K) = true → 0 ≤ pos → 0 ≤ len →
    ∃ k', punch_hole k pos len = (0, k') ∧ healthy k'
      ∧ content k' Backing = punched (content k Backing) pos len
      ∧ ∀ p, content k' (BaseFile p) = content k (BaseFile p)
}.

Definition EOPNOTSUPP : Z := 95.

(** ** Requests *)

(** [req_op(rq)] with what the operation uses of the request. *)
Inductive blk_rq : Type :=
| REQ_OP_READ (rq : request)
| REQ_OP_WRITE (rq : request)
| REQ_OP_DISCARD (pos_sector nbytes : Z)
| REQ_OP_FLUSH
| REQ_OP_OTHER.

Inductive blk_status : Type := BLK_STS_OK | BLK_STS_IOERR.
#[global] Instance blk_status_eq_dec : EqDecision blk_status.
Proof. solve_decision. Defined.

(** [enum lbd_state]. *)
Inductive lbd_state : Type := LBD_STATE_UNBOUND | LBD_STATE_BOUND | LBD_STATE_REMOVING.
#[global] Instance lbd_state_eq_dec : EqDecision lbd_state.
Proof. solve_decision. Defined.

(** The counters of [struct lbd_device] that the request paths keep; those of
    reads are in [qstats]. *)
Record io_stats : Type := IoStats {
  stat_writes : Z; stat_write_bytes : Z; stat_trims : Z; stat_trim_bytes : Z
}.

(** What serving a request works on: the image (or raw file), the log, the counters. *)
Record dev_io (K L : Type) : Type := DevIo {
  is_qcow2 : bool;
  io_q : qdev K;
  io_log : log_state L;
  io_stat : io_stats
}.
Arguments DevIo {K L}.
Arguments is_qcow2 {K L}.
Arguments io_q {K L}.
Arguments io_log {K L}.
Arguments io_stat {K L}.

Section Serve.
Context {K L : Type} `{KernelOps K, BackingOps K, LogOps L, LZ4Ops, CrcOps, Crc32Ops}.
Abbreviation MD := (M (dev_io K L)).

(** Run an operation of the image, or of the log, on the device. *)
Definition on_q {A} (m : M (qdev K) A) : MD A := λ d,
  let '(r, q) := m (io_q d) in (r, DevIo (is_qcow2 d) q (io_log d) (io_stat d)).
Definition on_log {A} (m : M (log_state L) A) : MD A := λ d,
  let '(r, l) := m (io_log d) in (r, DevIo (is_qcow2 d) (io_q d) l (io_stat d)).
Definition upd_io (f : io_stats → io_stats) : MD unit :=
  modify (λ d, DevIo (is_qcow2 d) (io_q d) (io_log d) (f (io_stat d))).

Definition count_write (n : Z) (s : io_stats) : io_stats :=
  IoStats (s64 (stat_writes s + 1)) (s64 (stat_write_bytes s + n)) (stat_trims s) (stat_trim_bytes s).
Definition count_trim (n : Z) (s : io_stats) : io_stats :=
  IoStats (stat_writes s) (stat_write_bytes s) (s64 (stat_trims s + 1)) (s64 (stat_trim_bytes s + n)).

(** The loops over the segments of a request on a raw backing file. *)
Fixpoint raw_read (pos : Z) (segs : list bytes) : M (qdev K) (list bytes) :=
  match segs with
  | [] => mret []
  | s :: segs' =>
      '(ret, b) ← kread Backing pos (zlen s);
      if negb (ret =? zlen s) then throw (io_err ret) else
      rest ← raw_read (pos + zlen s) segs';
      mret (b :: rest)
  end.

Fixpoint raw_write (pos : Z) (segs : list bytes) : M (qdev K) unit :=
  match segs with
  | [] => mret tt
  | s :: segs' =>
      ret ← kwrite Backing pos s;
      if negb (ret =? zlen s) then throw (io_err ret) else
      raw_write (pos + zlen s) segs'
  end.

Definition lbd_do_read (rq : request) : MD (list bytes) :=
  d ← get;
  if is_qcow2 d then on_q (lbd_qcow2_read rq) else
  on_q (r ← raw_read (Z.shiftl (rq_pos rq) SECTOR_SHIFT) (rq_segs rq);
        upd_stats (add_read (blk_rq_bytes rq));;
        mret r).

Definition lbd_do_write (rq : request) : MD unit :=
  d ← get;
  (if is_qcow2 d then on_q (lbd_qcow2_write rq)
   else on_q (raw_write (Z.shiftl (rq_pos rq) SECTOR_SHIFT) (rq_segs rq)));;
  on_log (lbd_log_write rq);;
  upd_io (count_write (blk_rq_bytes rq)).

(** A raw file is asked to punch a hole; that it cannot is not an error. *)
Definition raw_discard (pos len : Z) : M (qdev K) unit := λ d,
  if has_fallocate (K := K) then
    let '(ret, k) := punch_hole (kern d) pos len in
    if negb (ret =? 0) && negb (ret =? - EINVAL) && negb (ret =? - EOPNOTSUPP)
    then (Err ret, set_kern k d) else (Ok tt, set_kern k d)
  else (Ok tt, d).

Definition lbd_do_discard (pos_sector nbytes : Z) : MD unit :=
  d ← get;
  (if is_qcow2 d then on_q (lbd_qcow2_discard pos_sector nbytes)
   else on_q (raw_discard (Z.shiftl pos_sector SECTOR_SHIFT) nbytes));;
  on_log (lbd_log_discard pos_sector nbytes);;
  upd_io (count_trim nbytes).

(** [REQ_OP_FLUSH]: sync the backing file, then rotate a segment with entries. *)
Definition do_flush : MD unit :=
  ret ← on_q (λ d, let '(r, k) := vfs_fsync (kern d) in (Ok r, set_kern k d));
  if negb (ret =? 0) then throw ret else
  on_log (s ← get; if log_has_entries s then lbd_rotate_segment else mret tt).

(** The [switch (req_op(rq))]. *)
Definition rq_dispatch (rq : blk_rq) : MD (list bytes) :=
  match rq with
  | REQ_OP_READ rq => lbd_do_read rq
  | REQ_OP_WRITE rq => lbd_do_write rq;; mret []
  | REQ_OP_DISCARD pos n => lbd_do_discard pos n;; mret []
  | REQ_OP_FLUSH => do_flush;; mret []
  | REQ_OP_OTHER => throw (- EIO)
  end.

(** [cmd->ret], and the data a read fills the request with. *)
Definition lbd_handle_request (rq : blk_rq) : MD (Z * list bytes) :=
  r ← try (rq_dispatch rq);
  match r with
  | Ok d => mret (0, d)
  | Err e => mret (e, [])
  | Panic => panic
  end.

(** [lbd_complete_rq]: the status the block layer is told. *)
Definition lbd_complete_rq (ret : Z) : blk_status := if ret =? 0 then BLK_STS_OK else BLK_STS_IOERR.

End Serve.

(** ** The queue and the worker *)

(** A queued request is known by its tag. *)
Record lbd_cmd : Type := QCmd { cmd_tag : nat; cmd_rq : blk_rq }.

(** [struct lbd_device]: [dv_work] is whether the work item is queued;
    [dv_done] collects the completions. *)
Record lbd_device (K L : Type) : Type := Device {
  dv_state : lbd_state;
  dv_open_count : Z;
  dv_io : dev_io K L;
  dv_cmd_list : list lbd_cmd;
  dv_work : bool;
  dv_done : list (lbd_cmd * blk_status * list bytes)
}.
Arguments Device {K L}.
Arguments dv_state {K L}.
Arguments dv_open_count {K L}.
Arguments dv_io {K L}.
Arguments dv_cmd_list {K L}.
Arguments dv_work {K L}.
Arguments dv_done {K L}.

Section Queue.
Context {K L : Type} `{KernelOps K, BackingOps K, LogOps L, LZ4Ops, CrcOps, Crc32Ops}.
Abbreviation MV := (M (lbd_device K L)).

Definition lbd_open : MV Z :=
  d ← get;
  if negb (bool_decide (dv_state d = LBD_STATE_BOUND)) then mret (- ENXIO) else
  modify (λ d, Device (dv_state d) (dv_open_count d + 1) (dv_io d) (dv_cmd_list d) (dv_work d) (dv_done d));;
  mret 0.

Definition lbd_release : MV unit :=
  modify (λ d, Device (dv_state d) (dv_open_count d - 1) (dv_io d) (dv_cmd_list d) (dv_work d) (dv_done d)).

(** Queue a request and the work item; refused unless the device is bound. *)
Definition lbd_queue_rq (c : lbd_cmd) : MV blk_status :=
  d ← get;
  if negb (bool_decide (dv_state d = LBD_STATE_BOUND)) then mret BLK_STS_IOERR else
  modify (λ d, Device (dv_state d) (dv_open_count d) (dv_io d) (dv_cmd_list d ++ [c]) true (dv_done d));;
  mret BLK_STS_OK.

(** [list_splice_init(&dev->cmd_list, &local_list)]. *)
Definition work_splice : MV (list lbd_cmd) :=
  d ← get;
  modify (λ d, Device (dv_state d) (dv_open_count d) (dv_io d) [] (dv_work d) (dv_done d));;
  mret (dv_cmd_list d).

(** Serve one request and complete it. *)
Definition work_one (c : lbd_cmd) : MV unit := λ d,
  match lbd_handle_request (cmd_rq c) (dv_io d) with
  | (Ok (ret, data), io) =>
      (Ok tt, Device (dv_state d) (dv_open_count d) io (dv_cmd_list d) (dv_work d)
                (dv_done d ++ [(c, lbd_complete_rq ret, data)]))
  | (Err e, io) => (Err e, Device (dv_state d) (dv_open_count d) io (dv_cmd_list d) (dv_work d) (dv_done d))
  | (Panic, io) => (Panic, Device (dv_state d) (dv_open_count d) io (dv_cmd_list d) (dv_work d) (dv_done d))
  end.

Fixpoint work_all (l : list lbd_cmd) : MV unit :=
  match l with [] => mret tt | c :: l' => work_one c;; work_all l' end.

Definition lbd_work_fn : MV unit := l ← work_splice; work_all l.

(** ** The system: the block layer queues while the worker runs

    The worker is idle, has started and not yet taken the queue, or serves the
    list it took.  Starting clears the pending flag of the work item. *)
Record sys : Type := Sys { sy_dev : lbd_device K L; sy_worker : option (option (list lbd_cmd)) }.

Definition set_dv_state (s : lbd_state) (d : lbd_device K L) : lbd_device K L :=
  Device s (dv_open_count d) (dv_io d) (dv_cmd_list d) (dv_work d) (dv_done d).
Definition set_dv_work (b : bool) (d : lbd_device K L) : lbd_device K L :=
  Device (dv_state d) (dv_open_count d) (dv_io d) (dv_cmd_list d) b (dv_done d).

(** From the device [d0]: the system reached and the requests accepted so far. *)
Inductive sys_reach (d0 : lbd_device K L) : sys → list lbd_cmd → Prop :=
| sys_init : sys_reach d0 (Sys d0 None) []
| sys_accept s acc c d' : sys_reach d0 s acc →
    lbd_queue_rq c (sy_dev s) = (Ok BLK_STS_OK, d') → sys_reach d0 (Sys d' (sy_worker s)) (acc ++ [c])
| sys_refuse s acc c d' : sys_reach d0 s acc →
    lbd_queue_rq c (sy_dev s) = (Ok BLK_STS_IOERR, d') → sys_reach d0 (Sys d' (sy_worker s)) acc
| sys_start s acc : sys_reach d0 s acc → sy_worker s = None → dv_work (sy_dev s) = true →
    sys_reach d0 (Sys (set_dv_work false (sy_dev s)) (Some None)) acc
| sys_splice s acc l d' : sys_reach d0 s acc → sy_worker s = Some None →
    work_splice (sy_dev s) = (Ok l, d') → sys_reach d0 (Sys d' (Some (Some l))) acc
| sys_serve s acc c l d' : sys_reach d0 s acc → sy_worker s = Some (Some (c :: l)) →
    work_one c (sy_dev s) = (Ok tt, d') → sys_reach d0 (Sys d' (Some (Some l))) acc
| sys_sleep s acc : sys_reach d0 s acc → sy_worker s = Some (Some []) → sys_reach d0 (Sys (sy_dev s) None) acc
| sys_state s acc st : sys_reach d0 s acc → sys_reach d0 (Sys (set_dv_state st (sy_dev s)) (sy_worker s)) acc.

End Queue.
