(* ===== verification/DeviceProof.v ===== *)
(** * Serving requests: a device is a disk with a log

    [serves] states what an image (or a raw file) promises to the request layer:
    its operations act on the flat disk it represents.  The request layer is
    proved against this interface, which the qcow2 store and the raw file both
    discharge. *)
From S2P Require Import Prelude Kernel Format Crc Cbor Posix Qcow2State Qcow2Alloc Qcow2Cache Qcow2Io.
From S2P Require Import Qcow2Inv Qcow2AllocProof Qcow2Wf Qcow2CacheProof Qcow2WriteProof Qcow2IoProof.
From S2P Require Import Flat Qcow2Refine Qcow2InitProof CtlImage Qcow2Theorems Log LogProof Device.

(** ** The abstract disk *)

(** What a sequence of requests must return, and the disk it leaves. *)
Fixpoint disk_run (V : Z → byte) (l : list blk_rq) : list (list bytes) * (Z → byte) :=
  match l with
  | [] => ([], V)
  | rq :: l' =>
      let '(out, V1) := match rq with
        | REQ_OP_READ r => (slices V (Z.shiftl (rq_pos r) SECTOR_SHIFT) (rq_segs r), V)
        | REQ_OP_WRITE r => ([], upd V (Z.shiftl (rq_pos r) SECTOR_SHIFT) (concat (rq_segs r)))
        | REQ_OP_DISCARD pos n => ([], upd V (Z.shiftl pos SECTOR_SHIFT) (zeros n))
        | _ => ([], V)
        end in
      let '(outs, V2) := disk_run V1 l' in (out :: outs, V2)
  end.

(** What the requests must leave in the log. *)
Fixpoint ops_of (l : list blk_rq) : list log_op :=
  match l with
  | [] => []
  | REQ_OP_WRITE r :: l' => OpWrite r :: ops_of l'
  | REQ_OP_DISCARD pos n :: l' => OpTrim pos n :: ops_of l'
  | REQ_OP_FLUSH :: l' => OpRotate :: ops_of l'
  | _ :: l' => ops_of l'
  end.

(** What the requests must leave in the counters. *)
Definition account_one (rq : blk_rq) (s : io_stats) : io_stats :=
  match rq with
  | REQ_OP_WRITE r => count_write (blk_rq_bytes r) s
  | REQ_OP_DISCARD _ n => count_trim n s
  | _ => s
  end.
Definition account (l : list blk_rq) (s : io_stats) : io_stats := foldl (λ s rq, account_one rq s) s l.

(** The number of bytes a request is about. *)
Definition rq_bytes (rq : blk_rq) : Z :=
  match rq with
  | REQ_OP_READ r | REQ_OP_WRITE r => zlen (concat (rq_segs r))
  | REQ_OP_DISCARD _ n => n
  | _ => 0
  end.
Definition total_bytes (l : list blk_rq) : Z := foldr (λ rq n, rq_bytes rq + n) 0 l.

Definition in_range (cap pos len : Z) : Prop :=
  0 ≤ pos ∧ 0 ≤ len ∧ Z.shiftl pos SECTOR_SHIFT + len ≤ cap.

(** Requests the block layer sends a device of [cap] bytes. *)
Definition rq_fits (cap : Z) (rq : blk_rq) : Prop :=
  match rq with
  | REQ_OP_READ r => in_range cap (rq_pos r) (zlen (concat (rq_segs r)))
  | REQ_OP_WRITE r => in_range cap (rq_pos r) (zlen (concat (rq_segs r))) ∧ rq_ok r
  | REQ_OP_DISCARD pos n => in_range cap pos n
  | REQ_OP_FLUSH => True
  | REQ_OP_OTHER => False
  end.

Lemma rq_bytes_nonneg cap rq : rq_fits cap rq → 0 ≤ rq_bytes rq.
Proof. destruct rq; simpl; unfold in_range; try lia; intros; apply zlen_nonneg. Qed.

Lemma total_bytes_nonneg cap l : Forall (rq_fits cap) l → 0 ≤ total_bytes l.
Proof. induction 1 as [|rq l Hrq _ IH]; simpl; [lia|]. pose proof (rq_bytes_nonneg cap rq Hrq). lia. Qed.

Section Serving.
Context {K L : Type} `{HK : KernelOps K, HB : BackingOps K} `{HL : LogLaws L} `{HZ : LZ4Laws} `{!CrcOps} `{HC : Crc32Laws}.

(** Sequential service: the results in order. *)
Fixpoint serve (l : list blk_rq) : M (dev_io K L) (list (Z * list bytes)) :=
  match l with
  | [] => mret []
  | rq :: l' => r ← lbd_handle_request rq; rs ← serve l'; mret (r :: rs)
  end.

(** ** The interface of the store

    [R n q V]: the store [q] represents the disk [V] of [cap] bytes and can take
    requests of [n] bytes in total. *)
Record serves (qcow : bool) (cap : Z) (R : Z → qdev K → (Z → byte) → Prop) : Prop := {
  sv_read n k q V rq : R (n + k) q V → 0 ≤ k → n = zlen (concat (rq_segs rq)) → in_range cap (rq_pos rq) n →
    ∃ q', (if qcow then lbd_qcow2_read rq
           else (r ← raw_read (Z.shiftl (rq_pos rq) SECTOR_SHIFT) (rq_segs rq);
                 upd_stats (add_read (blk_rq_bytes rq));; mret r)) q
          = (Ok (slices V (Z.shiftl (rq_pos rq) SECTOR_SHIFT) (rq_segs rq)), q') ∧ R k q' V;
  sv_write n k q V rq : R (n + k) q V → 0 ≤ k → n = zlen (concat (rq_segs rq)) → in_range cap (rq_pos rq) n →
    ∃ q', (if qcow then lbd_qcow2_write rq
           else raw_write (Z.shiftl (rq_pos rq) SECTOR_SHIFT) (rq_segs rq)) q = (Ok tt, q')
      ∧ R k q' (upd V (Z.shiftl (rq_pos rq) SECTOR_SHIFT) (concat (rq_segs rq)));
  sv_discard n k q V pos : R (n + k) q V → 0 ≤ k → in_range cap pos n →
    ∃ q', (if qcow then lbd_qcow2_discard pos n else raw_discard (Z.shiftl pos SECTOR_SHIFT) n) q = (Ok tt, q')
      ∧ R k q' (upd V (Z.shiftl pos SECTOR_SHIFT) (zeros n));
  sv_fsync k q V : R k q V → ∃ kn, vfs_fsync (kern q) = (0, kn) ∧ R k (set_kern kn q) V
}.

(** ** One request against the interface *)
Lemma on_q_run {A} (m : M (qdev K) A) (d : dev_io K L) r q : m (io_q d) = (r, q) →
  on_q m d = (r, DevIo (is_qcow2 d) q (io_log d) (io_stat d)).
Proof. intros E. unfold on_q. by rewrite E. Qed.

Lemma on_log_run {A} (m : M (log_state L) A) (d : dev_io K L) r l : m (io_log d) = (r, l) →
  on_log m d = (r, DevIo (is_qcow2 d) (io_q d) l (io_stat d)).
Proof. intros E. unfold on_log. by rewrite E. Qed.

Lemma dget_run (d : dev_io K L) : get d = (Ok d, d). Proof. done. Qed.

Context (qcow : bool) (cap : Z) (R : Z → qdev K → (Z → byte) → Prop) (HS : serves qcow cap R).

(** What a served request leaves: the store, the log and the counters after the operation. *)
Definition served (d' : dev_io K L) (n : Z) (V : Z → byte) (l : log_state L) (c : io_stats) : Prop :=
  is_qcow2 d' = qcow ∧ R n (io_q d') V ∧ io_log d' = l ∧ io_stat d' = c.

Lemma read_served d n k V rq : is_qcow2 d = qcow → R (n + k) (io_q d) V → 0 ≤ k →
  n = zlen (concat (rq_segs rq)) → in_range cap (rq_pos rq) n →
  ∃ d', lbd_do_read rq d = (Ok (slices V (Z.shiftl (rq_pos rq) SECTOR_SHIFT) (rq_segs rq)), d')
    ∧ served d' k V (io_log d) (io_stat d).
Proof.
  intros Hq HR Hk Hn Hr. destruct (sv_read _ _ _ HS n k _ V rq HR Hk Hn Hr) as (q' & E & HR').
  unfold lbd_do_read. mstep (dget_run d). rewrite Hq. exists (DevIo (is_qcow2 d) q' (io_log d) (io_stat d)).
  split; [clear HS; destruct qcow; by apply on_q_run|by split_and!].
Qed.

Lemma write_served d n k V rq l : is_qcow2 d = qcow → R (n + k) (io_q d) V → 0 ≤ k →
  n = zlen (concat (rq_segs rq)) → in_range cap (rq_pos rq) n → lbd_log_write rq (io_log d) = (Ok tt, l) →
  ∃ d', lbd_do_write rq d = (Ok tt, d')
    ∧ served d' k (upd V (Z.shiftl (rq_pos rq) SECTOR_SHIFT) (concat (rq_segs rq))) l (count_write (blk_rq_bytes rq) (io_stat d)).
Proof.
  intros Hq HR Hk Hn Hr El. destruct (sv_write _ _ _ HS n k _ V rq HR Hk Hn Hr) as (q' & E & HR').
  unfold lbd_do_write. mstep (dget_run d). rewrite Hq.
  assert (E1 : (if qcow then on_q (lbd_qcow2_write rq)
      else on_q (raw_write (Z.shiftl (rq_pos rq) SECTOR_SHIFT) (rq_segs rq))) d
    = (Ok tt, DevIo qcow q' (io_log d) (io_stat d))) by (rewrite <- Hq at 2; clear HS; destruct qcow; by apply on_q_run).
  mstep E1. mstep (on_log_run (lbd_log_write rq) (DevIo qcow q' (io_log d) (io_stat d)) _ _ El).
  eexists. split; [done|by split_and!].
Qed.

Lemma discard_served d n k V pos l : is_qcow2 d = qcow → R (n + k) (io_q d) V → 0 ≤ k →
  in_range cap pos n → lbd_log_discard pos n (io_log d) = (Ok tt, l) →
  ∃ d', lbd_do_discard pos n d = (Ok tt, d') ∧ served d' k (upd V (Z.shiftl pos SECTOR_SHIFT) (zeros n)) l (count_trim n (io_stat d)).
Proof.
  intros Hq HR Hk Hr El. destruct (sv_discard _ _ _ HS n k _ V pos HR Hk Hr) as (q' & E & HR').
  unfold lbd_do_discard. mstep (dget_run d). rewrite Hq.
  assert (E1 : (if qcow then on_q (lbd_qcow2_discard pos n)
      else on_q (raw_discard (Z.shiftl pos SECTOR_SHIFT) n)) d
    = (Ok tt, DevIo qcow q' (io_log d) (io_stat d))) by (rewrite <- Hq at 2; clear HS; destruct qcow; by apply on_q_run).
  mstep E1. mstep (on_log_run (lbd_log_discard pos n) (DevIo qcow q' (io_log d) (io_stat d)) _ _ El).
  eexists. split; [done|by split_and!].
Qed.

Lemma flush_served d k V l : is_qcow2 d = qcow → R k (io_q d) V →
  lbd_log_rotate_work_fn (io_log d) = (Ok tt, l) →
  ∃ d', do_flush d = (Ok tt, d') ∧ served d' k V l (io_stat d).
Proof.
  intros Hq HR El. destruct (sv_fsync _ _ _ HS k _ V HR) as (kn & E & HR'). unfold do_flush.
  assert (E1 : on_q (λ q, let '(r, k) := vfs_fsync (kern q) in (Ok r, set_kern k q)) d
    = (Ok 0, DevIo (is_qcow2 d) (set_kern kn (io_q d)) (io_log d) (io_stat d))) by (apply on_q_run; by rewrite E).
  mstep E1. cbn [Z.eqb negb]. cbv iota.
  exists (DevIo qcow (set_kern kn (io_q d)) l (io_stat d)). split; [|by split_and!]. rewrite Hq.
  apply (on_log_run lbd_log_rotate_work_fn (DevIo qcow _ (io_log d) (io_stat d))). exact El.
Qed.

(** ** Any sequence of requests *)
Lemma handle_ok rq (d d' : dev_io K L) data : rq_dispatch rq d = (Ok data, d') →
  lbd_handle_request rq d = (Ok (0, data), d').
Proof. intros E. unfold lbd_handle_request. by rewrite (bind_ok _ _ _ _ _ (try_ok _ _ _ _ E)). Qed.

Lemma handle_err rq (d d' : dev_io K L) e : rq_dispatch rq d = (Err e, d') →
  lbd_handle_request rq d = (Ok (e, []), d').
Proof. intros E. unfold lbd_handle_request. by rewrite (bind_ok _ _ _ _ _ (try_err _ _ _ _ E)). Qed.

(** One request of a device whose log is well formed: the result, the disk, and
    the log after the operation, if any. *)
Lemma handle_spec d k V hist es rq rest : is_qcow2 d = qcow → R (rq_bytes rq + k) (io_q d) V → 0 ≤ k →
  history (io_log d) hist es → rq_fits cap rq →
  ∃ d' hist' es', lbd_handle_request rq d = (Ok (0, hd [] (disk_run V [rq]).1), d')
    ∧ is_qcow2 d' = qcow ∧ R k (io_q d') (disk_run V [rq]).2 ∧ history (io_log d') hist' es'
    ∧ log_run (ops_of (rq :: rest)) (io_log d) = log_run (ops_of rest) (io_log d') ∧ io_stat d' = account_one rq (io_stat d).
Proof.
  intros Hq HR Hk Hh Hf. pose proof (rq_bytes_nonneg _ _ Hf). destruct rq as [r|r|pos n| |]; [| | | |done].
  - destruct (read_served d _ k V r Hq HR Hk eq_refl Hf) as (d' & E & Hq' & HR' & El & Ec).
    exists d', hist, es. split_and!; [by apply handle_ok|done|done|by rewrite El|by rewrite El|done].
  - destruct Hf as [Hf Hok].
    destruct (log_exec_spec _ _ _ (OpWrite r) [] Hh Hok) as (s' & cl & es' & new & E & Hh' & _).
    destruct (write_served d _ k V r s' Hq HR Hk eq_refl Hf E) as (d' & Ed & Hq' & HR' & El & Ec).
    exists d', (hist ++ option_list cl), es'.
    split_and!; [apply handle_ok; unfold rq_dispatch; by rewrite (bind_ok _ _ _ _ _ Ed)|done|done|by rewrite El| |done].
    rewrite El. simpl. by rewrite (bind_ok _ _ _ _ _ E).
  - destruct (log_exec_spec _ _ _ (OpTrim pos n) [] Hh I) as (s' & cl & es' & new & E & Hh' & _).
    destruct (discard_served d n k V pos s' Hq HR Hk Hf E) as (d' & Ed & Hq' & HR' & El & Ec).
    exists d', (hist ++ option_list cl), es'.
    split_and!; [apply handle_ok; unfold rq_dispatch; by rewrite (bind_ok _ _ _ _ _ Ed)|done|done|by rewrite El| |done].
    rewrite El. simpl. by rewrite (bind_ok _ _ _ _ _ E).
  - destruct (log_exec_spec _ _ _ OpRotate [] Hh I) as (s' & cl & es' & new & E & Hh' & _).
    destruct (flush_served d k V s' Hq ltac:(by rewrite Z.add_0_l in HR) E) as (d' & Ed & Hq' & HR' & El & Ec).
    exists d', (hist ++ option_list cl), es'.
    split_and!; [apply handle_ok; unfold rq_dispatch; by rewrite (bind_ok _ _ _ _ _ Ed)|done|done|by rewrite El| |done].
    rewrite El. simpl. by rewrite (bind_ok _ _ _ _ _ E).
Qed.

Lemma disk_run_cons V rq l :
  disk_run V (rq :: l) = (hd [] (disk_run V [rq]).1 :: (disk_run (disk_run V [rq]).2 l).1,
                          (disk_run (disk_run V [rq]).2 l).2).
Proof. simpl. destruct rq; simpl; by destruct (disk_run _ l). Qed.

(** The device returns what the disk returns, represents the disk the requests
    leave, and its log has run exactly the operations of the requests. *)
Lemma serve_spec l : ∀ d k V hist es, is_qcow2 d = qcow → R (total_bytes l + k) (io_q d) V → 0 ≤ k →
  history (io_log d) hist es → Forall (rq_fits cap) l →
  ∃ d' hist' es', serve l d = (Ok (pair 0 <$> (disk_run V l).1), d')
    ∧ is_qcow2 d' = qcow ∧ R k (io_q d') (disk_run V l).2 ∧ history (io_log d') hist' es'
    ∧ log_run (ops_of l) (io_log d) = (Ok tt, io_log d') ∧ io_stat d' = account l (io_stat d).
Proof.
  induction l as [|rq l IH]; intros d k V hist es Hq HR Hk Hh Hl.
  { exists d, hist, es. by split_and!. }
  inversion_clear Hl as [|?? Hrq Hl']. pose proof (total_bytes_nonneg _ _ Hl') as Ht.
  destruct (handle_spec d (total_bytes l + k) V hist es rq l Hq) as (d1 & h1 & e1 & E1 & Hq1 & HR1 & Hh1 & L1 & C1);
    [by rewrite Z.add_assoc|lia|done|done|].
  destruct (IH d1 k _ h1 e1 Hq1 HR1 Hk Hh1 Hl') as (d2 & h2 & e2 & E2 & Hq2 & HR2 & Hh2 & L2 & C2).
  exists d2, h2, e2. rewrite disk_run_cons. cbn [fst snd fmap list_fmap serve].
  split_and!; [|done|done|done|by rewrite L1, L2|by rewrite C2, C1].
  rewrite (bind_ok _ _ _ _ _ E1). by rewrite (bind_ok _ _ _ _ _ E2).
Qed.

End Serving.

(** ** The qcow2 store serves *)
Section Qcow2Serves.
Context {K : Type} `{HBk : BackingLaws K} `{HZ : LZ4Laws} `{HCr : CrcLaws}.

(** [q] has the geometry of [q0] and represents [V]. *)
Definition q_rep (q0 : lbd_qcow2) (n : Z) (q : qdev K) (V : Z → byte) : Prop :=
  rep q V (λ _, None) ∧ room q n ∧ capacity (qcow2 q) = capacity q0
  ∧ l1_size (qcow2 q) = l1_size q0 ∧ virtual_size (qcow2 q) = virtual_size q0.

(** The request that fits is serviceable, and what it leaves has the rest of the room. *)
Lemma q_rep_step q0 n k q V : q_rep q0 (n + k) q V → 0 ≤ n → 0 ≤ k →
  (∀ pos, in_range (capacity q0) pos n → serviceable q pos n) ∧
  (∀ q' V', rep q' V' (λ _, None) → ext q q' (2 * cluster_size (qcow2 q) * n) (4 * n) n → q_rep q0 k q' V').
Proof.
  intros (Hrep & Hr & Hc & Hl & Hv) Hn Hk.
  assert (Hg : geom (qcow2 q)) by (destruct Hrep as ((g & W & _) & _); apply (wf_geom _ _ W)).
  pose proof (geom_cs _ Hg). split.
  - intros pos (Hp & _ & Hle). split; [done|]. split; [by rewrite Hc|]. eapply room_weaken; [| |exact Hr]; lia.
  - intros q' V' R' X. destruct (ext_serviceable q q' n Hg Hn X) as [Ec Er].
    destruct (ex_shape _ _ _ _ _ X) as (_ & _ & _ & Ev & El & _).
    split_and!; [done|by apply Er|by rewrite Ec|lia|lia].
Qed.

Lemma qcow2_serves q0 : serves true (capacity q0) (q_rep q0).
Proof.
  split.
  - intros n k q V rq HR Hk -> Hr. destruct (q_rep_step _ _ _ _ _ HR (zlen_nonneg _) Hk) as [Hs Hx].
    destruct (read_rep q V _ rq (proj1 HR) (Hs _ Hr)) as (q' & E & R' & X). exists q'. split; [done|by apply Hx].
  - intros n k q V rq HR Hk -> Hr. destruct (q_rep_step _ _ _ _ _ HR (zlen_nonneg _) Hk) as [Hs Hx].
    destruct (write_rep q V _ rq (proj1 HR) (Hs _ Hr)) as (q' & E & R' & _ & X). exists q'. split; [done|by apply Hx].
  - intros n k q V pos HR Hk Hr. destruct (q_rep_step _ _ _ _ _ HR (proj1 (proj2 Hr)) Hk) as [Hs Hx].
    destruct (discard_zero_rep q V pos n (proj1 HR) (proj1 (proj2 Hr)) (Hs _ Hr)) as (q' & E & R' & X).
    exists q'. split; [done|by apply Hx].
  - intros k q V (((g & W & Hg & Hb) & Hm) & Hr & Hc & Hl & Hv).
    destruct (fsync_ok (kern q) (wf_healthy _ _ W)) as (kn & E & Hh & Hct). exists kn. split; [done|].
    destruct (wf_set_kern q g kn W (conj Hh Hct)) as [W' _]. split_and!; [|done..]. split; [by exists g|done].
Qed.
End Qcow2Serves.

(** ** A raw backing file serves *)
Section RawServes.
Context {K : Type} `{HBk : BackingLaws K}.
Hypothesis Hfall : has_fallocate (K := K) = true.
Local Abbreviation disk q := (content (kern q) Backing).

Definition raw_rep (cap n : Z) (q : qdev K) (V : Z → byte) : Prop :=
  healthy (kern q) ∧ zlen (disk q) = cap ∧ cap ≤ 2 ^ 62 ∧ ∀ o, 0 ≤ o < cap → nth (Z.to_nat o) (disk q) x00 = V o.

Lemma read_at_slice (f : bytes) V pos n : 0 ≤ pos → 0 ≤ n → pos + n ≤ zlen f →
  (∀ o, 0 ≤ o < zlen f → nth (Z.to_nat o) f x00 = V o) → read_at f pos n = slice V pos n.
Proof.
  intros Hp Hn Hle HV. apply list_eq. intros i. unfold slice. rewrite list_lookup_fmap. unfold read_at.
  destruct (decide (i < Z.to_nat n)%nat) as [Hi|Hi].
  - rewrite lookup_seq_lt, lookup_take_lt, lookup_drop by done. simpl. rewrite <- HV by lia.
    rewrite nth_lookup. replace (Z.to_nat (pos + Z.of_nat i)) with (Z.to_nat pos + i)%nat by lia.
    destruct (lookup_lt_is_Some_2 f (Z.to_nat pos + i)) as [x ->]; [unfold zlen in *; lia|done].
  - rewrite lookup_seq_ge by lia. apply lookup_ge_None. rewrite length_take. lia.
Qed.

Lemma nth_write_at f pos d o : 0 ≤ pos → pos + zlen d ≤ zlen f → 0 ≤ o →
  nth (Z.to_nat o) (write_at f pos d) x00 = upd (λ o, nth (Z.to_nat o) f x00) pos d o.
Proof.
  intros Hp Hle Ho. rewrite nth_lookup, lookup_write_at by done. unfold upd, zlen in *.
  rewrite nth_lookup. case_decide; case_decide; try lia.
  - repeat f_equal. lia.
  - rewrite decide_False by lia. by rewrite nth_lookup.
Qed.

Lemma raw_read_spec cap n V segs : ∀ q pos, raw_rep cap n q V → 0 ≤ pos → pos + zlen (concat segs) ≤ cap →
  ∃ q', raw_read pos segs q = (Ok (slices V pos segs), q') ∧ raw_rep cap n q' V.
Proof.
  induction segs as [|s segs IH]; intros q pos HR Hp Hle; [by exists q|].
  pose proof HR as (Hh & Hl & Hc & HV). cbn [raw_read slices concat] in *. rewrite zlen_app in Hle.
  pose proof (zlen_nonneg s). pose proof (zlen_nonneg (concat segs)).
  destruct (kread_ok Backing pos (zlen s) q Hh Hp) as (k1 & E1 & Hh1 & C1); [lia|lia|].
  mstep E1. rewrite Z.eqb_refl. cbn [negb]. cbv iota.
  destruct (IH (set_kern k1 q) (pos + zlen s)) as (q' & E2 & R2); [|lia|lia|].
  { split_and!; [done|by rewrite <- Hl; simpl; rewrite C1|done|]. simpl. rewrite C1. apply HV. }
  mstep E2. exists q'. split; [|done]. rewrite (read_at_slice _ V) by (first [lia|by rewrite Hl]). done.
Qed.

Lemma raw_write_spec cap n segs : ∀ q pos V, raw_rep cap n q V → 0 ≤ pos → pos + zlen (concat segs) ≤ cap →
  ∃ q', raw_write pos segs q = (Ok tt, q') ∧ raw_rep cap n q' (upd V pos (concat segs)).
Proof.
  induction segs as [|s segs IH]; intros q pos V HR Hp Hle.
  { exists q. split; [done|]. destruct HR as (? & ? & ? & HV). split_and!; [done..|].
    intros o Ho. simpl. by rewrite upd_nil, HV. }
  pose proof HR as (Hh & Hl & Hc & HV). cbn [raw_write concat] in *. rewrite zlen_app in Hle.
  pose proof (zlen_nonneg s). pose proof (zlen_nonneg (concat segs)).
  destruct (kwrite_ok pos s q Hh Hp) as (k1 & E1 & Hh1 & C1 & _); [lia|].
  mstep E1. rewrite Z.eqb_refl. cbn [negb]. cbv iota.
  destruct (IH (set_kern k1 q) (pos + zlen s) (upd V pos s)) as (q' & E2 & Hh2 & Hl2 & _ & HV2); [|lia|lia|].
  { split_and!; [done| |done|].
    - simpl. rewrite C1, zlen_write_at by done. case_decide; lia.
    - intros o Ho. simpl. rewrite C1, nth_write_at by lia. unfold upd. case_decide; [done|by apply HV]. }
  exists q'. split; [done|]. split_and!; [done..|]. intros o Ho. by rewrite HV2, upd_app.
Qed.

Lemma raw_discard_spec cap n q V pos len : raw_rep cap n q V → 0 ≤ pos → 0 ≤ len → pos + len ≤ cap →
  ∃ q', raw_discard pos len q = (Ok tt, q') ∧ raw_rep cap n q' (upd V pos (zeros len)).
Proof.
  intros (Hh & Hl & Hc & HV) Hp Hn Hle.
  destruct (punch_ok (kern q) pos len Hh Hfall Hp Hn) as (k1 & E & Hh1 & C1 & _).
  exists (set_kern k1 q). unfold raw_discard. rewrite Hfall, E. split; [done|].
  unfold punched in C1. rewrite Z.min_l in C1 by lia.
  assert (Hz : zlen (zeros len) = len) by (unfold zlen; rewrite length_zeros; lia).
  split_and!; [done| |done|].
  - simpl. rewrite C1, zlen_write_at by done. case_decide; lia.
  - intros o Ho. simpl. rewrite C1, nth_write_at by lia. unfold upd. case_decide; [done|by apply HV].
Qed.

Context `{!LZ4Ops, !CrcOps}.

Lemma raw_serves cap : serves false cap (raw_rep cap).
Proof.
  split; cbv iota.
  - intros n k q V rq HR Hk -> (Hp & _ & Hle). pose proof (sector_pos _ Hp) as Hp'.
    destruct (raw_read_spec cap k V (rq_segs rq) q _ HR Hp' Hle) as (q' & E & R').
    eexists. mstep E. split; [done|]. exact R'.
  - intros n k q V rq HR Hk -> (Hp & _ & Hle). apply (raw_write_spec cap k); [done|by apply sector_pos|done].
  - intros n k q V pos HR Hk (Hp & Hn & Hle). apply (raw_discard_spec cap k); [done|by apply sector_pos|done|done].
  - intros k q V (Hh & Hl & Hc & HV). destruct (fsync_ok (kern q) Hh) as (kn & E & Hh' & Hct).
    exists kn. split; [done|]. split_and!; [done|by rewrite <- Hl; simpl; rewrite Hct|done|]. simpl. by rewrite Hct.
Qed.
End RawServes.

(** ** The queue *)
Section QueueProof.
Context {K L : Type} `{HK : KernelOps K, HB : BackingOps K} `{HL : LogOps L} `{HZ : LZ4Ops} `{!CrcOps} `{HC : Crc32Ops}.

Lemma serve_snoc (l : list blk_rq) rq (d d1 d2 : dev_io K L) rs r : serve l d = (Ok rs, d1) →
  lbd_handle_request rq d1 = (Ok r, d2) → serve (l ++ [rq]) d = (Ok (rs ++ [r]), d2).
Proof.
  revert d rs. induction l as [|x l IH]; intros d rs E1 E2; cbn [serve app] in *.
  - injection E1 as <- <-. by rewrite (bind_ok _ _ _ _ _ E2).
  - destruct (lbd_handle_request x d) as [[r'| |] d'] eqn:E; [|by rewrite (bind_err _ _ _ _ _ E) in E1|
      by rewrite (bind_panic _ _ _ _ E) in E1].
    rewrite (bind_ok _ _ _ _ _ E) in E1. rewrite (bind_ok _ _ _ _ _ E).
    destruct (serve l d') as [[rs'| |] d''] eqn:E'; [|by rewrite (bind_err _ _ _ _ _ E') in E1|
      by rewrite (bind_panic _ _ _ _ E') in E1].
    rewrite (bind_ok _ _ _ _ _ E') in E1. injection E1 as <- <-.
    by rewrite (bind_ok _ _ _ _ _ (IH _ _ E' E2)).
Qed.

(** The completion of a request with a result. *)
Definition completion (c : lbd_cmd) (r : Z * list bytes) : lbd_cmd * blk_status * list bytes :=
  (c, lbd_complete_rq r.1, r.2).
Definition completed (d : lbd_device K L) : list lbd_cmd := (dv_done d).*1.*1.
(** The requests the worker took and has not served. *)
Definition taken (s : sys (K := K) (L := L)) : list lbd_cmd :=
  match sy_worker s with Some (Some l) => l | _ => [] end.

Record sys_ok (d0 : lbd_device K L) (s : sys) (acc : list lbd_cmd) : Prop := {
  so_order : completed (sy_dev s) ++ taken s ++ dv_cmd_list (sy_dev s) = acc;
  so_served : ∃ rs, serve (cmd_rq <$> completed (sy_dev s)) (dv_io d0) = (Ok rs, dv_io (sy_dev s)) ∧
    dv_done (sy_dev s) = zip_with completion (completed (sy_dev s)) rs;
  so_queued : dv_cmd_list (sy_dev s) ≠ [] → dv_work (sy_dev s) = true ∨ sy_worker s = Some None
}.

Lemma work_one_inv c (d d' : lbd_device K L) : work_one c d = (Ok tt, d') →
  ∃ r, lbd_handle_request (cmd_rq c) (dv_io d) = (Ok r, dv_io d') ∧
    dv_done d' = dv_done d ++ [completion c r] ∧ dv_cmd_list d' = dv_cmd_list d ∧ dv_work d' = dv_work d.
Proof.
  unfold work_one. destruct (lbd_handle_request _ _) as [[[ret data]| |] io] eqn:E; intros [= <-]. by exists (ret, data).
Qed.

Lemma serve_length (l : list blk_rq) (d d' : dev_io K L) rs : serve l d = (Ok rs, d') → length rs = length l.
Proof.
  revert d rs. induction l as [|x l IH]; intros d rs E; cbn [serve] in E; [by injection E as <-|].
  destruct (lbd_handle_request x d) as [[r'| |] d1] eqn:E1; [|by rewrite (bind_err _ _ _ _ _ E1) in E|
    by rewrite (bind_panic _ _ _ _ E1) in E].
  rewrite (bind_ok _ _ _ _ _ E1) in E.
  destruct (serve l d1) as [[rs'| |] d2] eqn:E2; [|by rewrite (bind_err _ _ _ _ _ E2) in E|
    by rewrite (bind_panic _ _ _ _ E2) in E].
  rewrite (bind_ok _ _ _ _ _ E2) in E. injection E as <- <-. simpl. f_equal. by eapply IH.
Qed.

Lemma sys_reach_ok d0 s acc : dv_cmd_list d0 = [] → dv_done d0 = [] → sys_reach d0 s acc → sys_ok d0 s acc.
Proof.
  intros Hl Hd. induction 1 as [|s acc c d' _ [Ho Hs Hq] E|s acc c d' _ [Ho Hs Hq] E|s acc _ [Ho Hs Hq] Hw Hp
    |s acc l d' _ [Ho Hs Hq] Hw E|s acc c l d' _ [Ho Hs Hq] Hw E|s acc _ [Ho Hs Hq] Hw|s acc st _ [Ho Hs Hq]].
  - split; unfold completed, taken; simpl; rewrite ?Hl, ?Hd; [done|by exists []|done].
  - unfold lbd_queue_rq in E. rewrite (bind_ok get _ _ _ _ eq_refl) in E.
    destruct (negb _); [done|]. injection E as <-. split; [|done|by left].
    unfold completed, taken in *. simpl. by rewrite <- Ho, !app_assoc.
  - unfold lbd_queue_rq in E. rewrite (bind_ok get _ _ _ _ eq_refl) in E.
    destruct (negb _); [|done]. injection E as <-. by split.
  - split; [|done|by right]. unfold completed, taken in *. simpl in *. by rewrite Hw in Ho.
  - unfold work_splice in E. rewrite (bind_ok get _ _ _ _ eq_refl) in E. injection E as <- <-.
    split; [|done|done]. unfold completed, taken in *. simpl in *. rewrite Hw in Ho. by rewrite app_nil_r.
  - destruct (work_one_inv _ _ _ E) as (r & Eh & Edone & Ecl & Ew). destruct Hs as (rs & Es & Ez).
    assert (Ec : completed d' = completed (sy_dev s) ++ [c]) by (unfold completed; by rewrite Edone, !fmap_app).
    split; simpl.
    + rewrite Ec, Ecl. unfold taken in *. rewrite Hw in Ho. simpl. by rewrite <- Ho, <- !app_assoc.
    + exists (rs ++ [r]). rewrite Ec, fmap_app. split; [by eapply serve_snoc|].
      rewrite Edone, Ez at 1. rewrite zip_with_app; [done|].
      apply serve_length in Es. by rewrite length_fmap in Es.
    + rewrite Ecl, Ew. intros Hne. destruct (Hq Hne); [by left|by rewrite Hw in *].
  - split; [|done|].
    + unfold taken in *. rewrite Hw in Ho. by simpl in *.
    + intros Hne. destruct (Hq Hne); [by left|by rewrite Hw in *].
  - split; [done..|]. exact Hq.
Qed.

End QueueProof.
