(* ===== verification/DeviceTheorems.v ===== *)
(** * The theorems about the block device

    A qcow2 device and a raw device serve any sequence of requests as a disk;
    what was queued is served in order; and the log replays to the disk. *)
From S2P Require Import Prelude Kernel Format Crc Cbor Posix Qcow2State Qcow2Alloc Qcow2Cache Qcow2Io.
From S2P Require Import Qcow2Inv Qcow2AllocProof Qcow2Wf Qcow2CacheProof Qcow2WriteProof Qcow2IoProof.
From S2P Require Import Flat Qcow2Refine Qcow2InitProof CtlImage CtlCreateProof Qcow2Theorems.
From S2P Require Import Log LogProof LogTheorems CtlLog CtlLogProof CtlLogTheorems Device DeviceProof.

(** The disk the lines of a listing lead to, applied in order. *)
Definition replay_one (V : Z → byte) (r : report) : Z → byte :=
  match r_data r with
  | Some d => if r_trim r then upd V (r_offset r) (zeros (r_length r)) else upd V (r_offset r) d
  | None => if r_trim r then upd V (r_offset r) (zeros (r_length r)) else V
  end.
Definition replay (rs : list report) (V : Z → byte) : Z → byte := foldl replay_one V rs.

(** Requests in whole blocks: [logical_block_size] is 4096. *)
Definition rq_aligned (rq : blk_rq) : Prop :=
  match rq with
  | REQ_OP_WRITE r => rq_pos r mod 8 = 0
  | REQ_OP_DISCARD pos n => pos mod 8 = 0 ∧ n < 2 ^ 32
  | _ => True
  end.

Section Theorems.
Context {K L : Type} `{HBk : BackingLaws K} `{HL : LogLaws L} `{HZ : LZ4Laws} `{HCr : CrcLaws} `{HC : Crc32Laws}.
Implicit Types d : dev_io K L.

(** A log whose segment was just begun. *)
Lemma begun_history (s s1 : log_state L) : dev_ok s → lbd_begin_segment s = (Ok tt, s1) → history s1 [] [].
Proof.
  intros Hd E. destruct (begin_segment_spec s Hd) as (l & label & t & E1 & Hr & _). rewrite E in E1.
  injection E1 as ->. split; [|done|by intros _ ? ? ?%elem_of_nil]. split; [|done].
  unfold seg_bytes. by rewrite app_nil_r.
Qed.

(** The address a log entry gives is the address of the request. *)
Lemma aligned_offset pos : 0 ≤ pos → pos mod 8 = 0 → Z.shiftl pos SECTOR_SHIFT ≤ 2 ^ 62 →
  u64 (log_block pos * 4096) = Z.shiftl pos SECTOR_SHIFT.
Proof.
  intros Hp Ha. rewrite Z.shiftl_mul_pow2 by done. change (2 ^ SECTOR_SHIFT) with 512. intros Hle.
  unfold log_block, LBD_BLOCK_SIZE. rewrite s64_small by lia. rewrite Z.quot_div_nonneg by lia.
  pose proof (Z.div_mod pos 8). pose proof (Z.div_pos pos 8 Hp ltac:(lia)).
  replace (pos * 512) with (pos / 8 * 4096) by lia. rewrite Z.div_mul by lia. rewrite (u64_small (pos / 8)) by lia.
  rewrite u64_small; lia.
Qed.

(** The listing of the operations of the requests replays to their disk. *)
Lemma listed_replays cap l : ∀ seq rs V W, cap ≤ 2 ^ 62 → Forall (rq_fits cap) l → Forall rq_aligned l →
  listed seq (ops_of l) rs → (∀ o, V o = W o) → ∀ o, replay rs V o = (disk_run W l).2 o.
Proof.
  intros seq rs V W Hcap. revert seq rs V W. induction l as [|rq l IH]; intros seq rs V W Hf Ha Hl HV o.
  { simpl in Hl. subst rs. apply HV. }
  inversion_clear Hf as [|?? Hrq Hf']. inversion_clear Ha as [|?? Hal Ha']. rewrite disk_run_cons. cbn [snd].
  destruct rq as [r|r|pos n| |]; cbn [ops_of listed] in Hl.
  - by apply (IH seq).
  - destruct Hl as (ts & rs' & -> & Hl). destruct Hrq as [(Hp & Hn & Hle) Hok].
    apply (IH (u64 (seq + 1)) rs' (replay_one V (write_report ts seq r))); [done..|].
    intros o'. unfold replay_one. simpl.
    rewrite aligned_offset by (simpl in Hal; lia || done). unfold upd. by rewrite HV.
  - destruct Hl as (ts & rs' & -> & Hl). destruct Hrq as (Hp & Hn & Hle). destruct Hal as [Hal Hn32].
    apply (IH (u64 (seq + 1)) rs' (replay_one V (trim_report ts seq pos n))); [done..|].
    intros o'. unfold replay_one. simpl.
    rewrite aligned_offset, u32_small by (lia || done). unfold upd. by rewrite HV.
  - by apply (IH seq).
  - done.
Qed.

Lemma ops_of_ok cap l : Forall (rq_fits cap) l → Forall op_ok (ops_of l).
Proof.
  induction 1 as [|rq l Hrq _ IH]; [done|]. destruct rq; simpl in *; try done; constructor; try done. by destruct Hrq.
Qed.

(** C1: a qcow2 device is a disk with a log.  Any sequence of reads, writes,
    discards and flushes that fits the device succeeds and returns what a flat
    disk returns; the store represents the disk the requests leave; the log has
    run exactly the writes, trims and rotations the requests ask for, and the
    counters have counted them. *)
Theorem device_is_disk d V hist es reqs k : is_qcow2 d = true → rep (io_q d) V (λ _, None) →
  room (io_q d) (total_bytes reqs + k) → 0 ≤ k → history (io_log d) hist es →
  Forall (rq_fits (capacity (qcow2 (io_q d)))) reqs →
  ∃ d', serve reqs d = (Ok (pair 0 <$> (disk_run V reqs).1), d')
    ∧ rep (io_q d') (disk_run V reqs).2 (λ _, None) ∧ room (io_q d') k
    ∧ log_run (ops_of reqs) (io_log d) = (Ok tt, io_log d') ∧ io_stat d' = account reqs (io_stat d).
Proof.
  intros Hq Hr Hroom Hk Hh Hf.
  destruct (serve_spec true _ _ (qcow2_serves (qcow2 (io_q d))) reqs d k V hist es Hq)
    as (d' & h' & e' & E & _ & (Hr' & Hroom' & _) & _ & El & Ec); [by split_and!|done..|].
  by exists d'.
Qed.

(** C36: a raw device is a disk with a log, too: the same for a plain backing
    file on a file system that can punch holes. *)
Theorem raw_device_is_disk d V hist es reqs : is_qcow2 d = false → has_fallocate (K := K) = true →
  raw_rep (zlen (content (kern (io_q d)) Backing)) (total_bytes reqs) (io_q d) V →
  history (io_log d) hist es → Forall (rq_fits (zlen (content (kern (io_q d)) Backing))) reqs →
  ∃ d', serve reqs d = (Ok (pair 0 <$> (disk_run V reqs).1), d')
    ∧ raw_rep (zlen (content (kern (io_q d)) Backing)) 0 (io_q d') (disk_run V reqs).2
    ∧ log_run (ops_of reqs) (io_log d) = (Ok tt, io_log d') ∧ io_stat d' = account reqs (io_stat d).
Proof.
  intros Hq Hfa Hr Hh Hf.
  destruct (serve_spec false _ _ (raw_serves Hfa (zlen (content (kern (io_q d)) Backing))) reqs d 0 V hist es Hq)
    as (d' & h' & e' & E & _ & Hr' & _ & El & Ec); [by rewrite Z.add_0_r|done..|].
  by exists d'.
Qed.

(** C2: the log replays to the disk.  A qcow2 device serves any aligned requests
    and its log is closed; then applying the lines [lbdctl log] prints for the
    closed segments, in order, to the disk as it was gives the disk as it is. *)
Theorem log_replays_disk d s V reqs : is_qcow2 d = true → rep (io_q d) V (λ _, None) →
  room (io_q d) (total_bytes reqs) → dev_ok s → lbd_begin_segment s = (Ok tt, io_log d) →
  Forall (rq_fits (capacity (qcow2 (io_q d)))) reqs → Forall rq_aligned reqs →
  ∃ d' s' segs V', serve reqs d = (Ok (pair 0 <$> (disk_run V reqs).1), d')
    ∧ lbd_finalize_log (io_log d') = (Ok tt, s') ∧ rep (io_q d') V' (λ _, None)
    ∧ (∀ o, replay (concat segs.*2) V o = V' o)
    ∧ (NoDup segs.*1 → ∀ label rs, (label, rs) ∈ segs →
         ∃ c, l_content (lfs s') (final_name label) = Some c ∧ ∀ fd, on fd c → ∃ fd',
           cmd_log_cbor fd = (Ok (LogHdr 2 4096 label (u64 (dev_size s)) (backing_path s), rs), fd')).
Proof.
  intros Hq Hr Hroom Hs Eb Hf Ha. pose proof (begun_history s _ Hs Eb) as Hh.
  destruct (serve_spec true _ _ (qcow2_serves (qcow2 (io_q d))) reqs d 0 V [] [] Hq)
    as (d' & h' & e' & E & _ & (Hr' & _) & _ & El & _); [by rewrite Z.add_0_r; split_and!|done..|].
  destruct (listing_life s (ops_of reqs) Hs (ops_of_ok _ _ Hf)) as (s' & segs & E' & Hl & _ & Hfile).
  rewrite (bind_ok _ _ _ _ _ Eb), (bind_ok _ _ _ _ _ El) in E'.
  exists d', s', segs, (disk_run V reqs).2. split_and!; [done|done|done| |done].
  eapply (listed_replays (capacity (qcow2 (io_q d)))); [|done..]. unfold capacity. lia.
Qed.

(** C6: requests are served once, in the order they were accepted.  However
    queueing and the worker interleave, the requests completed, then those the
    worker holds, then those queued are the accepted ones in order; the device
    is what serving the completed ones one after the other makes it, with the
    results reported; and when the worker sleeps with no work queued, every
    accepted request has been completed. *)
Theorem requests_in_order (d0 : lbd_device K L) s acc : dv_cmd_list d0 = [] → dv_done d0 = [] →
  sys_reach d0 s acc →
  completed (sy_dev s) ++ taken s ++ dv_cmd_list (sy_dev s) = acc
  ∧ (∃ rs, serve (cmd_rq <$> completed (sy_dev s)) (dv_io d0) = (Ok rs, dv_io (sy_dev s))
       ∧ dv_done (sy_dev s) = zip_with completion (completed (sy_dev s)) rs)
  ∧ (sy_worker s = None → dv_work (sy_dev s) = false → completed (sy_dev s) = acc).
Proof.
  intros Hl Hd Hr. destruct (sys_reach_ok d0 s acc Hl Hd Hr) as [Ho Hs Hq]. split_and!; [done|done|].
  intros Hw Hwork. rewrite <- Ho. unfold taken. rewrite Hw. simpl.
  destruct (dv_cmd_list (sy_dev s)) eqn:E; [by rewrite app_nil_r|].
  destruct (Hq ltac:(done)) as [?|?]; congruence.
Qed.

(** C37: a write or trim the store refuses is reported as an I/O error and leaves
    no trace in the log or the counters. *)
Theorem failed_io_not_logged d r pos n e q : e ≠ 0 →
  lbd_complete_rq e = BLK_STS_IOERR
  ∧ ((if is_qcow2 d then lbd_qcow2_write r
      else raw_write (Z.shiftl (rq_pos r) SECTOR_SHIFT) (rq_segs r)) (io_q d) = (Err e, q) →
     lbd_handle_request (REQ_OP_WRITE r) d = (Ok (e, []), DevIo (is_qcow2 d) q (io_log d) (io_stat d)))
  ∧ ((if is_qcow2 d then lbd_qcow2_discard pos n
      else raw_discard (Z.shiftl pos SECTOR_SHIFT) n) (io_q d) = (Err e, q) →
     lbd_handle_request (REQ_OP_DISCARD pos n) d = (Ok (e, []), DevIo (is_qcow2 d) q (io_log d) (io_stat d))).
Proof.
  intros He. split; [unfold lbd_complete_rq; by destruct (Z.eqb_spec e 0)|]. split; intros E; apply handle_err.
  - unfold rq_dispatch. apply bind_err. unfold lbd_do_write. mstep (dget_run d).
    destruct (is_qcow2 d) eqn:Eq; rewrite <- Eq; apply bind_err, on_q_run, E.
  - unfold rq_dispatch. apply bind_err. unfold lbd_do_discard. mstep (dget_run d).
    destruct (is_qcow2 d) eqn:Eq; rewrite <- Eq; apply bind_err, on_q_run, E.
Qed.

End Theorems.

(** ** Witnesses *)
#[global] Instance sim_backing_ops : BackingOps simk := {
  vfs_fsync := λ k, let '(f, k') := sim_next k in (match f with FErr e => Z.neg e | _ => 0 end, k');
  has_fallocate := true;
  punch_hole := λ k pos len, let '(f, k') := sim_next k in
    match f with
    | FErr e => (Z.neg e, k')
    | _ => (0, sim_store k' Backing (punched (sim_backing k) pos len))
    end
}.
#[global] Instance sim_backing_laws : BackingLaws simk.
Proof.
  split.
  - intros [b bs fs] Hk. simpl in Hk. subst fs. eexists. by split_and!.
  - intros [b bs fs] pos len Hk _ _ _. simpl in Hk. subst fs. eexists. by split_and!.
Qed.

(** The 1 MiB image, its log just begun. *)
Definition log1 : log_state simlog := (lbd_begin_segment (log0 4096 [])).2.
Definition dio1 : dev_io simk simlog := DevIo true dev1 log1 (IoStats 0 0 0 0).
Definition reqs1 : list blk_rq :=
  [REQ_OP_WRITE (rq_fill 8 x41); REQ_OP_READ (Rq 8 [replicate 512 x00]); REQ_OP_DISCARD 16 4096; REQ_OP_FLUSH].

Lemma log0_ok : dev_ok (log0 4096 []).
Proof. split; vm_compute; [done|split; done|split; done|done]. Qed.

Lemma log1_begun : lbd_begin_segment (log0 4096 []) = (Ok tt, log1).
Proof.
  unfold log1. destruct (begin_segment_spec (log0 4096 []) log0_ok) as (l & label & t & E & _). by rewrite E.
Qed.

Lemma dev1_capacity : capacity (qcow2 dev1) = 511 * 4096.
Proof. destruct dev1_rep as (_ & Q & _). by rewrite Q. Qed.

Lemma reqs1_fit : Forall (rq_fits (capacity (qcow2 dev1))) reqs1 ∧ Forall rq_aligned reqs1.
Proof.
  rewrite dev1_capacity. split; repeat constructor; unfold rq_fits, rq_aligned, in_range, rq_ok; by vm_compute.
Qed.

Lemma device_is_disk_witness : ∃ d', serve reqs1 dio1 = (Ok (pair 0 <$> (disk_run (λ _, x00) reqs1).1), d')
  ∧ rep (io_q d') (disk_run (λ _, x00) reqs1).2 (λ _, None).
Proof.
  destruct (device_is_disk dio1 (λ _, x00) [] [] reqs1 0 eq_refl (proj1 dev1_rep)
    (dev1_room (total_bytes reqs1 + 0) ltac:(split; by vm_compute)) ltac:(lia)
    (begun_history _ _ log0_ok log1_begun) (proj1 reqs1_fit)) as (d' & E & R & _).
  exists d'. exact (conj E R).
Defined.

(** The same requests on a raw file of 1 MiB of zeros. *)
Definition raw1 : dev_io simk simlog :=
  DevIo false (Qdev (Simk (zeros (2 ^ 20)) [] []) blank_q None [] false [] no_stats) log1 (IoStats 0 0 0 0).

Lemma raw1_size : zlen (content (kern (io_q raw1)) Backing) = 2 ^ 20.
Proof. exact (zlen_zeros (2 ^ 20) ltac:(lia)). Qed.

Lemma raw_device_is_disk_witness : ∃ d', serve reqs1 raw1 = (Ok (pair 0 <$> (disk_run (λ _, x00) reqs1).1), d').
Proof.
  assert (Hf : has_fallocate (K := simk) = true) by reflexivity.
  destruct (raw_device_is_disk raw1 (λ _, x00) [] [] reqs1 eq_refl Hf) as (d' & E & _).
  - rewrite raw1_size. split_and!; [done|apply raw1_size|done|]. intros o _. apply nth_zeros.
  - exact (begun_history _ _ log0_ok log1_begun).
  - rewrite raw1_size. repeat constructor; unfold rq_fits, in_range, rq_ok; by vm_compute.
  - exists d'. exact E.
Defined.

Lemma log_replays_disk_witness : ∃ d' s' segs V',
  serve reqs1 dio1 = (Ok (pair 0 <$> (disk_run (λ _, x00) reqs1).1), d')
  ∧ lbd_finalize_log (io_log d') = (Ok tt, s') ∧ rep (io_q d') V' (λ _, None)
  ∧ ∀ o, replay (concat (segs : list (bytes * list report)).*2) (λ _, x00) o = V' o.
Proof.
  destruct (log_replays_disk dio1 (log0 4096 []) (λ _, x00) reqs1 eq_refl (proj1 dev1_rep)
    (dev1_room (total_bytes reqs1) ltac:(split; by vm_compute)) log0_ok log1_begun (proj1 reqs1_fit)
    (proj2 reqs1_fit)) as (d' & s' & segs & V' & E & Ef & R & Hr & _).
  exists d', s', segs, V'. exact (conj E (conj Ef (conj R Hr))).
Defined.

(** Two requests: the first is served while the second is queued. *)
Definition vd1 : lbd_device simk simlog := Device LBD_STATE_BOUND 0 raw1 [] false [].
Definition rd1 (t : nat) : lbd_cmd := QCmd t (REQ_OP_READ (Rq 0 [])).
Definition vd2 : lbd_device simk simlog := (lbd_queue_rq (rd1 0) vd1).2.
Definition vd3 : lbd_device simk simlog := (work_splice (set_dv_work false vd2)).2.
Definition vd4 : lbd_device simk simlog := (lbd_queue_rq (rd1 1) vd3).2.
Definition vd5 : lbd_device simk simlog := (work_one (rd1 0) vd4).2.

Lemma vd5_reach : sys_reach vd1 (Sys vd5 (Some (Some []))) [rd1 0; rd1 1].
Proof.
  apply (sys_serve vd1 (Sys vd4 (Some (Some [rd1 0]))) _ (rd1 0) []); [|done|done].
  apply (sys_accept vd1 (Sys vd3 (Some (Some [rd1 0]))) [rd1 0] (rd1 1)); [|done].
  apply (sys_splice vd1 (Sys (set_dv_work false vd2) (Some None))); [|done|done].
  apply (sys_start vd1 (Sys vd2 None)); [|done|done].
  by apply (sys_accept vd1 (Sys vd1 None) [] (rd1 0)); [apply sys_init|].
Qed.

Lemma requests_in_order_witness : completed vd5 ++ [] ++ dv_cmd_list vd5 = [rd1 0; rd1 1].
Proof. destruct (requests_in_order vd1 (Sys vd5 (Some (Some []))) _ eq_refl eq_refl vd5_reach) as (Ho & _). exact Ho. Defined.

(** The disk is full: the raw file refuses the write with [ENOSPC]. *)
Definition raw_full : dev_io simk simlog :=
  DevIo false (Qdev (Simk [x00] [] [FErr 28]) blank_q None [] false [] no_stats) log1 (IoStats 0 0 0 0).

Definition raw_full_q : qdev simk := Qdev (Simk [x00] [] []) blank_q None [] false [] no_stats.

Lemma failed_io_not_logged_witness :
  lbd_handle_request (REQ_OP_WRITE (Rq 0 [[x01]])) raw_full
  = (Ok (-28, []), DevIo (is_qcow2 raw_full) raw_full_q (io_log raw_full) (io_stat raw_full)).
Proof.
  destruct (failed_io_not_logged raw_full (Rq 0 [[x01]]) 0 0 (-28) raw_full_q ltac:(done)) as (_ & Hw & _).
  exact (Hw eq_refl).
Defined.
