(* ===== verification/Lifecycle.v ===== *)
(** * Adding, describing and removing devices ([src/src/lbd_main.c], control ioctls)

    Devices live in a heap and are published in the [idr] table under their
    index; reaching a freed device is [Panic].  Every kernel object a device
    holds is on its ledger: releasing one it does not hold is [Panic], and what
    is still held when the device is freed is leaked.  The outcome of every
    call that can fail is part of the environment of the ioctl. *)
From stdpp Require Import gmap.
From S2P Require Import Prelude Kernel Format Crc Cbor Qcow2State Qcow2Alloc Qcow2Cache Qcow2Io Log Watch Device.

(** ** Data *)
Inductive resource : Type :=
| R_log_buf | R_lz4_state | R_tag_set | R_gendisk | R_workqueue | R_backing_file | R_log_dir | R_added | R_timer.
#[global] Instance resource_eq_dec : EqDecision resource.
Proof. solve_decision. Defined.

(** [struct lbd_ctl_add] as userspace filled it. *)
Record lbd_ctl_add : Type := CtlAdd {
  aa_path : bytes; aa_log_dir : bytes; aa_base_path : bytes; aa_log_max_size : Z; aa_log_max_age_secs : Z
}.

(** What userspace and the kernel answer while a device is added: the argument
    ([None] when it cannot be copied), whether each allocation succeeds, the
    results of the block layer, and the backing file: an errno, or whether it is
    a regular file and the kernel that serves it. *)
Record add_env (K L : Type) : Type := AddEnv {
  ae_arg : option lbd_ctl_add;
  ae_kzalloc : bool; ae_log_buf : bool; ae_lz4 : bool; ae_idr : bool;
  ae_tag_set : Z; ae_alloc_disk : Z; ae_workqueue : bool;
  ae_open : Z + bool * K;
  ae_log : L; ae_kern_path : Z; ae_add_disk : Z; ae_copy_out : bool
}.
Arguments AddEnv {K L}.
Arguments ae_arg {K L}.
Arguments ae_kzalloc {K L}.
Arguments ae_log_buf {K L}.
Arguments ae_lz4 {K L}.
Arguments ae_idr {K L}.
Arguments ae_tag_set {K L}.
Arguments ae_alloc_disk {K L}.
Arguments ae_workqueue {K L}.
Arguments ae_open {K L}.
Arguments ae_log {K L}.
Arguments ae_kern_path {K L}.
Arguments ae_add_disk {K L}.
Arguments ae_copy_out {K L}.

Section World.
Context (K L : Type).

(** A device and its ledger. *)
Record ldev : Type := LDev { ld_dev : lbd_device K L; ld_held : list resource }.

(** [lw_gone] keeps what detached devices left behind: the image, the log. *)
Record lworld : Type := LWorld {
  lw_heap : gmap nat ldev; lw_idr : gmap Z nat; lw_next : nat;
  lw_leaked : list resource; lw_gone : list (dev_io K L)
}.
End World.
Arguments LDev {K L}.
Arguments ld_dev {K L}.
Arguments ld_held {K L}.
Arguments LWorld {K L}.
Arguments lw_heap {K L}.
Arguments lw_idr {K L}.
Arguments lw_next {K L}.
Arguments lw_leaked {K L}.
Arguments lw_gone {K L}.

Section Lifecycle.
Context {K L : Type} `{KernelOps K, BackingOps K, LogOps L, LZ4Ops, CrcOps, Crc32Ops}.
Abbreviation MW := (M (lworld K L)).

(** ** The heap, the table and the ledger *)
Definition at_dev {A} (p : nat) (m : M (ldev K L) A) : MW A := λ w,
  match lw_heap w !! p with
  | None => (Panic, w)
  | Some d => let '(r, d') := m d in
      (r, LWorld (<[p := d']> (lw_heap w)) (lw_idr w) (lw_next w) (lw_leaked w) (lw_gone w))
  end.

Definition on_io {A} (m : M (dev_io K L) A) : M (ldev K L) A := λ d,
  let v := ld_dev d in
  let '(r, io) := m (dv_io v) in
  (r, LDev (Device (dv_state v) (dv_open_count v) io (dv_cmd_list v) (dv_work v) (dv_done v)) (ld_held d)).

Definition on_dev {A} (m : M (lbd_device K L) A) : M (ldev K L) A := λ d,
  let '(r, v) := m (ld_dev d) in (r, LDev v (ld_held d)).

Definition acquire (r : resource) : M (ldev K L) unit := modify (λ d, LDev (ld_dev d) (r :: ld_held d)).
(** [kvfree(NULL)] does nothing. *)
Definition kvfree (r : resource) : M (ldev K L) unit :=
  modify (λ d, LDev (ld_dev d) (filter (λ x, x ≠ r) (ld_held d))).
Definition release (r : resource) : M (ldev K L) unit :=
  d ← get; if decide (r ∈ ld_held d) then kvfree r else panic.

(** [kzalloc] of a device, [kfree]. *)
Definition l_new (d : lbd_device K L) : MW nat := λ w,
  (Ok (lw_next w), LWorld (<[lw_next w := LDev d []]> (lw_heap w)) (lw_idr w) (S (lw_next w)) (lw_leaked w) (lw_gone w)).
Definition kfree (p : nat) : MW unit := λ w,
  match lw_heap w !! p with
  | None => (Panic, w)
  | Some d => (Ok tt, LWorld (delete p (lw_heap w)) (lw_idr w) (lw_next w) (lw_leaked w ++ ld_held d) (lw_gone w))
  end.

(** [idr_alloc(&lbd_devices, dev, 0, 256)]: the lowest free index. *)
Definition idr_alloc (ok : bool) (p : nat) : MW Z := λ w,
  if negb ok then (Ok (- ENOMEM), w) else
  match filter (λ i : Z, lw_idr w !! i = None) (seqZ 0 256) with
  | [] => (Ok (- ENOSPC), w)
  | i :: _ => (Ok i, LWorld (lw_heap w) (<[i := p]> (lw_idr w)) (lw_next w) (lw_leaked w) (lw_gone w))
  end.
Definition idr_remove (i : Z) : MW unit :=
  modify (λ w, LWorld (lw_heap w) (delete i (lw_idr w)) (lw_next w) (lw_leaked w) (lw_gone w)).

(** ** Parts of the teardown *)

(** [if (dev->base) lbd_qcow2_base_destroy(dev->base)]. *)
Definition drop_base : M (dev_io K L) unit :=
  d ← get; match base (io_q d) with Some _ => on_q lbd_qcow2_base_destroy | None => mret tt end.
(** [if (dev->is_qcow2) lbd_qcow2_destroy(dev)]. *)
Definition close_image : M (dev_io K L) unit :=
  d ← get; if is_qcow2 d then on_q lbd_qcow2_destroy else mret tt.
(** [vfs_fsync(dev->backing_file, 0)], its result ignored. *)
Definition sync_backing : M (dev_io K L) unit :=
  on_q (λ d, let '(_, k) := vfs_fsync (kern d) in (Ok tt, set_kern k d)).
(** [flush_workqueue]: a queued work item runs to its end. *)
Definition flush_work : M (lbd_device K L) unit :=
  d ← get; if dv_work d then modify (set_dv_work false);; lbd_work_fn else mret tt.

(** ** Teardown: the labels of [lbd_add_device], each falling through to the next *)
Definition err_free (p : nat) (ret : Z) : MW Z :=
  at_dev p (kvfree R_lz4_state);; at_dev p (kvfree R_log_buf);; kfree p;; mret ret.
Definition err_idr (p : nat) (idx ret : Z) : MW Z := idr_remove idx;; err_free p ret.
Definition err_tagset (p : nat) (idx ret : Z) : MW Z := at_dev p (release R_tag_set);; err_idr p idx ret.
Definition err_disk (p : nat) (idx ret : Z) : MW Z := at_dev p (release R_gendisk);; err_tagset p idx ret.
Definition err_wq (p : nat) (idx ret : Z) : MW Z := at_dev p (release R_workqueue);; err_disk p idx ret.
Definition err_backing (p : nat) (idx ret : Z) : MW Z :=
  at_dev p (on_io close_image);;
  at_dev p (release R_backing_file);;
  err_wq p idx ret.
Definition err_base (p : nat) (idx ret : Z) : MW Z :=
  at_dev p (on_io drop_base);;
  err_backing p idx ret.
Definition err_logdir (p : nat) (idx ret : Z) : MW Z := at_dev p (release R_log_dir);; err_base p idx ret.

(** ** [lbd_destroy_device] *)
Definition lbd_destroy_device (p : nat) : MW unit :=
  at_dev p (on_dev (modify (set_dv_state LBD_STATE_REMOVING)));;
  at_dev p (kvfree R_timer);;
  at_dev p (release R_added);;
  at_dev p (on_dev flush_work);;
  at_dev p (release R_workqueue);;
  at_dev p (on_io (on_log lbd_finalize_log));;
  at_dev p (on_io drop_base);;
  at_dev p (on_io close_image);;
  at_dev p (kvfree R_lz4_state);; at_dev p (kvfree R_log_buf);;
  at_dev p (release R_log_dir);;
  at_dev p (on_io sync_backing);;
  at_dev p (release R_backing_file);;
  at_dev p (release R_gendisk);;
  at_dev p (release R_tag_set);;
  io ← at_dev p (d ← get; mret (dv_io (ld_dev d)));
  modify (λ w, LWorld (lw_heap w) (lw_idr w) (lw_next w) (lw_leaked w) (lw_gone w ++ [io]));;
  kfree p.

(** ** [lbd_add_device] *)
Definition zero_q : lbd_qcow2 := Qcow2 0 0 0 0 [] 0 0 0 0 [] [] 0.

(** The fields set right after [kzalloc]; the size and the backing file follow. *)
Definition new_device (k : K) (a : lbd_ctl_add) (l : L) : lbd_device K L :=
  Device LBD_STATE_UNBOUND 0
    (DevIo false (Qdev k zero_q None [] false [] (Stats 0 0 0 0 0 0 0))
      (LogState l 0 (cstr (take 255 (aa_log_dir a))) (cstr (take 255 (aa_path a))) 0 None [] false 0 [] 0
         (if aa_log_max_size a =? 0 then LBD_LOG_MAX_SIZE_DEFAULT else aa_log_max_size a)
         (if aa_log_max_age_secs a =? 0 then LBD_LOG_MAX_AGE_DEFAULT else aa_log_max_age_secs a) 0 None [])
      (IoStats 0 0 0 0))
    [] false [].

Definition set_log_index (i : Z) (s : log_state L) : log_state L :=
  LogState (lfs s) i (log_dir s) (backing_path s) (dev_size s) (log_file s) (log_buf s) (log_has_entries s)
    (log_seq s) (log_segment_label s) (segment_start_time s) (log_max_size s) (log_max_age_secs s)
    (stat_log_rotations s) (rotate_dwork s) (notified s).
Definition set_dev_size (n : Z) (s : log_state L) : log_state L :=
  LogState (lfs s) (log_index s) (log_dir s) (backing_path s) n (log_file s) (log_buf s) (log_has_entries s)
    (log_seq s) (log_segment_label s) (segment_start_time s) (log_max_size s) (log_max_age_secs s)
    (stat_log_rotations s) (rotate_dwork s) (notified s).
Definition set_is_qcow2 (b : bool) (d : dev_io K L) : dev_io K L := DevIo b (io_q d) (io_log d) (io_stat d).

(** Detect the format by its magic; an image is opened and gives the size. *)
Definition detect_format : M (dev_io K L) unit :=
  '(mret', magic) ← on_q (kread Backing 0 8);
  if (mret' =? 8) && (_qcow2_get64 magic 0 =? LBD_QCOW2_MAGIC) then
    on_q lbd_qcow2_init;;
    modify (set_is_qcow2 true);;
    d ← get;
    on_log (modify (set_dev_size (s64 (virtual_size (qcow2 (io_q d))))))
  else modify (set_is_qcow2 false).

(** Open the base layer if one is asked for; only an image can have one. *)
Definition open_base (base_path : bytes) : M (dev_io K L) unit :=
  match base_path with
  | [] => mret tt
  | _ =>
      d ← get;
      if negb (is_qcow2 d) then throw (- EINVAL) else
      on_q (modify (set_base_path base_path);; lbd_qcow2_base_init base_path)
  end.

(** The first log segment, the block device itself, the answer to userspace. *)
Definition add_live (p : nat) (idx : Z) (e : add_env K L) : MW Z :=
  at_dev p (on_io (on_log lbd_begin_segment));;
  at_dev p (on_dev (modify (set_dv_state LBD_STATE_BOUND)));;
  if negb (ae_add_disk e =? 0) then err_logdir p idx (ae_add_disk e) else
  at_dev p (acquire R_added);;
  at_dev p (on_io (on_log arm_timer));;
  at_dev p (acquire R_timer);;
  if negb (ae_copy_out e) then
    lbd_destroy_device p;; idr_remove idx;; mret (- EFAULT)
  else mret 0.

(** From the opened backing file to the live device. *)
Definition add_backing (p : nat) (idx : Z) (e : add_env K L) (a : lbd_ctl_add) : MW Z :=
  r ← at_dev p (try (on_io detect_format));
  match r with
  | Err ret => err_backing p idx ret
  | Panic => panic
  | Ok _ =>
      r ← at_dev p (try (on_io (open_base (cstr (take 255 (aa_base_path a))))));
      match r with
      | Err ret => err_backing p idx ret
      | Panic => panic
      | Ok _ =>
          if negb (ae_kern_path e =? 0) then err_base p idx (ae_kern_path e) else
          at_dev p (acquire R_log_dir);;
          add_live p idx e
      end
  end.

(** Open the backing file and check that it is a regular, non-empty file. *)
Definition add_open (p : nat) (idx : Z) (e : add_env K L) (a : lbd_ctl_add) : MW Z :=
  match ae_open e with
  | inl ret => err_wq p idx ret
  | inr (is_reg, k) =>
      at_dev p (acquire R_backing_file);;
      at_dev p (on_io (on_q (modify (set_kern k))));;
      if negb is_reg then err_backing p idx (- EINVAL) else
      at_dev p (on_io (on_log (modify (set_dev_size (zlen (content k Backing))))));;
      if zlen (content k Backing) =? 0 then err_backing p idx (- EINVAL) else
      add_backing p idx e a
  end.

(** The block layer objects. *)
Definition add_block (p : nat) (idx : Z) (e : add_env K L) (a : lbd_ctl_add) : MW Z :=
  at_dev p (on_io (on_log (modify (set_log_index idx))));;
  if negb (ae_tag_set e =? 0) then err_idr p idx (ae_tag_set e) else
  at_dev p (acquire R_tag_set);;
  if negb (ae_alloc_disk e =? 0) then err_tagset p idx (ae_alloc_disk e) else
  at_dev p (acquire R_gendisk);;
  if negb (ae_workqueue e) then err_disk p idx (- ENOMEM) else
  at_dev p (acquire R_workqueue);;
  add_open p idx e a.

(** The result and the index; [k0] stands for the absent backing file. *)
Definition lbd_add_device (k0 : K) (e : add_env K L) : MW (Z * Z) :=
  match ae_arg e with
  | None => mret (- EFAULT, 0)
  | Some a =>
      if decide (cstr (take 255 (aa_log_dir a)) = []) then mret (- EINVAL, 0) else
      if negb (ae_kzalloc e) then mret (- ENOMEM, 0) else
      p ← l_new (new_device k0 a (ae_log e));
      if negb (ae_log_buf e) then r ← err_free p (- ENOMEM); mret (r, 0) else
      at_dev p (acquire R_log_buf);;
      if negb (ae_lz4 e) then r ← err_free p (- ENOMEM); mret (r, 0) else
      at_dev p (acquire R_lz4_state);;
      idx ← idr_alloc (ae_idr e) p;
      if idx <? 0 then r ← err_free p idx; mret (r, 0) else
      r ← add_block p idx e a;
      mret (r, idx)
  end.

(** ** [lbd_remove_device] and [lbd_info_device] *)
Definition lbd_remove_device (arg : option Z) : MW Z :=
  match arg with
  | None => mret (- EFAULT)
  | Some i =>
      w ← get;
      match lw_idr w !! i with
      | None => mret (- ENODEV)
      | Some p =>
          d ← at_dev p get;
          if negb (bool_decide (dv_state (ld_dev d) = LBD_STATE_BOUND)) then mret (- EBUSY) else
          if dv_open_count (ld_dev d) >? 0 then mret (- EBUSY) else
          idr_remove i;;
          lbd_destroy_device p;;
          mret 0
      end
  end.

(** State, size and path. *)
Definition lbd_info_device (arg : option Z) (copy_out : bool) : MW (Z + lbd_state * Z * bytes) :=
  match arg with
  | None => mret (inl (- EFAULT))
  | Some i =>
      w ← get;
      match lw_idr w !! i with
      | None => mret (inl (- ENODEV))
      | Some p =>
          d ← at_dev p get;
          let s := io_log (dv_io (ld_dev d)) in
          if negb copy_out then mret (inl (- EFAULT)) else
          mret (inr (dv_state (ld_dev d), u64 (dev_size s), backing_path s))
      end
  end.

(** ** [lbd_ctl_ioctl] *)
Inductive ioctl_cmd : Type :=
| LBD_CTL_ADD (k0 : K) (e : add_env K L)
| LBD_CTL_REMOVE (arg : option Z)
| LBD_CTL_INFO (arg : option Z) (copy_out : bool)
| LBD_CTL_OTHER.

Definition ENOTTY : Z := 25.

Definition lbd_ctl_ioctl (c : ioctl_cmd) : MW Z :=
  match c with
  | LBD_CTL_ADD k0 e => r ← lbd_add_device k0 e; mret r.1
  | LBD_CTL_REMOVE arg => lbd_remove_device arg
  | LBD_CTL_INFO arg out => r ← lbd_info_device arg out; mret (match r with inl e => e | inr _ => 0 end)
  | LBD_CTL_OTHER => mret (- ENOTTY)
  end.


(** ** The module *)

(** [lbd_init] with the results of [register_blkdev] and [misc_register]: the
    error with everything unregistered, or 0 and no devices. *)
Definition lbd_init (major misc : Z) : Z * option (lworld K L) :=
  if major <? 0 then (major, None) else
  if negb (misc =? 0) then (misc, None) else (0, Some (LWorld ∅ ∅ 0 [] [])).

(** [idr_for_each_entry]: the entries by ascending index, each taken out of the
    table and destroyed. *)
Fixpoint exit_loop (ids : list Z) : MW unit :=
  match ids with
  | [] => mret tt
  | i :: ids' =>
      w ← get;
      (match lw_idr w !! i with
       | None => mret tt
       | Some p => idr_remove i;; lbd_destroy_device p
       end);;
      exit_loop ids'
  end.

Definition lbd_exit : MW unit := exit_loop (seqZ 0 256).

End Lifecycle.
