(* ===== verification/LifecycleProof.v ===== *)
(** * Adding and removing devices: the ledger balances *)
From stdpp Require Import gmap.
From S2P Require Import Prelude Kernel Format Crc Cbor Qcow2State Qcow2Alloc Qcow2Cache Qcow2Io Log LogProof.
From S2P Require Import Qcow2BaseProof Watch Device Lifecycle.

(** ** Opening and closing an image is always defined *)
Section ImageCalls.
Context {K : Type} `{KernelLaws K, LZ4Ops, CrcOps}.
Implicit Types d : qdev K.

Lemma tame_kread h pos len : tame (kread h pos len : M (qdev K) _).
Proof. intros d. unfold kread. by destruct (kernel_read _ _ _ _) as [[??]?]. Qed.
Lemma tame_kwrite h pos b : tame (kwrite h pos b : M (qdev K) _).
Proof. intros d. unfold kwrite. by destruct (kernel_write _ _ _ _). Qed.
Lemma tame_kalloc n : tame (kalloc n : M (qdev K) _).
Proof. intros d. unfold kalloc. by destruct (kvmalloc _ _). Qed.
Hint Resolve tame_kread tame_kwrite tame_kalloc : lbd.

Lemma io_err_neg ret : io_err ret < 0.
Proof. unfold io_err. destruct (Z.ltb_spec ret 0); [done|by vm_compute]. Qed.
Hint Resolve io_err_neg : lbd.
Hint Extern 1 (- _ < 0) => (by vm_compute) : lbd.

Lemma tame_alloc_or n e : e < 0 → tame (alloc_or n e : M (qdev K) _).
Proof. intros. unfold alloc_or. tame. Qed.
Hint Resolve tame_alloc_or : lbd.
Lemma tame_alloc_many n size e : e < 0 → tame (alloc_many n size e : M (qdev K) _).
Proof. intros. induction n; simpl; tame. Qed.
Hint Resolve tame_alloc_many : lbd.
Lemma tame_upd_q f : tame (upd_q f : M (qdev K) _).
Proof. done. Qed.
Hint Resolve tame_upd_q : lbd.

Lemma tame_init : tame (lbd_qcow2_init : M (qdev K) _).
Proof. unfold lbd_qcow2_init. tame. Qed.

Lemma tame_base_init path : tame (lbd_qcow2_base_init path : M (qdev K) _).
Proof.
  intros d. unfold lbd_qcow2_base_init, base_init_image, base_init_raw.
  rewrite (bind_ok get _ d d d) by done. cbv zeta. destruct (filp_open (kern d) path) as [o k] eqn:E.
  assert (Eo : (λ d, let '(o, k) := filp_open (kern d) path in (Ok o, set_kern k d)) d = (Ok o, set_kern k d))
    by (by rewrite E).
  mstep Eo. generalize (set_kern k d). destruct o as [e|is_reg same]; [intros; by eapply filp_open_errno|].
  match goal with |- ∀ s, match (?m s).1 with _ => _ end => change (tame m) end. tame.
Qed.

(** *** A base layer leaves the image alone *)
Lemma keeping_kread h pos len : keeping qcow2 (kread h pos len : M (qdev K) _).
Proof. intros d. unfold kread. by destruct (kernel_read _ _ _ _) as [[??]?]. Qed.
Lemma keeping_kalloc n : keeping qcow2 (kalloc n : M (qdev K) _).
Proof. intros d. unfold kalloc. by destruct (kvmalloc _ _). Qed.
Hint Resolve keeping_kread keeping_kalloc : lbd.
Lemma keeping_alloc_or n e : keeping qcow2 (alloc_or n e : M (qdev K) _).
Proof. unfold alloc_or. keeping. Qed.
Hint Resolve keeping_alloc_or : lbd.
Lemma keeping_alloc_many n size e : keeping qcow2 (alloc_many n size e : M (qdev K) _).
Proof. induction n; simpl; keeping. Qed.
Hint Resolve keeping_alloc_many : lbd.

Lemma keeping_base_init path : keeping qcow2 (lbd_qcow2_base_init path : M (qdev K) _).
Proof. unfold lbd_qcow2_base_init, base_init_image, base_init_raw. keeping. intros s. by destruct (filp_open _ _). Qed.

(** *** Closing an image whose tables are all written *)
Lemma init_clean d d' : lbd_qcow2_init d = (Ok tt, d') → clean_cache (qcow2 d').
Proof.
  unfold lbd_qcow2_init. intros E.
  repeat match goal with
  | E : (_ ≫= _) _ = (Ok _, _) |- _ =>
      let a := fresh "a" in let s := fresh "s" in let E1 := fresh "E" in
      apply bind_inv in E as (a & s & E1 & E); destruct a; cbn beta iota zeta in E
  | E : (if ?b then _ else _) _ = (Ok _, _) |- _ => destruct b; [by discriminate E|]
  end.
  unfold upd_q, modify in E. injection E as <-. split; [done|]. by apply Forall_replicate.
Qed.

Lemma tame_try_ok {A} (m : M (qdev K) A) d : tame m → ∃ r d', try m d = (Ok r, d').
Proof. intros Hm. specialize (Hm d). unfold try. destruct (m d) as [[a|e|] d']; [by eexists _, _..|done]. Qed.

Lemma destroy_clean d : clean_cache (qcow2 d) → ∃ d', lbd_qcow2_destroy d = (Ok tt, d').
Proof.
  intros Hc. unfold lbd_qcow2_destroy. mstep (flush_all_clean d Hc).
  destruct (tame_try_ok lbd_qcow2_write_alloc_offset d) as (r1 & d1 & E1); [unfold lbd_qcow2_write_alloc_offset; tame|].
  mstep E1.
  destruct (tame_try_ok lbd_qcow2_write_free_list_head d1) as (r2 & d2 & E2);
    [unfold lbd_qcow2_write_free_list_head; tame|].
  mstep E2. by eexists.
Qed.
End ImageCalls.

(** ** The world while one device is being added *)
Section Adding.
Context {K L : Type} `{KernelLaws K, BackingOps K, LogOps L, LZ4Laws, CrcOps, Crc32Ops}.
Implicit Types (w : lworld K L) (v : lbd_device K L).

(** The world with the device [d] at [p]. *)
Definition put w (p : nat) (d : ldev K L) : lworld K L :=
  LWorld (<[p := d]> (lw_heap w)) (lw_idr w) (lw_next w) (lw_leaked w) (lw_gone w).

Lemma at_put {A} w p d (m : M (ldev K L) A) r d' : m d = (r, d') → at_dev p m (put w p d) = (r, put w p d').
Proof.
  intros E. unfold at_dev, put. cbn [lw_heap lw_idr lw_next lw_leaked lw_gone].
  rewrite lookup_insert_eq, E. by rewrite insert_insert_eq.
Qed.

(** Room for the next device, published under [i] if at all. *)
Definition slot w (i : option Z) : lworld K L :=
  LWorld (lw_heap w) (match i with Some i => <[i := lw_next w]> (lw_idr w) | None => lw_idr w end)
    (S (lw_next w)) (lw_leaked w) (lw_gone w).
Definition adding w (i : option Z) (d : ldev K L) : lworld K L := put (slot w i) (lw_next w) d.
(** ... and after it was given up again. *)
Definition dropped w : lworld K L := slot w None.

Lemma at_run {A} w i d (m : M (ldev K L) A) r d' : m d = (r, d') →
  at_dev (lw_next w) m (adding w i d) = (r, adding w i d').
Proof. apply at_put. Qed.

Lemma release_run r v hs : r ∈ hs → release r (LDev v hs) = (Ok tt, LDev v (filter (λ x, x ≠ r) hs)).
Proof. intros Hr. unfold release. munfold. simpl. by rewrite decide_True. Qed.

Definition with_io v (io : dev_io K L) : lbd_device K L :=
  Device (dv_state v) (dv_open_count v) io (dv_cmd_list v) (dv_work v) (dv_done v).

Lemma on_io_run {A} (m : M (dev_io K L) A) v hs r io : m (dv_io v) = (r, io) →
  on_io m (LDev v hs) = (r, LDev (with_io v io) hs).
Proof. intros E. unfold on_io. simpl. by rewrite E. Qed.

(** *** The error labels: everything acquired so far is given back *)
Section Labels.
Variables (w : lworld K L) (i : Z).
Hypotheses (Hp : lw_heap w !! lw_next w = None) (Hi : lw_idr w !! i = None).
Local Abbreviation p := (lw_next w).

Lemma err_free_run v hs ret : hs = [] ∨ hs = [R_log_buf] ∨ hs = [R_lz4_state; R_log_buf] →
  err_free p ret (adding w None (LDev v hs)) = (Ok ret, dropped w).
Proof.
  intros HH. unfold err_free. mstep (at_run w None (LDev v hs) (kvfree R_lz4_state) _ _ eq_refl).
  match goal with |- context [adding w None ?d] => mstep (at_run w None d (kvfree R_log_buf) _ _ eq_refl) end.
  assert (E : kfree p (adding w None (LDev v [])) = (Ok tt, dropped w)).
  { unfold kfree, adding, put, dropped, slot. cbn [lw_heap lw_idr lw_next lw_leaked lw_gone]. rewrite lookup_insert_eq.
    cbn [ld_held]. by rewrite delete_insert_id, app_nil_r. }
  destruct HH as [->|[->| ->]]; by mstep E.
Qed.

Lemma err_idr_run v ret :
  err_idr p i ret (adding w (Some i) (LDev v [R_lz4_state; R_log_buf])) = (Ok ret, dropped w).
Proof.
  unfold err_idr.
  assert (E : idr_remove i (adding w (Some i) (LDev v [R_lz4_state; R_log_buf]))
    = (Ok tt, adding w None (LDev v [R_lz4_state; R_log_buf]))).
  { unfold idr_remove, modify, adding, put, slot. cbn [lw_heap lw_idr lw_next lw_leaked lw_gone]. by rewrite delete_insert_id. }
  mstep E. apply err_free_run. auto.
Qed.

(** One label: release its resource, go on with the next. *)
Ltac label next :=
  match goal with |- context [adding w (Some i) (LDev ?v ?hs)] =>
    match goal with |- context [release ?r] =>
      mstep (at_run w (Some i) (LDev v hs) (release r) _ _ (release_run r v hs ltac:(by apply (bool_decide_unpack _))))
    end end;
  apply next.

Lemma err_tagset_run v ret :
  err_tagset p i ret (adding w (Some i) (LDev v [R_tag_set; R_lz4_state; R_log_buf])) = (Ok ret, dropped w).
Proof. unfold err_tagset. label err_idr_run. Qed.
Lemma err_disk_run v ret :
  err_disk p i ret (adding w (Some i) (LDev v [R_gendisk; R_tag_set; R_lz4_state; R_log_buf])) = (Ok ret, dropped w).
Proof. unfold err_disk. label err_tagset_run. Qed.
Lemma err_wq_run v ret :
  err_wq p i ret (adding w (Some i) (LDev v [R_workqueue; R_gendisk; R_tag_set; R_lz4_state; R_log_buf]))
  = (Ok ret, dropped w).
Proof. unfold err_wq. label err_disk_run. Qed.

Definition opened_held : list resource :=
  [R_backing_file; R_workqueue; R_gendisk; R_tag_set; R_lz4_state; R_log_buf].

(** Nothing is left to write when the device goes. *)
Definition calm_io (io : dev_io K L) : Prop := is_qcow2 io = true → clean_cache (qcow2 (io_q io)).

Lemma close_image_run v hs : calm_io (dv_io v) → ∃ v',
  at_dev p (on_io close_image) (adding w (Some i) (LDev v hs))
  = (Ok tt, adding w (Some i) (LDev v' hs)).
Proof.
  intros Hc.
  assert (Hm : ∃ io, close_image (dv_io v) = (Ok tt, io)).
  { unfold close_image. rewrite (bind_ok get _ _ _ _ eq_refl). destruct (is_qcow2 (dv_io v)) eqn:Eq; [|by eexists].
    destruct (destroy_clean _ (Hc Eq)) as (q & E). eexists. unfold on_q. by rewrite E. }
  destruct Hm as (io & E). eexists. by apply at_run, on_io_run.
Qed.

Lemma err_backing_run v ret : calm_io (dv_io v) →
  err_backing p i ret (adding w (Some i) (LDev v opened_held)) = (Ok ret, dropped w).
Proof.
  intros Hc. unfold err_backing. destruct (close_image_run v opened_held Hc) as (v' & E). mstep E.
  label err_wq_run.
Qed.

Lemma drop_base_run v hs : ∃ v',
  at_dev p (on_io drop_base)
    (adding w (Some i) (LDev v hs)) = (Ok tt, adding w (Some i) (LDev v' hs))
  ∧ is_qcow2 (dv_io v') = is_qcow2 (dv_io v) ∧ qcow2 (io_q (dv_io v')) = qcow2 (io_q (dv_io v))
  ∧ io_log (dv_io v') = io_log (dv_io v).
Proof.
  assert (Hm : ∃ io, drop_base
      (dv_io v) = (Ok tt, io) ∧ is_qcow2 io = is_qcow2 (dv_io v) ∧ qcow2 (io_q io) = qcow2 (io_q (dv_io v))
      ∧ io_log io = io_log (dv_io v)).
  { unfold drop_base. rewrite (bind_ok get _ _ _ _ eq_refl). by destruct (base (io_q (dv_io v))); eexists. }
  destruct Hm as (io & E & Hio). eexists. split; [by apply at_run, on_io_run|done].
Qed.

Lemma err_base_run v ret : calm_io (dv_io v) →
  err_base p i ret (adding w (Some i) (LDev v opened_held)) = (Ok ret, dropped w).
Proof.
  intros Hc. unfold err_base. destruct (drop_base_run v opened_held) as (v' & E & E1 & E2 & _). mstep E.
  apply err_backing_run. unfold calm_io. by rewrite E1, E2.
Qed.

Lemma err_logdir_run v ret : calm_io (dv_io v) →
  err_logdir p i ret (adding w (Some i) (LDev v (R_log_dir :: opened_held))) = (Ok ret, dropped w).
Proof. intros Hc. unfold err_logdir. label err_base_run. done. Qed.

End Labels.

(** *** Detaching a live device *)
Definition live_held : list resource := R_timer :: R_added :: R_log_dir :: opened_held.

Definition without_base (q : qdev K) : qdev K := match base q with Some _ => set_base None q | None => q end.

Lemma release_put r w p v hs : r ∈ hs →
  at_dev p (release r) (put w p (LDev v hs)) = (Ok tt, put w p (LDev v (filter (λ x, x ≠ r) hs))).
Proof. intros Hr. by apply at_put, release_run. Qed.

(** Run an operation on the device, give a resource back. *)
Ltac do_io m io' :=
  match goal with |- context [put ?w ?p (LDev ?v ?hs)] =>
    let E := fresh "E" in
    assert (E : m (dv_io v) = (Ok tt, io')); [|mstep (at_put w p _ _ _ _ (on_io_run m v hs _ _ E)); clear E] end.
Ltac give_back r :=
  match goal with |- context [put ?w ?p (LDev ?v ?hs)] =>
    mstep (release_put r w p v hs ltac:(by apply (bool_decide_unpack _))) end.

Lemma destroy_run w p v v1 l q : lw_heap w !! p = None →
  flush_work (set_dv_state LBD_STATE_REMOVING v) = (Ok tt, v1) →
  lbd_finalize_log (io_log (dv_io v1)) = (Ok tt, l) →
  (if is_qcow2 (dv_io v1) then lbd_qcow2_destroy else mret tt) (without_base (io_q (dv_io v1))) = (Ok tt, q) →
  lbd_destroy_device p (put w p (LDev v live_held))
  = (Ok tt, LWorld (lw_heap w) (lw_idr w) (lw_next w) (lw_leaked w)
       (lw_gone w ++ [DevIo (is_qcow2 (dv_io v1)) (set_kern (vfs_fsync (kern q)).2 q) l (io_stat (dv_io v1))])).
Proof.
  intros Hp Ef El Eq. unfold lbd_destroy_device.
  mstep (at_put w p (LDev v live_held) (on_dev (modify (set_dv_state LBD_STATE_REMOVING))) _ _ eq_refl).
  match goal with |- context [put w p ?d] => mstep (at_put w p d (kvfree R_timer) _ _ eq_refl) end.
  cbn [ld_held ld_dev]. set (v0 := set_dv_state LBD_STATE_REMOVING v) in *.
  mstep (release_put R_added w p v0 (filter (λ x, x ≠ R_timer) live_held) ltac:(by apply (bool_decide_unpack _))).
  assert (E1 : ∀ hs, on_dev flush_work (LDev v0 hs) = (Ok tt, LDev v1 hs))
    by (intros; unfold on_dev; simpl; by rewrite Ef).
  match goal with |- context [put w p (LDev v0 ?hs)] => mstep (at_put w p _ _ _ _ (E1 hs)) end.
  give_back R_workqueue.
  do_io (on_log lbd_finalize_log : M (dev_io K L) unit) (DevIo (is_qcow2 (dv_io v1)) (io_q (dv_io v1)) l (io_stat (dv_io v1)));
    [unfold on_log; by rewrite El|].
  do_io (drop_base : M (dev_io K L) unit)
    (DevIo (is_qcow2 (dv_io v1)) (without_base (io_q (dv_io v1))) l (io_stat (dv_io v1)));
    [unfold drop_base; rewrite (bind_ok get _ _ _ _ eq_refl); unfold without_base; simpl; by destruct (base _)|].
  do_io (close_image : M (dev_io K L) unit)
    (DevIo (is_qcow2 (dv_io v1)) q l (io_stat (dv_io v1)));
    [unfold close_image; rewrite (bind_ok get _ _ _ _ eq_refl); unfold on_q; cbn [dv_io with_io is_qcow2 io_q io_log io_stat]; destruct (is_qcow2 (dv_io v1));
       [cbn [is_qcow2 io_q io_log io_stat]; by rewrite Eq|by injection Eq as <-]|].
  match goal with |- context [put w p ?d] => mstep (at_put w p d (kvfree R_lz4_state) _ _ eq_refl) end.
  match goal with |- context [put w p ?d] => mstep (at_put w p d (kvfree R_log_buf) _ _ eq_refl) end.
  cbn [ld_held ld_dev]. give_back R_log_dir.
  do_io (sync_backing : M (dev_io K L) unit)
    (DevIo (is_qcow2 (dv_io v1)) (set_kern (vfs_fsync (kern q)).2 q) l (io_stat (dv_io v1)));
    [unfold sync_backing, on_q; simpl; by destruct (vfs_fsync (kern q))|].
  give_back R_backing_file. give_back R_gendisk. give_back R_tag_set.
  match goal with |- context [put w p ?x] =>
    mstep (at_put w p x (d ← get; mret (dv_io (ld_dev d))) _ _ eq_refl) end.
  rewrite (bind_ok (modify _) _ _ tt _ eq_refl). unfold kfree, put. cbn [lw_heap lw_idr lw_next lw_leaked lw_gone].
  rewrite lookup_insert_eq, delete_insert_id by done.
  match goal with |- context [ld_held (LDev _ ?hs)] => change hs with (@nil resource) end.
  by rewrite app_nil_r.
Qed.

(** *** Bringing a device up *)
Lemma tame_on_q {A} (m : M (qdev K) A) : tame m → tame (on_q m : M (dev_io K L) A).
Proof. intros Hm d. specialize (Hm (io_q d)). unfold on_q. by destruct (m (io_q d)). Qed.
Lemma tame_on_log_modify f : tame (on_log (modify f) : M (dev_io K L) unit).
Proof. done. Qed.
Hint Resolve tame_on_q tame_on_log_modify tame_kread tame_init tame_base_init : lbd.

Lemma tame_detect : tame (detect_format : M (dev_io K L) unit).
Proof. unfold detect_format. tame. Qed.
Lemma tame_open_base path : tame (open_base path : M (dev_io K L) unit).
Proof. unfold open_base. tame. Qed.

(** What holds of a device on its way up: closing its image writes nothing, its
    log is empty. *)
Definition log_id (l : log_state L) : Z * bytes := (log_index l, backing_path l).
Definition rising (id : Z * bytes) (io : dev_io K L) : Prop :=
  calm_io io ∧ log_buf (io_log io) = [] ∧ log_id (io_log io) = id.

Lemma detect_rising i io r io' : is_qcow2 io = false → rising i io → detect_format io = (r, io') → rising i io'.
Proof.
  intros Hq (_ & Hb & Hi) E. unfold detect_format, mbind, M_bind, on_q at 1 in E.
  destruct (kread Backing 0 8 (io_q io)) as [[[ret m]|e|] q1] eqn:E1;
    [|by injection E as _ <-; split_and!; [intros ?; simpl in *; congruence|done|done]..].
  cbn beta iota in E. destruct (_ && _) eqn:Eb.
  - unfold on_q at 1 in E. cbn [io_q] in E.
    destruct (lbd_qcow2_init q1) as [[[]|e|] q2] eqn:E2.
    + injection E as _ <-. split_and!; [|done|done]. intros _. by apply (init_clean q1).
    + injection E as _ <-. split_and!; [intros ?; simpl in *; congruence|done|done].
    + injection E as _ <-. split_and!; [intros ?; simpl in *; congruence|done|done].
  - injection E as _ <-. by split_and!.
Qed.

Lemma base_rising i io path r io' : rising i io → open_base path io = (r, io') → rising i io'.
Proof.
  intros (Hc & Hb & Hi) E.
  assert (Hk : keeping (λ d : dev_io K L, (is_qcow2 d, qcow2 (io_q d), io_log d)) (open_base path)).
  { unfold open_base. keeping. intros d. unfold on_q.
    pose proof (keeping_base_init (b :: path) (set_base_path (b :: path) (io_q d))) as Hq.
    rewrite (bind_ok (modify _) _ _ tt _ eq_refl).
    destruct (lbd_qcow2_base_init _ _) as [r' q']. simpl in *. by rewrite Hq. }
  specialize (Hk io). rewrite E in Hk. injection Hk as H1' H2' H3'.
  split_and!; [intros Hq; simpl in *; rewrite H2'; apply Hc; congruence|by rewrite H3'|by rewrite H3'].
Qed.

Lemma try_io_run (m : M (dev_io K L) unit) v hs : tame m → ∃ r io,
  try (on_io m) (LDev v hs) = (Ok r, LDev (with_io v io) hs) ∧ m (dv_io v) = (r, io)
  ∧ (r = Ok tt ∨ ∃ e, r = Err e ∧ e < 0).
Proof.
  intros Hm. specialize (Hm (dv_io v)). destruct (m (dv_io v)) as [r io] eqn:E. exists r, io.
  unfold try, on_io. simpl. rewrite E. destruct r as [[]|e|]; simpl in Hm; [by auto|split_and!; eauto|done].
Qed.

(** The environment reports errors as negative numbers. *)
Record env_ok (e : add_env K L) : Prop := {
  eo_open r : ae_open e = inl r → r < 0;
  eo_tag_set : ae_tag_set e ≤ 0;
  eo_alloc_disk : ae_alloc_disk e ≤ 0;
  eo_kern_path : ae_kern_path e ≤ 0;
  eo_add_disk : ae_add_disk e ≤ 0
}.

(** The file [k] was just opened: nothing is known of its format. *)
Record blank_io (k : K) (io : dev_io K L) : Prop := {
  bk_raw : is_qcow2 io = false;
  bk_kern : kern (io_q io) = k;
  bk_base : base (io_q io) = None;
  bk_miss : miss_handler (io_q io) = false
}.

(** Format detection and the base layer turn [io] into [io']. *)
Definition brings_up (a : lbd_ctl_add) (io io' : dev_io K L) : Prop :=
  ∃ io1, detect_format io = (Ok tt, io1) ∧ open_base (cstr (take 255 (aa_base_path a))) io1 = (Ok tt, io').

(** Allocations, the block layer, the log directory and userspace cooperate. *)
Record willing (e : add_env K L) : Prop := {
  wl_alloc : ae_kzalloc e && ae_log_buf e && ae_lz4 e && ae_idr e && ae_workqueue e = true;
  wl_codes : ae_tag_set e = 0 ∧ ae_alloc_disk e = 0 ∧ ae_kern_path e = 0 ∧ ae_add_disk e = 0;
  wl_out : ae_copy_out e = true
}.

(** Nothing stands in the way of the device. *)
Record smooth (e : add_env K L) (a : lbd_ctl_add) (k : K) : Prop := {
  sm_willing : willing e;
  sm_open : ae_open e = inr (true, k);
  sm_size : zlen (content k Backing) ≠ 0;
  sm_up io : blank_io k io → ∃ io', brings_up a io io'
}.

(** A device nobody has used yet. *)
Record attached (e : add_env K L) (a : lbd_ctl_add) (i : Z) v : Prop := {
  at_state : dv_state v = LBD_STATE_BOUND;
  at_closed : dv_open_count v = 0;
  at_idle : dv_work v = false;
  at_queue : dv_cmd_list v = [];
  at_calm : calm_io (dv_io v);
  at_buf : buf_ok (io_log (dv_io v));
  at_index : log_index (io_log (dv_io v)) = i;
  at_path : backing_path (io_log (dv_io v)) = cstr (take 255 (aa_path a));
  at_up : ∃ k io io', ae_open e = inr (true, k) ∧ blank_io k io ∧ brings_up a io io'
    ∧ is_qcow2 (dv_io v) = is_qcow2 io' ∧ io_q (dv_io v) = io_q io'
}.

(** The device is live and published, or nothing of it is left. *)
Definition added (e : add_env K L) (a : lbd_ctl_add) w (i r : Z) (w' : lworld K L) : Prop :=
  (r = 0 ∧ ∃ v, w' = adding w (Some i) (LDev v live_held) ∧ attached e a i v) ∨
  (r < 0 ∧ lw_heap w' = lw_heap w ∧ lw_idr w' = lw_idr w ∧ lw_leaked w' = lw_leaked w
     ∧ (lw_next w ≤ lw_next w')%nat ∧ ∀ k, ¬ smooth e a k).

Lemma added_dropped e a w i r : r < 0 → (∀ k, ¬ smooth e a k) → added e a w i r (dropped w).
Proof. right. split_and!; [done..|simpl; lia|done]. Qed.

(** Refute [smooth] by the answer that was not. *)
Ltac unsmooth :=
  intros; try (intro);
  match goal with Hs : smooth _ _ _ |- _ =>
    let H1 := fresh in destruct Hs as [[H1 (? & ? & ? & ?) ?] ? ? ?];
    repeat (apply andb_prop in H1 as [H1 ?]); congruence end.

Lemma keeping_lcall {A} (f : L → A * L) : keeping log_id (lcall f : M (log_state L) A).
Proof. intros s. unfold lcall. by destruct (f (lfs s)). Qed.
Hint Resolve keeping_lcall : lbd.
Lemma begin_segment_index : keeping log_id (lbd_begin_segment : M (log_state L) unit).
Proof.
  unfold lbd_begin_segment, lbd_tai64n_label, lbd_write_log_header, lbd_log_buf_append, lbd_log_flush, lbd_open_log_file.
  keeping.
Qed.

Lemma arm_timer_run (l : log_state L) : ∃ l', arm_timer l = (Ok tt, l') ∧ log_buf l' = log_buf l ∧ log_id l' = log_id l.
Proof. unfold arm_timer. rewrite (bind_ok get _ _ _ _ eq_refl). by destruct (_ >? _); eexists. Qed.

Section Bring.
Variables (w : lworld K L) (i : Z) (e : add_env K L) (a : lbd_ctl_add).
Hypotheses (Hp : lw_heap w !! lw_next w = None) (Hi : lw_idr w !! i = None) (He : env_ok e).
Local Abbreviation p := (lw_next w).

Lemma destroy_calm v w0 : lw_heap w0 !! p = None → dv_work v = false → calm_io (dv_io v) → buf_ok (io_log (dv_io v)) →
  ∃ io, lbd_destroy_device p (put w0 p (LDev v live_held))
    = (Ok tt, LWorld (lw_heap w0) (lw_idr w0) (lw_next w0) (lw_leaked w0) (lw_gone w0 ++ [io])).
Proof.
  intros Hp0 Hw Hc Hb.
  destruct (finalize_ok (io_log (dv_io v)) Hb) as ([] & l & El & _).
  assert (Hq : ∃ q, (if is_qcow2 (dv_io v) then lbd_qcow2_destroy else mret tt) (without_base (io_q (dv_io v))) = (Ok tt, q)).
  { destruct (is_qcow2 (dv_io v)) eqn:Eq; [|by eexists]. apply destroy_clean. unfold without_base.
    specialize (Hc Eq). by destruct (base (io_q (dv_io v))). }
  destruct Hq as (q & Eq). eexists. eapply (destroy_run w0 p v (set_dv_state LBD_STATE_REMOVING v) l q); [done| |done|done].
  unfold flush_work. rewrite (bind_ok get _ _ _ _ eq_refl). simpl. by rewrite Hw.
Qed.

(** A device that is not live yet and whose file is [k]. *)
Record unborn (k : K) v : Prop := {
  ub_closed : dv_open_count v = 0;
  ub_idle : dv_work v = false;
  ub_queue : dv_cmd_list v = [];
  ub_io : blank_io k (dv_io v);
  ub_log : log_buf (io_log (dv_io v)) = [];
  ub_id : log_id (io_log (dv_io v)) = (i, cstr (take 255 (aa_path a)))
}.

Lemma add_live_spec v k io : dv_open_count v = 0 → dv_work v = false → dv_cmd_list v = [] → rising (i, cstr (take 255 (aa_path a))) (dv_io v) →
  ae_open e = inr (true, k) → blank_io k io → brings_up a io (dv_io v) →
  ∃ r w', add_live p i e (adding w (Some i) (LDev v (R_log_dir :: opened_held))) = (Ok r, w') ∧ added e a w i r w'.
Proof.
  intros Hoc Hw Hcl (Hc2 & Hb2 & Hi2) Ho Hbl Hup. unfold add_live.
  destruct (begin_segment_ok (io_log (dv_io v))) as ([] & l3 & E3 & Hb3); [unfold buf_ok; by rewrite Hb2|].
  pose proof (begin_segment_index (io_log (dv_io v))) as Hi3. rewrite E3 in Hi3. cbn [snd] in Hi3.
  set (io3 := DevIo (is_qcow2 (dv_io v)) (io_q (dv_io v)) l3 (io_stat (dv_io v))).
  assert (E3' : on_log lbd_begin_segment (dv_io v) = (Ok tt, io3)) by (unfold on_log; by rewrite E3).
  mstep (at_run w (Some i) _ _ _ _ (on_io_run (on_log lbd_begin_segment) v (R_log_dir :: opened_held) _ _ E3')).
  match goal with |- context [adding w (Some i) ?d] =>
    mstep (at_run w (Some i) d (on_dev (modify (set_dv_state LBD_STATE_BOUND))) _ _ eq_refl) end.
  cbn [ld_dev ld_held]. pose proof (eo_add_disk _ He) as Had.
  destruct (Z.eqb_spec (ae_add_disk e) 0) as [_|Hne]; cbn [negb].
  2:{ eexists _, _. rewrite err_logdir_run by done. split; [done|]. apply added_dropped; [lia|unsmooth]. }
  match goal with |- context [adding w (Some i) ?d] => mstep (at_run w (Some i) d (acquire R_added) _ _ eq_refl) end.
  destruct (arm_timer_run l3) as (l4 & E4 & Hb4 & Hi4).
  set (io4 := DevIo (is_qcow2 (dv_io v)) (io_q (dv_io v)) l4 (io_stat (dv_io v))).
  assert (E4' : on_log arm_timer io3 = (Ok tt, io4)) by (unfold on_log; simpl; by rewrite E4).
  match goal with |- context [adding w (Some i) (LDev ?d ?hs)] =>
    mstep (at_run w (Some i) _ _ _ _ (on_io_run (on_log arm_timer) d hs _ _ E4')) end.
  match goal with |- context [adding w (Some i) ?d] => mstep (at_run w (Some i) d (acquire R_timer) _ _ eq_refl) end.
  cbn [ld_dev ld_held]. match goal with |- context [adding w (Some i) (LDev ?d _)] => set (v4 := d) end.
  assert (Ha : attached e a i v4).
  { assert (Hid : log_id l4 = (i, cstr (take 255 (aa_path a)))) by congruence. injection Hid as Hid1 Hid2.
    split; try done; simpl; [by unfold buf_ok; rewrite Hb4|]. by exists k, io, (dv_io v). }
  destruct (ae_copy_out e) eqn:Eout; cbn [negb].
  { eexists _, _. split; [done|]. left. split; [done|]. by exists v4. }
  destruct (destroy_calm v4 (slot w (Some i)) Hp) as (iod & Ed); [apply Ha..|].
  change (adding w (Some i) _) with (put (slot w (Some i)) p (LDev v4 live_held)). mstep Ed.
  eexists _, _. split; [done|]. right. split_and!; [done|done| |done|simpl; lia|unsmooth].
  simpl. by rewrite delete_insert_id.
Qed.

Lemma add_backing_spec v k : unborn k v → ae_open e = inr (true, k) →
  ∃ r w', add_backing p i e a (adding w (Some i) (LDev v opened_held)) = (Ok r, w') ∧ added e a w i r w'.
Proof.
  intros [Hoc Hw Hcl Hbl Hlb Hli] Ho. unfold add_backing. pose proof (bk_raw _ _ Hbl) as Hq.
  assert (Hr : rising (i, cstr (take 255 (aa_path a))) (dv_io v)) by (split_and!; [unfold calm_io; congruence|done|done]).
  destruct (try_io_run detect_format v opened_held tame_detect) as (r1 & io1 & E1 & Er1 & Hr1).
  mstep (at_run w (Some i) _ _ _ _ E1). pose proof (detect_rising _ _ _ _ Hq Hr Er1) as R1.
  destruct Hr1 as [->|(e1 & -> & Hneg)].
  2:{ eexists _, _. rewrite err_backing_run by (done || apply R1). split; [done|apply added_dropped; [done|]].
      intros k' [_ Ho' _ Hup]. rewrite Ho in Ho'. injection Ho' as <-. destruct (Hup _ Hbl) as (? & ? & ? & _). congruence. }
  destruct (try_io_run (open_base (cstr (take 255 (aa_base_path a)))) (with_io v io1) opened_held (tame_open_base _))
    as (r2 & io2 & E2 & Er2 & Hr2).
  mstep (at_run w (Some i) _ _ _ _ E2). pose proof (base_rising _ _ _ _ _ R1 Er2) as R2.
  destruct Hr2 as [->|(e2 & -> & Hneg)].
  2:{ eexists _, _. rewrite err_backing_run by (done || apply R2). split; [done|apply added_dropped; [done|]].
      intros k' [_ Ho' _ Hup]. rewrite Ho in Ho'. injection Ho' as <-. destruct (Hup _ Hbl) as (? & ? & ? & ?). simpl in *. congruence. }
  pose proof (eo_kern_path _ He) as Hkp. destruct (Z.eqb_spec (ae_kern_path e) 0) as [_|Hne]; cbn [negb].
  2:{ eexists _, _. rewrite err_base_run by (done || apply R2). split; [done|]. apply added_dropped; [lia|unsmooth]. }
  mstep (at_run w (Some i) (LDev (with_io (with_io v io1) io2) opened_held) (acquire R_log_dir) _ _ eq_refl).
  eapply add_live_spec; [done..|exact Hbl|]. by exists io1.
Qed.

Lemma add_open_spec v k0 : unborn k0 v →
  ∃ r w', add_open p i e a (adding w (Some i) (LDev v (tail opened_held))) = (Ok r, w') ∧ added e a w i r w'.
Proof.
  intros [Hoc Hw Hcl Hbl Hlb Hli]. unfold add_open. pose proof (eo_open _ He) as Ho.
  destruct (ae_open e) as [ret|[is_reg k]] eqn:Eo.
  { eexists _, _. rewrite err_wq_run by done. split; [done|]. apply added_dropped; [by apply Ho|unsmooth]. }
  mstep (at_run w (Some i) (LDev v (tail opened_held)) (acquire R_backing_file) _ _ eq_refl).
  match goal with |- context [adding w (Some i) ?d] =>
    mstep (at_run w (Some i) d (on_io (on_q (modify (set_kern k)))) _ _ eq_refl) end.
  cbn [ld_dev ld_held]. change (R_backing_file :: tail opened_held) with opened_held.
  assert (Hc : ∀ io : dev_io K L, is_qcow2 io = false → calm_io io) by (unfold calm_io; congruence).
  pose proof (bk_raw _ _ Hbl) as Hq. destruct is_reg; cbn [negb].
  2:{ eexists _, _. rewrite err_backing_run by (done || by apply Hc). split; [done|apply added_dropped; [done|unsmooth]]. }
  match goal with |- context [adding w (Some i) ?d] =>
    mstep (at_run w (Some i) d (on_io (on_log (modify (set_dev_size (zlen (content k Backing)))))) _ _ eq_refl) end.
  cbn [ld_dev ld_held]. destruct (Z.eqb_spec (zlen (content k Backing)) 0).
  { eexists _, _. rewrite err_backing_run by (done || by apply Hc). split; [done|apply added_dropped; [done|unsmooth]]. }
  apply (add_backing_spec _ k); [|done]. destruct Hbl. by split.
Qed.

Lemma add_block_spec v k0 : dv_open_count v = 0 → dv_work v = false → dv_cmd_list v = [] →
  blank_io k0 (dv_io v) → log_buf (io_log (dv_io v)) = [] → backing_path (io_log (dv_io v)) = cstr (take 255 (aa_path a)) →
  ∃ r w', add_block p i e a (adding w (Some i) (LDev v [R_lz4_state; R_log_buf])) = (Ok r, w') ∧ added e a w i r w'.
Proof.
  intros Hoc Hw Hcl Hbl Hb Hpa. unfold add_block.
  match goal with |- context [adding w (Some i) ?d] =>
    mstep (at_run w (Some i) d (on_io (on_log (modify (set_log_index i)))) _ _ eq_refl) end. cbn [ld_dev ld_held].
  pose proof (eo_tag_set _ He). destruct (Z.eqb_spec (ae_tag_set e) 0); cbn [negb].
  2:{ eexists _, _. rewrite err_idr_run by done. split; [done|]. apply added_dropped; [lia|unsmooth]. }
  match goal with |- context [adding w (Some i) ?d] => mstep (at_run w (Some i) d (acquire R_tag_set) _ _ eq_refl) end.
  pose proof (eo_alloc_disk _ He). destruct (Z.eqb_spec (ae_alloc_disk e) 0); cbn [negb ld_dev ld_held].
  2:{ eexists _, _. rewrite err_tagset_run by done. split; [done|]. apply added_dropped; [lia|unsmooth]. }
  match goal with |- context [adding w (Some i) ?d] => mstep (at_run w (Some i) d (acquire R_gendisk) _ _ eq_refl) end.
  cbn [ld_dev ld_held]. destruct (ae_workqueue e) eqn:Ewq; cbn [negb].
  2:{ eexists _, _. rewrite err_disk_run by done. split; [done|apply added_dropped; [done|unsmooth]]. }
  match goal with |- context [adding w (Some i) ?d] => mstep (at_run w (Some i) d (acquire R_workqueue) _ _ eq_refl) end.
  apply (add_open_spec _ k0). destruct Hbl. split; try done. unfold log_id. simpl. by rewrite Hpa.
Qed.
End Bring.

(** ** Attaching a device *)

(** The lowest index below 256 that is free. *)
Definition lowest_free (t : gmap Z nat) (i : Z) : Prop :=
  0 ≤ i < 256 ∧ t !! i = None ∧ ∀ j, 0 ≤ j < i → t !! j ≠ None.

Lemma filter_seqZ_head (P : Z → Prop) `{!∀ i, Decision (P i)} a n i rest :
  filter P (seqZ a n) = i :: rest → a ≤ i < a + n ∧ P i ∧ ∀ j, a ≤ j < i → ¬ P j.
Proof.
  intros E.
  assert (Hn : ∃ m, n = Z.of_nat m).
  { exists (Z.to_nat n). destruct (Z.le_gt_cases 0 n); [lia|]. by rewrite seqZ_nil in E by lia. }
  destruct Hn as (m & ->). revert a E. induction m as [|m IH]; intros a E; [by rewrite seqZ_nil in E by lia|].
  rewrite seqZ_cons in E by lia. rewrite filter_cons in E. destruct (decide (P a)).
  - injection E as <- _. split_and!; [lia|lia|done|intros; lia].
  - replace (Z.pred (Z.of_nat (S m))) with (Z.of_nat m) in E by lia.
    destruct (IH _ E) as (H1' & H2' & H3'). split_and!; [lia|lia|done|].
    intros j Hj. destruct (decide (j = a)) as [->|]; [done|]. apply H3'. lia.
Qed.

Lemma filter_seqZ_nil (P : Z → Prop) `{!∀ i, Decision (P i)} a n :
  filter P (seqZ a n) = [] → ∀ j, a ≤ j < a + n → ¬ P j.
Proof.
  intros E j Hj HP. assert (Hin : j ∈ filter P (seqZ a n)) by (apply list_elem_of_filter; split; [done|]; by apply elem_of_seqZ).
  rewrite E in Hin. by apply elem_of_nil in Hin.
Qed.

(** What [LBD_CTL_ADD] does: a live device under the lowest free index, or an
    error and no trace. *)
Definition add_outcome (e : add_env K L) w (r : Z * Z) (w' : lworld K L) : Prop :=
  (r.1 = 0 ∧ ∃ a v, ae_arg e = Some a ∧ lowest_free (lw_idr w) r.2 ∧ w' = adding w (Some r.2) (LDev v live_held)
     ∧ attached e a r.2 v) ∨
  (r.1 < 0 ∧ lw_heap w' = lw_heap w ∧ lw_idr w' = lw_idr w ∧ lw_leaked w' = lw_leaked w ∧ (lw_next w ≤ lw_next w')%nat
     ∧ ∀ a k, ae_arg e = Some a → cstr (take 255 (aa_log_dir a)) ≠ [] → smooth e a k →
         ∀ i, 0 ≤ i < 256 → lw_idr w !! i ≠ None).

Lemma add_outcome_dropped e w r : r < 0 →
  (∀ a k, ae_arg e = Some a → smooth e a k → ∀ i, 0 ≤ i < 256 → lw_idr w !! i ≠ None) →
  add_outcome e w (r, 0) (dropped w).
Proof. intros ? Hs. right. split_and!; [done..|simpl; lia|]. intros a k ? _. by apply (Hs a k). Qed.

Lemma l_new_run v w : l_new v w = (Ok (lw_next w), adding w None (LDev v [])).
Proof. done. Qed.

Lemma add_device_spec w k0 e : lw_heap w !! lw_next w = None → env_ok e →
  ∃ r w', lbd_add_device k0 e w = (Ok r, w') ∧ add_outcome e w r w'.
Proof.
  intros Hp He. unfold lbd_add_device.
  assert (Hnone : ∀ ret, ret < 0 →
    (∀ a k, ae_arg e = Some a → cstr (take 255 (aa_log_dir a)) ≠ [] → ¬ smooth e a k) → add_outcome e w (ret, 0) w)
    by (intros ? ? Hn; right; split_and!; [done..|]; by intros a k ? ? []%Hn).
  assert (Hdrop : ∀ v hs ret, hs = [] ∨ hs = [R_log_buf] ∨ hs = [R_lz4_state; R_log_buf] → ret < 0 →
    (∀ a k, smooth e a k → ∀ i, 0 ≤ i < 256 → lw_idr w !! i ≠ None) → ∃ r w',
    (r ← err_free (lw_next w) ret; mret (r, 0)) (adding w None (LDev v hs)) = (Ok r, w') ∧ add_outcome e w r w').
  { intros v hs ret Hh Hr Hn. mstep (err_free_run w Hp v hs ret Hh). eexists _, _.
    split; [done|]. apply add_outcome_dropped; [done|]. intros ? ? _. by apply Hn. }
  destruct (ae_arg e) as [a|] eqn:Ea; [|by eexists _, _; split; [done|apply Hnone]].
  case_decide; [eexists _, _; split; [done|apply Hnone; [done|congruence]]|].
  destruct (ae_kzalloc e) eqn:E0; cbn [negb]; [|by eexists _, _; split; [done|apply Hnone; [done|unsmooth]]].
  mstep (l_new_run (new_device k0 a (ae_log e)) w). set (v := new_device _ _ _).
  destruct (ae_log_buf e) eqn:E1; cbn [negb]; [|apply Hdrop; [auto|done|unsmooth]].
  mstep (at_run w None (LDev v []) (acquire R_log_buf) _ _ eq_refl).
  destruct (ae_lz4 e) eqn:E2; cbn [negb]; [|apply Hdrop; [auto|done|unsmooth]].
  mstep (at_run w None (LDev v [R_log_buf]) (acquire R_lz4_state) _ _ eq_refl).
  cbn [ld_dev ld_held]. unfold mbind at 1, M_bind at 1, idr_alloc.
  destruct (ae_idr e) eqn:E3; cbn [negb]; [|apply Hdrop; [auto|done|unsmooth]].
  change (lw_idr (adding w None _)) with (lw_idr w).
  destruct (filter _ _) as [|i rest] eqn:Ef; [apply Hdrop; [auto|done|]|].
  { intros _ _ _ i Hi. by apply (filter_seqZ_nil _ _ _ Ef). }
  apply filter_seqZ_head in Ef as (Hr & Hi & Hl). cbn beta iota.
  destruct (Z.ltb_spec i 0) as [|_]; [lia|].
  destruct (add_block_spec w i e a Hp Hi He v k0 eq_refl eq_refl eq_refl) as (r & w' & E & Ha); [done|done|done|].
  match goal with |- context [LWorld ?h ?t ?n ?l ?g] =>
    change (LWorld h t n l g) with (adding w (Some i) (LDev v [R_lz4_state; R_log_buf])) end.
  mstep E. eexists _, _. split; [done|].
  destruct Ha as [(-> & v' & -> & Hv)|(? & ? & ? & ? & ? & Hn)]; [left|right].
  - split; [done|]. exists a, v'. split; [done|]. split; [|done].
    split; [simpl; lia|]. split; [done|]. intros j Hj. by apply Hl.
  - split_and!; [done..|]. intros a' k Ha _ Hs. rewrite Ea in Ha. injection Ha as <-. by destruct (Hn k).
Qed.
End Adding.
