(* ===== verification/DetachProof.v ===== *)
(** * Detaching a device: the queue is drained, the image is closed

    What a detached image leaves in its file is what the driver opens. *)
From stdpp Require Import gmap.
From S2P Require Import Prelude Kernel Format Crc Cbor Posix Qcow2State Qcow2Alloc Qcow2Cache Qcow2Io.
From S2P Require Import Qcow2Inv Qcow2AllocProof Qcow2Wf Qcow2CacheProof Qcow2WriteProof Qcow2IoProof.
From S2P Require Import Flat Qcow2Refine Qcow2InitProof Qcow2BaseProof CtlImage Qcow2Theorems Log LogProof LogTheorems.
From S2P Require Import Watch Device DeviceProof Lifecycle LifecycleProof.

(** ** Closing an image *)
Section Closing.
Context {K : Type} `{HK : KernelLaws K} `{HZ : LZ4Laws} `{HCr : CrcLaws}.
Local Abbreviation disk q := (content (kern q) Backing).

Lemma write_at_idem f p b : 0 ≤ p → p + zlen b ≤ zlen f → bytes_at f p b → write_at f p b = f.
Proof.
  intros Hp Hle Hb. apply list_eq. intros i. rewrite lookup_write_at by done. unfold zlen in *.
  case_decide as Hi; [|case_decide; [lia|done]].
  rewrite <- (Hb (i - Z.to_nat p)%nat) by lia. f_equal. lia.
Qed.

(** Closing a well-formed image leaves a file that opens as the same disk. *)
Lemma destroy_image (d : qdev K) g : wf d g → 0 < l1_size (qcow2 d) → 0 ≤ virtual_size (qcow2 d) < 2 ^ 64 →
  ∃ d', lbd_qcow2_destroy d = (Ok tt, d') ∧ healthy (kern d') ∧ image (disk d') (qcow2 d) g.
Proof.
  intros W Hl Hv. unfold lbd_qcow2_destroy. mstep (flush_all_clean d (wf_clean d g W)).
  assert (Wc : wfc (λ _, False) d g).
  { replace g with (with_view g (g_view g)) by (by destruct g). apply wf_wfc; [done|done|].
    apply (wd_view _ _ _ _ (wf_img _ _ W)). }
  destruct (write_cursor_spec d g Wc) as (d1 & E1 & W1 & Q1 & _ & Y1). mstep (try_ok _ _ _ _ E1).
  destruct (write_free_list_head_ok d1 (wc_healthy _ _ _ W1)) as (k2 & E2 & Hk2 & C2 & _). mstep (try_ok _ _ _ _ E2).
  eexists. split; [done|]. split; [done|]. simpl. pose proof (wc_img _ _ _ W1) as Hi.
  rewrite C2, write_at_idem; [|lia| |apply (wd_head _ _ _ _ Hi)].
  - unfold synced in Y1. rewrite Q1 in Hi, Y1. by split; [apply (wf_geom _ _ W)|..].
  - pose proof (header_length _ _ _ Hi). change (zlen (be64 _)) with 8. lia.
Qed.

Lemma without_base_wf (d : qdev K) g : (∀ ci, g_bv g ci = None) → wf d g → wf (without_base d) g.
Proof.
  intros Hb W. unfold without_base. destruct (base d) eqn:E; [|done]. destruct W. split; try done.
Qed.
End Closing.

(** ** Draining the queue *)
Section Draining.
Context {K L : Type} `{HK : KernelOps K, HB : BackingOps K} `{HL : LogOps L} `{HZ : LZ4Ops} `{!CrcOps} `{HC : Crc32Ops}.
Implicit Types v : lbd_device K L.

(** The device after serving [l] with the results [rs]. *)
Definition drained v (io : dev_io K L) (l : list lbd_cmd) (rs : list (Z * list bytes)) : lbd_device K L :=
  Device (dv_state v) (dv_open_count v) io (dv_cmd_list v) (dv_work v) (dv_done v ++ zip_with completion l rs).

Lemma work_all_serve l : ∀ v rs io, serve (cmd_rq <$> l) (dv_io v) = (Ok rs, io) →
  work_all l v = (Ok tt, drained v io l rs).
Proof.
  induction l as [|c l IH]; intros v rs io E; cbn [fmap list_fmap serve work_all] in *.
  { injection E as <- <-. unfold drained. simpl. rewrite app_nil_r. by destruct v. }
  apply bind_inv in E as ([ret data] & io1 & E1 & E). apply bind_inv in E as (rs' & io2 & E2 & E).
  injection E as <- <-.
  assert (Ew : work_one c v = (Ok tt, drained v io1 [c] [(ret, data)])) by (unfold work_one; by rewrite E1).
  mstep Ew. rewrite (IH _ rs' io2) by done. unfold drained. simpl. by rewrite <- app_assoc.
Qed.

(** A work item is queued whenever a request is. *)
Lemma flush_work_serve v rs io : (dv_cmd_list v ≠ [] → dv_work v = true) →
  serve (cmd_rq <$> dv_cmd_list v) (dv_io v) = (Ok rs, io) →
  flush_work v = (Ok tt, Device (dv_state v) (dv_open_count v) io [] false
                           (dv_done v ++ zip_with completion (dv_cmd_list v) rs)).
Proof.
  intros Hq E. unfold flush_work. rewrite (bind_ok get _ _ _ _ eq_refl). destruct (dv_work v) eqn:Ew.
  - rewrite (bind_ok (modify _) _ _ tt _ eq_refl). unfold lbd_work_fn.
    assert (Es : work_splice (set_dv_work false v) = (Ok (dv_cmd_list v),
      Device (dv_state v) (dv_open_count v) (dv_io v) [] false (dv_done v))) by done.
    mstep Es. by rewrite (work_all_serve _ _ rs io).
  - destruct (dv_cmd_list v) eqn:El; [|by specialize (Hq ltac:(done))].
    injection E as <- <-. simpl. rewrite app_nil_r, <- El, <- Ew at 1. by destruct v.
Qed.
End Draining.

(** ** A file that holds a disk *)
Section Holding.
Context {K L : Type} `{HBk : BackingLaws K} `{HL : LogLaws L} `{HZ : LZ4Laws} `{HCr : CrcLaws} `{HC : Crc32Laws}.
Implicit Types (v : lbd_device K L) (io : dev_io K L) (w : lworld K L).

Definition holds (k : K) (V : Z → byte) : Prop :=
  healthy k ∧ ∃ q g, image (content k Backing) q g ∧ (∀ ci, g_bv g ci = None)
    ∧ ∀ o, 0 ≤ o → vbyte (g_view g) (cluster_size q) o = V o.

Lemma image_magic f q g : image f q g → 4096 ≤ zlen f ∧ _qcow2_get64 (read_at f 0 8) 0 = LBD_QCOW2_MAGIC.
Proof.
  intros [_ Hd _ _ _]. split; [by eapply header_length|].
  apply get64_bytes_at; [done|done|]. apply bytes_at_prefix; [done|done|].
  by apply (proj1 (header36_fields f q)), (wd_meta _ _ _ _ Hd).
Qed.

(** Such a file is detected, opened, and represents the disk. *)
Lemma holds_detected k V io : holds k V → blank_io k io →
  ∃ io', detect_format io = (Ok tt, io') ∧ is_qcow2 io' = true ∧ rep (io_q io') V (λ _, None).
Proof.
  intros (Hh & q & g & Him & Hbv & HV) [Hq Hk Hb Hm]. destruct (image_magic _ _ _ Him) as [Hlen Hmag].
  unfold detect_format. rewrite <- Hk in *.
  destruct (kread_ok Backing 0 8 (io_q io) Hh) as (k1 & E1 & Hh1 & C1); [lia|lia|lia|].
  mstep (on_q_run _ io _ _ E1). rewrite Hmag. cbn [andb Z.eqb Pos.eqb]. rewrite Z.eqb_refl. cbv iota.
  destruct (init_spec (set_kern k1 (io_q io)) q g) as (q2 & E2 & W2 & Q2 & _ & M2); [done|done|done|by simpl; rewrite C1|].
  mstep (on_q_run _ (DevIo (is_qcow2 io) (set_kern k1 (io_q io)) (io_log io) (io_stat io)) _ _ E2).
  eexists. split; [done|]. split; [done|]. split; [|by simpl in M2 |- *; rewrite M2].
  exists g. split_and!; [done| |done]. intros o Ho. simpl. rewrite Q2. by apply HV.
Qed.

Lemma holds_smooth k V a io : holds k V → cstr (take 255 (aa_base_path a)) = [] → blank_io k io →
  ∃ io', brings_up a io io' ∧ is_qcow2 io' = true ∧ rep (io_q io') V (λ _, None).
Proof.
  intros Hh Ha Hb. destruct (holds_detected k V io Hh Hb) as (io' & E & Hq & Hr). exists io'. split; [|done].
  exists io'. rewrite Ha. done.
Qed.

(** ** Detaching a device that serves an image *)

(** The device represents [V] and can serve what is queued. *)
Record serving v (V : Z → byte) : Prop := {
  sr_qcow2 : is_qcow2 (dv_io v) = true;
  sr_rep : rep (io_q (dv_io v)) V (λ _, None);
  sr_room : room (io_q (dv_io v)) (total_bytes (cmd_rq <$> dv_cmd_list v));
  sr_shape : 0 < l1_size (qcow2 (io_q (dv_io v))) ∧ 0 ≤ virtual_size (qcow2 (io_q (dv_io v))) < 2 ^ 64;
  sr_log : ∃ hist es, history (io_log (dv_io v)) hist es;
  sr_fits : Forall (rq_fits (capacity (qcow2 (io_q (dv_io v))))) (cmd_rq <$> dv_cmd_list v);
  sr_work : dv_cmd_list v ≠ [] → dv_work v = true
}.

Lemma detach_run w p v V : lw_heap w !! p = None → serving v V →
  ∃ io l, lbd_destroy_device p (put w p (LDev v live_held))
    = (Ok tt, LWorld (lw_heap w) (lw_idr w) (lw_next w) (lw_leaked w) (lw_gone w ++ [io]))
    ∧ holds (kern (io_q io)) (disk_run V (cmd_rq <$> dv_cmd_list v)).2
    ∧ log_run (ops_of (cmd_rq <$> dv_cmd_list v)) (io_log (dv_io v)) = (Ok tt, l)
    ∧ lbd_finalize_log l = (Ok tt, io_log io).
Proof.
  intros Hp [Hq Hrep Hroom [Hl1 Hvs] (hist & es & Hh) Hf Hw]. set (reqs := cmd_rq <$> dv_cmd_list v) in *.
  destruct (serve_spec true _ _ (qcow2_serves (qcow2 (io_q (dv_io v)))) reqs (dv_io v) 0 V hist es Hq)
    as (io1 & h1 & e1 & E1 & Hq1 & (Hr1 & _ & _ & Hl & Hv) & Hh1 & El & _); [by rewrite Z.add_0_r; split_and!|done..|].
  set (v0 := set_dv_state LBD_STATE_REMOVING v).
  pose proof (flush_work_serve v0 _ io1 Hw E1) as Ef.
  destruct (finalize_spec _ _ _ Hh1) as (l2 & h2 & E2 & _).
  destruct Hr1 as ((g & W1 & G1 & B1) & _).
  assert (Hwb : qcow2 (without_base (io_q io1)) = qcow2 (io_q io1)) by (unfold without_base; by destruct (base _)).
  destruct (destroy_image (without_base (io_q io1)) g) as (q3 & E3 & Hh3 & Him);
    [by apply without_base_wf|rewrite Hwb; lia..|].
  destruct (fsync_ok (kern q3) Hh3) as (k4 & E4 & Hh4 & C4).
  eexists _, _. split; [eapply destroy_run; [done|exact Ef|exact E2|]|split; [|by split; [exact El|]]].
  - cbn [dv_io]. rewrite Hq1. exact E3.
  - simpl. rewrite E4. simpl. split; [done|]. exists (qcow2 (io_q io1)), g. rewrite Hwb in Him.
    rewrite C4. by split_and!.
Qed.
End Holding.
