(* ===== verification/LifecycleTheorems.v ===== *)
(** * The theorems about adding and removing devices

    An add is all or nothing; in every state the control ioctls, opens, closes
    and I/O lead to, the table of devices and the heap agree and nothing has
    leaked; a device that is detached and attached again is the same disk. *)
From stdpp Require Import gmap.
From S2P Require Import Prelude Kernel Format Crc Cbor Posix Qcow2State Qcow2Alloc Qcow2Cache Qcow2Io.
From S2P Require Import Qcow2Inv Qcow2AllocProof Qcow2Wf Qcow2CacheProof Qcow2WriteProof Qcow2IoProof.
From S2P Require Import Flat Qcow2Refine Qcow2InitProof CtlImage CtlCreateProof Qcow2Theorems Log LogProof LogTheorems.
From S2P Require Import Watch Device DeviceProof DeviceTheorems Lifecycle LifecycleProof DetachProof.

Section Worlds.
Context {K L : Type} `{HBk : BackingLaws K} `{HL : LogOps L} `{HZ : LZ4Laws} `{HCr : CrcOps} `{HC : Crc32Ops}.
Implicit Types (w : lworld K L) (v : lbd_device K L) (d : ldev K L).

(** ** The states the control device can lead to *)

(** The teardown of the device is defined: the requests still queued can be
    served, the log finalised and the image closed. *)
Definition detachable v : Prop := ∃ io1 l q,
  (∀ st n, ∃ v1, flush_work (Device st n (dv_io v) (dv_cmd_list v) (dv_work v) (dv_done v)) = (Ok tt, v1) ∧ dv_io v1 = io1)
  ∧ lbd_finalize_log (io_log io1) = (Ok tt, l)
  ∧ (if is_qcow2 io1 then lbd_qcow2_destroy else mret tt) (without_base (io_q io1)) = (Ok tt, q).

(** A device published under [i]. *)
Record published (i : Z) d : Prop := {
  pu_held : ld_held d = live_held;
  pu_state : dv_state (ld_dev d) = LBD_STATE_BOUND;
  pu_count : 0 ≤ dv_open_count (ld_dev d);
  pu_index : log_index (io_log (dv_io (ld_dev d))) = i;
  pu_detach : detachable (ld_dev d)
}.

(** The table and the heap agree, and nothing has leaked. *)
Record world_ok w : Prop := {
  wo_fresh p : (lw_next w ≤ p)%nat → lw_heap w !! p = None;
  wo_idr i p : lw_idr w !! i = Some p → 0 ≤ i < 256 ∧ ∃ d, lw_heap w !! p = Some d ∧ published i d;
  wo_heap p d : lw_heap w !! p = Some d → lw_idr w !! log_index (io_log (dv_io (ld_dev d))) = Some p;
  wo_leaked : lw_leaked w = []
}.

Definition cmd_ok (c : ioctl_cmd (K := K) (L := L)) : Prop :=
  match c with LBD_CTL_ADD _ e => env_ok e | _ => True end.

(** Any ioctl; open and close of the block device; and any I/O on a device that
    leaves its teardown defined. *)
Inductive lreach : lworld K L → Prop :=
| lr_init major misc r w : lbd_init major misc = (r, Some w) → lreach w
| lr_ctl w c r w' : lreach w → cmd_ok c → lbd_ctl_ioctl c w = (Ok r, w') → lreach w'
| lr_open w p r w' : lreach w → at_dev p (on_dev lbd_open) w = (Ok r, w') → lreach w'
| lr_release w p d r w' : lreach w → lw_heap w !! p = Some d → 0 < dv_open_count (ld_dev d) →
    at_dev p (on_dev lbd_release) w = (Ok r, w') → lreach w'
| lr_io w p v hs v' : lreach w → lw_heap w !! p = Some (LDev v hs) →
    dv_state v' = dv_state v → dv_open_count v' = dv_open_count v →
    log_index (io_log (dv_io v')) = log_index (io_log (dv_io v)) → detachable v' →
    lreach (put w p (LDev v' hs)).

Lemma attached_published e a i v : attached e a i v → published i (LDev v live_held).
Proof.
  intros [Hs Ho Hi _ Hc Hb Hx _ _]. split; simpl; [done|done|lia|done|].
  destruct (finalize_ok (io_log (dv_io v)) Hb) as ([] & l & El & _).
  assert (Hq : ∃ q, (if is_qcow2 (dv_io v) then lbd_qcow2_destroy else mret tt) (without_base (io_q (dv_io v))) = (Ok tt, q)).
  { destruct (is_qcow2 (dv_io v)) eqn:Eq; [|by eexists]. apply destroy_clean. unfold without_base.
    specialize (Hc Eq). by destruct (base (io_q (dv_io v))). }
  destruct Hq as (q & Eq). exists (dv_io v), l, q. split_and!; [|done|done].
  intros st n. eexists. unfold flush_work. rewrite (bind_ok get _ _ _ _ eq_refl). simpl. by rewrite Hi.
Qed.

(** *** Removal *)

(** The world with the device at [p] taken out of the heap. *)
Definition without w p (i : Z) (io : dev_io K L) : lworld K L :=
  LWorld (delete p (lw_heap w)) (delete i (lw_idr w)) (lw_next w) (lw_leaked w) (lw_gone w ++ [io]).

Lemma put_same w p d : lw_heap w !! p = Some d →
  w = put (LWorld (delete p (lw_heap w)) (lw_idr w) (lw_next w) (lw_leaked w) (lw_gone w)) p d.
Proof. intros E. unfold put. simpl. rewrite insert_delete_id by done. by destruct w. Qed.

Lemma destroy_published w p i d : lw_heap w !! p = Some d → published i d →
  ∃ io, lbd_destroy_device p w = (Ok tt, LWorld (delete p (lw_heap w)) (lw_idr w) (lw_next w) (lw_leaked w) (lw_gone w ++ [io])).
Proof.
  intros E [Hh Hs Hc Hx (io1 & l & q & Hf & El & Eq)]. destruct d as [v hs]. simpl in *. subst hs.
  destruct (Hf LBD_STATE_REMOVING (dv_open_count v)) as (v1 & Ef & <-). eexists. rewrite (put_same w p _ E) at 1.
  erewrite destroy_run; [done|apply lookup_delete_eq|exact Ef|exact El|exact Eq].
Qed.

Lemma remove_run w i p d : lw_idr w !! i = Some p → lw_heap w !! p = Some d → published i d →
  ∃ io, lbd_remove_device (Some i) w
    = if dv_open_count (ld_dev d) >? 0 then (Ok (- EBUSY), w) else (Ok 0, without w p i io).
Proof.
  intros Ei Ep Hpub.
  set (w1 := LWorld (lw_heap w) (delete i (lw_idr w)) (lw_next w) (lw_leaked w) (lw_gone w)).
  destruct (destroy_published w1 p i d Ep Hpub) as (io & E). exists io.
  unfold lbd_remove_device. rewrite (bind_ok get _ _ _ _ eq_refl). cbv beta. rewrite Ei.
  assert (Eg : at_dev p get w = (Ok d, w)).
  { unfold at_dev. rewrite Ep. unfold get. rewrite insert_id by done. by destruct w. }
  mstep Eg. rewrite bool_decide_eq_true_2 by apply Hpub. cbn [negb]. destruct (_ >? 0); [done|].
  rewrite (bind_ok (idr_remove i) _ w tt w1) by done. by mstep E.
Qed.

(** *** Every step keeps the world in order *)
Lemma world_ok_same w w' : lw_heap w' = lw_heap w → lw_idr w' = lw_idr w → lw_leaked w' = lw_leaked w →
  (lw_next w ≤ lw_next w')%nat → world_ok w → world_ok w'.
Proof.
  intros Eh Ei El Hn [Hf Hi Hh Hl]. split; rewrite ?Eh, ?Ei, ?El; [|done..]. intros p Hp. apply Hf. lia.
Qed.

Lemma world_ok_add w i d : world_ok w → lw_idr w !! i = None → 0 ≤ i < 256 → published i d →
  world_ok (adding w (Some i) d).
Proof.
  intros [Hf Hi Hh Hl] Hn Hr Hd. split; simpl.
  - intros p Hp. rewrite lookup_insert_ne by lia. apply Hf. lia.
  - intros j p [[<- <-]|[Hj Ej]]%lookup_insert_Some; [split; [done|]; exists d; by rewrite lookup_insert_eq|].
    destruct (Hi j p Ej) as (? & d' & Ep & Hd'). split; [done|]. exists d'. split; [|done].
    rewrite lookup_insert_ne; [done|]. intros <-. by rewrite Hf in Ep.
  - intros p d' [[<- <-]|[Hp Ep]]%lookup_insert_Some; [by rewrite (pu_index _ _ Hd), lookup_insert_eq|].
    specialize (Hh p d' Ep). rewrite lookup_insert_ne; [done|]. intros Ex. congruence.
  - done.
Qed.

Lemma world_ok_without w p i io d : world_ok w → lw_idr w !! i = Some p → lw_heap w !! p = Some d →
  world_ok (without w p i io).
Proof.
  intros [Hf Hi Hh Hl] Ei Ep. destruct (Hi i p Ei) as (_ & d0 & Ed & Hd). rewrite Ep in Ed. injection Ed as <-.
  split; simpl; [| | |done].
  - intros p' Hp. apply lookup_delete_None. right. by apply Hf.
  - intros j p' [Hj Ej]%lookup_delete_Some. destruct (Hi j p' Ej) as (? & d' & Ep' & Hd'). split; [done|].
    exists d'. split; [|done]. apply lookup_delete_Some. split; [|done]. intros <-.
    rewrite Ep in Ep'. injection Ep' as <-. pose proof (pu_index _ _ Hd). pose proof (pu_index _ _ Hd'). congruence.
  - intros p' d' [Hp Ep']%lookup_delete_Some. apply lookup_delete_Some. split; [|by apply Hh].
    intros E. specialize (Hh p' d' Ep'). congruence.
Qed.

Lemma world_ok_put w p d d' : world_ok w → lw_heap w !! p = Some d →
  log_index (io_log (dv_io (ld_dev d'))) = log_index (io_log (dv_io (ld_dev d))) →
  (∀ i, published i d → published i d') → world_ok (put w p d').
Proof.
  intros [Hf Hi Hh Hl] Ep Hx Hpub. split; simpl.
  - intros p' Hp. rewrite lookup_insert_ne; [by apply Hf|]. intros <-. by rewrite Hf in Ep.
  - intros j p' Ej. destruct (Hi j p' Ej) as (? & d0 & Ed & Hd). split; [done|].
    destruct (decide (p' = p)) as [->|]; [|exists d0; by rewrite lookup_insert_ne].
    exists d'. rewrite lookup_insert_eq. rewrite Ep in Ed. injection Ed as <-. auto.
  - intros p' d0 [[<- <-]|[Hp Ed]]%lookup_insert_Some; [|by apply Hh]. rewrite Hx. by apply Hh.
  - done.
Qed.

(** Every ioctl is defined in such a world, and leads to such a world. *)
Lemma ctl_ioctl_ok w c : world_ok w → cmd_ok c → ∃ r w', lbd_ctl_ioctl c w = (Ok r, w') ∧ world_ok w'.
Proof.
  intros Hw Hc. destruct c as [k0 e|[i|]|[i|] out|]; unfold lbd_ctl_ioctl; [| |by eexists _, _| |by eexists _, _..].
  - destruct (add_device_spec w k0 e) as (r & w' & E & Ho); [apply (wo_fresh _ Hw); lia|done|]. mstep E.
    eexists _, _. split; [done|].
    destruct Ho as [(_ & a & v & _ & (Hr & Hn & _) & -> & Ha)|(_ & ? & ? & ? & ? & _)].
    + apply world_ok_add; [done..|]. by eapply attached_published.
    + by eapply world_ok_same.
  - destruct (lw_idr w !! i) as [p|] eqn:Ei.
    2:{ exists (- ENODEV), w. split; [|done]. unfold lbd_remove_device.
        rewrite (bind_ok get _ _ _ _ eq_refl). cbv beta. by rewrite Ei. }
    destruct (wo_idr _ Hw _ _ Ei) as (_ & d & Ep & Hd). destruct (remove_run w i p d Ei Ep Hd) as (io & E).
    rewrite E. destruct (_ >? 0); eexists _, _; (split; [done|]); [done|]. by eapply world_ok_without.
  - unfold lbd_info_device. destruct (lw_idr w !! i) as [p|] eqn:Ei.
    2:{ exists (- ENODEV), w. split; [|done]. unfold mbind, M_bind, get. simpl. by rewrite Ei. }
    destruct (wo_idr _ Hw _ _ Ei) as (_ & d & Ep & Hd).
    assert (Eg : at_dev p get w = (Ok d, w)).
    { unfold at_dev. rewrite Ep. unfold get. rewrite insert_id by done. by destruct w. }
    unfold mbind, M_bind. simpl. rewrite Ei. rewrite Eg. destruct out; simpl; by eauto.
Qed.

Lemma lreach_ok w : lreach w → world_ok w.
Proof.
  induction 1 as [major misc r w E|w c r w' _ IH Hc E|w p r w' _ IH E|w p d r w' _ IH Ep Hn E|w p v hs v' _ IH Ep Hs Hn Hx Hd].
  - unfold lbd_init in E. destruct (_ <? _); [done|]. destruct (negb _); [done|]. injection E as _ <-.
    split; simpl; [done|done|done|done].
  - destruct (ctl_ioctl_ok w c IH Hc) as (r' & w2 & E2 & Hw2). congruence.
  - unfold at_dev in E. destruct (lw_heap w !! p) as [d|] eqn:Ep; [|done].
    unfold on_dev, lbd_open in E. rewrite (bind_ok get _ _ _ _ eq_refl) in E. destruct (negb _).
    + injection E as _ <-. apply (world_ok_put w p d); [done|done|done|]. by destruct d.
    + injection E as _ <-. apply (world_ok_put w p d); [done|done|done|]. intros i []. split; try done. simpl. lia.
  - unfold at_dev in E. rewrite Ep in E. injection E as _ <-.
    apply (world_ok_put w p d); [done|done|done|]. intros i []. split; try done. simpl. lia.
  - apply (world_ok_put w p (LDev v hs)); [done|done|done|]. intros i []. split; simpl in *; try done; congruence.
Qed.


End Worlds.

Section Theorems.
Context {K L : Type} `{HBk : BackingLaws K} `{HL : LogLaws L} `{HZ : LZ4Laws} `{HCr : CrcLaws} `{HC : Crc32Laws}.
Implicit Types (w : lworld K L) (v : lbd_device K L) (d : ldev K L).

(** A device that serves an image can be detached. *)
Lemma serving_detachable v V : serving v V → detachable v.
Proof.
  intros [Hq Hrep Hroom [Hl1 Hvs] (hist & es & Hh) Hf Hw]. set (reqs := cmd_rq <$> dv_cmd_list v) in *.
  destruct (serve_spec true _ _ (qcow2_serves (qcow2 (io_q (dv_io v)))) reqs (dv_io v) 0 V hist es Hq)
    as (io1 & h1 & e1 & E1 & Hq1 & (((g & W1 & _ & B1) & _) & _ & _ & Hl & Hv) & Hh1 & _);
    [by rewrite Z.add_0_r; split_and!|done..|].
  destruct (finalize_spec _ _ _ Hh1) as (l2 & h2 & E2 & _).
  assert (Hwb : qcow2 (without_base (io_q io1)) = qcow2 (io_q io1)) by (unfold without_base; by destruct (base _)).
  destruct (destroy_image (without_base (io_q io1)) g) as (q3 & E3 & _); [by apply without_base_wf|rewrite Hwb; lia..|].
  exists io1, l2, q3. rewrite Hq1. split_and!; [|done|done].
  intros st n. eexists. by rewrite (flush_work_serve (Device st n _ _ _ _) _ io1 Hw E1).
Qed.

(** A file that holds a disk is attached as that disk. *)
Lemma attach_holds w i k V k0 e a : holds k V → lw_heap w !! lw_next w = None → 0 ≤ i < 256 → lw_idr w !! i = None →
  ae_arg e = Some a → cstr (take 255 (aa_log_dir a)) ≠ [] → cstr (take 255 (aa_base_path a)) = [] →
  env_ok e → willing e → ae_open e = inr (true, k) →
  ∃ i' v', lbd_add_device k0 e w = (Ok (0, i'), adding w (Some i') (LDev v' live_held))
    ∧ attached e a i' v' ∧ is_qcow2 (dv_io v') = true ∧ rep (io_q (dv_io v')) V (λ _, None).
Proof.
  intros Hh Hp Hi Hn Ea Hld Hbp He Hwl Ho.
  destruct (add_device_spec w k0 e Hp He) as ([r i'] & w' & Er & Hout).
  destruct Hout as [(Hr0 & a' & v' & Ea' & Hl & -> & Hat)|(_ & _ & _ & _ & _ & Hfull)]; simpl in *.
  - rewrite Ea in Ea'. injection Ea' as <-. subst r. exists i', v'. split; [done|]. split; [done|].
    destruct (at_up _ _ _ _ Hat) as (k' & io0 & io1 & Ek & Hb & (ioa & Eda & Eoa) & -> & ->).
    rewrite Ho in Ek. injection Ek as <-. destruct (holds_detected _ _ io0 Hh Hb) as (iob & Edb & Hq & Hr).
    rewrite Eda in Edb. injection Edb as ->. rewrite Hbp in Eoa. by injection Eoa as <-.
  - destruct (Hfull a k Ea Hld) with (i := i); [|done|done]. split; [done|done| |].
    + destruct Hh as (_ & q & g & Him & _). destruct (image_magic _ _ _ Him) as [Hlen _]. lia.
    + intros io0 Hb. destruct (holds_smooth _ _ a io0 Hh Hbp Hb) as (io' & Hu & _). by exists io'.
Qed.



(** A device that is open cannot be removed: the call returns [EBUSY] and
    changes nothing.  Otherwise it returns 0, the device and its index are gone,
    everything it held is released and every other device is untouched. *)
Theorem remove_only_closed w i p d : lreach w → lw_idr w !! i = Some p → lw_heap w !! p = Some d →
  ∃ io, lbd_remove_device (Some i) w
    = if dv_open_count (ld_dev d) >? 0 then (Ok (- EBUSY), w) else (Ok 0, without w p i io).
Proof.
  intros Hw Ei Ep. apply lreach_ok in Hw. destruct (wo_idr _ Hw _ _ Ei) as (_ & d' & Ep' & Hd).
  rewrite Ep in Ep'. injection Ep' as <-. by apply remove_run.
Qed.

(** C3: a device that is removed and added again is the same disk.  Removal
    first serves what is still queued and closes the log; the backing file it
    leaves, added in any cooperating environment, is a live qcow2 device that
    represents the disk those requests left. *)
Theorem detach_attach_same_disk w i p v V : lw_idr w !! i = Some p → lw_heap w !! p = Some (LDev v live_held) →
  lw_heap w !! lw_next w = None → 0 ≤ i < 256 → dv_state v = LBD_STATE_BOUND → dv_open_count v = 0 → serving v V →
  ∃ io l, lbd_remove_device (Some i) w = (Ok 0, without w p i io)
    ∧ log_run (ops_of (cmd_rq <$> dv_cmd_list v)) (io_log (dv_io v)) = (Ok tt, l)
    ∧ lbd_finalize_log l = (Ok tt, io_log io)
    ∧ ∀ k0 e a, ae_arg e = Some a → cstr (take 255 (aa_log_dir a)) ≠ [] → cstr (take 255 (aa_base_path a)) = [] →
        env_ok e → willing e → ae_open e = inr (true, kern (io_q io)) →
        ∃ i' v', lbd_add_device k0 e (without w p i io)
            = (Ok (0, i'), adding (without w p i io) (Some i') (LDev v' live_held))
          ∧ attached e a i' v' ∧ is_qcow2 (dv_io v') = true
          ∧ rep (io_q (dv_io v')) (disk_run V (cmd_rq <$> dv_cmd_list v)).2 (λ _, None).
Proof.
  intros Ei Ep Hp Hi Hs Hc Hv.
  destruct (detach_run (LWorld (delete p (lw_heap w)) (delete i (lw_idr w)) (lw_next w) (lw_leaked w) (lw_gone w)) p v V)
    as (io & l & E & Hh & El & Ef); [apply lookup_delete_eq|done|].
  exists io, l. split; [|split; [done|split; [done|]]].
  - unfold lbd_remove_device. rewrite (bind_ok get _ _ _ _ eq_refl). cbv beta. rewrite Ei.
    assert (Eg : at_dev p get w = (Ok (LDev v live_held), w)).
    { unfold at_dev. rewrite Ep. unfold get. rewrite insert_id by done. by destruct w. }
    mstep Eg. cbn [ld_dev]. rewrite bool_decide_eq_true_2, Hc by done. cbn [negb Z.gtb Z.compare]. cbv iota.
    rewrite (bind_ok (idr_remove i) _ w tt
      (LWorld (lw_heap w) (delete i (lw_idr w)) (lw_next w) (lw_leaked w) (lw_gone w))) by done.
    unfold put in E. simpl in E. rewrite insert_delete_id in E by done. by mstep E.
  - intros k0 e a Ea Hld Hbp He Hwl Ho. apply (attach_holds _ i _ _ k0 e a Hh); [|done| |done..].
    + by apply lookup_delete_None; right.
    + apply lookup_delete_eq.
Qed.


End Theorems.

(** ** Witnesses *)

(** A fresh start, and an environment that offers the 1 MiB image. *)
Definition w_empty : lworld simk simlog := LWorld ∅ ∅ 0 [] [].
Definition arg1 : lbd_ctl_add := CtlAdd (str "/srv/disk.img") (str "/var/log/lbd") [] 0 60.
Definition no_file : simk := Simk [] [] [].
Definition env1 (copy_out : bool) (k : simk) : add_env simk simlog :=
  AddEnv (Some arg1) true true true true 0 0 true (inr (true, k)) (Simlog (Ufs [] []) 1700000000000000000) 0 0 copy_out.

Lemma env1_ok out k : env_ok (env1 out k).
Proof. split; simpl; [done|lia..]. Qed.
Lemma env1_willing k : willing (env1 true k).
Proof. by split. Qed.

Lemma image_holds : holds (kern dev0) (λ _, x00).
Proof.
  split; [done|]. exists (created_q (2 ^ 20) 12), (created_ghost (2 ^ 20) 12).
  split; [exact sample_image|]. split; [done|]. intros o _. apply nth_zeros.
Qed.


(** The image is attached as device 0. *)
Lemma first_device : ∃ v, lreach (adding w_empty (Some 0) (LDev v live_held)).
Proof.
  destruct (attach_holds w_empty 0 (kern dev0) (λ _, x00) no_file (env1 true (kern dev0)) arg1 image_holds)
    as (i & v & E & _); [done|lia|done|done|done|done|apply env1_ok|apply env1_willing|done|].
  destruct (add_device_spec w_empty no_file (env1 true (kern dev0)) eq_refl (env1_ok _ _)) as (r & w' & E' & Ho).
  rewrite E in E'. injection E' as <- <-.
  destruct Ho as [(_ & a & v' & _ & (Hi & _ & Hmin) & _)|(? & _)]; [|done]. simpl in *.
  destruct (decide (i = 0)) as [->|]; [|by destruct (Hmin 0); [lia|]].
  exists v. eapply (lr_ctl w_empty (LBD_CTL_ADD no_file (env1 true (kern dev0)))); [by apply (lr_init 240 0 0)|apply env1_ok|].
  simpl. by rewrite (bind_ok _ _ _ _ _ E).
Qed.


Lemma remove_only_closed_witness : ∃ w v io, lw_heap w !! 0%nat = Some (LDev v live_held) ∧
  lbd_remove_device (Some 0) w = if dv_open_count v >? 0 then (Ok (- EBUSY), w) else (Ok 0, without w 0 0 io).
Proof.
  destruct first_device as (v & Hr).
  destruct (remove_only_closed _ 0 0 (LDev v live_held) Hr eq_refl eq_refl) as (io & E).
  exists (adding w_empty (Some 0) (LDev v live_held)), v, io. split; [reflexivity|exact E].
Defined.


(** A device with a write still queued. *)
Definition busy1 : lbd_device simk simlog := Device LBD_STATE_BOUND 0 dio1 [QCmd 0 (REQ_OP_WRITE (rq_fill 8 x41))] true [].
Definition w_busy : lworld simk simlog := LWorld {[0%nat := LDev busy1 live_held]} {[0 := 0%nat]} 1 [] [].

Lemma busy1_serving : serving busy1 (λ _, x00).
Proof.
  split.
  - reflexivity.
  - exact (proj1 dev1_rep).
  - exact (dev1_room (total_bytes [REQ_OP_WRITE (rq_fill 8 x41)]) ltac:(split; by vm_compute)).
  - exact dev1_sizes.
  - exists [], []. exact (begun_history _ _ log0_ok log1_begun).
  - change (Forall (rq_fits (capacity (qcow2 dev1))) [REQ_OP_WRITE (rq_fill 8 x41)]).
    rewrite dev1_capacity. repeat constructor; by vm_compute.
  - intros _. reflexivity.
Qed.

Lemma detach_attach_same_disk_witness : ∃ io i' v',
  lbd_remove_device (Some 0) w_busy = (Ok 0, without w_busy 0 0 io)
  ∧ lbd_add_device no_file (env1 true (kern (io_q io))) (without w_busy 0 0 io)
    = (Ok (0, i'), adding (without w_busy 0 0 io) (Some i') (LDev v' live_held))
  ∧ rep (io_q (dv_io v')) (upd (λ _, x00) 4096 (replicate 4096 x41)) (λ _, None).
Proof.
  destruct (detach_attach_same_disk w_busy 0 0 busy1 (λ _, x00) eq_refl eq_refl eq_refl ltac:(lia) eq_refl eq_refl
    busy1_serving) as (io & l & Er & _ & _ & Ha).
  destruct (Ha no_file (env1 true (kern (io_q io))) arg1 eq_refl ltac:(done) eq_refl (env1_ok _ _) (env1_willing _) eq_refl)
    as (i' & v' & Ea & _ & _ & R).
  exists io, i', v'. exact (conj Er (conj Ea R)).
Defined.
