(* ===== verification/CtlDevice.v ===== *)
(** * The device commands of the control tool: add, remove, list
      ([src/src/lbdctl.c])

    The tool runs against the driver of [Lifecycle]: an ioctl is a call of
    [lbd_ctl_ioctl].  What it prints on standard output is collected; messages
    on standard error are not. *)
From stdpp Require Import gmap.
From S2P Require Import Prelude Kernel Format Crc Cbor Posix Qcow2State Qcow2Alloc Qcow2Cache Qcow2Io.
From S2P Require Import Log Watch Device Lifecycle CtlText.

(** ** Text *)

(** [%-8s]: padded on the right with spaces. *)
Definition pad_right (n : nat) (s : bytes) : bytes := s ++ replicate (n - length s) x20.

(** [switch (state)] over the value the driver reports. *)
Definition state_str (s : lbd_state) : bytes :=
  match s with
  | LBD_STATE_UNBOUND => str "unbound"
  | LBD_STATE_BOUND => str "bound"
  | LBD_STATE_REMOVING => str "removing"
  end.

(** The report of a command on the device [i]. *)
Definition report_device (json : bool) (verb : bytes) (i : Z) : bytes :=
  if json
  then str "{" ++ [dquote] ++ str "device" ++ [dquote] ++ str ": " ++ [dquote] ++ str "/dev/lbd" ++ dec i ++ [dquote]
       ++ str ", " ++ [dquote] ++ str "index" ++ [dquote] ++ str ": " ++ dec i ++ str "}" ++ newline
  else verb ++ str " /dev/lbd" ++ dec i ++ newline.

(** ** The commands *)
Section Device.
Context {K L : Type} `{KernelOps K, BackingOps K, LogOps L, LZ4Ops, CrcOps, Crc32Ops}.

(** The driver and the output of the tool. *)
Record tool : Type := Tool { t_world : lworld K L; t_out : bytes }.
Abbreviation MT := (M tool).

Definition ioctl {A} (m : M (lworld K L) A) : MT A := λ t,
  let '(r, w) := m (t_world t) in (r, Tool w (t_out t)).
Definition print (b : bytes) : MT unit := modify (λ t, Tool (t_world t) (t_out t ++ b)).

(** The options of [add]. *)
Record add_opts : Type := AddOpts {
  ao_json : bool; ao_max_size : Z; ao_max_age : Z;
  ao_path : option bytes; ao_log_dir : option bytes; ao_base : option bytes
}.

(** The option loop; [None] is [return 1]. *)
Fixpoint add_args (argv : list bytes) (o : add_opts) : option add_opts :=
  match argv with
  | [] => Some o
  | a :: argv' =>
      if decide (a = str "--json") then
        add_args argv' (AddOpts true (ao_max_size o) (ao_max_age o) (ao_path o) (ao_log_dir o) (ao_base o))
      else if decide (a = str "--log-max-size") then
        match argv' with
        | [] => None
        | v :: rest => add_args rest (AddOpts (ao_json o) (strtoull v).1 (ao_max_age o) (ao_path o) (ao_log_dir o) (ao_base o))
        end
      else if decide (a = str "--log-max-age") then
        match argv' with
        | [] => None
        | v :: rest => add_args rest (AddOpts (ao_json o) (ao_max_size o) (u32 (strtoull v).1) (ao_path o) (ao_log_dir o) (ao_base o))
        end
      else if decide (a = str "--log-dir") then
        match argv' with
        | [] => None
        | v :: rest => add_args rest (AddOpts (ao_json o) (ao_max_size o) (ao_max_age o) (ao_path o) (Some v) (ao_base o))
        end
      else if decide (a = str "--base") then
        match argv' with
        | [] => None
        | v :: rest => add_args rest (AddOpts (ao_json o) (ao_max_size o) (ao_max_age o) (ao_path o) (ao_log_dir o) (Some v))
        end
      else match ao_path o with
        | None => add_args argv' (AddOpts (ao_json o) (ao_max_size o) (ao_max_age o) (Some a) (ao_log_dir o) (ao_base o))
        | Some _ => None
        end
  end.

(** [snprintf] of a shorter string into a zeroed [char[256]]. *)
Definition path_field (p : bytes) : bytes := p ++ zeros (LBD_LOG_PATH_MAX - zlen p).

(** [realpath], then the check of the length. *)
Definition resolve (realpath : bytes → option bytes) (p : bytes) : option bytes :=
  match realpath p with
  | None => None
  | Some r => if zlen r >=? LBD_LOG_PATH_MAX then None else Some (path_field r)
  end.

(** The argument of the ioctl, or [None] for [return 1]. *)
Definition add_arg (realpath : bytes → option bytes) (o : add_opts) : option lbd_ctl_add :=
  match ao_path o, ao_log_dir o with
  | Some p, Some d =>
      match resolve realpath p with
      | None => None
      | Some p' =>
          match resolve realpath d with
          | None => None
          | Some d' =>
              match ao_base o with
              | None => Some (CtlAdd p' d' (zeros LBD_LOG_PATH_MAX) (ao_max_size o) (ao_max_age o))
              | Some b =>
                  match resolve realpath b with
                  | None => None
                  | Some b' => Some (CtlAdd p' d' b' (ao_max_size o) (ao_max_age o))
                  end
              end
          end
      end
  | _, _ => None
  end.

(** The environment of the ioctl, with the argument the tool passes. *)
Definition with_arg (a : lbd_ctl_add) (e : add_env K L) : add_env K L :=
  AddEnv (Some a) (ae_kzalloc e) (ae_log_buf e) (ae_lz4 e) (ae_idr e) (ae_tag_set e) (ae_alloc_disk e) (ae_workqueue e)
    (ae_open e) (ae_log e) (ae_kern_path e) (ae_add_disk e) (ae_copy_out e).

(** [fd_ok]: whether the control device can be opened; [e]: what the kernel
    answers while the device is added. *)
Definition cmd_add (realpath : bytes → option bytes) (fd_ok : bool) (k0 : K) (e : add_env K L) (argv : list bytes) : MT Z :=
  match add_args argv (AddOpts false 0 0 None None None) with
  | None => mret 1
  | Some o =>
      match add_arg realpath o with
      | None => mret 1
      | Some a =>
          if negb fd_ok then mret 1 else
          '(ret, i) ← ioctl (lbd_add_device k0 (with_arg a e));
          if ret <? 0 then mret 1 else
          print (report_device (ao_json o) (str "Created") i);;
          mret 0
      end
  end.

Fixpoint remove_args (argv : list bytes) (json : bool) (idx : option bytes) : option (bool * option bytes) :=
  match argv with
  | [] => Some (json, idx)
  | a :: argv' =>
      if decide (a = str "--json") then remove_args argv' true idx
      else match idx with None => remove_args argv' json (Some a) | Some _ => None end
  end.

Definition cmd_remove (fd_ok : bool) (argv : list bytes) : MT Z :=
  match remove_args argv false None with
  | Some (json, Some s) =>
      if negb fd_ok then mret 1 else
      ret ← ioctl (lbd_remove_device (Some (atoi s)));
      if ret <? 0 then mret 1 else
      print (report_device json (str "Removed") (atoi s));;
      mret 0
  | _ => mret 1
  end.

(** One line, or one object, of the listing. *)
Definition list_row (i : Z) (info : lbd_state * Z * bytes) : bytes :=
  let '(st, size, path) := info in
  str "lbd" ++ pad_right 5 (dec i) ++ str " " ++ pad_right 10 (state_str st) ++ str " " ++ pad_right 12 (dec size)
    ++ str " " ++ cstr path ++ newline.

Definition list_object (found : nat) (i : Z) (info : lbd_state * Z * bytes) : bytes :=
  let '(st, size, path) := info in
  (if decide (found = O) then [] else str ",") ++ newline ++ str "  {" ++ json_key (str "device")
    ++ [dquote] ++ str "/dev/lbd" ++ dec i ++ [dquote] ++ str ", " ++ json_key (str "index") ++ dec i ++ str ", "
    ++ json_key (str "state") ++ [dquote] ++ state_str st ++ [dquote] ++ str ", " ++ json_key (str "size") ++ dec size ++ str ", "
    ++ json_key (str "backing") ++ json_print_string path ++ str "}".

Fixpoint list_loop (json : bool) (ids : list Z) (found : nat) : MT nat :=
  match ids with
  | [] => mret found
  | i :: ids' =>
      r ← ioctl (lbd_info_device (Some i) true);
      match r with
      | inl _ => list_loop json ids' found
      | inr info =>
          print (if json : bool then list_object found i info else list_row i info);;
          list_loop json ids' (S found)
      end
  end.

Definition list_header : bytes :=
  pad_right 8 (str "DEVICE") ++ str " " ++ pad_right 10 (str "STATE") ++ str " " ++ pad_right 12 (str "SIZE") ++ str " "
    ++ str "BACKING" ++ newline
  ++ pad_right 8 (str "------") ++ str " " ++ pad_right 10 (str "-----") ++ str " " ++ pad_right 12 (str "----") ++ str " "
    ++ str "-------" ++ newline.

Definition cmd_list (fd_ok : bool) (argv : list bytes) : MT Z :=
  if negb (forallb (λ a, bool_decide (a = str "--json")) argv) then mret 1 else
  let json := negb (bool_decide (argv = [])) in
  if negb fd_ok then mret 1 else
  print (if json then str "[" else list_header);;
  found ← list_loop json (seqZ 0 256) 0;
  (if json then print (newline ++ str "]" ++ newline)
   else if decide (found = O) then print (str "(no devices)" ++ newline) else mret tt);;
  mret 0.

(** ** [main]: which command runs, with which arguments *)
Inductive command : Type :=
| CmdAdd (argv : list bytes) | CmdRemove (argv : list bytes) | CmdList (argv : list bytes)
| CmdWatch (argv : list bytes) | CmdMissHandler (argv : list bytes) | CmdSwap (argv : list bytes)
| CmdCreate (argv : list bytes) | CmdConvert (flat qcow2 : bytes) | CmdExtract (qcow2 flat : bytes)
| CmdCompact (argv : list bytes) | CmdLog (path : bytes) (json show_data : bool) | CmdFail.

Fixpoint log_args (argv : list bytes) (json data : bool) (path : option bytes) : command :=
  match argv with
  | [] => match path with Some p => CmdLog p json data | None => CmdFail end
  | a :: argv' =>
      if decide (a = str "--json") then log_args argv' true data path
      else if decide (a = str "--data") then log_args argv' json true path
      else match path with None => log_args argv' json data (Some a) | Some _ => CmdFail end
  end.

(** [argv] without the name of the program. *)
Definition main (argv : list bytes) : command :=
  match argv with
  | [] => CmdFail
  | c :: rest =>
      if decide (c = str "add") then (if decide (rest = []) then CmdFail else CmdAdd rest)
      else if decide (c = str "remove") then CmdRemove rest
      else if decide (c = str "list") then CmdList rest
      else if decide (c = str "watch") then CmdWatch rest
      else if decide (c = str "miss-handler") then CmdMissHandler rest
      else if decide (c = str "swap") then CmdSwap rest
      else if decide (c = str "create") then (if decide (rest = []) then CmdFail else CmdCreate rest)
      else if decide (c = str "convert") then match rest with a :: b :: _ => CmdConvert a b | _ => CmdFail end
      else if decide (c = str "extract") then match rest with a :: b :: _ => CmdExtract a b | _ => CmdFail end
      else if decide (c = str "compact") then (if decide (rest = []) then CmdFail else CmdCompact rest)
      else if decide (c = str "log") then log_args rest false false None
      else CmdFail
  end.
End Device.
