(* ===== verification/CtlDeviceTheorems.v ===== *)
(** * The theorem about the device commands of the control tool

    What the tool adds it lists, and removes by the number it printed. *)
From stdpp Require Import gmap.
From S2P Require Import Prelude Kernel Format Crc Cbor Posix Qcow2State Qcow2Alloc Qcow2Cache Qcow2Io.
From S2P Require Import Qcow2Inv Qcow2AllocProof Qcow2Wf Qcow2CacheProof Qcow2WriteProof Qcow2IoProof.
From S2P Require Import Flat Qcow2Refine Qcow2InitProof CtlImage CtlCreateProof Qcow2Theorems Log LogProof LogTheorems.
From S2P Require Import Watch Device DeviceProof DeviceTheorems Lifecycle LifecycleProof DetachProof LifecycleTheorems.
From S2P Require Import Json CtlText CtlTextProof CtlDevice.

(** ** Numbers in text *)
Lemma digits_dec f : ∀ n s acc, 0 ≤ n < 10 ^ Z.of_nat f → acc = 0 →
  digits 10 (dec_digits f n s) acc = digits 10 s n.
Proof.
  induction f as [|f IH]; intros n s acc Hn ->; [cbn in Hn; by replace n with 0 by lia|].
  rewrite Nat2Z.inj_succ, Z.pow_succ_r in Hn by lia. cbn [dec_digits].
  assert (Hd : ∀ m, digits 10 (z2b (48 + n mod 10) :: s) m = digits 10 s (m * 10 + n mod 10)).
  { intros m. assert (0 ≤ n mod 10 < 10) by (apply Z.mod_pos_bound; lia). cbn [digits].
    rewrite b2z_z2b, Z.mod_small by lia. unfold digit_val.
    rewrite (proj2 (Z.leb_le 48 _)), (proj2 (Z.leb_le _ 57)) by lia. cbn [andb].
    replace (48 + n mod 10 - 48) with (n mod 10) by lia. by rewrite (proj2 (Z.ltb_lt (n mod 10) 10)) by lia. }
  pose proof (Z.div_mod n 10 ltac:(lia)). destruct (Z.ltb_spec n 10).
  - rewrite Hd. f_equal. rewrite Z.mod_small by lia. lia.
  - assert (0 ≤ n / 10 < 10 ^ Z.of_nat f) by (split; [apply Z.div_pos|apply Z.div_lt_upper_bound]; lia).
    rewrite IH, Hd by done. f_equal. lia.
Qed.

Lemma dec_head f : ∀ n s, f ≠ O → 0 ≤ n → ∃ c s', dec_digits f n s = c :: s' ∧ 48 ≤ b2z c ≤ 57.
Proof.
  induction f as [|f IH]; intros n s Hf Hn; [done|]. cbn [dec_digits].
  assert (Hc : 48 ≤ b2z (z2b (48 + n mod 10)) ≤ 57).
  { assert (0 ≤ n mod 10 < 10) by (apply Z.mod_pos_bound; lia). rewrite b2z_z2b, Z.mod_small by lia. lia. }
  destruct (n <? 10); [by eexists _, _|]. destruct f as [|f]; [by eexists _, _|].
  apply IH; [done|]. apply Z.div_pos; lia.
Qed.

(** What [%d] prints, [atoi] reads. *)
Lemma atoi_dec n : 0 ≤ n < 2 ^ 31 → atoi (dec n) = n.
Proof.
  intros Hn. unfold dec. rewrite (proj2 (Z.ltb_ge n 0)) by lia. unfold atoi.
  destruct (dec_head 20 n [] ltac:(done) ltac:(lia)) as (c & s & E & Hc).
  assert (Es : skip_space (dec_digits 20 n []) = dec_digits 20 n []).
  { rewrite E. cbn [skip_space]. unfold is_space.
    rewrite (proj2 (Z.eqb_neq (b2z c) 32)), (proj2 (Z.leb_gt (b2z c) 13)) by lia. by rewrite andb_false_r. }
  assert (Eg : sign (dec_digits 20 n []) = (false, dec_digits 20 n [])).
  { rewrite E. cbn [sign]. by rewrite (proj2 (Z.eqb_neq (b2z c) 45)), (proj2 (Z.eqb_neq (b2z c) 43)) by lia. }
  assert (0 ≤ n < 10 ^ Z.of_nat 20) by (change (10 ^ Z.of_nat 20) with (10 ^ 20); lia).
  rewrite Es, Eg, digits_dec by done.
  cbn [digits]. rewrite Z.min_r by lia. by apply s32_small; lia.
Qed.

Lemma cstr_idem s : cstr (cstr s) = cstr s.
Proof. induction s as [|b s IH]; simpl; [done|]. destruct (b2z b =? 0) eqn:E; [done|]. simpl. by rewrite E, IH. Qed.

Lemma cstr_app s t : cstr t = [] → cstr (s ++ t) = cstr s.
Proof. intros Ht. induction s as [|b s IH]; simpl; [done|]. by rewrite IH. Qed.

(** The driver reads from the field what the tool wrote to it. *)
Lemma cstr_field p : zlen p < LBD_LOG_PATH_MAX → cstr (take 255 (path_field p)) = cstr p.
Proof.
  intros Hp. unfold path_field, LBD_LOG_PATH_MAX, zlen in *. rewrite take_app, take_ge by lia. apply cstr_app.
  unfold zeros. rewrite take_replicate. by destruct (_ `min` _)%nat.
Qed.

Section Listing.
Context {K L : Type} `{HBk : BackingLaws K} `{HL : LogOps L} `{HZ : LZ4Laws} `{HCr : CrcOps} `{HC : Crc32Ops}.
Implicit Types (w : lworld K L) (d : ldev K L).

(** What the table says of the device [i]. *)
Definition info_of w (i : Z) : option (lbd_state * Z * bytes) :=
  p ← lw_idr w !! i; d ← lw_heap w !! p;
  Some (dv_state (ld_dev d), u64 (dev_size (io_log (dv_io (ld_dev d)))), backing_path (io_log (dv_io (ld_dev d)))).

(** The line of the device [i] in the listing, if there is such a device. *)
Definition row_of w (i : Z) : bytes := match info_of w i with Some x => list_row i x | None => [] end.
Definition listing w : bytes :=
  list_header ++ concat (row_of w <$> seqZ 0 256)
  ++ (if decide (lw_idr w = ∅) then str "(no devices)" ++ newline else []).

Lemma info_run w i : world_ok w →
  lbd_info_device (Some i) true w = (Ok (match info_of w i with Some x => inr x | None => inl (- ENODEV) end), w).
Proof.
  intros Hw. unfold lbd_info_device, info_of. rewrite (bind_ok get _ _ _ _ eq_refl). cbv beta.
  destruct (lw_idr w !! i) as [p|] eqn:Ei; [|done]. destruct (wo_idr _ Hw _ _ Ei) as (_ & d & Ep & _).
  assert (Eg : at_dev p get w = (Ok d, w)).
  { unfold at_dev. rewrite Ep. unfold get. rewrite insert_id by done. by destruct w. }
  mstep Eg. cbn [negb]. simpl. by rewrite Ep.
Qed.

Lemma list_loop_ok ids : ∀ n w out, world_ok w →
  ∃ n', list_loop false ids n (Tool w out) = (Ok n', Tool w (out ++ concat (row_of w <$> ids)))
    ∧ (n' = O ↔ n = O ∧ ∀ i, i ∈ ids → info_of w i = None).
Proof.
  induction ids as [|i ids IH]; intros n w out Hw.
  { exists n. split; [by rewrite app_nil_r|]. split; [|by intros []]. intros ->. split; [done|]. by intros i ?%elem_of_nil. }
  cbn [list_loop]. rewrite fmap_cons, concat_cons. unfold row_of at 1.
  assert (Eio : ioctl (lbd_info_device (Some i) true) (Tool w out)
    = (Ok (match info_of w i with Some x => inr x | None => inl (- ENODEV) end), Tool w out)).
  { unfold ioctl. cbn [t_world t_out]. by rewrite info_run. }
  mstep Eio. destruct (info_of w i) as [x|] eqn:Ex.
  - cbv iota. rewrite (bind_ok (print (list_row i x)) _ (Tool w out) tt (Tool w (out ++ list_row i x))) by done.
    destruct (IH (S n) w (out ++ list_row i x) Hw) as (n' & E & Hn). exists n'. rewrite E, <- app_assoc. split; [done|].
    split; [by intros [? _]%Hn|]. intros [_ Hall]. specialize (Hall i ltac:(by left)). congruence.
  - destruct (IH n w out Hw) as (n' & E & Hn). exists n'. split; [exact E|]. rewrite Hn.
    split; intros [? Hall]; (split; [done|]); [intros j [->|Hj]%elem_of_cons; auto|].
    intros j Hj. apply Hall. by right.
Qed.

(** The listing shows the table. *)
Lemma cmd_list_ok w : world_ok w → cmd_list true [] (Tool w []) = (Ok 0, Tool w (listing w)).
Proof.
  intros Hw. unfold cmd_list. cbn [forallb negb]. cbv iota zeta. rewrite bool_decide_eq_true_2 by done. cbn [negb].
  rewrite (bind_ok (print list_header) _ (Tool w []) tt (Tool w list_header)) by done.
  destruct (list_loop_ok (seqZ 0 256) 0 w list_header Hw) as (n & E & Hn). mstep E. unfold listing.
  assert (Hemp : n = O ↔ lw_idr w = ∅).
  { rewrite Hn. split.
    - intros [_ Hall]. apply map_empty. intros i. destruct (lw_idr w !! i) as [p|] eqn:Ei; [|done].
      destruct (wo_idr _ Hw _ _ Ei) as (Hr & d & Ep & _). specialize (Hall i ltac:(apply elem_of_seqZ; lia)).
      unfold info_of in Hall. rewrite Ei in Hall. simpl in Hall. by rewrite Ep in Hall.
    - intros Ee. split; [done|]. intros i _. unfold info_of. by rewrite Ee. }
  destruct (decide (n = O)) as [H0n|H0n].
  - rewrite decide_True by tauto. rewrite app_assoc. done.
  - rewrite decide_False by tauto. rewrite app_nil_r. done.
Qed.

(** *** The listing as JSON *)
Definition device_value (i : Z) (x : lbd_state * Z * bytes) : json :=
  let '(st, size, path) := x in
  JObj [(str "device", JStr (str "/dev/lbd" ++ dec i)); (str "index", JNum i 0); (str "state", JStr (state_str st));
        (str "size", JNum size 0); (str "backing", JStr (cstr path))].

(** The devices of the table in order. *)
Definition devices w (ids : list Z) : list json := omap (λ i, device_value i <$> info_of w i) ids.

Fixpoint json_rows w (found : nat) (ids : list Z) : bytes :=
  match ids with
  | [] => []
  | i :: ids' => match info_of w i with
                 | Some x => list_object found i x ++ json_rows w (S found) ids'
                 | None => json_rows w found ids'
                 end
  end.

Lemma lex_member k t v rest st ts : plain k → reads t v → lex LNone (str ", " ++ rest) = Some (st, ts) →
  lex LNone (json_key k ++ t ++ str ", " ++ rest) = Some (st, TStr k :: TP x3a :: toks v ++ ts).
Proof.
  intros Hk Ht Hr. unfold json_key. rewrite <- app_assoc.
  change (TStr k :: TP x3a :: toks v ++ ts) with ([TStr k] ++ [TP x3a] ++ toks v ++ ts).
  eapply lex_trans; [apply lex_quoted; intros acc; by apply lex_plain|]. eapply lex_trans; [done|]. apply Ht; [done|done].
Qed.

Lemma lex_comma rest st ts : lex LNone rest = Some (st, ts) → lex LNone (str ", " ++ rest) = Some (st, TP x2c :: ts).
Proof. intros E. change (TP x2c :: ts) with ([TP x2c] ++ ts). by eapply lex_trans. Qed.

Lemma state_plain st : plain (state_str st).
Proof. by destruct st. Qed.

Lemma lex_object i st size path rest st' ts : 0 ≤ i < 256 → 0 ≤ size < 2 ^ 64 → lex LNone rest = Some (st', ts) →
  lex LNone (list_object 0 i (st, size, path) ++ rest) = Some (st', toks (device_value i (st, size, path)) ++ ts).
Proof.
  intros Hi Hs E. unfold list_object. rewrite decide_True by done. rewrite <- !app_assoc.
  set (tl := json_key (str "backing") ++ json_print_string path ++ str "}" ++ rest).
  assert (El : lex LNone tl = Some (st', [TStr (str "backing"); TP x3a; TStr (cstr path); TP x7d] ++ ts)).
  { unfold tl. change (_ ++ ts) with ([TStr (str "backing"); TP x3a] ++ [TStr (cstr path)] ++ [TP x7d] ++ ts).
    eapply lex_trans; [done|]. eapply lex_trans; [apply lex_quoted; intros acc; apply lex_json_chars|].
    by eapply lex_trans. }
  eapply lex_comma in El.
  eapply (lex_member (str "size") (dec size) (JNum size 0)) in El; [|done|apply reads_dec; lia]. eapply lex_comma in El.
  eapply (lex_member (str "state") (quoted (state_str st)) (JStr (state_str st))) in El;
    [|done|apply reads_plain, state_plain]. eapply lex_comma in El.
  eapply (lex_member (str "index") (dec i) (JNum i 0)) in El; [|done|apply reads_dec; lia]. eapply lex_comma in El.
  eapply (lex_member (str "device") (quoted (str "/dev/lbd" ++ dec i)) (JStr (str "/dev/lbd" ++ dec i))) in El;
    [|done|apply reads_plain; by rewrite forallb_app, dec_plain].
  unfold quoted in El. rewrite <- !app_assoc in El. cbn [app].
  replace (toks (device_value i (st, size, path)) ++ ts) with ([] ++ [TP x7b] ++ (TStr (str "device") :: TP x3a
    :: toks (JStr (str "/dev/lbd" ++ dec i)) ++ TP x2c :: TStr (str "index") :: TP x3a :: toks (JNum i 0) ++ TP x2c
    :: TStr (str "state") :: TP x3a :: toks (JStr (state_str st)) ++ TP x2c :: TStr (str "size") :: TP x3a :: toks (JNum size 0)
    ++ TP x2c :: [TStr (str "backing"); TP x3a; TStr (cstr path); TP x7d] ++ ts)) by reflexivity.
  eapply (lex_trans _ newline); [done|]. eapply lex_trans; [done|]. exact El.
Qed.

Lemma info_range w i st size path : info_of w i = Some (st, size, path) → 0 ≤ size < 2 ^ 64.
Proof.
  unfold info_of. destruct (lw_idr w !! i) as [p|]; [|done]. cbn. destruct (lw_heap w !! p); [|done]. cbn. intros [= <- <- <-].
  apply u64_range.
Qed.

Lemma sep_cons {A} (x : A) a l : sep x (a :: l) = a ++ concat (map (cons x) l).
Proof.
  revert a. induction l as [|b l IH]; intros a; [by rewrite app_nil_r|].
  change (sep x (a :: b :: l)) with (a ++ x :: sep x (b :: l)). by rewrite IH.
Qed.

Lemma list_object_next n i x : list_object (S n) i x = str "," ++ list_object 0 i x.
Proof. unfold list_object. destruct x as [[st size] path]. by rewrite decide_False, decide_True by done. Qed.

Lemma lex_rows_next w ids : ∀ n rest st ts, Forall (λ i, 0 ≤ i < 256) ids → lex LNone rest = Some (st, ts) →
  lex LNone (json_rows w (S n) ids ++ rest) = Some (st, concat (map (cons (TP x2c)) (map toks (devices w ids))) ++ ts).
Proof.
  induction ids as [|i ids IH]; intros n rest st ts Hids E; [done|]. apply Forall_cons_1 in Hids as [Hi Hids]. cbn [json_rows].
  unfold devices. cbn [omap list_omap]. destruct (info_of w i) as [[[s0 size] path]|] eqn:Ei; [|by apply IH].
  cbn [fmap option_fmap option_map map concat]. rewrite list_object_next, <- !app_assoc.
  change ((TP x2c :: toks ?v) ++ ?r) with ([TP x2c] ++ toks v ++ r).
  eapply lex_trans; [done|]. apply lex_object; [done|by eapply info_range|]. by apply IH.
Qed.

Lemma lex_rows w ids rest st ts : Forall (λ i, 0 ≤ i < 256) ids → lex LNone rest = Some (st, ts) →
  lex LNone (json_rows w 0 ids ++ rest) = Some (st, sep (TP x2c) (map toks (devices w ids)) ++ ts).
Proof.
  induction ids as [|i ids IH]; intros Hids E; [done|]. apply Forall_cons_1 in Hids as [Hi Hids]. cbn [json_rows].
  unfold devices. cbn [omap list_omap]. destruct (info_of w i) as [[[s0 size] path]|] eqn:Ei; [|by apply IH].
  cbn [fmap option_fmap option_map map]. rewrite sep_cons, <- !app_assoc.
  apply lex_object; [done|by eapply info_range|]. by apply lex_rows_next.
Qed.

Lemma list_loop_json ids : ∀ n w out, world_ok w →
  ∃ n', list_loop true ids n (Tool w out) = (Ok n', Tool w (out ++ json_rows w n ids)).
Proof.
  induction ids as [|i ids IH]; intros n w out Hw; [exists n; by rewrite app_nil_r|]. cbn [list_loop json_rows].
  assert (Eio : ioctl (lbd_info_device (Some i) true) (Tool w out)
    = (Ok (match info_of w i with Some x => inr x | None => inl (- ENODEV) end), Tool w out)).
  { unfold ioctl. cbn [t_world t_out]. by rewrite info_run. }
  mstep Eio. destruct (info_of w i) as [x|]; [|by apply IH]. cbv iota.
  rewrite (bind_ok (print (list_object n i x)) _ (Tool w out) tt (Tool w (out ++ list_object n i x))) by done.
  destruct (IH (S n) w (out ++ list_object n i x) Hw) as (n' & E). exists n'. by rewrite E, <- app_assoc.
Qed.

(** The JSON listing is one array of the devices. *)
Lemma cmd_list_json w : world_ok w → ∃ out, cmd_list true [str "--json"] (Tool w []) = (Ok 0, Tool w out)
  ∧ json_parse out = Some (JArr (devices w (seqZ 0 256))).
Proof.
  intros Hw. unfold cmd_list. cbn [forallb andb]. rewrite bool_decide_eq_true_2 by done. cbn [negb andb]. cbv iota zeta.
  rewrite bool_decide_eq_false_2 by done. cbn [negb].
  assert (Hr : Forall (λ i, 0 ≤ i < 256) (seqZ 0 256)) by (apply list.Forall_forall; intros i Hi%elem_of_seqZ; lia).
  generalize dependent (seqZ 0 256). intros ids Hr. destruct (list_loop_json ids 0 w (str "[") Hw) as (n & E).
  exists (str "[" ++ json_rows w 0 ids ++ newline ++ str "]" ++ newline). split.
  - rewrite (bind_ok (print (str "[")) _ (Tool w []) tt (Tool w (str "["))) by done. mstep E.
    rewrite (bind_ok (print _) _ (Tool w _) tt (Tool w ((str "[" ++ json_rows w 0 ids) ++ newline ++ str "]" ++ newline))) by done.
    by rewrite <- app_assoc.
  - apply json_parse_toks. unfold tokens.
    rewrite (lex_trans LNone (str "[") _ LNone [TP x5b] LNone (sep (TP x2c) (map toks (devices w ids)) ++ [TP x5d]) eq_refl).
    + cbn. by rewrite app_nil_r.
    + by apply lex_rows.
Qed.
End Listing.

Section Theorems.
Context {K L : Type} `{HBk : BackingLaws K} `{HL : LogLaws L} `{HZ : LZ4Laws} `{HCr : CrcLaws} `{HC : Crc32Laws}.
Implicit Types (w : lworld K L) (d : ldev K L).

Definition no_opts : add_opts := AddOpts false 0 0 None None None.

Lemma add_arg_path (rp : bytes → option bytes) o a : add_arg rp o = Some a →
  ∃ p r, ao_path o = Some p ∧ rp p = Some r ∧ zlen r < LBD_LOG_PATH_MAX ∧ aa_path a = path_field r.
Proof.
  unfold add_arg, resolve. intros E. destruct (ao_path o) as [p|]; [|done]. destruct (ao_log_dir o) as [ld|]; [|done].
  destruct (rp p) as [r|] eqn:Er; [|done]. destruct (Z.geb_spec (zlen r) LBD_LOG_PATH_MAX); [done|].
  exists p, r. split_and!; [done|done|lia|].
  destruct (rp ld); [|done]. destruct (_ >=? _); [done|].
  destruct (ao_base o) as [b|]; [|by injection E as <-]. destruct (rp b); [|done]. destruct (_ >=? _); [done|].
  by injection E as <-.
Qed.

Lemma with_arg_ok a (e : add_env K L) : env_ok e → env_ok (with_arg a e).
Proof. by intros []. Qed.

(** The device just added is published, and its removal takes the world back. *)
Lemma remove_added w i e a v : world_ok w → lowest_free (lw_idr w) i → attached e a i v →
  ∃ w2, lbd_remove_device (Some i) (adding w (Some i) (LDev v live_held)) = (Ok 0, w2)
    ∧ lw_heap w2 = lw_heap w ∧ lw_idr w2 = lw_idr w.
Proof.
  intros Hw (Hi & Hn & _) Ha.
  destruct (remove_run (adding w (Some i) (LDev v live_held)) i (lw_next w) (LDev v live_held)) as (io & E);
    [apply lookup_insert_eq..|by eapply attached_published|]. cbn [ld_dev] in E. rewrite (at_closed _ _ _ _ Ha) in E.
  eexists. split; [exact E|]. simpl. split; rewrite delete_insert_id; try done. by apply (wo_fresh _ Hw).
Qed.

Lemma info_added w i e a v j : world_ok w → attached e a i v →
  info_of (adding w (Some i) (LDev v live_held)) j
  = if decide (j = i) then Some (LBD_STATE_BOUND, u64 (dev_size (io_log (dv_io v))), cstr (take 255 (aa_path a)))
    else info_of w j.
Proof.
  intros Hw Ha. unfold info_of. simpl. destruct (decide (j = i)) as [->|Hj].
  - rewrite lookup_insert_eq. simpl. rewrite lookup_insert_eq. simpl.
    by rewrite (at_state _ _ _ _ Ha), (at_path _ _ _ _ Ha).
  - rewrite lookup_insert_ne by done. destruct (lw_idr w !! j) as [p|] eqn:Ej; [|done]. simpl.
    destruct (wo_idr _ Hw _ _ Ej) as (_ & d & Ep & _). rewrite lookup_insert_ne; [done|].
    intros <-. by rewrite (wo_fresh _ Hw) in Ep.
Qed.

(** C17: what the control tool adds, it lists and can remove.  In any reachable
    state and whatever its arguments, [add] either exits with 1, prints nothing
    and leaves the devices as they were, or exits with 0 and prints the lowest
    free number; then [list] prints one line per device, that of the new device
    with the state "bound" and the resolved path, the lines of the others as
    before; [list --json] prints one JSON array that reads as those devices; and [remove] with the number as it was printed exits with 0 and
    leaves the devices as they were before the add. *)
Theorem tool_add_list_remove w (rp : bytes → option bytes) fd_ok k0 e argv : lreach w → env_ok e →
  ∃ ret w' out, cmd_add rp fd_ok k0 e argv (Tool w []) = (Ok ret, Tool w' out) ∧
  ((ret = 1 ∧ out = [] ∧ lw_heap w' = lw_heap w ∧ lw_idr w' = lw_idr w) ∨
   (ret = 0 ∧ ∃ o p r i size w2, add_args argv no_opts = Some o ∧ ao_path o = Some p ∧ rp p = Some r
      ∧ lowest_free (lw_idr w) i ∧ out = report_device (ao_json o) (str "Created") i
      ∧ cmd_list true [] (Tool w' []) = (Ok 0, Tool w' (listing w'))
      ∧ (∃ text, cmd_list true [str "--json"] (Tool w' []) = (Ok 0, Tool w' text)
           ∧ json_parse text = Some (JArr (devices w' (seqZ 0 256))))
      ∧ info_of w' i = Some (LBD_STATE_BOUND, size, cstr r)
      ∧ row_of w' i = list_row i (LBD_STATE_BOUND, size, r)
      ∧ (∀ j, j ≠ i → info_of w' j = info_of w j ∧ row_of w' j = row_of w j)
      ∧ cmd_remove true [dec i] (Tool w' []) = (Ok 0, Tool w2 (report_device false (str "Removed") i))
      ∧ lw_heap w2 = lw_heap w ∧ lw_idr w2 = lw_idr w)).
Proof.
  intros Hr He. pose proof (lreach_ok _ Hr) as Hw. unfold cmd_add.
  destruct (add_args argv _) as [o|] eqn:Eo; [|by eexists _, _, _; split; [done|left]].
  destruct (add_arg rp o) as [a|] eqn:Ea; [|by eexists _, _, _; split; [done|left]].
  destruct fd_ok; cbn [negb]; [|by eexists _, _, _; split; [done|left]].
  destruct (add_device_spec w k0 (with_arg a e)) as ([ret i] & w' & E & Ho);
    [apply (wo_fresh _ Hw); lia|by apply with_arg_ok|].
  assert (Eio : ioctl (lbd_add_device k0 (with_arg a e)) (Tool w []) = (Ok (ret, i), Tool w' [])).
  { unfold ioctl. cbn [t_world t_out]. by rewrite E. }
  mstep Eio. destruct Ho as [(Hret & a' & v & Ea' & Hl & -> & Ha)|(Hret & Hh & Hi & _)]; simpl in Hret.
  2:{ rewrite (proj2 (Z.ltb_lt ret 0)) by done. eexists _, _, _. split; [done|]. by left. }
  simpl in Ea'. injection Ea' as <-. subst ret. cbn [Z.ltb Z.compare]. cbv iota. cbn [snd] in *.
  destruct (add_arg_path _ _ _ Ea) as (p & r & Ep & Er & Hlen & Hpath).
  destruct (remove_added w i _ a v Hw Hl Ha) as (w2 & Erm & Hh2 & Hi2). pose proof Hl as (Hri & Hni & _).
  set (w' := adding w (Some i) (LDev v live_held)) in *.
  assert (Hw' : world_ok w') by (eapply world_ok_add; [done..|by eapply attached_published]).
  eexists 0, w', _. split; [reflexivity|]. right. split; [done|].
  exists o, p, r, i, (u64 (dev_size (io_log (dv_io v)))), w2. split_and!; try done.
  - by apply cmd_list_ok.
  - by apply cmd_list_json.
  - unfold w'. rewrite (info_added w i _ a v i Hw Ha), decide_True by done. by rewrite Hpath, cstr_field.
  - unfold row_of, w'. rewrite (info_added w i _ a v i Hw Ha), decide_True by done. unfold list_row.
    by rewrite Hpath, cstr_field, cstr_idem.
  - intros j Hj. unfold row_of, w'. by rewrite (info_added w i _ a v j Hw Ha), decide_False by done.
  - unfold cmd_remove. cbn [remove_args].
    assert (Hjs : dec i ≠ str "--json").
    { intros Ej. assert (Hz : atoi (dec i) = 0) by (rewrite Ej; by vm_compute). rewrite atoi_dec in Hz by lia. subst i. by vm_compute in Ej. }
    rewrite decide_False by done. cbn [negb]. cbv iota. rewrite atoi_dec by lia.
    assert (Eir : ioctl (lbd_remove_device (Some i)) (Tool w' []) = (Ok 0, Tool w2 [])).
    { unfold ioctl. cbn [t_world t_out]. by rewrite Erm. }
    by mstep Eir.
Qed.
End Theorems.

(** ** Witness: [lbdctl add --log-dir log disk.img] on a fresh driver *)
Definition argv1 : list bytes := [str "--log-dir"; str "log"; str "disk.img"].
Definition srv (p : bytes) : option bytes := Some (str "/srv/" ++ p).
Definition args1 : lbd_ctl_add := CtlAdd (path_field (str "/srv/disk.img")) (path_field (str "/srv/log")) (zeros 256) 0 0.

Lemma argv1_adds : ∃ w' out,
  cmd_add srv true no_file (env1 true (kern dev0)) argv1 (Tool w_empty []) = (Ok 0, Tool w' out).
Proof.
  destruct (attach_holds w_empty 0 (kern dev0) (λ _, x00) no_file (with_arg args1 (env1 true (kern dev0))) args1 image_holds)
    as (i & v & E & _); [done|lia|done|done|by vm_compute|by vm_compute|by apply with_arg_ok, env1_ok|by split|done|].
  eexists _, _. unfold cmd_add.
  replace (add_args argv1 _) with (Some (AddOpts false 0 0 (Some (str "disk.img")) (Some (str "log")) None)) by by vm_compute.
  replace (add_arg srv _) with (Some args1) by by vm_compute. cbn [negb].
  assert (Eio : ioctl (lbd_add_device no_file (with_arg args1 (env1 true (kern dev0)))) (Tool w_empty [])
    = (Ok (0, i), Tool (adding w_empty (Some i) (LDev v live_held)) [])).
  { unfold ioctl. cbn [t_world t_out]. by rewrite E. }
  by mstep Eio.
Qed.

Lemma tool_add_list_remove_witness : ∃ w' out w2 i size,
  cmd_add srv true no_file (env1 true (kern dev0)) argv1 (Tool w_empty []) = (Ok 0, Tool w' out)
  ∧ row_of w' i = list_row i (LBD_STATE_BOUND, size, str "/srv/disk.img")
  ∧ cmd_remove true [dec i] (Tool w' []) = (Ok 0, Tool w2 (report_device false (str "Removed") i)) ∧ lw_idr w2 = ∅.
Proof.
  destruct (tool_add_list_remove w_empty srv true no_file (env1 true (kern dev0)) argv1
    (lr_init 240 0 0 _ eq_refl) (env1_ok _ _)) as (ret & w' & out & E & Ho).
  destruct argv1_adds as (w0 & out0 & E0). rewrite E in E0. injection E0 as -> -> ->.
  destruct Ho as [(Hret & _)|(_ & o & p & r & i & size & w2 & Eo & Ep & Er & _ & _ & _ & _ & _ & Erow & _ & Erm & _ & Hi)]; [discriminate Hret|].
  exists w0, out0, w2, i, size. split; [exact E|]. split; [|exact (conj Erm Hi)].
  assert (Ho : Some o = Some (AddOpts false 0 0 (Some (str "disk.img")) (Some (str "log")) None)) by (rewrite <- Eo; by vm_compute).
  injection Ho as ->. injection Ep as <-. injection Er as <-. exact Erow.
Defined.
