(* ===== verification/Sysfs.v ===== *)
(** * The sysfs attributes of a device ([src/src/lbd_main.c])

    One function per attribute: the text a read of the file returns, and what
    the counters show after a run of requests. *)
From stdpp Require Import gmap.
From S2P Require Import Prelude Kernel Format Crc Cbor Posix Qcow2State Qcow2Alloc Qcow2Cache Qcow2Io.
From S2P Require Import Qcow2Inv Qcow2Wf Qcow2IoProof Flat Qcow2Refine CtlImage Qcow2Theorems Log LogProof LogTheorems.
From S2P Require Import Watch Device DeviceProof DeviceTheorems Lifecycle CtlDevice CtlDeviceTheorems.

(** ** The show functions *)
Section Show.
Context {K L : Type}.
Implicit Types (v : lbd_device K L).

(** [sysfs_emit] of a number and of a string, each with a newline; both fit a page. *)
Definition emit_num (n : Z) : bytes := dec n ++ newline.
Definition emit_str (s : bytes) : bytes := cstr s ++ newline.

Definition backing_path_show v : bytes := emit_str (backing_path (io_log (dv_io v))).

Definition base_path_show v : bytes :=
  let q := io_q (dv_io v) in emit_str (match base q with Some _ => base_path q | None => str "(none)" end).

Definition log_dir_show v : bytes := emit_str (log_dir (io_log (dv_io v))).

Definition state_show v : bytes :=
  emit_str (match dv_state v with
            | LBD_STATE_UNBOUND => str "unbound"
            | LBD_STATE_BOUND => str "bound"
            | LBD_STATE_REMOVING => str "removing"
            end).

Definition device_size_show v : bytes := emit_num (dev_size (io_log (dv_io v))).

Definition reads_show v : bytes := emit_num (stat_reads (stats (io_q (dv_io v)))).

Definition writes_show v : bytes := emit_num (stat_writes (io_stat (dv_io v))).

Definition trims_show v : bytes := emit_num (stat_trims (io_stat (dv_io v))).

Definition read_bytes_show v : bytes := emit_num (stat_read_bytes (stats (io_q (dv_io v)))).

Definition write_bytes_show v : bytes := emit_num (stat_write_bytes (io_stat (dv_io v))).

Definition trim_bytes_show v : bytes := emit_num (stat_trim_bytes (io_stat (dv_io v))).

Definition alloc_reused_show v : bytes := emit_num (stat_alloc_reused (stats (io_q (dv_io v)))).

Definition alloc_new_show v : bytes := emit_num (stat_alloc_new (stats (io_q (dv_io v)))).

Definition alloc_freed_show v : bytes := emit_num (stat_alloc_freed (stats (io_q (dv_io v)))).

Definition compressed_show v : bytes := emit_num (stat_compressed (stats (io_q (dv_io v)))).

Definition uncompressed_show v : bytes := emit_num (stat_uncompressed (stats (io_q (dv_io v)))).

Definition log_seq_show v : bytes := emit_num (log_seq (io_log (dv_io v))).

Definition log_segment_show v : bytes := emit_str (log_segment_label (io_log (dv_io v))).

Definition log_rotations_show v : bytes := emit_num (stat_log_rotations (io_log (dv_io v))).

Definition log_buf_used_show v : bytes := emit_num (zlen (log_buf (io_log (dv_io v)))).

(** [ktime_to_ms], then [/ 1000]: both divisions round towards zero. *)
Definition segment_age_secs_show (ktime_get : Z) v : bytes :=
  emit_num (Z.quot (Z.quot (s64 (ktime_get - segment_start_time (io_log (dv_io v)))) 1000000) 1000).

(** The group, in the order of [lbd_attrs]. *)
Definition lbd_attrs (now : Z) : list (bytes * (lbd_device K L → bytes)) :=
  [(str "backing_path", backing_path_show); (str "base_path", base_path_show); (str "log_dir", log_dir_show);
   (str "state", state_show); (str "device_size", device_size_show); (str "reads", reads_show); (str "writes", writes_show);
   (str "trims", trims_show); (str "read_bytes", read_bytes_show); (str "write_bytes", write_bytes_show);
   (str "trim_bytes", trim_bytes_show); (str "alloc_reused", alloc_reused_show); (str "alloc_new", alloc_new_show);
   (str "alloc_freed", alloc_freed_show); (str "compressed", compressed_show); (str "uncompressed", uncompressed_show);
   (str "log_seq", log_seq_show); (str "log_segment", log_segment_show); (str "log_rotations", log_rotations_show);
   (str "log_buf_used", log_buf_used_show); (str "segment_age_secs", segment_age_secs_show now)].
End Show.

(** ** What the counters show *)

(** The number of bytes the writes carry, and the trims cover. *)
Definition written (l : list blk_rq) : list Z := omap (λ rq, match rq with REQ_OP_WRITE r => Some (blk_rq_bytes r) | _ => None end) l.
Definition trimmed (l : list blk_rq) : list Z := omap (λ rq, match rq with REQ_OP_DISCARD _ n => Some n | _ => None end) l.
Definition total (l : list Z) : Z := foldr Z.add 0 l.

Lemma zlen_cons {A} (x : A) l : zlen (x :: l) = 1 + zlen l.
Proof. unfold zlen. simpl. lia. Qed.

Lemma total_nonneg l : Forall (λ n, 0 ≤ n) l → 0 ≤ total l.
Proof. induction 1; simpl; lia. Qed.

(** Counters that do not overflow are sums. *)
Lemma account_sum l : ∀ s, Forall (λ n, 0 ≤ n) (written l) → Forall (λ n, 0 ≤ n) (trimmed l) →
  0 ≤ stat_writes s → 0 ≤ stat_write_bytes s → 0 ≤ stat_trims s → 0 ≤ stat_trim_bytes s →
  stat_writes s + zlen (written l) < 2 ^ 63 → stat_write_bytes s + total (written l) < 2 ^ 63 →
  stat_trims s + zlen (trimmed l) < 2 ^ 63 → stat_trim_bytes s + total (trimmed l) < 2 ^ 63 →
  account l s = IoStats (stat_writes s + zlen (written l)) (stat_write_bytes s + total (written l))
                        (stat_trims s + zlen (trimmed l)) (stat_trim_bytes s + total (trimmed l)).
Proof.
  induction l as [|rq l IH]; intros [w wb t tb] Hw Ht; simpl in *; intros; [by rewrite ?Z.add_0_r|].
  unfold account in *. simpl. assert (0 ≤ zlen (written l) ∧ 0 ≤ zlen (trimmed l)) by (unfold zlen; lia).
  destruct rq as [r|r|pos n| |]; simpl in *; try (apply (IH (IoStats w wb t tb)); done).
  - inversion_clear Hw as [|?? Hn Hw']. pose proof (total_nonneg _ Hw'). fold (written l) in *. rewrite zlen_cons in *.
    rewrite IH; unfold count_write; simpl; rewrite ?s64_small by lia; try done; try lia. f_equal; lia.
  - inversion_clear Ht as [|?? Hn Ht']. pose proof (total_nonneg _ Ht'). fold (trimmed l) in *. rewrite zlen_cons in *.
    rewrite IH; unfold count_trim; simpl; rewrite ?s64_small by lia; try done; try lia. f_equal; lia.
Qed.

Lemma dec_digits_app f : ∀ n s t, dec_digits f n s ++ t = dec_digits f n (s ++ t).
Proof. induction f as [|f IH]; intros n s t; simpl; [done|]. destruct (n <? 10); [done|]. by rewrite IH. Qed.

(** What a reader of the attribute parses. *)
Lemma emit_num_parse n : 0 ≤ n < 2 ^ 64 → digits 10 (emit_num n) 0 = (n, newline).
Proof.
  intros Hn. unfold emit_num, dec. rewrite (proj2 (Z.ltb_ge n 0)) by lia. rewrite dec_digits_app.
  rewrite digits_dec; [done| |done]. change (10 ^ Z.of_nat 20) with (10 ^ 20). lia.
Qed.

Lemma zlen_omap {A B} (f : A → option B) l : zlen (omap f l) ≤ zlen l.
Proof.
  induction l as [|x l IH]; [done|]. simpl. destruct (f x); unfold zlen in *; simpl in *; fold (omap f l) in *; lia.
Qed.

Lemma fits_nonneg cap l : Forall (rq_fits cap) l → Forall (λ n, 0 ≤ n) (written l) ∧ Forall (λ n, 0 ≤ n) (trimmed l).
Proof.
  induction 1 as [|rq l Hrq _ [IHw IHt]]; [done|]. destruct rq as [r|r|pos n| |]; simpl in *; split; try done; constructor; try done.
  - unfold blk_rq_bytes. apply zlen_nonneg.
  - by apply Hrq.
Qed.

Section Theorems.
Context {K L : Type} `{HBk : BackingLaws K} `{HL : LogLaws L} `{HZ : LZ4Laws} `{HCr : CrcLaws} `{HC : Crc32Laws}.

(** C38: the sysfs counters tell what the device did.  After any run of requests
    that fits a qcow2 device whose counters started at zero, [writes] and
    [trims] read as the number of writes and trims among them and [write_bytes]
    and [trim_bytes] as their total sizes. *)
Theorem counters_shown d V hist es reqs k : is_qcow2 d = true → rep (io_q d) V (λ _, None) →
  room (io_q d) (total_bytes reqs + k) → 0 ≤ k → history (io_log d) hist es →
  Forall (rq_fits (capacity (qcow2 (io_q d)))) reqs → io_stat d = IoStats 0 0 0 0 →
  zlen reqs < 2 ^ 63 → total (written reqs) < 2 ^ 63 → total (trimmed reqs) < 2 ^ 63 →
  ∃ outs d', serve reqs d = (Ok outs, d') ∧ ∀ v : lbd_device K L, dv_io v = d' →
    digits 10 (writes_show v) 0 = (zlen (written reqs), newline)
    ∧ digits 10 (write_bytes_show v) 0 = (total (written reqs), newline)
    ∧ digits 10 (trims_show v) 0 = (zlen (trimmed reqs), newline)
    ∧ digits 10 (trim_bytes_show v) 0 = (total (trimmed reqs), newline).
Proof.
  intros Hq Hr Hroom Hk Hh Hf Hs Hlen Hw Ht.
  destruct (serve_spec true _ _ (qcow2_serves (qcow2 (io_q d))) reqs d k V hist es Hq)
    as (d' & h' & e' & E & _ & _ & _ & _ & Ec); [by split_and!|done..|].
  exists (pair 0 <$> (disk_run V reqs).1), d'. split; [exact E|]. intros v Ev.
  destruct (fits_nonneg _ _ Hf) as [Nw Nt]. pose proof (total_nonneg _ Nw). pose proof (total_nonneg _ Nt).
  assert (zlen (written reqs) ≤ zlen reqs ∧ zlen (trimmed reqs) ≤ zlen reqs) as [? ?].
  { split; apply zlen_omap. }
  pose proof (zlen_nonneg (written reqs)). pose proof (zlen_nonneg (trimmed reqs)).
  rewrite Hs, account_sum in Ec by (done || simpl; lia). simpl in Ec.
  unfold writes_show, write_bytes_show, trims_show, trim_bytes_show. rewrite Ev, Ec. simpl.
  split_and!; apply emit_num_parse; lia.
Qed.
End Theorems.

(** ** Witness *)
Lemma counters_shown_witness : ∃ outs d', serve reqs1 dio1 = (Ok outs, d') ∧
  ∀ v, dv_io v = d' → digits 10 (writes_show v) 0 = (zlen (written reqs1), newline).
Proof.
  destruct (counters_shown dio1 (λ _, x00) [] [] reqs1 0 eq_refl (proj1 dev1_rep)
    (dev1_room (total_bytes reqs1 + 0) ltac:(split; by vm_compute)) ltac:(lia)
    (begun_history _ _ log0_ok log1_begun) (proj1 reqs1_fit) eq_refl ltac:(by vm_compute) ltac:(by vm_compute)
    ltac:(by vm_compute)) as (outs & d' & E & Hs).
  exists outs, d'. split; [exact E|]. intros v Ev. exact (proj1 (Hs v Ev)).
Defined.
