(* ===== verification/Lz4.v ===== *)
(** * LZ4 ([src/src/lz4/lz4.c]): the block compressor and decompressor the driver
      and the tool call

    The code is that of a 64-bit little-endian machine with the fast decoding
    loop.  A pointer is an offset into its buffer: the source is a list that is
    only read, the destination a list that is the state.  Every access is
    checked: reading or writing outside a buffer, and [memcpy] of overlapping
    regions, is [Panic].  The directives are those of the callers: no dictionary
    and full blocks. *)
From stdpp Require Import gmap.
From S2P Require Import Prelude Kernel.

(** ** Constants *)
Definition MINMATCH : Z := 4.
Definition WILDCOPYLENGTH : Z := 8.
Definition LASTLITERALS : Z := 5.
Definition MFLIMIT : Z := 12.
Definition MATCH_SAFEGUARD_DISTANCE : Z := 2 * WILDCOPYLENGTH - MINMATCH.
Definition FASTLOOP_SAFE_DISTANCE : Z := 64.
Definition LZ4_minLength : Z := MFLIMIT + 1.
Definition ML_BITS : Z := 4.
Definition ML_MASK : Z := 15.
Definition RUN_MASK : Z := 15.
Definition LZ4_DISTANCE_MAX : Z := 65535.
Definition LZ4_HASHLOG : Z := 12.
Definition LZ4_64Klimit : Z := 65536 + (MFLIMIT - 1).
Definition LZ4_skipTrigger : Z := 6.
Definition LZ4_ACCELERATION_DEFAULT : Z := 1.
Definition LZ4_ACCELERATION_MAX : Z := 65537.
Definition inc32table : list Z := [0; 1; 2; 1; 0; 4; 4; 4].
Definition dec64table : list Z := [0; 0; 0; -1; -4; 1; 2; 3].

(** ** Memory *)

(** [n] bytes at [p] of the buffer [b]. *)
Definition load {S} (b : bytes) (p n : Z) : M S bytes :=
  if decide (0 ≤ p ∧ 0 ≤ n ∧ p + n ≤ zlen b) then mret (read_at b p n) else panic.
Definition load8 {S} (b : bytes) (p : Z) : M S Z := d ← load b p 1; mret (b2z (nth 0 d x00)).

(** Little-endian value of some bytes. *)
Fixpoint le (d : bytes) : Z := match d with [] => 0 | b :: d' => b2z b + 256 * le d' end.
Definition LZ4_readLE16 {S} (b : bytes) (p : Z) : M S Z := d ← load b p 2; mret (le d).
Definition LZ4_read32 {S} (b : bytes) (p : Z) : M S Z := d ← load b p 4; mret (le d).
Definition LZ4_read_ARCH {S} (b : bytes) (p : Z) : M S Z := d ← load b p 8; mret (le d).

(** The destination buffer as the state. *)
Definition dst_load (p n : Z) : M bytes bytes := b ← get; load b p n.
Definition dst_store (p : Z) (d : bytes) : M bytes unit :=
  b ← get;
  if decide (0 ≤ p ∧ p + zlen d ≤ zlen b) then modify (λ b, write_at b p d) else panic.

(** [LZ4_memcpy] from the source, and within the destination. *)
Definition copy_in (src : bytes) (d s n : Z) : M bytes unit := b ← load src s n; dst_store d b.
Definition LZ4_memcpy (d s n : Z) : M bytes unit :=
  if decide (d < s + n ∧ s < d + n) then panic else b ← dst_load s n; dst_store d b.

(** *** Copies that may run past their end *)
Section Wild.
Variable copy : Z → Z → Z → M bytes unit.

Fixpoint wildCopy8_loop (fuel : nat) (d s e : Z) : M bytes unit :=
  match fuel with
  | O => panic
  | S f => copy d s 8;; if d + 8 <? e then wildCopy8_loop f (d + 8) (s + 8) e else mret tt
  end.
Definition LZ4_wildCopy8 (d s e : Z) : M bytes unit := wildCopy8_loop (S (Z.to_nat (e - d))) d s e.

Fixpoint wildCopy32_loop (fuel : nat) (d s e : Z) : M bytes unit :=
  match fuel with
  | O => panic
  | S f =>
      copy d s 16;; copy (d + 16) (s + 16) 16;;
      if d + 32 <? e then wildCopy32_loop f (d + 32) (s + 32) e else mret tt
  end.
Definition LZ4_wildCopy32 (d s e : Z) : M bytes unit := wildCopy32_loop (S (Z.to_nat (e - d))) d s e.
End Wild.

(** [*op++ = *match++] *)
Definition copy_byte (d s : Z) : M bytes unit := b ← dst_load s 1; dst_store d b.
Fixpoint copy_bytes (n : nat) (d s : Z) : M bytes unit :=
  match n with O => mret tt | S n' => copy_byte d s;; copy_bytes n' (d + 1) (s + 1) end.

(** The first eight bytes of a match at a distance below 8; the source of the
    bytes that follow. *)
Definition copy_near (op m offset : Z) : M bytes Z :=
  dst_store op (zeros 4);;
  copy_bytes 4 op m;;
  i ← arr_get inc32table offset;
  LZ4_memcpy (op + 4) (m + i) 4;;
  j ← arr_get dec64table offset;
  mret (m + i - j).

Definition LZ4_memcpy_using_offset_base (d s e offset : Z) : M bytes unit :=
  s ← (if offset <? 8 then copy_near d s offset else LZ4_memcpy d s 8;; mret (s + 8));
  LZ4_wildCopy8 LZ4_memcpy (d + 8) s e.

(** Repeating the eight bytes [v] up to [e]. *)
Fixpoint repeat_loop (fuel : nat) (v : bytes) (d e : Z) : M bytes unit :=
  match fuel with
  | O => panic
  | S f => if d <? e then dst_store d v;; repeat_loop f v (d + 8) e else mret tt
  end.
Definition repeat_v (v : bytes) (d e : Z) : M bytes unit :=
  dst_store d v;; repeat_loop (S (Z.to_nat (e - d))) v (d + 8) e.

Definition LZ4_memcpy_using_offset (d s e offset : Z) : M bytes unit :=
  if offset =? 1 then b ← dst_load s 1; repeat_v (b ++ b ++ b ++ b ++ b ++ b ++ b ++ b) d e
  else if offset =? 2 then b ← dst_load s 2; repeat_v (b ++ b ++ b ++ b) d e
  else if offset =? 4 then b ← dst_load s 4; repeat_v (b ++ b) d e
  else LZ4_memcpy_using_offset_base d s e offset.

(** ** Decompression *)

(** What follows an iteration of a decoding loop. *)
Inductive flow : Type := Next (ip op : Z) | Stop (op : Z).
Inductive fast_flow : Type := FastNext (ip op : Z) | ToSafe (f : flow).

Section Decode.
(** The source; the ends of the two buffers; their addresses. *)
Variables (src : bytes) (iend oend saddr daddr : Z).
Abbreviation MD := (M bytes).

Definition output_error {A} (ip : Z) : MD A := throw (- ip - 1).

(** [(uptrval)(p) + length < (uptrval)(p)] *)
Definition overflows (addr p length : Z) : bool := u64 (addr + p + length) <? u64 (addr + p).

Fixpoint rvl_loop (fuel : nat) (ip ilimit length : Z) : MD (option Z * Z) :=
  match fuel with
  | O => panic
  | S f =>
      s ← load8 src ip;
      let ip := ip + 1 in
      let length := u64 (length + s) in
      if ip >? ilimit then mret (None, ip) else
      if s =? 255 then rvl_loop f ip ilimit length else mret (Some length, ip)
  end.

(** The length ([None]: [rvl_error]) and the new [ip]. *)
Definition read_variable_length (ip ilimit : Z) (initial_check : bool) : MD (option Z * Z) :=
  if initial_check && (ip >=? ilimit) then mret (None, ip) else rvl_loop (S (Z.to_nat iend)) ip ilimit 0.

(** From the label [safe_match_copy] on. *)
Definition safe_match_copy (ip op offset length : Z) : MD flow :=
  let m := op - offset in
  if m <? 0 then output_error ip else
  let cpy := op + length in
  m ← (if offset <? 8 then copy_near op m offset else LZ4_memcpy op m 8;; mret (m + 8));
  let op := op + 8 in
  if cpy >? oend - MATCH_SAFEGUARD_DISTANCE then
    let oCopyLimit := oend - (WILDCOPYLENGTH - 1) in
    if cpy >? oend - LASTLITERALS then output_error ip else
    (if op <? oCopyLimit
     then LZ4_wildCopy8 LZ4_memcpy op m oCopyLimit;;
          copy_bytes (Z.to_nat (cpy - oCopyLimit)) oCopyLimit (m + (oCopyLimit - op))
     else copy_bytes (Z.to_nat (cpy - op)) op m);;
    mret (Next ip cpy)
  else
    LZ4_memcpy op m 8;;
    (if length >? 16 then LZ4_wildCopy8 LZ4_memcpy (op + 8) (m + 8) cpy else mret tt);;
    mret (Next ip cpy).

(** From the label [_copy_match] on; [length] is the code in the token. *)
Definition copy_match (ip op offset length : Z) : MD flow :=
  '(length, ip) ← (if length =? ML_MASK then
      '(addl, ip) ← read_variable_length ip (iend - LASTLITERALS + 1) false;
      match addl with
      | None => output_error ip
      | Some addl =>
          let length := u64 (length + addl) in
          if overflows daddr op length then output_error ip else mret (length, ip)
      end
    else mret (length, ip));
  safe_match_copy ip op offset (u64 (length + MINMATCH)).

(** From the label [safe_literal_copy] on. *)
Definition safe_literal_copy (token ip op length : Z) : MD flow :=
  let cpy := op + length in
  if (cpy >? oend - MFLIMIT) || (ip + length >? iend - (2 + 1 + LASTLITERALS)) then
    if negb (ip + length =? iend) || (cpy >? oend) then output_error ip else
    copy_in src op ip length;;
    mret (Stop cpy)
  else
    LZ4_wildCopy8 (copy_in src) op ip cpy;;
    let ip := ip + length in
    offset ← LZ4_readLE16 src ip;
    copy_match (ip + 2) cpy offset (Z.land token ML_MASK).

(** A long literal length, with its checks. *)
Definition literal_length (ip op : Z) : MD (Z * Z) :=
  '(addl, ip) ← read_variable_length ip (iend - RUN_MASK) true;
  match addl with
  | None => output_error ip
  | Some addl =>
      let length := u64 (RUN_MASK + addl) in
      if overflows daddr op length then output_error ip else
      if overflows saddr ip length then output_error ip else mret (length, ip)
  end.

(** 18 bytes of a match at a distance of 8 or more. *)
Definition copy18 (op m : Z) : MD unit :=
  LZ4_memcpy op m 8;; LZ4_memcpy (op + 8) (m + 8) 8;; LZ4_memcpy (op + 16) (m + 16) 2.

(** One iteration of the safe loop. *)
Definition safe_step (ip op : Z) : MD flow :=
  token ← load8 src ip;
  let ip := ip + 1 in
  let length := Z.shiftr token ML_BITS in
  if negb (length =? RUN_MASK) && ((ip <? iend - 14 - 2) && (op <=? oend - 14 - 18)) then
    copy_in src op ip 16;;
    let op := op + length in
    let ip := ip + length in
    let length := Z.land token ML_MASK in
    offset ← LZ4_readLE16 src ip;
    let ip := ip + 2 in
    let m := op - offset in
    if negb (length =? ML_MASK) && (offset >=? 8) && (m >=? 0) then
      copy18 op m;;
      mret (Next ip (op + length + MINMATCH))
    else copy_match ip op offset length
  else if length =? RUN_MASK then
    '(length, ip) ← literal_length ip op;
    safe_literal_copy token ip op length
  else safe_literal_copy token ip op length.

Fixpoint safe_decode (fuel : nat) (ip op : Z) : MD Z :=
  match fuel with
  | O => panic
  | S f =>
      r ← safe_step ip op;
      match r with Next ip op => safe_decode f ip op | Stop op => mret op end
  end.

(** The match of the fast loop, once its length is known to fit. *)
Definition fast_copy (ip op offset length : Z) : MD fast_flow :=
  let m := op - offset in
  if m <? 0 then output_error ip else
  let cpy := op + length in
  (if offset <? 16 then LZ4_memcpy_using_offset op m cpy offset else LZ4_wildCopy32 LZ4_memcpy op m cpy);;
  mret (FastNext ip cpy).

(** The fast loop after the literals. *)
Definition fast_match (token ip op : Z) : MD fast_flow :=
  offset ← LZ4_readLE16 src ip;
  let ip := ip + 2 in
  let m := op - offset in
  let length := Z.land token ML_MASK in
  if length =? ML_MASK then
    '(addl, ip) ← read_variable_length ip (iend - LASTLITERALS + 1) false;
    match addl with
    | None => output_error ip
    | Some addl =>
        let length := u64 (u64 (length + addl) + MINMATCH) in
        if overflows daddr op length then output_error ip else
        if op + length >=? oend - FASTLOOP_SAFE_DISTANCE
        then f ← safe_match_copy ip op offset length; mret (ToSafe f)
        else fast_copy ip op offset length
    end
  else
    let length := length + MINMATCH in
    if op + length >=? oend - FASTLOOP_SAFE_DISTANCE
    then f ← safe_match_copy ip op offset length; mret (ToSafe f)
    else if (m >=? 0) && (offset >=? 8) then copy18 op m;; mret (FastNext ip (op + length))
    else fast_copy ip op offset length.

(** One iteration of the fast loop. *)
Definition fast_step (ip op : Z) : MD fast_flow :=
  token ← load8 src ip;
  let ip := ip + 1 in
  let length := Z.shiftr token ML_BITS in
  if length =? RUN_MASK then
    '(length, ip) ← literal_length ip op;
    if (op + length >? oend - 32) || (ip + length >? iend - 32)
    then f ← safe_literal_copy token ip op length; mret (ToSafe f)
    else
      LZ4_wildCopy32 (copy_in src) op ip (op + length);;
      fast_match token (ip + length) (op + length)
  else if ip <=? iend - (16 + 1) then
    copy_in src op ip 16;;
    fast_match token (ip + length) (op + length)
  else f ← safe_literal_copy token ip op length; mret (ToSafe f).

Fixpoint fast_decode (fuel : nat) (ip op : Z) : MD Z :=
  match fuel with
  | O => panic
  | S f =>
      r ← fast_step ip op;
      match r with
      | FastNext ip op => fast_decode f ip op
      | ToSafe (Next ip op) => safe_decode f ip op
      | ToSafe (Stop op) => mret op
      end
  end.

(** Every iteration reads at least one byte of the source. *)
Definition LZ4_decompress_generic : MD Z :=
  if oend <? 0 then throw (-1) else
  if oend =? 0 then
    if iend =? 1 then t ← load8 src 0; (if t =? 0 then mret 0 else throw (-1)) else throw (-1)
  else if iend =? 0 then throw (-1)
  else if oend <? FASTLOOP_SAFE_DISTANCE then safe_decode (S (Z.to_nat iend)) 0 0
  else fast_decode (S (Z.to_nat iend)) 0 0.

End Decode.

(** The return value; the destination is the state. *)
Definition LZ4_decompress_safe_c (src : bytes) (saddr daddr compressedSize maxDecompressedSize : Z) : M bytes Z := λ dst,
  match LZ4_decompress_generic src compressedSize maxDecompressedSize saddr daddr dst with
  | (Err e, dst') => (Ok e, dst')
  | r => r
  end.

(** ** Compression *)
Inductive tableType_t : Type := clearedTable | byPtr | byU32 | byU16.
#[global] Instance tableType_eq_dec : EqDecision tableType_t.
Proof. solve_decision. Defined.

(** The pointers to a dictionary are addresses; 0 is [NULL]. *)
Record LZ4_stream_t_internal : Type := Stream {
  hashTable : gmap Z Z;
  dictionary : Z;
  dictCtx : Z;
  currentOffset : Z;
  tableType : tableType_t;
  dictSize : Z
}.

(** [MEM_INIT(buffer, 0, ...)]; the entries of the table are 0 by default.  The
    callers pass a buffer that is large enough and aligned. *)
Definition LZ4_initStream : LZ4_stream_t_internal := Stream ∅ 0 0 0 clearedTable 0.

(** The context and the destination. *)
Record cstate : Type := CState { c_ctx : LZ4_stream_t_internal; c_dst : bytes }.
Abbreviation MC := (M cstate).
Definition on_dst {A} (m : M bytes A) : MC A := λ c, let '(r, b) := m (c_dst c) in (r, CState (c_ctx c) b).

Definition LZ4_hash4 (sequence : Z) (tt : tableType_t) : Z :=
  Z.shiftr (u32 (sequence * 2654435761)) (if decide (tt = byU16) then MINMATCH * 8 - (LZ4_HASHLOG + 1) else MINMATCH * 8 - LZ4_HASHLOG).

Definition LZ4_hash5 (sequence : Z) (tt : tableType_t) : Z :=
  let hashLog := if decide (tt = byU16) then LZ4_HASHLOG + 1 else LZ4_HASHLOG in
  u32 (Z.shiftr (u64 (u64 (Z.shiftl sequence 24) * 889523592379)) (64 - hashLog)).

(** The table is [1 << LZ4_MEMORY_USAGE] bytes; the other types hold no indices
    ([assert(0)]). *)
Definition table_size (tt : tableType_t) : Z :=
  match tt with byU16 => 2 ^ (LZ4_HASHLOG + 1) | byU32 => 2 ^ LZ4_HASHLOG | _ => 0 end.

Definition LZ4_getIndexOnHash (h : Z) (tt : tableType_t) : MC Z :=
  if decide (0 ≤ h < table_size tt) then c ← get; mret (default 0 (hashTable (c_ctx c) !! h)) else panic.

Definition LZ4_putIndexOnHash (idx h : Z) (tt : tableType_t) : MC unit :=
  if decide (0 ≤ h < table_size tt) then
    modify (λ c, let x := c_ctx c in
      CState (Stream (<[h := if decide (tt = byU16) then idx mod 2 ^ 16 else u32 idx]> (hashTable x))
                (dictionary x) (dictCtx x) (currentOffset x) (tableType x) (dictSize x)) (c_dst c))
  else panic.

(** *** Counting equal bytes *)

(** [__builtin_ctzll(val) >> 3] *)
Fixpoint ctz (fuel : nat) (v : Z) : Z :=
  match fuel with O => 0 | S f => if Z.odd v then 0 else 1 + ctz f (Z.div2 v) end.
Definition LZ4_NbCommonBytes (v : Z) : Z := Z.shiftr (ctz 64 v) 3.

Section Encode.
Variables (src : bytes).
(** [LZ4_read_ARCH(pMatch) ^ LZ4_read_ARCH(pIn)] *)
Definition diff8 (pMatch pIn : Z) : MC Z :=
  a ← LZ4_read_ARCH src pMatch; b ← LZ4_read_ARCH src pIn; mret (Z.lxor a b).

Fixpoint count_loop (fuel : nat) (pIn pMatch pInLimit : Z) : MC (bool * Z * Z) :=
  match fuel with
  | O => panic
  | S f =>
      if pIn <? pInLimit - (8 - 1) then
        diff ← diff8 pMatch pIn;
        if diff =? 0 then count_loop f (pIn + 8) (pMatch + 8) pInLimit
        else mret (true, pIn + LZ4_NbCommonBytes diff, pMatch)
      else mret (false, pIn, pMatch)
  end.

(** The first comparison of the source is an iteration of its loop. *)
Definition LZ4_count (pIn pMatch pInLimit : Z) : MC Z :=
  '(found, p, m) ← count_loop (S (Z.to_nat (pInLimit - pIn))) pIn pMatch pInLimit;
  if (found : bool) then mret (p - pIn) else
  '(p, m) ← (if p <? pInLimit - 3 then
      a ← LZ4_read32 src m; b ← LZ4_read32 src p; mret (if a =? b then (p + 4, m + 4) else (p, m))
    else mret (p, m));
  '(p, m) ← (if p <? pInLimit - 1 then
      a ← LZ4_readLE16 src m; b ← LZ4_readLE16 src p; mret (if a =? b then (p + 2, m + 2) else (p, m))
    else mret (p, m));
  p ← (if p <? pInLimit then
      a ← load8 src m; b ← load8 src p; mret (if a =? b then p + 1 else p)
    else mret p);
  mret (p - pIn).

Definition LZ4_hashPosition (p : Z) (tt : tableType_t) : MC Z :=
  if decide (tt = byU16) then s ← LZ4_read32 src p; mret (LZ4_hash4 s tt)
  else s ← LZ4_read_ARCH src p; mret (LZ4_hash5 s tt).

(** *** The parts of [LZ4_compress_generic_validated] *)

(** The size of the input and of the output, whether the output is limited, the
    type of the table, the start index, and the acceleration. *)
Variables (inputSize olimit : Z) (limited : bool) (tt : tableType_t) (startIndex acceleration : Z).
Definition iend : Z := inputSize.
Definition mflimitPlusOne : Z := iend - MFLIMIT + 1.
Definition matchlimit : Z := iend - LASTLITERALS.

(** Find a match: its position and that of the earlier occurrence; [None] is
    [goto _last_literals]. *)
Fixpoint find_match (fuel : nat) (forwardIp step searchMatchNb forwardH : Z) : MC (option (Z * Z)) :=
  match fuel with
  | O => panic
  | S f =>
      let h := forwardH in
      let current := u32 (forwardIp + startIndex) in
      matchIndex ← LZ4_getIndexOnHash h tt;
      let ip := forwardIp in
      let forwardIp := forwardIp + step in
      let step := Z.shiftr searchMatchNb LZ4_skipTrigger in
      if forwardIp >? mflimitPlusOne then mret None else
      let m := matchIndex - startIndex in
      forwardH ← LZ4_hashPosition forwardIp tt;
      LZ4_putIndexOnHash current h tt;;
      if negb (bool_decide (tt = byU16)) && (matchIndex + LZ4_DISTANCE_MAX <? current)
      then find_match f forwardIp step (searchMatchNb + 1) forwardH
      else
        a ← LZ4_read32 src m;
        b ← LZ4_read32 src ip;
        if a =? b then mret (Some (ip, m))
        else find_match f forwardIp step (searchMatchNb + 1) forwardH
  end.

(** [ip[-1] == match[-1]] *)
Definition same_before (ip m : Z) : MC bool :=
  a ← load8 src (ip - 1); b ← load8 src (m - 1); mret (a =? b).

Fixpoint catch_up_loop (fuel : nat) (anchor ip m : Z) : MC (Z * Z) :=
  match fuel with
  | O => panic
  | S f =>
      let ip := ip - 1 in
      let m := m - 1 in
      if (ip >? anchor) && (m >? 0) then
        e ← same_before ip m;
        if (e : bool) then catch_up_loop f anchor ip m else mret (ip, m)
      else mret (ip, m)
  end.

Definition catch_up (anchor ip m : Z) : MC (Z * Z) :=
  if m >? 0 then
    e ← same_before ip m;
    if (e : bool) then catch_up_loop (S (Z.to_nat ip)) anchor ip m else mret (ip, m)
  else mret (ip, m).

(** [for(; len >= 255 ; len-=255) *op++ = 255; *op++ = (BYTE)len] *)
Fixpoint write_len (fuel : nat) (op len : Z) : M bytes Z :=
  match fuel with
  | O => panic
  | S f =>
      if len >=? 255 then dst_store op [xff];; write_len f (op + 1) (len - 255)
      else dst_store op [z2b len];; mret (op + 1)
  end.

(** The token at [token] and the literals from [anchor] to [ip]; the new [op].
    [throw 0] is [return 0]. *)
Definition encode_literals (anchor ip token : Z) : MC Z :=
  let litLength := ip - anchor in
  let op := token + 1 in
  if limited && (op + litLength + (2 + 1 + LASTLITERALS) + litLength / 255 >? olimit) then throw 0 else
  op ← on_dst (if litLength >=? RUN_MASK
               then dst_store token [z2b (Z.shiftl RUN_MASK ML_BITS)];; write_len (S (Z.to_nat litLength)) op (litLength - RUN_MASK)
               else dst_store token [z2b (Z.shiftl litLength ML_BITS)];; mret op);
  on_dst (LZ4_wildCopy8 (copy_in src) op anchor (op + litLength));;
  mret (op + litLength).

(** [*token += v] *)
Definition token_add (token v : Z) : M bytes unit := t ← dst_load token 1; dst_store token [z2b (b2z (nth 0 t x00) + v)].

Fixpoint write_ff (fuel : nat) (op matchCode : Z) : M bytes Z :=
  match fuel with
  | O => panic
  | S f =>
      if matchCode >=? 4 * 255 then
        let op := op + 4 in
        dst_store op [xff; xff; xff; xff];;
        write_ff f op (matchCode - 4 * 255)
      else
        let op := op + matchCode / 255 in
        dst_store op [z2b (matchCode mod 255)];;
        mret (op + 1)
  end.

Definition encode_match_length (token op matchCode : Z) : M bytes Z :=
  if matchCode >=? ML_MASK then
    token_add token ML_MASK;;
    let matchCode := matchCode - ML_MASK in
    dst_store op [xff; xff; xff; xff];;
    write_ff (S (Z.to_nat matchCode)) op matchCode
  else token_add token matchCode;; mret op.

(** Where the main loop stands: searching from [ip], at a match to be encoded, or
    on its way to the last literals; with the anchor and [op]. *)
Inductive label : Type :=
| Search (ip forwardH : Z)
| NextMatch (ip m token : Z)
| LastLiterals.

(** From the top of the main loop to [_next_match]. *)
Definition search_step (ip forwardH anchor op : Z) : MC (label * Z * Z) :=
  r ← find_match (S (Z.to_nat inputSize)) ip 1 (Z.shiftl acceleration LZ4_skipTrigger) forwardH;
  match r with
  | None => mret (LastLiterals, anchor, op)
  | Some (ip, m) =>
      '(ip, m) ← catch_up anchor ip m;
      op' ← encode_literals anchor ip op;
      mret (NextMatch ip m op, anchor, op')
  end.

(** From [_next_match] to the end of the main loop. *)
Definition match_step (ip m token op : Z) : MC (label * Z * Z) :=
  on_dst (dst_store op [z2b (ip - m); z2b (Z.shiftr ((ip - m) mod 2 ^ 16) 8)]);;
  let op := op + 2 in
  matchCode ← LZ4_count (ip + MINMATCH) (m + MINMATCH) matchlimit;
  let ip := ip + (matchCode + MINMATCH) in
  if limited && (op + (1 + LASTLITERALS) + (matchCode + 240) / 255 >? olimit) then throw 0 else
  op ← on_dst (encode_match_length token op matchCode);
  let anchor := ip in
  if ip >=? mflimitPlusOne then mret (LastLiterals, anchor, op) else
  h ← LZ4_hashPosition (ip - 2) tt;
  LZ4_putIndexOnHash (u32 (ip - 2 + startIndex)) h tt;;
  h ← LZ4_hashPosition ip tt;
  let current := u32 (ip + startIndex) in
  matchIndex ← LZ4_getIndexOnHash h tt;
  let m := matchIndex - startIndex in
  LZ4_putIndexOnHash current h tt;;
  hit ← (if bool_decide (tt = byU16) || (matchIndex + LZ4_DISTANCE_MAX >=? current)
         then a ← LZ4_read32 src m; b ← LZ4_read32 src ip; mret (a =? b)
         else mret false);
  if (hit : bool) then
    on_dst (dst_store op [x00]);;
    mret (NextMatch ip m op, anchor, op + 1)
  else
    forwardH ← LZ4_hashPosition (ip + 1) tt;
    mret (Search (ip + 1) forwardH, anchor, op).

(** The main loop: the anchor and [op] at [_last_literals]. *)
Fixpoint main_loop (fuel : nat) (l : label) (anchor op : Z) : MC (Z * Z) :=
  match fuel with
  | O => panic
  | S f =>
      match l with
      | Search ip forwardH => '(l, anchor, op) ← search_step ip forwardH anchor op; main_loop f l anchor op
      | NextMatch ip m token => '(l, anchor, op) ← match_step ip m token op; main_loop f l anchor op
      | LastLiterals => mret (anchor, op)
      end
  end.

(** [_last_literals]: the size of the block. *)
Definition last_literals (anchor op : Z) : MC Z :=
  let lastRun := iend - anchor in
  if limited && (op + lastRun + 1 + (lastRun + 255 - RUN_MASK) / 255 >? olimit) then throw 0 else
  op ← on_dst (if lastRun >=? RUN_MASK
               then dst_store op [z2b (Z.shiftl RUN_MASK ML_BITS)];; write_len (S (Z.to_nat lastRun)) (op + 1) (lastRun - RUN_MASK)
               else dst_store op [z2b (Z.shiftl lastRun ML_BITS)];; mret (op + 1));
  on_dst (copy_in src op anchor lastRun);;
  mret (op + lastRun).

Definition update_context : MC unit :=
  modify (λ c, let x := c_ctx c in
    CState (Stream (hashTable x) (dictionary x) (dictCtx x) (u32 (currentOffset x + inputSize)) tt (u32 (dictSize x + inputSize))) (c_dst c)).

Definition compress_body : MC Z :=
  update_context;;
  if inputSize <? LZ4_minLength then last_literals 0 0 else
  h ← LZ4_hashPosition 0 tt;
  LZ4_putIndexOnHash startIndex h tt;;
  forwardH ← LZ4_hashPosition 1 tt;
  '(anchor, op) ← main_loop (S (2 * Z.to_nat inputSize)) (Search 1 forwardH) 0 0;
  last_literals anchor op.
End Encode.

Definition LZ4_compress_generic_validated (src : bytes) (inputSize maxOutputSize : Z) (limited : bool)
    (tt : tableType_t) (acceleration : Z) : MC Z :=
  c ← get;
  compress_body src inputSize maxOutputSize limited tt (currentOffset (c_ctx c)) acceleration.

Definition LZ4_compress_generic (src : bytes) (srcSize dstCapacity : Z) (limited : bool)
    (tt : tableType_t) (acceleration : Z) : MC Z :=
  if u32 srcSize >? LZ4_MAX_INPUT_SIZE then throw 0 else
  if srcSize =? 0 then
    if limited && (dstCapacity <=? 0) then throw 0 else
    on_dst (dst_store 0 [x00]);; mret 1
  else LZ4_compress_generic_validated src srcSize dstCapacity limited tt acceleration.

(** [throw 0] becomes the return value; the context is initialised first. *)
Definition LZ4_compress_fast_extState (src : bytes) (inputSize maxOutputSize acceleration : Z) : M cstate Z := λ c,
  let acceleration := if acceleration <? 1 then LZ4_ACCELERATION_DEFAULT else acceleration in
  let acceleration := if acceleration >? LZ4_ACCELERATION_MAX then LZ4_ACCELERATION_MAX else acceleration in
  let tt := if inputSize <? LZ4_64Klimit then byU16 else byU32 in
  match
    (if maxOutputSize >=? LZ4_compressBound inputSize
     then LZ4_compress_generic src inputSize 0 false tt acceleration
     else LZ4_compress_generic src inputSize maxOutputSize true tt acceleration) (CState LZ4_initStream (c_dst c))
  with
  | (Err e, c') => (Ok e, c')
  | r => r
  end.

(** [LZ4_compress_fast]: the state is on the stack. *)
Definition LZ4_compress_fast (src : bytes) (srcSize dstCapacity acceleration : Z) : M bytes Z := λ dst,
  let '(r, c) := LZ4_compress_fast_extState src srcSize dstCapacity acceleration (CState LZ4_initStream dst) in (r, c_dst c).

Definition LZ4_compress_default (src : bytes) (srcSize dstCapacity : Z) : M bytes Z :=
  LZ4_compress_fast src srcSize dstCapacity 1.
