(* ===== verification/Lz4Ref.v ===== *)
(** * The LZ4 block format

    [lz4_ref] is the decoder without buffers: it appends to a list, one byte at a
    time, and has one rule for what it accepts where the code of
    [LZ4_decompress_generic] has two loops and a shortcut.  [blk] is the format a
    compressor writes; every such block decodes, in any large enough buffer, to
    the bytes it stands for. *)
From stdpp Require Import gmap.
From S2P Require Import Prelude Kernel Lz4.

(** ** Bytes of a buffer *)
Definition byte_at (b : bytes) (i : Z) : byte := nth (Z.to_nat i) b x00.

Lemma byte_at_write b p d i : 0 ≤ p → p + zlen d ≤ zlen b → 0 ≤ i →
  byte_at (write_at b p d) i = if decide (p ≤ i < p + zlen d) then byte_at d (i - p) else byte_at b i.
Proof.
  intros Hp Hl Hi. unfold byte_at. rewrite !nth_lookup, lookup_write_at by done. unfold zlen in *.
  destruct (decide (p ≤ i < p + Z.of_nat (length d))); [rewrite decide_True by lia; do 2 f_equal; lia|].
  rewrite decide_False by lia. rewrite decide_False; [done|]. intros (? & ? & ?). lia.
Qed.

Lemma byte_at_read b p n i : 0 ≤ p → 0 ≤ i < n → byte_at (read_at b p n) i = byte_at b (p + i).
Proof.
  intros Hp Hi. unfold byte_at, read_at. rewrite !nth_lookup, lookup_take_lt, lookup_drop by lia. do 2 f_equal. lia.
Qed.

Lemma zlen_write b p d : 0 ≤ p → p + zlen d ≤ zlen b → zlen (write_at b p d) = zlen b.
Proof. intros Hp Hl. rewrite zlen_write_at by done. case_decide; lia. Qed.

Lemma byte_at_app b d i : 0 ≤ i → byte_at (b ++ d) i = if decide (i < zlen b) then byte_at b i else byte_at d (i - zlen b).
Proof.
  intros Hi. unfold byte_at, zlen. case_decide.
  - rewrite app_nth1 by lia. done.
  - rewrite app_nth2 by lia. f_equal. lia.
Qed.

Lemma bytes_eq (b c : bytes) : zlen b = zlen c → (∀ i, 0 ≤ i < zlen b → byte_at b i = byte_at c i) → b = c.
Proof.
  intros Hl Hb. unfold zlen, byte_at in *. apply (nth_ext b c x00 x00); [lia|]. intros n Hn.
  specialize (Hb (Z.of_nat n) ltac:(lia)). by rewrite Nat2Z.id in Hb.
Qed.

Lemma byte_at_cons x b i : 0 < i → byte_at (x :: b) i = byte_at b (i - 1).
Proof. intros Hi. unfold byte_at. replace (Z.to_nat i) with (S (Z.to_nat (i - 1))) by lia. done. Qed.

Lemma byte_at_zeros n i : byte_at (zeros n) i = x00.
Proof.
  unfold byte_at, zeros. rewrite nth_lookup. destruct (replicate _ _ !! _) eqn:E; [|done].
  by apply lookup_replicate_1 in E as [-> _].
Qed.

(** The bytes from position [p] on. *)
Definition from (src : bytes) (p : Z) : bytes := drop (Z.to_nat p) src.

Lemma zlen_from src p : 0 ≤ p ≤ zlen src → zlen (from src p) = zlen src - p.
Proof. intros Hp. unfold zlen, from in *. rewrite length_drop. lia. Qed.

Lemma from_cons src p : 0 ≤ p < zlen src → from src p = byte_at src p :: from src (p + 1).
Proof.
  intros Hp. unfold from, byte_at, zlen in *. replace (Z.to_nat (p + 1)) with (S (Z.to_nat p)) by lia.
  destruct (lookup_lt_is_Some_2 src (Z.to_nat p)) as [x Hx]; [lia|].
  rewrite (drop_S _ _ _ Hx). by rewrite nth_lookup, Hx.
Qed.

Lemma from_from src p n : 0 ≤ p → 0 ≤ n → from (from src p) n = from src (p + n).
Proof. intros Hp Hn. unfold from. rewrite drop_drop. f_equal. lia. Qed.

Lemma take_from src p n : take (Z.to_nat n) (from src p) = read_at src p n.
Proof. done. Qed.

(** ** Decoding *)

(** A length in bytes of 255 and a last one below. *)
Fixpoint var_length (s : bytes) : option (Z * bytes) :=
  match s with
  | [] => None
  | b :: s' =>
      if b2z b =? 255 then match var_length s' with Some (n, r) => Some (255 + n, r) | None => None end
      else Some (b2z b, s')
  end.

(** The length of a code of four bits; [margin] bytes have to follow a long one. *)
Definition long_length (code margin : Z) (s : bytes) : option (Z * bytes) :=
  if code =? 15 then
    match var_length s with
    | Some (n, r) => if margin <=? zlen r then Some (15 + n, r) else None
    | None => None
    end
  else Some (code, s).

(** The match: [n] times the byte [off] before the end. *)
Fixpoint copy_from (n : nat) (off : Z) (out : bytes) : bytes :=
  match n with
  | O => out
  | S n' => copy_from n' off (out ++ [byte_at out (zlen out - off)])
  end.

Inductive ref_flow : Type := RNext (s out : bytes) | RStop (out : bytes).

Section Ref.
(** The size of the destination. *)
Variable cap : Z.

(** The match whose distance starts [s]; a [short] sequence is one far from both
    ends. *)
Definition ref_match (short : bool) (code : Z) (s out : bytes) : option ref_flow :=
  let off := le (take 2 s) in
  match long_length code 4 (drop 2 s) with
  | Some (n, s') =>
      if zlen out <? off then None else
      if (short && negb (code =? 15) && (8 <=? off)) || (zlen out + (n + 4) <=? cap - 5)
      then Some (RNext s' (copy_from (Z.to_nat (n + 4)) off out)) else None
  | None => None
  end.

(** [n] literals and what follows them. *)
Definition ref_literals (short : bool) (token n : Z) (s out : bytes) : option ref_flow :=
  if short || ((zlen out + n <=? cap - 12) && (n + 8 <=? zlen s))
  then ref_match short (Z.land token 15) (from s n) (out ++ take (Z.to_nat n) s)
  else if (n =? zlen s) && (zlen out + n <=? cap) then Some (RStop (out ++ s)) else None.

Definition ref_step (s out : bytes) : option ref_flow :=
  match s with
  | [] => None
  | t :: s1 =>
      let code := Z.shiftr (b2z t) 4 in
      let short := negb (code =? 15) && ((16 <? zlen s1) && (zlen out + 32 <=? cap)) in
      match long_length code 15 s1 with
      | Some (n, s2) => ref_literals short (b2z t) n s2 out
      | None => None
      end
  end.

Fixpoint ref_decode (fuel : nat) (s out : bytes) : option bytes :=
  match fuel with
  | O => None
  | S f =>
      match ref_step s out with
      | Some (RNext s out) => ref_decode f s out
      | Some (RStop out) => Some out
      | None => None
      end
  end.

Definition lz4_ref (s : bytes) : option bytes :=
  if cap =? 0 then if decide (s = [x00]) then Some [] else None else ref_decode (S (length s)) s [].
End Ref.

(** ** The bytes of a match *)

(** The last [off] bytes before [op], over and over; a match at distance 0, which
    no compressor emits, reads as zeros. *)
Definition pat (b : bytes) (op off i : Z) : byte :=
  if off =? 0 then x00 else byte_at b (op - off + (i - op) mod off).

Lemma pat_period b op off i k : 0 ≤ off → (Z.max 1 off | k) → pat b op off (i - k) = pat b op off i.
Proof.
  intros Ho [m ->]. unfold pat. destruct (Z.eqb_spec off 0); [done|]. do 2 f_equal.
  replace (Z.max 1 off) with off by lia. replace (i - m * off - op) with (i - op + (- m) * off) by lia. by rewrite Z.mod_add.
Qed.

Lemma pat_ext b c op off i : 0 ≤ off ≤ op → (∀ j, 0 ≤ j < op → byte_at b j = byte_at c j) → pat b op off i = pat c op off i.
Proof.
  intros Ho Hb. unfold pat. destruct (Z.eqb_spec off 0); [done|]. apply Hb.
  pose proof (Z.mod_pos_bound (i - op) off ltac:(lia)). lia.
Qed.

Lemma pat_snoc out off i : 0 ≤ off ≤ zlen out → zlen out < i →
  pat (out ++ [byte_at out (zlen out - off)]) (zlen out + 1) off i = pat out (zlen out) off i.
Proof.
  intros Ho Hi. unfold pat. destruct (Z.eqb_spec off 0); [done|].
  pose proof (Z.mod_pos_bound (i - zlen out) off ltac:(lia)) as Hk. set (k := (i - zlen out) mod off) in *.
  destruct (decide (k = 0)) as [E|].
  - replace ((i - (zlen out + 1)) mod off) with (off - 1).
    + rewrite byte_at_app, decide_False by lia. rewrite E.
      replace (zlen out + 1 - off + (off - 1) - zlen out) with 0 by lia. rewrite Z.add_0_r. done.
    + apply (Z.mod_unique _ _ ((i - zlen out) / off - 1)); [left; lia|].
      pose proof (Z.div_mod (i - zlen out) off ltac:(lia)). fold k in H. lia.
  - replace ((i - (zlen out + 1)) mod off) with (k - 1).
    + rewrite byte_at_app, decide_True by lia. f_equal. lia.
    + apply (Z.mod_unique _ _ ((i - zlen out) / off)); [left; lia|].
      pose proof (Z.div_mod (i - zlen out) off ltac:(lia)). fold k in H. lia.
Qed.

Lemma zlen_copy_from n off : ∀ out, zlen (copy_from n off out) = zlen out + Z.of_nat n.
Proof. induction n as [|n IH]; intros out; cbn [copy_from]; [lia|]. rewrite IH, zlen_app. change (zlen [_]) with 1. lia. Qed.

Lemma byte_at_copy_from n off : ∀ out i, 0 ≤ off ≤ zlen out → 0 ≤ i < zlen out + Z.of_nat n →
  byte_at (copy_from n off out) i = if decide (i < zlen out) then byte_at out i else pat out (zlen out) off i.
Proof.
  induction n as [|n IH]; intros out i Ho Hi; cbn [copy_from]; [by rewrite decide_True by lia|].
  rewrite IH; rewrite zlen_app; change (zlen [_]) with 1; [|lia..].
  destruct (decide (i < zlen out)); [rewrite decide_True, byte_at_app, decide_True by lia; done|].
  destruct (decide (i < zlen out + 1)); [|apply pat_snoc; lia].
  replace i with (zlen out) by lia. rewrite byte_at_app, decide_False, Z.sub_diag by lia. unfold pat.
  destruct (Z.eqb_spec off 0) as [->|]; [|by rewrite Z.sub_diag, Z.mod_0_l, Z.add_0_r by done].
  rewrite Z.sub_0_r. change (byte_at [?x] 0) with x. unfold byte_at, zlen. rewrite Nat2Z.id. apply nth_overflow. lia.
Qed.

(** ** Facts about the reference *)
Lemma var_length_range s n r : var_length s = Some (n, r) → 0 ≤ n ≤ 255 * (zlen s - zlen r) ∧ zlen r < zlen s.
Proof.
  revert n r. induction s as [|b s IH]; intros n r; cbn [var_length]; [done|].
  assert (Hz : zlen (b :: s) = zlen s + 1) by (unfold zlen; simpl; lia). pose proof (b2z_range b).
  destruct (Z.eqb_spec (b2z b) 255).
  - destruct (var_length s) as [[n' r']|]; [|done]. intros [= <- <-]. specialize (IH n' r' eq_refl). lia.
  - intros [= <- <-]. lia.
Qed.

Lemma le_range d : 0 ≤ le d < 256 ^ zlen d.
Proof.
  induction d as [|b d IH]; [done|]. cbn [le]. pose proof (b2z_range b).
  replace (zlen (b :: d)) with (Z.succ (zlen d)) by (unfold zlen; simpl; lia). rewrite Z.pow_succ_r by apply zlen_nonneg. lia.
Qed.

(** ** The format *)

(** The code of a length in the token, and the bytes that continue it. *)
Definition len_code (n : Z) : Z := Z.min n 15.
Definition len_bytes (n : Z) : bytes :=
  if n <? 15 then [] else replicate (Z.to_nat ((n - 15) / 255)) xff ++ [z2b ((n - 15) mod 255)].

Definition run_bytes (lits : bytes) (mcode : Z) : bytes :=
  z2b (16 * len_code (zlen lits) + mcode) :: len_bytes (zlen lits) ++ lits.
(** Literals, then [n + 4] bytes from [off] back. *)
Definition seq_bytes (lits : bytes) (off n : Z) : bytes :=
  run_bytes lits (len_code n) ++ [z2b off; z2b (off / 256)] ++ len_bytes n.

(** [blk out s fin]: after a block that stands for [out], [s] completes [fin].  The
    last match starts 12 bytes before the end or more, and ends 5 bytes before it
    or more. *)
Inductive blk : bytes → bytes → bytes → Prop :=
| blk_last out lits : blk out (run_bytes lits 0) (out ++ lits)
| blk_seq out lits off n s fin : 1 ≤ off ≤ 65535 → off ≤ zlen out + zlen lits → 0 ≤ n →
    zlen out + zlen lits + 12 ≤ zlen fin → zlen out + zlen lits + n + 9 ≤ zlen fin →
    blk (copy_from (Z.to_nat (n + 4)) off (out ++ lits)) s fin → blk out (seq_bytes lits off n ++ s) fin.

Lemma var_length_bytes k r rest : 0 ≤ r < 255 →
  var_length (replicate k xff ++ z2b r :: rest) = Some (255 * Z.of_nat k + r, rest).
Proof.
  intros Hr. induction k as [|k IH]; cbn [replicate app var_length].
  - rewrite b2z_z2b, Z.mod_small by lia. by rewrite (proj2 (Z.eqb_neq _ _)) by lia.
  - change (b2z xff =? 255) with true. cbv iota. rewrite IH. do 2 f_equal. lia.
Qed.

Lemma long_length_bytes n margin rest : 0 ≤ n → (15 ≤ n → margin ≤ zlen rest) →
  long_length (len_code n) margin (len_bytes n ++ rest) = Some (n, rest).
Proof.
  intros Hn Hm. unfold long_length, len_code, len_bytes. destruct (Z.ltb_spec n 15).
  - rewrite Z.min_l by lia. by rewrite (proj2 (Z.eqb_neq _ _)) by lia.
  - rewrite Z.min_r by lia. cbn [Z.eqb Pos.eqb]. rewrite <- app_assoc. cbn [app].
    pose proof (Z.mod_pos_bound (n - 15) 255 ltac:(lia)). pose proof (Z.div_mod (n - 15) 255 ltac:(lia)).
    pose proof (Z.div_pos (n - 15) 255 ltac:(lia) ltac:(lia)).
    rewrite var_length_bytes, (proj2 (Z.leb_le _ _)) by lia. do 2 f_equal. lia.
Qed.

Lemma token_fields c d : 0 ≤ c ≤ 15 → 0 ≤ d ≤ 15 →
  Z.shiftr (b2z (z2b (16 * c + d))) 4 = c ∧ Z.land (b2z (z2b (16 * c + d))) 15 = d.
Proof.
  intros Hc Hd. rewrite b2z_z2b, Z.mod_small by lia. split.
  - rewrite Z.shiftr_div_pow2 by lia. change (2 ^ 4) with 16. symmetry. apply (Z.div_unique _ _ _ d); lia.
  - replace (Z.land (16 * c + d) 15) with ((16 * c + d) mod 2 ^ 4) by (by rewrite <- Z.land_ones).
    change (2 ^ 4) with 16. symmetry. apply (Z.mod_unique _ _ c); lia.
Qed.

Lemma blk_zlen out s fin : blk out s fin → zlen out + 5 ≤ zlen fin → 6 ≤ zlen s.
Proof.
  induction 1 as [out lits|out lits off n s fin _ _ Hn _ Hfin _ IH]; intros Hl.
  - rewrite zlen_app in Hl. unfold run_bytes, zlen in *. rewrite length_cons, length_app. lia.
  - rewrite zlen_copy_from, zlen_app in IH. specialize (IH ltac:(lia)). rewrite zlen_app. pose proof (zlen_nonneg (seq_bytes lits off n)). lia.
Qed.

Lemma take_app_Z (a b : bytes) : take (Z.to_nat (zlen a)) (a ++ b) = a ∧ from (a ++ b) (zlen a) = b.
Proof. unfold zlen, from. rewrite Nat2Z.id. split; [by rewrite take_app_length|by rewrite drop_app_length]. Qed.

Lemma ref_step_run cap lits mcode rest out : 0 ≤ mcode ≤ 15 → ∃ short token,
  ref_step cap (run_bytes lits mcode ++ rest) out = ref_literals cap short token (zlen lits) (lits ++ rest) out
  ∧ Z.land token 15 = mcode ∧ (short = true → 16 < zlen (lits ++ rest) ∧ zlen lits < 15).
Proof.
  intros Hm. pose proof (zlen_nonneg lits). pose proof (zlen_nonneg rest).
  assert (Hc : 0 ≤ len_code (zlen lits) ≤ 15) by (unfold len_code; lia).
  destruct (token_fields (len_code (zlen lits)) mcode Hc Hm) as [H1 H2]. unfold run_bytes. cbn [app ref_step].
  rewrite <- app_assoc, H1. rewrite long_length_bytes by (rewrite ?zlen_app; lia). eexists _, _. split; [done|]. split; [done|].
  intros [E1%negb_true_iff%Z.eqb_neq [E2%Z.ltb_lt _]%andb_prop]%andb_prop. unfold len_code in E1.
  assert (Hl : zlen lits < 15) by lia. split; [|done]. unfold len_bytes in E2. rewrite (proj2 (Z.ltb_lt _ _)) in E2 by done. done.
Qed.

Lemma blk_decodes cap out s fin : blk out s fin → zlen fin ≤ cap → ∀ fuel, (length s < fuel)%nat →
  ref_decode cap fuel s out = Some fin.
Proof.
  induction 1 as [out lits|out lits off n s fin Hoff Hoff2 Hn Hend Hend2 Hb IH]; intros Hcap fuel Hf;
    (destruct fuel as [|fuel]; [lia|]); cbn [ref_decode]; pose proof (zlen_nonneg lits).
  - destruct (ref_step_run cap lits 0 [] out ltac:(lia)) as (short & token & E & _ & Hs). rewrite !app_nil_r in *. rewrite E.
    unfold ref_literals. destruct short; [lia|]. cbn [orb]. rewrite (proj2 (Z.leb_gt (zlen lits + 8) _)), andb_false_r by lia.
    rewrite zlen_app in Hcap. by rewrite Z.eqb_refl, (proj2 (Z.leb_le _ cap)) by lia.
  - assert (Hc : 0 ≤ len_code n ≤ 15) by (unfold len_code; lia). unfold seq_bytes. rewrite <- !app_assoc.
    set (rest := len_bytes n ++ s).
    destruct (ref_step_run cap lits (len_code n) ([z2b off; z2b (off / 256)] ++ rest) out Hc) as (short & token & E & Ht & _).
    rewrite E. pose proof (blk_zlen _ _ _ Hb) as H6. rewrite zlen_copy_from, zlen_app in H6. specialize (H6 ltac:(lia)).
    assert (Hrest : 6 ≤ zlen rest) by (unfold rest; rewrite zlen_app; pose proof (zlen_nonneg (len_bytes n)); lia).
    unfold ref_literals. rewrite !zlen_app. change (zlen [_; _]) with 2.
    rewrite (proj2 (Z.leb_le (zlen out + zlen lits) (cap - 12))), (proj2 (Z.leb_le (zlen lits + 8) _)), orb_true_r by lia.
    destruct (take_app_Z lits ([z2b off; z2b (off / 256)] ++ rest)) as [-> ->]. rewrite Ht. unfold ref_match.
    change (drop 2 ([z2b off; z2b (off / 256)] ++ rest)) with rest.
    change (le (take 2 ([z2b off; z2b (off / 256)] ++ rest))) with (b2z (z2b off) + 256 * (b2z (z2b (off / 256)) + 256 * 0)).
    unfold rest. rewrite long_length_bytes by lia.
    replace (b2z (z2b off) + 256 * (b2z (z2b (off / 256)) + 256 * 0)) with off.
    2: { rewrite !b2z_z2b. pose proof (Z.div_mod off 256 ltac:(lia)). rewrite (Z.mod_small (off / 256)); [lia|].
         split; [apply Z.div_pos; lia|apply Z.div_lt_upper_bound; lia]. }
    rewrite zlen_app, (proj2 (Z.ltb_ge _ _)), (proj2 (Z.leb_le (_ + _) (cap - 5))), orb_true_r by lia.
    apply IH; [done|]. unfold seq_bytes, run_bytes in Hf. cbn [app length] in Hf. rewrite !length_app in Hf. simpl in Hf. lia.
Qed.

(** A block decodes in any buffer that is large enough. *)
Lemma blk_ref cap s fin : blk [] s fin → zlen fin ≤ cap → lz4_ref cap s = Some fin.
Proof.
  intros Hb Hcap. unfold lz4_ref. destruct (Z.eqb_spec cap 0) as [->|]; [|apply (blk_decodes cap _ _ _ Hb Hcap); lia].
  pose proof (zlen_nonneg fin). inversion Hb as [out lits Ho|]; subst; [|unfold zlen in *; simpl in *; lia].
  simpl in *. destruct lits; [done|]. unfold zlen in *. simpl in *. lia.
Qed.

(** A match in [src] continues [src]. *)
Lemma copy_from_src src p off n : 0 < off ≤ p → 0 ≤ n → p + n ≤ zlen src →
  (∀ i, 0 ≤ i < n → byte_at src (p + i) = byte_at src (p - off + i)) →
  copy_from (Z.to_nat n) off (take (Z.to_nat p) src) = take (Z.to_nat (p + n)) src.
Proof.
  intros Hoff Hn Hp Heq.
  assert (Htake : ∀ q, 0 ≤ q ≤ zlen src → zlen (take (Z.to_nat q) src) = q) by (intros q Hq; unfold zlen in *; rewrite length_take; lia).
  assert (Hat : ∀ q i, 0 ≤ i < q → byte_at (take (Z.to_nat q) src) i = byte_at src i).
  { intros q i Hi. unfold byte_at. by rewrite !nth_lookup, lookup_take_lt by lia. }
  assert (Hpat : ∀ k, 0 ≤ k < n → byte_at src (p + k) = byte_at src (p - off + k mod off)).
  { intros k Hk. rewrite <- (Z2Nat.id k) in * by lia. revert Hk. generalize (Z.to_nat k). clear k. intros k.
    induction k as [k IH] using lt_wf_ind. intros Hk. rewrite Heq by lia.
    destruct (decide (Z.of_nat k < off)); [by rewrite Z.mod_small by lia|].
    specialize (IH (k - Z.to_nat off)%nat ltac:(lia) ltac:(lia)). rewrite Nat2Z.inj_sub, Z2Nat.id in IH by lia.
    replace (p - off + Z.of_nat k) with (p + (Z.of_nat k - off)) by lia. rewrite IH. do 2 f_equal.
    replace (Z.of_nat k - off) with (Z.of_nat k + (-1) * off) by lia. rewrite Z.mod_add; lia. }
  apply bytes_eq; [rewrite zlen_copy_from, !Htake by lia; lia|].
  rewrite zlen_copy_from, Htake by lia. intros i Hi. rewrite byte_at_copy_from, Htake, (Hat (p + n)) by (rewrite ?Htake; lia).
  case_decide; [by rewrite Hat by lia|]. unfold pat. rewrite (proj2 (Z.eqb_neq _ _)) by lia.
  pose proof (Z.mod_pos_bound (i - p) off ltac:(lia)). rewrite Hat by lia.
  replace i with (p + (i - p)) at 2 by lia. by rewrite Hpat by lia.
Qed.
