(* ===== verification/Lz4DecProof.v ===== *)
(** * The LZ4 decompressor against its reference

    [LZ4_decompress_generic], with its two loops, its copies past the end and its
    tricks for near matches, computes what [lz4_ref] does from any contents of
    the destination, and never accesses memory outside its buffers. *)
From stdpp Require Import gmap.
From S2P Require Import Prelude Kernel Lz4 Lz4Ref.

(** ** Accesses within bounds *)
Lemma load_ok {S} b p n (s : S) : 0 ≤ p → 0 ≤ n → p + n ≤ zlen b → load b p n s = (Ok (read_at b p n), s).
Proof. intros. unfold load. by rewrite decide_True. Qed.

Lemma load8_ok {S} b p (s : S) : 0 ≤ p < zlen b → load8 b p s = (Ok (b2z (byte_at b p)), s).
Proof.
  intros Hp. unfold load8. mstep (load_ok b p 1 s ltac:(lia) ltac:(lia) ltac:(lia)).
  change (nth 0 (read_at b p 1) x00) with (byte_at (read_at b p 1) 0). rewrite byte_at_read by lia. by rewrite Z.add_0_r.
Qed.

Lemma dst_store_ok p d b : 0 ≤ p → p + zlen d ≤ zlen b → dst_store p d b = (Ok tt, write_at b p d).
Proof. intros. unfold dst_store. rewrite (bind_ok get _ _ _ _ eq_refl). by rewrite decide_True. Qed.

Lemma dst_load_ok p n b : 0 ≤ p → 0 ≤ n → p + n ≤ zlen b → dst_load p n b = (Ok (read_at b p n), b).
Proof. intros. unfold dst_load. rewrite (bind_ok get _ _ _ _ eq_refl). by apply load_ok. Qed.

(** [b'] is [b] with the bytes from [p] to [q] replaced by those of [f]. *)
Definition stored (b b' : bytes) (p q : Z) (f : Z → byte) : Prop :=
  zlen b' = zlen b ∧ ∀ i, 0 ≤ i → byte_at b' i = if decide (p ≤ i < q) then f i else byte_at b i.

Lemma stored_write b p d : 0 ≤ p → p + zlen d ≤ zlen b →
  stored b (write_at b p d) p (p + zlen d) (λ i, byte_at d (i - p)).
Proof. intros Hp Hl. split; [by apply zlen_write|]. intros i Hi. by apply byte_at_write. Qed.

Lemma stored_ext b b' p q f g : (∀ i, p ≤ i < q → f i = g i) → stored b b' p q f → stored b b' p q g.
Proof. intros Hf [Hl Hb]. split; [done|]. intros i Hi. rewrite Hb by done. case_decide; [by apply Hf|done]. Qed.

Lemma stored_trans b b1 b2 p q r f g : p ≤ q ≤ r → stored b b1 p q f → stored b1 b2 q r g →
  stored b b2 p r (λ i, if decide (i < q) then f i else g i).
Proof.
  intros Hq [L1 B1] [L2 B2]. split; [congruence|]. intros i Hi. rewrite B2, B1 by done.
  repeat case_decide; try done; lia.
Qed.

(** The copies the loops are made of. *)
Lemma copy_in_ok src d s n b : 0 ≤ s → 0 ≤ n → s + n ≤ zlen src → 0 ≤ d → d + n ≤ zlen b →
  ∃ b', copy_in src d s n b = (Ok tt, b') ∧ stored b b' d (d + n) (λ i, byte_at src (s + (i - d))).
Proof.
  intros Hs Hn Hl Hd Hb. unfold copy_in. mstep (load_ok src s n b Hs Hn Hl).
  pose proof (zlen_read_at src s n Hs Hn Hl) as Hz. rewrite dst_store_ok by lia. eexists. split; [done|].
  eapply stored_ext; [|rewrite <- Hz at 2; apply stored_write; lia]. intros i Hi. cbv beta.
  rewrite byte_at_read by lia. f_equal; lia.
Qed.

Lemma memcpy_ok d s n b : 0 ≤ s → 0 ≤ n → s + n ≤ d → d + n ≤ zlen b →
  ∃ b', LZ4_memcpy d s n b = (Ok tt, b') ∧ stored b b' d (d + n) (λ i, byte_at b (i - (d - s))).
Proof.
  intros Hs Hn Hl Hb. unfold LZ4_memcpy. rewrite decide_False by lia. mstep (dst_load_ok s n b Hs Hn ltac:(lia)).
  pose proof (zlen_read_at b s n Hs Hn ltac:(lia)) as Hz. rewrite dst_store_ok by lia. eexists. split; [done|].
  eapply stored_ext; [|rewrite <- Hz at 2; apply stored_write; lia]. intros i Hi. cbv beta.
  rewrite byte_at_read by lia. f_equal; lia.
Qed.

(** ** Filling a buffer from [op] on *)

(** From [b] to [b'] the bytes from [op] to [d] became those of [f], and those
    before [op] are unchanged; what follows [d] may be anything. *)
Definition filled (f : Z → byte) (op : Z) (b b' : bytes) (d : Z) : Prop :=
  zlen b' = zlen b ∧ (∀ i, 0 ≤ i < op → byte_at b' i = byte_at b i) ∧ (∀ i, op ≤ i < d → byte_at b' i = f i).

Lemma filled_refl f op b : filled f op b b op.
Proof. split; [done|]. split; [done|]. lia. Qed.

Lemma filled_less f op b b' d d' : d' ≤ d → filled f op b b' d → filled f op b b' d'.
Proof. intros Hd (Hl & H1 & H2). split_and!; [done..|]. intros i Hi. apply H2. lia. Qed.

Lemma filled_stored f op b b1 b2 d e g : 0 ≤ op ≤ d → filled f op b b1 d → stored b1 b2 d e g →
  (∀ i, d ≤ i < e → g i = f i) → filled f op b b2 e.
Proof.
  intros Hop (L1 & A1 & B1) [L2 B2] Hg. split_and!; [congruence|..].
  - intros i Hi. rewrite B2 by lia. rewrite decide_False by lia. by apply A1.
  - intros i Hi. rewrite B2 by lia. case_decide; [by apply Hg|]. apply B1. lia.
Qed.

(** The loops, over any copy that keeps an invariant of the two positions. *)
Section Loops.
Context (copy : Z → Z → Z → M bytes unit) (P : Z → Z → bytes → Prop) (lim : Z).

Lemma wildCopy8_ok d s e b :
  (∀ d s b, P d s b → d + 8 ≤ lim → ∃ b', copy d s 8 b = (Ok tt, b') ∧ P (d + 8) (s + 8) b') →
  P d s b → d + 8 ≤ lim → e + 7 ≤ lim →
  ∃ b' d' s', LZ4_wildCopy8 copy d s e b = (Ok tt, b') ∧ P d' s' b' ∧ e ≤ d' ∧ d + 8 ≤ d'.
Proof.
  intros Hstep HP Hd He. unfold LZ4_wildCopy8. remember (S (Z.to_nat (e - d))) as fuel eqn:Ef.
  assert (Hf : e - d < Z.of_nat fuel ∧ (0 < fuel)%nat) by lia. clear Ef.
  revert d s b HP Hd Hf. induction fuel as [|fuel IH]; intros d s b HP Hd Hf; [lia|]. cbn [wildCopy8_loop].
  destruct (Hstep d s b HP Hd) as (b1 & E1 & HP1). mstep E1. destruct (Z.ltb_spec (d + 8) e).
  - destruct (IH (d + 8) (s + 8) b1 HP1) as (b' & d' & s' & E & HP' & ? & ?); [lia..|].
    exists b', d', s'. split_and!; [done|done|lia|lia].
  - exists b1, (d + 8), (s + 8). split_and!; [done|done|lia|lia].
Qed.

Lemma wildCopy32_ok d s e b :
  (∀ d s b, P d s b → d + 16 ≤ lim → ∃ b', copy d s 16 b = (Ok tt, b') ∧ P (d + 16) (s + 16) b') →
  P d s b → d + 32 ≤ lim → e + 31 ≤ lim →
  ∃ b' d' s', LZ4_wildCopy32 copy d s e b = (Ok tt, b') ∧ P d' s' b' ∧ e ≤ d' ∧ d + 32 ≤ d'.
Proof.
  intros Hstep HP Hd He. unfold LZ4_wildCopy32. remember (S (Z.to_nat (e - d))) as fuel eqn:Ef.
  assert (Hf : e - d < Z.of_nat fuel ∧ (0 < fuel)%nat) by lia. clear Ef.
  revert d s b HP Hd Hf. induction fuel as [|fuel IH]; intros d s b HP Hd Hf; [lia|]. cbn [wildCopy32_loop].
  destruct (Hstep d s b HP ltac:(lia)) as (b1 & E1 & HP1). mstep E1.
  destruct (Hstep (d + 16) (s + 16) b1 HP1 ltac:(lia)) as (b2 & E2 & HP2). mstep E2.
  replace (d + 16 + 16) with (d + 32) in HP2 by lia. replace (s + 16 + 16) with (s + 32) in HP2 by lia.
  destruct (Z.ltb_spec (d + 32) e).
  - destruct (IH (d + 32) (s + 32) b2 HP2) as (b' & d' & s' & E & HP' & ? & ?); [lia..|].
    exists b', d', s'. split_and!; [done|done|lia|lia].
  - exists b2, (d + 32), (s + 32). split_and!; [done|done|lia|lia].
Qed.
End Loops.

(** *** Literals *)
Definition lit (src : bytes) (ip op i : Z) : byte := byte_at src (ip + (i - op)).

Lemma lit_step src ip op b n d b1 : 0 ≤ op → 0 ≤ ip → 0 ≤ n → op ≤ d → filled (lit src ip op) op b b1 d →
  d + n ≤ zlen b → d + n ≤ op + (zlen src - ip) →
  ∃ b', copy_in src d (ip + (d - op)) n b1 = (Ok tt, b') ∧ filled (lit src ip op) op b b' (d + n).
Proof.
  intros Hop Hip Hn Hd Hf Hb Hs. pose proof Hf as (Hl & _).
  destruct (copy_in_ok src d (ip + (d - op)) n b1) as (b' & E & Hst); [lia..|]. exists b'. split; [done|].
  eapply filled_stored; [|done|done|]; [lia|]. intros i Hi. unfold lit. f_equal. lia.
Qed.

Lemma lits8 src ip op b n : 0 ≤ op → 0 ≤ ip → 0 ≤ n → op + Z.max 8 (n + 7) ≤ zlen b → ip + Z.max 8 (n + 7) ≤ zlen src →
  ∃ b', LZ4_wildCopy8 (copy_in src) op ip (op + n) b = (Ok tt, b') ∧ filled (lit src ip op) op b b' (op + n).
Proof.
  intros Hop Hip Hn Hb Hs.
  destruct (wildCopy8_ok (copy_in src) (λ d s b', op ≤ d ∧ s = ip + (d - op) ∧ filled (lit src ip op) op b b' d)
    (Z.min (zlen b) (op + (zlen src - ip))) op ip (op + n) b) as (b' & d' & s' & E & (Hd & _ & Hf) & He & _).
  - intros d s b1 (Hd & -> & Hf) Hl. destruct (lit_step src ip op b 8 d b1) as (b' & E & Hf'); [lia..|done|lia|lia|].
    exists b'. split; [done|]. split_and!; [lia|lia|done].
  - split_and!; [lia|lia|apply filled_refl].
  - lia.
  - lia.
  - exists b'. split; [done|]. by eapply filled_less.
Qed.

Lemma lits32 src ip op b n : 0 ≤ op → 0 ≤ ip → 0 ≤ n → op + n + 32 ≤ zlen b → ip + n + 32 ≤ zlen src →
  ∃ b', LZ4_wildCopy32 (copy_in src) op ip (op + n) b = (Ok tt, b') ∧ filled (lit src ip op) op b b' (op + n).
Proof.
  intros Hop Hip Hn Hb Hs.
  destruct (wildCopy32_ok (copy_in src) (λ d s b', op ≤ d ∧ s = ip + (d - op) ∧ filled (lit src ip op) op b b' d)
    (Z.min (zlen b) (op + (zlen src - ip))) op ip (op + n) b) as (b' & d' & s' & E & (Hd & _ & Hf) & He & _).
  - intros d s b1 (Hd & -> & Hf) Hl. destruct (lit_step src ip op b 16 d b1) as (b' & E & Hf'); [lia..|done|lia|lia|].
    exists b'. split; [done|]. split_and!; [lia|lia|done].
  - split_and!; [lia|lia|apply filled_refl].
  - lia.
  - lia.
  - exists b'. split; [done|]. by eapply filled_less.
Qed.

Lemma lits_exact src ip op b n : 0 ≤ op → 0 ≤ ip → 0 ≤ n → op + n ≤ zlen b → ip + n ≤ zlen src →
  ∃ b', copy_in src op ip n b = (Ok tt, b') ∧ filled (lit src ip op) op b b' (op + n).
Proof.
  intros Hop Hip Hn Hb Hs. destruct (lit_step src ip op b n op b) as (b' & E & Hf); [lia..|apply filled_refl|lia|lia|].
  exists b'. by rewrite Z.sub_diag, Z.add_0_r in E.
Qed.

(** *** Matches *)

Section Match.
Variables (b : bytes) (op off : Z).
Hypotheses (Hoff : 0 ≤ off ≤ op).
Local Abbreviation f := (pat b op off).

Lemma filled_pat b1 d i : filled f op b b1 d → op - off ≤ i < d → byte_at b1 i = f i.
Proof.
  intros (_ & A & B) Hi. destruct (decide (op ≤ i)); [by apply B; lia|]. rewrite A by lia. unfold pat.
  destruct (Z.eqb_spec off 0); [lia|]. f_equal.
  replace (i - op) with (i - op + off + (-1) * off) by lia. rewrite Z.mod_add, Z.mod_small by lia. lia.
Qed.

Lemma match_copy n d s b1 : filled f op b b1 d → op ≤ d → op - off ≤ s → 0 ≤ n → s + n ≤ d →
  (Z.max 1 off | d - s) → d + n ≤ zlen b →
  ∃ b', LZ4_memcpy d s n b1 = (Ok tt, b') ∧ filled f op b b' (d + n).
Proof.
  intros Hf Hd Hs Hn Hsn Hdv Hl. pose proof Hf as (Hl1 & _).
  destruct (memcpy_ok d s n b1) as (b' & E & Hst); [lia..|]. exists b'. split; [done|].
  eapply filled_stored; [|done|done|]; [lia|]. intros i Hi. cbv beta.
  rewrite (filled_pat b1 d) by (done || lia). apply pat_period; [lia|done].
Qed.

Lemma match_wild8 d s e b1 : filled f op b b1 d → op ≤ d → op - off ≤ s → s + 8 ≤ d → (Z.max 1 off | d - s) →
  d + 8 ≤ zlen b → e + 7 ≤ zlen b →
  ∃ b' d', LZ4_wildCopy8 LZ4_memcpy d s e b1 = (Ok tt, b') ∧ filled f op b b' d' ∧ e ≤ d' ∧ d + 8 ≤ d'.
Proof.
  intros Hf Hd Hs Hsn Hdv Hl He.
  destruct (wildCopy8_ok LZ4_memcpy (λ d1 s1 b2, d1 - s1 = d - s ∧ d ≤ d1 ∧ filled f op b b2 d1) (zlen b) d s e b1)
    as (b' & d' & s' & E & (_ & _ & Hf') & ? & ?); [|split_and!; [done|lia|done]|lia|lia|].
  - intros d1 s1 b2 (Hds & Hd1 & Hf1) Hl1.
    destruct (match_copy 8 d1 s1 b2 Hf1) as (b' & E & Hf'); [lia..|by rewrite Hds|lia|].
    exists b'. split; [done|]. split_and!; [lia|lia|done].
  - exists b', d'. by split_and!.
Qed.

Lemma match_wild32 e : 16 ≤ off → op + 32 ≤ zlen b → e + 31 ≤ zlen b →
  ∃ b', LZ4_wildCopy32 LZ4_memcpy op (op - off) e b = (Ok tt, b') ∧ filled f op b b' e.
Proof.
  intros H16 Hl He.
  destruct (wildCopy32_ok LZ4_memcpy (λ d1 s1 b2, d1 - s1 = off ∧ op ≤ d1 ∧ filled f op b b2 d1) (zlen b) op (op - off) e b)
    as (b' & d' & s' & E & (_ & _ & Hf') & ? & ?); [|split_and!; [lia|lia|apply filled_refl]|lia|lia|].
  - intros d1 s1 b2 (Hds & Hd1 & Hf1) Hl1.
    destruct (match_copy 16 d1 s1 b2 Hf1) as (b' & E & Hf'); [lia..|exists 1; lia|lia|].
    exists b'. split; [done|]. split_and!; [lia|lia|done].
  - exists b'. split; [done|]. by eapply filled_less.
Qed.

Lemma copy18_ok : 8 ≤ off → op + 18 ≤ zlen b →
  ∃ b', copy18 op (op - off) b = (Ok tt, b') ∧ filled f op b b' (op + 18).
Proof.
  intros H8 Hl. unfold copy18. assert (Hdv : ∀ d s, d - s = off → (Z.max 1 off | d - s)) by (intros d s ->; exists 1; lia).
  destruct (match_copy 8 op (op - off) b (filled_refl _ _ _)) as (b1 & E1 & F1); [lia..|apply Hdv; lia|lia|]. mstep E1.
  destruct (match_copy 8 (op + 8) (op - off + 8) b1 F1) as (b2 & E2 & F2); [lia..|apply Hdv; lia|lia|]. mstep E2.
  replace (op + 8 + 8) with (op + 16) in F2 by lia.
  destruct (match_copy 2 (op + 16) (op - off + 16) b2 F2) as (b3 & E3 & F3); [lia..|apply Hdv; lia|lia|]. rewrite E3.
  exists b3. split; [done|]. by replace (op + 16 + 2) with (op + 18) in F3 by lia.
Qed.

(** Byte by byte. *)
Lemma match_byte d s b1 : filled f op b b1 d → op ≤ d → op - off ≤ s < d → (Z.max 1 off | d - s) → d + 1 ≤ zlen b →
  ∃ b', copy_byte d s b1 = (Ok tt, b') ∧ filled f op b b' (d + 1).
Proof.
  intros Hf Hd Hs Hdv Hl. destruct (match_copy 1 d s b1 Hf) as (b' & E & F'); [lia..|done|lia|]. exists b'. split; [|done].
  rewrite <- E. unfold copy_byte, LZ4_memcpy. by rewrite decide_False by lia.
Qed.

Lemma match_bytes n : ∀ d s b1, filled f op b b1 d → op ≤ d → op - off ≤ s < d → (Z.max 1 off | d - s) →
  d + Z.of_nat n ≤ zlen b → ∃ b', copy_bytes n d s b1 = (Ok tt, b') ∧ filled f op b b' (d + Z.of_nat n).
Proof.
  induction n as [|n IH]; intros d s b1 Hf Hd Hs Hdv Hl.
  { exists b1. split; [done|]. by rewrite Z.add_0_r. }
  cbn [copy_bytes]. destruct (match_byte d s b1 Hf) as (b2 & E & F2); [lia..|done|lia|]. mstep E.
  destruct (IH (d + 1) (s + 1) b2 F2) as (b' & E' & F'); [lia..|by replace (d + 1 - (s + 1)) with (d - s) by lia|lia|].
  exists b'. split; [done|]. by replace (d + Z.of_nat (S n)) with (d + 1 + Z.of_nat n) by lia.
Qed.
End Match.

(** *** Matches at a distance below 8 *)
Lemma copy_same n : ∀ d b, 0 ≤ d → d + Z.of_nat n ≤ zlen b → copy_bytes n d d b = (Ok tt, b).
Proof.
  induction n as [|n IH]; intros d b Hd Hl; [done|]. cbn [copy_bytes].
  assert (E : copy_byte d d b = (Ok tt, b)); [|mstep E; apply IH; lia].
  unfold copy_byte. mstep (dst_load_ok d 1 b Hd ltac:(lia) ltac:(lia)).
  pose proof (zlen_read_at b d 1 Hd ltac:(lia) ltac:(lia)) as Hz. rewrite dst_store_ok by lia. f_equal.
  apply bytes_eq; [apply zlen_write; lia|]. intros i Hi. rewrite byte_at_write by lia. case_decide; [|done].
  rewrite byte_at_read by lia. f_equal. lia.
Qed.

(** The tables lead to sources whose distances are multiples of [off]. *)
Lemma near_tables {S} off (s : S) : 0 ≤ off < 8 → ∃ i j,
  arr_get inc32table off s = (Ok i, s) ∧ arr_get dec64table off s = (Ok j, s)
  ∧ 0 ≤ i ≤ off ∧ (Z.max 1 off | off + 4 - i) ∧ 0 ≤ i - j ≤ off ∧ (Z.max 1 off | off + 8 - (i - j)).
Proof.
  intros Ho. assert (Hdv : ∀ m x, 0 < m → x mod m = 0 → (m | x)) by (intros; apply Z.mod_divide; lia).
  assert (off = 0 ∨ off = 1 ∨ off = 2 ∨ off = 3 ∨ off = 4 ∨ off = 5 ∨ off = 6 ∨ off = 7) by lia.
  destruct_or?; subst off; eexists _, _; (split; [reflexivity|]); (split; [reflexivity|]);
    (split; [lia|]); (split; [apply Hdv; [lia|reflexivity]|]); (split; [lia|]); (apply Hdv; [lia|reflexivity]).
Qed.

Lemma copy_near_ok b op off : 0 ≤ off < 8 → off ≤ op → op + 8 ≤ zlen b →
  ∃ b' s, copy_near op (op - off) off b = (Ok s, b') ∧ filled (pat b op off) op b b' (op + 8)
    ∧ op - off ≤ s ∧ s ≤ op ∧ (Z.max 1 off | op + 8 - s).
Proof.
  intros Ho Hop Hl. unfold copy_near.
  assert (Hz : zlen (zeros 4) = 4) by done.
  mstep (dst_store_ok op (zeros 4) b ltac:(lia) ltac:(lia)). set (b0 := write_at b op (zeros 4)).
  assert (S0 : stored b b0 op (op + 4) (λ _, x00)).
  { eapply stored_ext; [|rewrite <- Hz; apply stored_write; lia]. intros i Hi. apply byte_at_zeros. }
  assert (F0 : ∀ d, d = op ∨ off = 0 ∧ d = op + 4 → filled (pat b op off) op b b0 d).
  { destruct S0 as [L0 B0]. intros d Hd. split_and!; [done|intros i Hi; rewrite B0, decide_False by lia; done|].
    intros i Hi. destruct Hd as [->|[-> ->]]; [lia|]. by rewrite B0, decide_True by lia. }
  assert (H1 : ∃ b1, copy_bytes 4 op (op - off) b0 = (Ok tt, b1) ∧ filled (pat b op off) op b b1 (op + 4)).
  { destruct (decide (off = 0)) as [->|Hne].
    - exists b0. split; [|by apply F0; right]. rewrite Z.sub_0_r. destruct S0 as [L0 _]. apply copy_same; lia.
    - apply (match_bytes b op off ltac:(lia) 4 op (op - off) b0); [apply F0; by left|lia|lia|exists 1; lia|lia]. }
  destruct H1 as (b1 & E1 & F1). mstep E1.
  destruct (near_tables off b1 Ho) as (i & j & Ei & Ej & Hi & Hdi & Hij & Hdij). mstep Ei.
  destruct (match_copy b op off ltac:(lia) 4 (op + 4) (op - off + i) b1 F1) as (b2 & E2 & F2);
    [lia..|by replace (op + 4 - (op - off + i)) with (off + 4 - i) by lia|lia|]. mstep E2.
  destruct (near_tables off b2 Ho) as (i' & j' & Ei' & Ej' & _).
  assert (j' = j) as ->. { unfold arr_get in Ej, Ej'. rewrite decide_True in Ej, Ej' by lia. destruct (dec64table !! _); [|done]. unfold mret, M_ret in *. congruence. }
  mstep Ej'. exists b2, (op - off + i - j). split; [done|]. replace (op + 4 + 4) with (op + 8) in F2 by lia.
  split; [done|]. split; [lia|]. split; [lia|]. by replace (op + 8 - (op - off + i - j)) with (off + 8 - (i - j)) by lia.
Qed.

(** The first eight bytes of a match at any distance. *)
Lemma first8_ok b op off : 0 ≤ off ≤ op → op + 8 ≤ zlen b → ∃ b' s,
  (if off <? 8 then copy_near op (op - off) off else LZ4_memcpy op (op - off) 8;; mret (op - off + 8)) b = (Ok s, b')
  ∧ filled (pat b op off) op b b' (op + 8) ∧ op - off ≤ s ∧ s ≤ op ∧ (Z.max 1 off | op + 8 - s).
Proof.
  intros Ho Hl. destruct (Z.ltb_spec off 8); [apply copy_near_ok; lia|].
  destruct (match_copy b op off ltac:(lia) 8 op (op - off) b (filled_refl _ _ _)) as (b' & E & F);
    [lia..|exists 1; lia|lia|].
  mstep E. exists b', (op - off + 8). split; [done|]. split; [done|]. split; [lia|]. split; [lia|]. exists 1. lia.
Qed.

(** [v] is [r] over and over. *)
Definition cyc (r v : bytes) (n : Z) : Prop :=
  zlen v = n ∧ ∀ j, 0 ≤ j < n → byte_at v j = byte_at r (j mod zlen r).

Lemma cyc_base r : cyc r r (zlen r).
Proof. split; [done|]. intros j Hj. by rewrite Z.mod_small. Qed.

Lemma cyc_app r v n : 0 < zlen r → cyc r v n → cyc r (r ++ v) (zlen r + n).
Proof.
  intros Hr [Hl Hv]. split; [rewrite zlen_app; lia|]. intros j Hj. rewrite byte_at_app by lia. case_decide.
  - by rewrite Z.mod_small by lia.
  - rewrite Hv by lia. f_equal. replace (j - zlen r) with (j + (-1) * zlen r) by lia. rewrite Z.mod_add; lia.
Qed.

Lemma repeat_v_ok b op off e v : 0 < off ≤ op → (off | 8) → cyc (read_at b (op - off) off) v 8 →
  op + 8 ≤ zlen b → e + 7 ≤ zlen b →
  ∃ b', repeat_v v op e b = (Ok tt, b') ∧ filled (pat b op off) op b b' e.
Proof.
  intros Ho H8 [Lv Hv] Hl He. rewrite zlen_read_at in Hv by lia.
  assert (Hstore : ∀ d b1, filled (pat b op off) op b b1 d → op ≤ d → (8 | d - op) → d + 8 ≤ zlen b →
    ∃ b2, dst_store d v b1 = (Ok tt, b2) ∧ filled (pat b op off) op b b2 (d + 8)).
  { intros d b1 F Hd Hdv Hd8. pose proof F as (L1 & _). rewrite dst_store_ok by lia. eexists. split; [done|].
    eapply filled_stored; [|done| rewrite <- Lv; apply stored_write; lia|]; [lia|]. intros i Hi. cbv beta.
    rewrite Hv by lia. pose proof (Z.mod_pos_bound (i - d) off ltac:(lia)). rewrite byte_at_read by lia.
    replace (byte_at b (op - off + (i - d) mod off)) with (pat b op off (i - (d - op))).
    - apply pat_period; [lia|]. replace (Z.max 1 off) with off by lia. by trans 8.
    - unfold pat. destruct (Z.eqb_spec off 0); [lia|]. do 3 f_equal. lia. }
  unfold repeat_v. destruct (Hstore op b (filled_refl _ _ _)) as (b1 & E1 & F1); [lia|by rewrite Z.sub_diag; exists 0|lia|].
  mstep E1. remember (S (Z.to_nat (e - op))) as fuel eqn:Ef.
  assert (Hf : e - (op + 8) < Z.of_nat fuel ∧ (0 < fuel)%nat) by lia. clear Ef E1.
  assert (Hdv : (8 | op + 8 - op)) by (exists 1; lia). assert (Hd : op ≤ op + 8) by lia.
  revert Hf Hdv Hd F1. generalize (op + 8). intros d Hf Hdv Hd F1.
  revert d b1 F1 Hf Hdv Hd. induction fuel as [|fuel IH]; intros d b1 F1 Hf Hdv Hd; [lia|]. cbn [repeat_loop].
  destruct (Z.ltb_spec d e); [|exists b1; split; [done|]; by eapply filled_less].
  destruct (Hstore d b1 F1) as (b2 & E2 & F2); [lia|done|lia|]. mstep E2.
  apply IH; [done|lia| |lia]. replace (d + 8 - op) with (d - op + 8) by lia. apply Z.divide_add_r; [done|by exists 1].
Qed.

Lemma memcpy_using_offset_ok b op off e : 0 ≤ off ≤ op → off < 16 → op + 16 ≤ zlen b → e + 7 ≤ zlen b →
  ∃ b', LZ4_memcpy_using_offset op (op - off) e off b = (Ok tt, b') ∧ filled (pat b op off) op b b' e.
Proof.
  intros Ho H16 Hl He. unfold LZ4_memcpy_using_offset.
  assert (Hr : zlen (read_at b (op - off) off) = off) by (apply zlen_read_at; lia).
  assert (Hload : dst_load (op - off) off b = (Ok (read_at b (op - off) off), b)) by (apply dst_load_ok; lia).
  set (r := read_at b (op - off) off) in *.
  assert (Happ : ∀ v n, 0 < off → cyc r v n → cyc r (r ++ v) (off + n)) by (rewrite <- Hr; intros; by apply cyc_app).
  assert (Hbase : cyc r r off) by (pose proof (cyc_base r) as Hc; by rewrite Hr in Hc).
  destruct (Z.eqb_spec off 1) as [E|]; [rewrite <- E; mstep Hload; apply repeat_v_ok; try lia; [by exists 8; lia|]|].
  { replace 8 with (off + (off + (off + (off + (off + (off + (off + off))))))) by lia. by repeat (apply Happ; [lia|]). }
  destruct (Z.eqb_spec off 2) as [E|]; [rewrite <- E; mstep Hload; apply repeat_v_ok; try lia; [by exists 4; lia|]|].
  { replace 8 with (off + (off + (off + off))) by lia. by repeat (apply Happ; [lia|]). }
  destruct (Z.eqb_spec off 4) as [E|]; [rewrite <- E; mstep Hload; apply repeat_v_ok; try lia; [by exists 2; lia|]|].
  { replace 8 with (off + off) by lia. by apply Happ; [lia|]. }
  unfold LZ4_memcpy_using_offset_base.
  destruct (first8_ok b op off) as (b1 & s & E1 & F1 & Hs1 & Hs2 & Hdv); [lia..|]. mstep E1.
  destruct (match_wild8 b op off ltac:(lia) (op + 8) s e b1 F1) as (b' & d' & E & F & ? & ?); [lia..|done|lia|lia|].
  exists b'. split; [done|]. by eapply filled_less.
Qed.
