(* ===== verification/Lz4DecRefine.v ===== *)
(** * The LZ4 decompressor refines its reference

    Each step of the two loops of [LZ4_decompress_generic] is a step of the
    reference decoder: the destination holds what the reference has appended, an
    error is a block the reference refuses, and no access leaves its buffer. *)
From stdpp Require Import gmap.
From S2P Require Import Prelude Kernel Lz4 Lz4Ref Lz4DecProof.

Section Refine.
Variables (src : bytes) (oend saddr daddr : Z).
(** The sizes are [int]s, and neither buffer wraps around the address space. *)
Hypotheses (Hsrc : zlen src < 2 ^ 31) (Hsaddr : 0 ≤ saddr ∧ saddr + zlen src < 2 ^ 64)
  (Hdaddr : 0 ≤ daddr ∧ daddr + oend < 2 ^ 64).
Local Abbreviation iend := (zlen src).

(** The destination starts with [out]. *)
Definition holds (b out : bytes) : Prop :=
  zlen b = oend ∧ zlen out ≤ oend ∧ ∀ i, 0 ≤ i < zlen out → byte_at b i = byte_at out i.

Lemma holds_literals b b' out ip n : holds b out → 0 ≤ ip → 0 ≤ n → ip + n ≤ iend → zlen out + n ≤ oend →
  filled (lit src ip (zlen out)) (zlen out) b b' (zlen out + n) → holds b' (out ++ read_at src ip n).
Proof.
  intros (Hl & Ho & Hb) Hip Hn Hs Hc (L & A & B). pose proof (zlen_read_at src ip n Hip Hn Hs) as Hr.
  split; [congruence|]. rewrite zlen_app, Hr. split; [lia|]. intros i Hi. rewrite byte_at_app by lia. case_decide.
  - rewrite A by lia. apply Hb; lia.
  - rewrite B by lia. rewrite byte_at_read by lia. done.
Qed.

Lemma holds_match b b' out off n : holds b out → 0 ≤ off ≤ zlen out → 0 ≤ n → zlen out + n ≤ oend →
  filled (pat b (zlen out) off) (zlen out) b b' (zlen out + n) → holds b' (copy_from (Z.to_nat n) off out).
Proof.
  intros (Hl & Ho & Hb) Hoff Hn Hc (L & A & B). split; [congruence|]. rewrite zlen_copy_from, Z2Nat.id by lia.
  split; [lia|]. intros i Hi. rewrite byte_at_copy_from by lia. case_decide.
  - rewrite A by lia. apply Hb; lia.
  - rewrite B by lia. apply pat_ext; [lia|done].
Qed.

(** A step of the code that started with [lo] bytes read, against one of the
    reference. *)
Definition step_ok (lo : Z) (r : res flow * bytes) (o : option ref_flow) : Prop :=
  match o with
  | None => ∃ e b', r = (Err e, b') ∧ e < 0 ∧ zlen b' = oend
  | Some (RNext s out) => ∃ ip b', r = (Ok (Next ip (zlen out)), b') ∧ holds b' out ∧ s = from src ip ∧ lo < ip < iend
  | Some (RStop out) => ∃ b', r = (Ok (Stop (zlen out)), b') ∧ holds b' out
  end.

Lemma error_ok lo ip b : 0 ≤ ip → zlen b = oend → step_ok lo (output_error ip b) None.
Proof. intros Hip Hb. exists (- ip - 1), b. split; [done|]. lia. Qed.

Lemma match_next lo ip b b' out off n : holds b out → 0 ≤ off ≤ zlen out → 0 ≤ n → zlen out + n ≤ oend → lo < ip < iend →
  filled (pat b (zlen out) off) (zlen out) b b' (zlen out + n) →
  step_ok lo (Ok (Next ip (zlen out + n)), b') (Some (RNext (from src ip) (copy_from (Z.to_nat n) off out))).
Proof.
  intros Hh Hoff Hn Hc Hip Hf. exists ip, b'. rewrite zlen_copy_from, Z2Nat.id by lia. split; [done|].
  split; [by eapply holds_match|]. done.
Qed.

(** After the first eight bytes: near the end of the buffer, and away from it. *)
Section Tail.
Variables (b : bytes) (op off n : Z) (b1 : bytes) (s : Z).
Hypotheses (Hb : zlen b = oend) (Hoff : 0 ≤ off ≤ op) (Hn : 4 ≤ n) (F1 : filled (pat b op off) op b b1 (op + 8))
  (Hs : op - off ≤ s ≤ op) (Hdv : (Z.max 1 off | op + 8 - s)).
Local Abbreviation F := (filled (pat b op off) op b).

Lemma copy_bytes_to d b2 m : F b2 d → op ≤ d → op - off ≤ m < d → (Z.max 1 off | d - m) → op + n ≤ oend →
  ∃ b3, copy_bytes (Z.to_nat (op + n - d)) d m b2 = (Ok tt, b3) ∧ F b3 (op + n).
Proof.
  intros F2 Hd Hm Hdv2 Hn2. destruct (decide (d ≤ op + n)).
  - destruct (match_bytes b op off ltac:(lia) (Z.to_nat (op + n - d)) d m b2 F2) as (b3 & E3 & F3); [lia..|done|lia|].
    exists b3. split; [done|]. by replace (d + Z.of_nat (Z.to_nat (op + n - d))) with (op + n) in F3 by lia.
  - exists b2. replace (Z.to_nat (op + n - d)) with O by lia. split; [done|]. eapply filled_less; [|done]. lia.
Qed.

Lemma copy_tail_end : op + n ≤ oend → ∃ b2,
  (if op + 8 <? oend - 7
   then LZ4_wildCopy8 LZ4_memcpy (op + 8) s (oend - 7);; copy_bytes (Z.to_nat (op + n - (oend - 7))) (oend - 7) (s + (oend - 7 - (op + 8)))
   else copy_bytes (Z.to_nat (op + n - (op + 8))) (op + 8) s) b1 = (Ok tt, b2) ∧ F b2 (op + n).
Proof.
  intros Hc. destruct (Z.ltb_spec (op + 8) (oend - 7)).
  - destruct (match_wild8 b op off ltac:(lia) (op + 8) s (oend - 7) b1 F1) as (b2 & d & E2 & F2 & ? & _); [lia..|done|lia|lia|].
    mstep E2. apply copy_bytes_to; [by eapply filled_less|lia|lia| |lia].
    by replace (oend - 7 - (s + (oend - 7 - (op + 8)))) with (op + 8 - s) by lia.
  - apply copy_bytes_to; [done|lia|lia|done|lia].
Qed.

Lemma copy_tail : op + n ≤ oend - 12 → ∃ b2,
  (LZ4_memcpy (op + 8) s 8;; if n >? 16 then LZ4_wildCopy8 LZ4_memcpy (op + 8 + 8) (s + 8) (op + n) else mret tt) b1 = (Ok tt, b2)
  ∧ F b2 (op + n).
Proof.
  intros Hc. destruct (match_copy b op off ltac:(lia) 8 (op + 8) s b1 F1) as (b2 & E2 & F2); [lia..|done|lia|]. mstep E2.
  rewrite Z.gtb_ltb. destruct (Z.ltb_spec 16 n); [|exists b2; split; [done|]; eapply filled_less; [|done]; lia].
  destruct (match_wild8 b op off ltac:(lia) (op + 8 + 8) (s + 8) (op + n) b2 F2) as (b3 & d & E3 & F3 & ? & _);
    [lia..|by replace (op + 8 + 8 - (s + 8)) with (op + 8 - s) by lia|lia|lia|].
  exists b3. split; [done|]. by eapply filled_less.
Qed.
End Tail.

Definition ref_copy (ip n off : Z) (out : bytes) : option ref_flow :=
  if zlen out <? off then None else
  if zlen out + n <=? oend - 5 then Some (RNext (from src ip) (copy_from (Z.to_nat n) off out)) else None.

Lemma safe_match_copy_ok lo b out ip off n : holds b out → 0 ≤ ip → lo < ip < iend → 0 ≤ off → 4 ≤ n → zlen out + 12 ≤ oend →
  step_ok lo (safe_match_copy oend ip (zlen out) off n b) (ref_copy ip n off out).
Proof.
  intros Hh Hip0 Hip Hoff Hn Hcap. pose proof Hh as (Hl & _ & _). unfold safe_match_copy, ref_copy.
  destruct (Z.ltb_spec (zlen out) off); [rewrite (proj2 (Z.ltb_lt _ _)) by lia; by apply error_ok|].
  rewrite (proj2 (Z.ltb_ge _ _)) by lia. pose proof (zlen_nonneg out). set (op := zlen out) in *.
  destruct (first8_ok b op off) as (b1 & s & E1 & F1 & Hs1 & Hs2 & Hdv); [lia..|]. mstep E1.
  pose proof F1 as (L1 & _). unfold MATCH_SAFEGUARD_DISTANCE, WILDCOPYLENGTH, MINMATCH, LASTLITERALS. zconst.
  change (8 - 1) with 7. change (2 * 8 - 4) with 12. rewrite !Z.gtb_ltb. destruct (Z.ltb_spec (oend - 12) (op + n)).
  - destruct (Z.ltb_spec (oend - 5) (op + n)).
    { rewrite (proj2 (Z.leb_gt _ _)) by lia. apply error_ok; [done|congruence]. }
    rewrite (proj2 (Z.leb_le _ _)) by lia.
    destruct (copy_tail_end b op off n b1 s) as (b2 & E2 & F2); [first [done|lia]..|]. mstep E2.
    apply (match_next _ _ b); [done|lia..|done].
  - rewrite (proj2 (Z.leb_le _ _)) by lia.
    destruct (copy_tail b op off n b1 s) as (b2 & E2 & F2); [first [done|lia]..|].
    rewrite <- bind_bind. rewrite Z.gtb_ltb in E2. mstep E2. apply (match_next _ _ b); [done|lia..|done].
Qed.
(** ** Lengths *)

(** The reference's rule for a long length: [margin] bytes follow it. *)
Definition var_margin (margin : Z) (s : bytes) : option (Z * bytes) :=
  match var_length s with
  | Some (n, r) => if margin <=? zlen r then Some (n, r) else None
  | None => None
  end.

Lemma rvl_loop_ok fuel ilimit b : ∀ ip acc, 0 ≤ ip < iend → ilimit < iend → 0 ≤ acc → acc + 255 * (iend - ip) < 2 ^ 64 →
  iend - ip < Z.of_nat fuel →
  ∃ o ip', rvl_loop src fuel ip ilimit acc b = (Ok (o, ip'), b) ∧ ip < ip' ∧
    match var_margin (iend - ilimit) (from src ip) with
    | Some (n, r) => o = Some (acc + n) ∧ r = from src ip' ∧ ip' ≤ ilimit
    | None => o = None
    end.
Proof.
  induction fuel as [|fuel IH]; intros ip acc Hip Hil Hacc Hov Hf; [lia|]. cbn [rvl_loop].
  mstep (load8_ok src ip b Hip). pose proof (b2z_range (byte_at src ip)) as Hx. unfold var_margin in *.
  rewrite (from_cons src ip) by lia. cbn [var_length]. rewrite u64_small by lia. rewrite Z.gtb_ltb.
  assert (Hz := zlen_from src (ip + 1) ltac:(lia)).
  destruct (Z.ltb_spec ilimit (ip + 1)).
  - eexists _, _. split; [done|]. split; [lia|]. destruct (Z.eqb_spec (b2z (byte_at src ip)) 255).
    + destruct (var_length (from src (ip + 1))) as [[n r]|] eqn:Ev; [|done]. apply var_length_range in Ev.
      by rewrite (proj2 (Z.leb_gt _ _)) by lia.
    + by rewrite (proj2 (Z.leb_gt _ _)) by lia.
  - destruct (Z.eqb_spec (b2z (byte_at src ip)) 255) as [E|].
    + destruct (IH (ip + 1) (acc + b2z (byte_at src ip))) as (o & ip' & Eo & Hip' & Ho); [lia..|].
      exists o, ip'. split; [done|]. split; [lia|]. destruct (var_length (from src (ip + 1))) as [[n r]|]; [|done].
      destruct (iend - ilimit <=? zlen r); [|done]. rewrite E in Ho. by rewrite Z.add_assoc.
    + eexists _, _. split; [done|]. split; [lia|]. by rewrite (proj2 (Z.leb_le _ _)) by lia.
Qed.

Lemma read_variable_length_ok margin (check : bool) ip b : 0 ≤ ip → 1 ≤ margin → (if check then ip ≤ iend else ip < iend) →
  ∃ o ip', read_variable_length src iend ip (iend - margin) check b = (Ok (o, ip'), b) ∧ ip ≤ ip' ∧
    match var_margin margin (from src ip) with
    | Some (n, r) => o = Some n ∧ r = from src ip' ∧ ip < ip' ∧ ip' + margin ≤ iend ∧ 0 ≤ n < 2 ^ 40
    | None => o = None
    end.
Proof.
  intros Hip Hm Hc. unfold read_variable_length. destruct (check && (ip >=? iend - margin)) eqn:E.
  - apply andb_prop in E as [-> E]. rewrite Z.geb_leb in E. apply Z.leb_le in E. eexists _, _. split; [done|]. split; [lia|].
    unfold var_margin. destruct (var_length (from src ip)) as [[n r]|] eqn:Ev; [|done]. apply var_length_range in Ev.
    rewrite zlen_from in Ev by lia. by rewrite (proj2 (Z.leb_gt _ _)) by lia.
  - assert (ip < iend). { destruct check; [|done]. rewrite Z.geb_leb in E. apply Z.leb_gt in E. lia. }
    destruct (rvl_loop_ok (S (Z.to_nat iend)) (iend - margin) b ip 0) as (o & ip' & Eo & Hip' & Ho); [lia..|].
    exists o, ip'. split; [done|]. split; [lia|]. replace (iend - (iend - margin)) with margin in Ho by lia.
    unfold var_margin in *. destruct (var_length (from src ip)) as [[n r]|] eqn:Ev; [|done].
    destruct (margin <=? zlen r); [|done]. destruct Ho as (-> & -> & ?). apply var_length_range in Ev.
    rewrite !zlen_from in Ev by lia. split_and!; try done; lia.
Qed.

(** The check for a wrapped pointer refuses only what does not fit. *)
Lemma overflows_true addr p n size : 0 ≤ addr → addr + size < 2 ^ 64 → 0 ≤ p → 0 ≤ n → overflows addr p n = true → size < p + n.
Proof.
  intros Ha Hs Hp Hn Hv. destruct (decide (p + n ≤ size)); [|lia]. unfold overflows in Hv. rewrite !u64_small in Hv by lia.
  apply Z.ltb_lt in Hv. lia.
Qed.

Definition ref_copy_match (code off : Z) (s out : bytes) : option ref_flow :=
  match long_length code 4 s with
  | Some (n, s') =>
      if zlen out <? off then None else
      if zlen out + (n + 4) <=? oend - 5 then Some (RNext s' (copy_from (Z.to_nat (n + 4)) off out)) else None
  | None => None
  end.

Lemma copy_match_ok lo b out ip off code : holds b out → 0 ≤ ip → lo < ip < iend → 0 ≤ off → 0 ≤ code ≤ 15 → zlen out + 12 ≤ oend →
  step_ok lo (copy_match src iend oend daddr ip (zlen out) off code b) (ref_copy_match code off (from src ip) out).
Proof.
  intros Hh Hip0 Hip Hoff Hcode Hcap. pose proof Hh as (Hl & _ & _). pose proof (zlen_nonneg out).
  unfold copy_match, ref_copy_match, long_length, ML_MASK, LASTLITERALS, MINMATCH.
  destruct (Z.eqb_spec code 15) as [->|].
  - rewrite bind_bind. destruct (read_variable_length_ok 4 false ip b) as (o & ip' & Eo & Hip' & Ho); [lia..|].
    replace (iend - 5 + 1) with (iend - 4) by lia. mstep Eo. unfold var_margin in Ho.
    destruct (var_length (from src ip)) as [[n r]|]; [|subst o; by apply error_ok; [lia|]].
    destruct (4 <=? zlen r); [|subst o; by apply error_ok; [lia|]]. destruct Ho as (-> & -> & ? & ? & ?).
    rewrite u64_small by lia. destruct (overflows daddr (zlen out) (15 + n)) eqn:Ev.
    + apply (overflows_true _ _ _ oend) in Ev; [|lia..]. rewrite (proj2 (Z.leb_gt _ _)) by lia.
      replace (if zlen out <? off then None else None) with (@None ref_flow) by (by destruct (zlen out <? off)).
      by apply error_ok; [lia|].
    + rewrite bind_ret. cbn beta iota zeta. rewrite u64_small by lia. apply safe_match_copy_ok; try done; lia.
  - rewrite bind_ret. cbn beta iota zeta. rewrite u64_small by lia. apply safe_match_copy_ok; try done; lia.
Qed.
(** ** Literals *)
Lemma ref_match_plain short code s out : short = false ∨ code = 15 ∨ le (take 2 s) < 8 ∨ zlen out < le (take 2 s) →
  ref_match oend short code s out = ref_copy_match code (le (take 2 s)) (drop 2 s) out.
Proof.
  intros Hs. unfold ref_match, ref_copy_match. destruct (long_length _ _ _) as [[n s']|]; [|done].
  destruct (Z.ltb_spec (zlen out) (le (take 2 s))); [done|].
  replace (short && negb (code =? 15) && (8 <=? le (take 2 s))) with false; [done|].
  destruct Hs as [->|[->|[Hs|Hs]]]; [done|by rewrite andb_false_r| |lia].
  rewrite (proj2 (Z.leb_gt _ _)) by done. by rewrite andb_false_r.
Qed.

Lemma ref_literals_none token n s out : oend < zlen out + n ∨ zlen s < n → ref_literals oend false token n s out = None.
Proof.
  intros Hs. unfold ref_literals. cbn [orb]. destruct Hs.
  - rewrite (proj2 (Z.leb_gt _ (oend - 12))), (proj2 (Z.leb_gt _ oend)) by lia. by rewrite andb_false_r.
  - rewrite (proj2 (Z.leb_gt (n + 8) _)), andb_false_r by lia. by rewrite (proj2 (Z.eqb_neq n _)) by lia.
Qed.

Lemma readLE16_ok {S} p (st : S) : 0 ≤ p → p + 2 ≤ iend → LZ4_readLE16 src p st = (Ok (le (take 2 (from src p))), st).
Proof. intros Hp Hl. unfold LZ4_readLE16. by mstep (load_ok src p 2 st Hp ltac:(lia) Hl). Qed.

Lemma drop2_from p : 0 ≤ p → drop 2 (from src p) = from src (p + 2).
Proof. intros Hp. by rewrite <- (from_from src p 2) by lia. Qed.

Lemma safe_literal_copy_ok lo b out token ip n : holds b out → 0 ≤ lo < ip → ip ≤ iend → 0 ≤ n → 0 ≤ token < 256 →
  step_ok lo (safe_literal_copy src iend oend daddr token ip (zlen out) n b) (ref_literals oend false token n (from src ip) out).
Proof.
  intros Hh Hlo Hip Hn Htok. pose proof Hh as (Hl & Ho & _). pose proof (zlen_nonneg out).
  pose proof (zlen_from src ip ltac:(lia)) as Hz. unfold safe_literal_copy, MFLIMIT, LASTLITERALS.
  unfold ref_literals. cbn [orb]. set (far := (zlen out + n <=? oend - 12) && (n + 8 <=? zlen (from src ip))).
  replace ((zlen out + n >? oend - 12) || (ip + n >? iend - (2 + 1 + 5))) with (negb far).
  2: { unfold far. rewrite !Z.gtb_ltb. repeat zcase; done || lia. }
  destruct far eqn:Ef; cbn [negb].
  - apply andb_prop in Ef as [?%Z.leb_le ?%Z.leb_le].
    destruct (lits8 src ip (zlen out) b n) as (b1 & E1 & F1); [lia..|]. mstep E1. mstep (readLE16_ok (ip + n) b1 ltac:(lia) ltac:(lia)).
    pose proof (zlen_read_at src ip n ltac:(lia) Hn ltac:(lia)) as Hr.
    assert (Hh' : holds b1 (out ++ read_at src ip n)) by (apply (holds_literals b); try done; lia).
    rewrite from_from, take_from, ref_match_plain by (try lia; by left).
    pose proof (le_range (take 2 (from src (ip + n)))). pose proof (Z.land_ones token 4 ltac:(lia)) as Hland. change (Z.ones 4) with 15 in Hland.
    pose proof (Z.mod_pos_bound token (2 ^ 4) ltac:(lia)). rewrite drop2_from by lia.
    replace (zlen out + n) with (zlen (out ++ read_at src ip n)) by (rewrite zlen_app; lia).
    apply copy_match_ok; try done; unfold ML_MASK; rewrite ?zlen_app; lia.
  - replace (negb (ip + n =? iend) || (zlen out + n >? oend)) with (negb ((n =? zlen (from src ip)) && (zlen out + n <=? oend))).
    2: { rewrite !Z.gtb_ltb. repeat zcase; done || lia. }
    clear far Ef. destruct ((n =? zlen (from src ip)) && (zlen out + n <=? oend)) eqn:Ef2; cbn [negb]; [|by apply error_ok; [lia|]].
    apply andb_prop in Ef2 as [?%Z.eqb_eq ?%Z.leb_le].
    destruct (lits_exact src ip (zlen out) b n) as (b1 & E1 & F1); [lia..|]. mstep E1.
    pose proof (zlen_read_at src ip n ltac:(lia) Hn ltac:(lia)) as Hr.
    assert (Hall : from src ip = read_at src ip n).
    { rewrite <- take_from. rewrite take_ge; [done|]. unfold zlen in *. lia. }
    rewrite Hall. exists b1. rewrite zlen_app, Hr. split; [done|]. apply (holds_literals b); try done; lia.
Qed.
(** A long literal length and what follows it. *)
Lemma literal_length_bind {A} (Q : res A * bytes → option ref_flow → Prop) (k : Z → Z → M bytes A) token ip out b :
  0 ≤ ip ≤ iend → (∀ e, e < 0 → Q (Err e, b) None) →
  (∀ n ip', 0 ≤ n → ip < ip' ≤ iend → Q (k n ip' b) (ref_literals oend false token n (from src ip') out)) →
  Q ((literal_length src iend saddr daddr ip (zlen out) ≫= λ '(n, ip'), k n ip') b)
    (match long_length 15 15 (from src ip) with Some (n, s2) => ref_literals oend false token n s2 out | None => None end).
Proof.
  intros Hip Herr Hk. pose proof (zlen_nonneg out). unfold literal_length, RUN_MASK. rewrite bind_bind.
  destruct (read_variable_length_ok 15 true ip b) as (o & ip' & Eo & Hip' & Ho); [lia..|]. mstep Eo.
  assert (Hout : ∀ n s, zlen out + n > oend ∨ zlen s < n → Q (Err (- ip' - 1), b) (ref_literals oend false token n s out)).
  { intros n s Hs. rewrite ref_literals_none by lia. apply Herr. lia. }
  unfold long_length. cbn [Z.eqb Pos.eqb]. unfold var_margin in Ho.
  destruct (var_length (from src ip)) as [[n r]|]; [|subst o; apply Herr; lia].
  destruct (15 <=? zlen r); [|subst o; apply Herr; lia]. destruct Ho as (-> & -> & ? & ? & ?). rewrite u64_small by lia.
  pose proof (zlen_from src ip' ltac:(lia)).
  destruct (overflows daddr (zlen out) (15 + n)) eqn:E1; [apply (overflows_true _ _ _ oend) in E1; [|lia..]; apply Hout; lia|].
  destruct (overflows saddr ip' (15 + n)) eqn:E2; [apply (overflows_true _ _ _ iend) in E2; [|lia..]; apply Hout; lia|].
  rewrite bind_ret. apply Hk; lia.
Qed.

Lemma token_codes t : 0 ≤ Z.shiftr (b2z t) 4 ≤ 15 ∧ 0 ≤ Z.land (b2z t) 15 ≤ 15.
Proof.
  pose proof (b2z_range t). rewrite Z.shiftr_div_pow2 by lia.
  replace (Z.land (b2z t) 15) with (b2z t mod 2 ^ 4) by (by rewrite <- Z.land_ones). change (2 ^ 4) with 16. pose proof (Z.mod_pos_bound (b2z t) 16 ltac:(lia)).
  pose proof (Z.div_pos (b2z t) 16 ltac:(lia) ltac:(lia)). pose proof (Z.div_lt_upper_bound (b2z t) 16 16 ltac:(lia) ltac:(lia)). lia.
Qed.

(** ** The safe loop *)

(** The shortcut, once the literals are copied. *)
Lemma shortcut_ok lo b out ip code : holds b out → 0 ≤ lo < ip → ip + 2 < iend → 0 ≤ code ≤ 15 → zlen out + 18 ≤ oend →
  step_ok lo ((offset ← LZ4_readLE16 src ip;
      if negb (code =? ML_MASK) && (offset >=? 8) && (zlen out - offset >=? 0) then
        copy18 (zlen out) (zlen out - offset);; mret (Next (ip + 2) (zlen out + code + MINMATCH))
      else copy_match src iend oend daddr (ip + 2) (zlen out) offset code) b)
    (ref_match oend true code (from src ip) out).
Proof.
  intros Hh Hip Hi2 Hcode Hcap. pose proof Hh as (Hl & _ & _). pose proof (zlen_nonneg out). unfold ML_MASK, MINMATCH.
  mstep (readLE16_ok ip b ltac:(lia) ltac:(lia)). pose proof (le_range (take 2 (from src ip))) as Hle.
  set (off := le (take 2 (from src ip))) in *. rewrite !Z.geb_leb.
  destruct (negb (code =? 15) && (8 <=? off) && (0 <=? zlen out - off)) eqn:E.
  - apply andb_prop in E as [E H0%Z.leb_le]. unfold ref_match. fold off. apply andb_prop in E as E'. destruct E' as [En H8%Z.leb_le].
    unfold long_length. destruct (Z.eqb_spec code 15); [done|]. rewrite (proj2 (Z.ltb_ge _ _)) by lia. cbn [andb]. rewrite E. cbn [orb].
    destruct (copy18_ok b (zlen out) off) as (b1 & E1 & F1); [lia..|]. mstep E1. rewrite drop2_from by lia. rewrite <- Z.add_assoc.
    apply (match_next _ _ b); [done|lia..|]. eapply filled_less; [|done]. lia.
  - rewrite ref_match_plain, drop2_from; [apply copy_match_ok; try done; lia|lia|]. fold off.
    apply andb_false_iff in E as [[E%negb_false_iff%Z.eqb_eq|E%Z.leb_gt]%andb_false_iff|E%Z.leb_gt]; lia.
Qed.

Lemma safe_step_ok b out ip : holds b out → 0 ≤ ip < iend →
  step_ok ip (safe_step src iend oend saddr daddr ip (zlen out) b) (ref_step oend (from src ip) out).
Proof.
  intros Hh Hip. pose proof Hh as (Hl & Ho & _). pose proof (zlen_nonneg out). unfold safe_step, ref_step.
  mstep (load8_ok src ip b Hip). rewrite (from_cons src ip Hip). set (t := byte_at src ip). unfold RUN_MASK, ML_BITS.
  pose proof (token_codes t) as [Hc Hm]. pose proof (b2z_range t). pose proof (zlen_from src (ip + 1) ltac:(lia)) as Hz.
  set (code := Z.shiftr (b2z t) 4) in *.
  replace ((ip + 1 <? iend - 14 - 2) && (zlen out <=? oend - 14 - 18)) with ((16 <? zlen (from src (ip + 1))) && (zlen out + 32 <=? oend)).
  2: { repeat zcase; done || lia. }
  destruct (negb (code =? 15) && _) eqn:Es.
  - apply andb_prop in Es as [En Es]. apply andb_prop in Es as [?%Z.ltb_lt ?%Z.leb_le]. apply negb_true_iff in En. unfold long_length.
    rewrite En. apply Z.eqb_neq in En. unfold ref_literals. cbn [orb]. rewrite from_from by lia.
    destruct (lits_exact src (ip + 1) (zlen out) b 16) as (b1 & E1 & F1); [lia..|]. mstep E1.
    apply (filled_less _ _ _ _ _ (zlen out + code)) in F1; [|lia]. rewrite take_from.
    pose proof (zlen_read_at src (ip + 1) code ltac:(lia) ltac:(lia) ltac:(lia)) as Hr.
    replace (zlen out + code) with (zlen (out ++ read_at src (ip + 1) code)) by (rewrite zlen_app; lia).
    apply shortcut_ok; [apply (holds_literals b); try done; lia|lia|lia|done|rewrite zlen_app; lia].
  - destruct (Z.eqb_spec code 15) as [->|].
    + apply literal_length_bind; [lia|intros e He; by exists e, b|]. intros n ip' Hn Hip'. apply safe_literal_copy_ok; try done; lia.
    + unfold long_length. rewrite (proj2 (Z.eqb_neq _ _)) by done. apply safe_literal_copy_ok; try done; lia.
Qed.

(** What a decoder does. *)
Definition decodes (r : res Z * bytes) (o : option bytes) : Prop :=
  match o with
  | None => ∃ e b', r = (Err e, b') ∧ e < 0 ∧ zlen b' = oend
  | Some out => ∃ b', r = (Ok (zlen out), b') ∧ holds b' out
  end.

Lemma safe_decode_ok fuel : ∀ b out ip, holds b out → 0 ≤ ip < iend → iend - ip < Z.of_nat fuel →
  decodes (safe_decode src iend oend saddr daddr fuel ip (zlen out) b) (ref_decode oend fuel (from src ip) out).
Proof.
  induction fuel as [|fuel IH]; intros b out ip Hh Hip Hf; [lia|]. cbn [safe_decode ref_decode].
  pose proof (safe_step_ok b out ip Hh Hip) as Hs. destruct (ref_step oend (from src ip) out) as [[s out'|out']|].
  - destruct Hs as (ip' & b' & E & Hh' & -> & Hip'). mstep E. apply IH; [done|lia|lia].
  - destruct Hs as (b' & E & Hh'). mstep E. by exists b'.
  - destruct Hs as (e & b' & E & He & Hb'). rewrite (bind_err _ _ _ _ _ E). by exists e, b'.
Qed.
(** ** The fast loop *)

(** As [step_ok]; the fast loop goes on only 64 bytes or more before the end. *)
Definition fstep_ok (lo : Z) (r : res fast_flow * bytes) (o : option ref_flow) : Prop :=
  match o with
  | None => ∃ e b', r = (Err e, b') ∧ e < 0 ∧ zlen b' = oend
  | Some (RNext s out) => ∃ f ip b', r = (Ok f, b')
      ∧ (f = ToSafe (Next ip (zlen out)) ∨ f = FastNext ip (zlen out) ∧ zlen out + 64 ≤ oend)
      ∧ holds b' out ∧ s = from src ip ∧ lo < ip < iend
  | Some (RStop out) => ∃ b', r = (Ok (ToSafe (Stop (zlen out))), b') ∧ holds b' out
  end.

Lemma to_safe lo (m : M bytes flow) b o : step_ok lo (m b) o → fstep_ok lo ((f ← m; mret (ToSafe f)) b) o.
Proof.
  intros Hs. destruct o as [[s out|out]|].
  - destruct Hs as (ip & b' & E & Hh & -> & Hip). mstep E. exists (ToSafe (Next ip (zlen out))), ip, b'. split; [done|]. split; [by left|]. done.
  - destruct Hs as (b' & E & Hh). mstep E. by exists b'.
  - destruct Hs as (e & b' & E & He & Hb'). rewrite (bind_err _ _ _ _ _ E). by exists e, b'.
Qed.

Lemma fast_next lo ip b b' out off n : holds b out → 0 ≤ off ≤ zlen out → 0 ≤ n → zlen out + n + 64 ≤ oend → lo < ip < iend →
  filled (pat b (zlen out) off) (zlen out) b b' (zlen out + n) →
  fstep_ok lo (Ok (FastNext ip (zlen out + n)), b') (ref_copy ip n off out).
Proof.
  intros Hh Hoff Hn Hc Hip Hf. unfold ref_copy. rewrite (proj2 (Z.ltb_ge _ _)), (proj2 (Z.leb_le _ _)) by lia.
  exists (FastNext ip (zlen out + n)), ip, b'. rewrite zlen_copy_from, Z2Nat.id by lia. split; [done|]. split; [right; split; [done|lia]|].
  split; [|done]. eapply holds_match; try done. lia.
Qed.

Lemma fast_copy_ok lo b out ip off n : holds b out → 0 ≤ ip → lo < ip < iend → 0 ≤ off → 4 ≤ n → zlen out + n + 64 ≤ oend →
  fstep_ok lo (fast_copy ip (zlen out) off n b) (ref_copy ip n off out).
Proof.
  intros Hh Hip0 Hip Hoff Hn Hc. pose proof Hh as (Hl & _ & _). pose proof (zlen_nonneg out). unfold fast_copy.
  destruct (Z.ltb_spec (zlen out - off) 0).
  { unfold ref_copy. rewrite (proj2 (Z.ltb_lt _ _)) by lia. exists (- ip - 1), b. split; [done|]. lia. }
  assert (Hcopy : ∃ b', (if off <? 16 then LZ4_memcpy_using_offset (zlen out) (zlen out - off) (zlen out + n) off
      else LZ4_wildCopy32 LZ4_memcpy (zlen out) (zlen out - off) (zlen out + n)) b = (Ok tt, b')
      ∧ filled (pat b (zlen out) off) (zlen out) b b' (zlen out + n)).
  { destruct (Z.ltb_spec off 16); [apply memcpy_using_offset_ok; lia|apply match_wild32; lia]. }
  destruct Hcopy as (b' & E & F). mstep E. apply (fast_next _ _ b); try done; lia.
Qed.

Lemma fast_or_safe lo b out ip off n : holds b out → 0 ≤ ip → lo < ip < iend → 0 ≤ off → 4 ≤ n → zlen out + 12 ≤ oend →
  fstep_ok lo ((if zlen out + n >=? oend - 64 then f ← safe_match_copy oend ip (zlen out) off n; mret (ToSafe f)
      else fast_copy ip (zlen out) off n) b) (ref_copy ip n off out).
Proof.
  intros Hh Hip0 Hip Hoff Hn Hc. rewrite Z.geb_leb. destruct (Z.leb_spec (oend - 64) (zlen out + n)).
  - by apply to_safe, safe_match_copy_ok.
  - apply fast_copy_ok; try done; lia.
Qed.

Lemma fast_match_ok lo b out ip t : holds b out → 0 ≤ lo < ip → ip + 2 < iend → zlen out + 32 ≤ oend →
  fstep_ok lo (fast_match src iend oend daddr (b2z t) ip (zlen out) b)
    (ref_copy_match (Z.land (b2z t) 15) (le (take 2 (from src ip))) (from src (ip + 2)) out).
Proof.
  intros Hh Hlo Hip Hc. pose proof Hh as (Hl & _ & _). pose proof (zlen_nonneg out). pose proof (token_codes t) as [_ Hcode].
  unfold fast_match, ML_MASK, MINMATCH, LASTLITERALS, FASTLOOP_SAFE_DISTANCE.
  mstep (readLE16_ok ip b ltac:(lia) ltac:(lia)). pose proof (le_range (take 2 (from src ip))) as Hle.
  set (off := le (take 2 (from src ip))) in *. set (code := Z.land (b2z t) 15) in *. unfold ref_copy_match, long_length.
  destruct (Z.eqb_spec code 15) as [->|].
  - destruct (read_variable_length_ok 4 false (ip + 2) b) as (o & ip' & Eo & Hip' & Ho); [lia..|].
    replace (iend - 5 + 1) with (iend - 4) by lia. mstep Eo. unfold var_margin in Ho.
    assert (Herr : ∀ o, o = None → fstep_ok lo (output_error ip' b) o) by (intros ? ->; exists (- ip' - 1), b; split; [done|lia]).
    destruct (var_length (from src (ip + 2))) as [[n r]|]; [|subst o; by apply Herr].
    destruct (4 <=? zlen r); [|subst o; by apply Herr]. destruct Ho as (-> & -> & ? & ? & ?).
    rewrite !u64_small by (rewrite ?u64_small; lia). destruct (overflows daddr (zlen out) (15 + n + 4)) eqn:Ev.
    + apply (overflows_true _ _ _ oend) in Ev; [|lia..]. apply Herr. rewrite (proj2 (Z.leb_gt _ _)) by lia. by destruct (_ <? _).
    + by apply fast_or_safe; try lia.
  - change (fstep_ok lo ((if zlen out + (code + 4) >=? oend - 64 then f ← safe_match_copy oend (ip + 2) (zlen out) off (code + 4); mret (ToSafe f)
      else if (zlen out - off >=? 0) && (off >=? 8) then copy18 (zlen out) (zlen out - off);; mret (FastNext (ip + 2) (zlen out + (code + 4)))
      else fast_copy (ip + 2) (zlen out) off (code + 4)) b) (ref_copy (ip + 2) (code + 4) off out)).
    destruct ((zlen out - off >=? 0) && (off >=? 8)) eqn:E; [|by apply fast_or_safe; try lia].
    rewrite !Z.geb_leb in *. apply andb_prop in E as [?%Z.leb_le ?%Z.leb_le].
    destruct (Z.leb_spec (oend - 64) (zlen out + (code + 4))); [apply to_safe, safe_match_copy_ok; try done; lia|].
    destruct (copy18_ok b (zlen out) off) as (b1 & E1 & F1); [lia..|]. mstep E1.
    apply (fast_next _ _ b); [done|lia..|]. eapply filled_less; [|done]. lia.
Qed.

(** Far from the end of the destination the shortcut accepts nothing more. *)
Lemma ref_match_far short code s out : 0 ≤ code ≤ 15 → zlen out + 32 ≤ oend →
  ref_match oend short code s out = ref_copy_match code (le (take 2 s)) (drop 2 s) out.
Proof.
  intros Hcode Hc. destruct (decide (code = 15)) as [->|]; [apply ref_match_plain; auto|].
  unfold ref_match, ref_copy_match, long_length. rewrite (proj2 (Z.eqb_neq _ _)) by done.
  rewrite (proj2 (Z.leb_le (_ + _) _)) by lia. by rewrite orb_true_r.
Qed.

Lemma fast_step_ok b out ip : holds b out → 0 ≤ ip < iend → zlen out + 64 ≤ oend →
  fstep_ok ip (fast_step src iend oend saddr daddr ip (zlen out) b) (ref_step oend (from src ip) out).
Proof.
  intros Hh Hip Hc. pose proof Hh as (Hl & Ho & _). pose proof (zlen_nonneg out). unfold fast_step, ref_step.
  mstep (load8_ok src ip b Hip). rewrite (from_cons src ip Hip). set (t := byte_at src ip). unfold RUN_MASK, ML_BITS.
  pose proof (token_codes t) as [Hcode Hm]. pose proof (b2z_range t). pose proof (zlen_from src (ip + 1) ltac:(lia)) as Hz.
  set (code := Z.shiftr (b2z t) 4) in *. rewrite (proj2 (Z.leb_le (zlen out + 32) oend)), andb_true_r by lia.
  assert (Hlits : ∀ short ip' n b1, ip < ip' → 0 ≤ n → ip' + n + 2 < iend → zlen out + n + 32 ≤ oend →
    short || ((zlen out + n <=? oend - 12) && (n + 8 <=? zlen (from src ip'))) = true →
    filled (lit src ip' (zlen out)) (zlen out) b b1 (zlen out + n) →
    fstep_ok ip (fast_match src iend oend daddr (b2z t) (ip' + n) (zlen out + n) b1) (ref_literals oend short (b2z t) n (from src ip') out)).
  { intros short ip' n b1 Hip' Hn Hi Hn32 Hb F1. unfold ref_literals. rewrite Hb, from_from, take_from by lia.
    pose proof (zlen_read_at src ip' n ltac:(lia) ltac:(lia) ltac:(lia)) as Hr.
    rewrite ref_match_far, drop2_from by (rewrite ?zlen_app; lia).
    replace (zlen out + n) with (zlen (out ++ read_at src ip' n)) by (rewrite zlen_app; lia).
    apply fast_match_ok; rewrite ?zlen_app; try lia. apply (holds_literals b); try done; lia. }
  destruct (Z.eqb_spec code 15) as [->|]; cbn [negb andb].
  - apply literal_length_bind; [lia|intros e He; by exists e, b|]. intros n ip' Hn Hip'. rewrite !Z.gtb_ltb.
    destruct ((oend - 32 <? zlen out + n) || (iend - 32 <? ip' + n)) eqn:E; [apply to_safe, safe_literal_copy_ok; try done; lia|].
    apply orb_false_iff in E as [?%Z.ltb_ge ?%Z.ltb_ge].
    destruct (lits32 src ip' (zlen out) b n) as (b1 & E1 & F1); [lia..|]. mstep E1.
    apply Hlits; try done; try lia. pose proof (zlen_from src ip' ltac:(lia)). apply orb_true_intro. right.
    apply andb_true_intro. by rewrite !Z.leb_le; lia.
  - unfold long_length. rewrite (proj2 (Z.eqb_neq _ _)) by done. destruct (Z.leb_spec (ip + 1) (iend - (16 + 1))).
    + rewrite (proj2 (Z.ltb_lt _ _)) by lia.
      destruct (lits_exact src (ip + 1) (zlen out) b 16) as (b1 & E1 & F1); [lia..|]. mstep E1.
      apply Hlits; try done; try lia. eapply filled_less; [|done]. lia.
    + rewrite (proj2 (Z.ltb_ge _ _)) by lia. apply to_safe, safe_literal_copy_ok; try done; lia.
Qed.

Lemma fast_decode_ok fuel : ∀ b out ip, holds b out → 0 ≤ ip < iend → zlen out + 64 ≤ oend → iend - ip < Z.of_nat fuel →
  decodes (fast_decode src iend oend saddr daddr fuel ip (zlen out) b) (ref_decode oend fuel (from src ip) out).
Proof.
  induction fuel as [|fuel IH]; intros b out ip Hh Hip Hc Hf; [lia|]. cbn [fast_decode ref_decode].
  pose proof (fast_step_ok b out ip Hh Hip Hc) as Hs. destruct (ref_step oend (from src ip) out) as [[s out'|out']|].
  - destruct Hs as (f & ip' & b' & E & Hf' & Hh' & -> & Hip'). mstep E. destruct Hf' as [->|[-> Hc']].
    + apply safe_decode_ok; [done|lia|lia].
    + apply IH; [done|lia..].
  - destruct Hs as (b' & E & Hh'). mstep E. by exists b'.
  - destruct Hs as (e & b' & E & He & Hb'). rewrite (bind_err _ _ _ _ _ E). by exists e, b'.
Qed.

Lemma decompress_generic_ok b : zlen b = oend →
  decodes (LZ4_decompress_generic src iend oend saddr daddr b) (lz4_ref oend src).
Proof.
  intros Hb. pose proof (zlen_nonneg b). pose proof (zlen_nonneg src). unfold LZ4_decompress_generic, lz4_ref, FASTLOOP_SAFE_DISTANCE.
  assert (Hh : holds b []) by (split; [done|]; split; [change (zlen []) with 0; lia|change (zlen []) with 0; lia]).
  rewrite (proj2 (Z.ltb_ge _ _)) by lia. destruct (Z.eqb_spec oend 0).
  - destruct (Z.eqb_spec iend 1) as [E1|].
    + mstep (load8_ok src 0 b ltac:(lia)). destruct src as [|x [|y s]]; [done| |unfold zlen in E1; simpl in E1; lia].
      change (byte_at [x] 0) with x. destruct (Z.eqb_spec (b2z x) 0) as [E0|].
      * rewrite decide_True; [by exists b|]. f_equal. by apply b2z_inj.
      * rewrite decide_False; [by exists (-1), b|]. intros [= ->]. done.
    + rewrite decide_False; [by exists (-1), b|]. intros ->. done.
  - destruct (Z.eqb_spec iend 0) as [E0|].
    { destruct src; [by exists (-1), b|unfold zlen in E0; simpl in E0; lia]. }
    replace (length src) with (Z.to_nat iend) by (unfold zlen; lia).
    destruct (Z.ltb_spec oend 64); [apply (safe_decode_ok _ b [] 0)|apply (fast_decode_ok _ b [] 0)]; try done;
      change (zlen []) with 0; lia.
Qed.
End Refine.
