(* ===== verification/Lz4EncProof.v ===== *)
(** * The search of the LZ4 compressor

    The counting of equal bytes by words, the hash table, the search for a match
    and its extension backwards: they read only the source, and what they find is
    a match the format can express. *)
From stdpp Require Import gmap.
From S2P Require Import Prelude Kernel Lz4 Lz4Ref Lz4DecProof.

(** ** Words *)
Lemma le_inj x : ∀ y, length x = length y → le x = le y → x = y.
Proof.
  induction x as [|b x IH]; intros [|c y]; try done. cbn [le]. intros [= Hl] He.
  pose proof (b2z_range b). pose proof (b2z_range c). f_equal; [apply b2z_inj|apply IH; [done|]]; lia.
Qed.

(** The number of equal bytes two words start with. *)
Fixpoint common (x y : bytes) : Z :=
  match x, y with
  | b :: x', c :: y' => if decide (b = c) then 1 + common x' y' else 0
  | _, _ => 0
  end.

Lemma common_spec x : ∀ y, length x = length y → x ≠ y → 0 ≤ common x y < zlen x
  ∧ (∀ i, 0 ≤ i < common x y → byte_at x i = byte_at y i) ∧ byte_at x (common x y) ≠ byte_at y (common x y).
Proof.
  induction x as [|b x IH]; intros [|c y]; try done. intros [= Hl] Hne. cbn [common].
  assert (Hz : zlen (b :: x) = zlen x + 1) by (unfold zlen; simpl; lia). pose proof (zlen_nonneg x).
  case_decide as Hb; [|split; [lia|]; split; [lia|done]]. subst c.
  destruct (IH y Hl ltac:(congruence)) as (H1 & H2 & H3). split; [lia|]. split.
  - intros i Hi. destruct (decide (i = 0)) as [->|]; [done|]. rewrite !byte_at_cons by lia. apply H2. lia.
  - rewrite !byte_at_cons by lia. by replace (1 + common x y - 1) with (common x y) by lia.
Qed.

Lemma ctz_low k f v : v mod 2 ^ Z.of_nat k ≠ 0 → 0 ≤ ctz (k + f) v < Z.of_nat k.
Proof.
  revert v. induction k as [|k IH]; intros v Hv; [by rewrite Z.mod_1_r in Hv|]. cbn [Nat.add ctz].
  destruct (Z.odd v) eqn:Eo; [lia|]. specialize (IH (Z.div2 v)).
  assert (Hd : v = 2 * Z.div2 v) by (pose proof (Z.div2_odd v); rewrite Eo in *; simpl in *; lia).
  cut (Z.div2 v mod 2 ^ Z.of_nat k ≠ 0); [intros Hn; specialize (IH Hn); lia|]. intros E0. apply Hv. rewrite Hd.
  rewrite Nat2Z.inj_succ, Z.pow_succ_r by lia. rewrite Z.mul_mod_distr_l by lia. lia.
Qed.

Lemma ctz_shift k f v : ctz (k + f) (2 ^ Z.of_nat k * v) = Z.of_nat k + ctz f v.
Proof.
  induction k as [|k IH]; [by rewrite Z.mul_1_l|]. cbn [Nat.add ctz].
  replace (2 ^ Z.of_nat (S k) * v) with (2 * (2 ^ Z.of_nat k * v)) by (rewrite Nat2Z.inj_succ, Z.pow_succ_r by lia; lia).
  rewrite Z.odd_mul. cbn [andb Z.odd]. rewrite Z.div2_div, (Z.mul_comm 2), Z.div_mul by lia. rewrite IH. lia.
Qed.

Lemma digit_bits a x i : 0 ≤ a < 256 → 0 ≤ i → Z.testbit (a + 256 * x) i = if decide (i < 8) then Z.testbit a i else Z.testbit x (i - 8).
Proof.
  intros Ha Hi. case_decide.
  - rewrite <- (Z.mod_pow2_bits_low _ 8) by done. f_equal. symmetry. apply (Z.mod_unique _ _ x); lia.
  - replace i with (i - 8 + 8) at 1 by lia. rewrite <- Z.div_pow2_bits by lia. f_equal. symmetry. apply (Z.div_unique _ _ _ a); lia.
Qed.

Lemma lxor_same a x y : 0 ≤ a < 256 → Z.lxor (a + 256 * x) (a + 256 * y) = 2 ^ 8 * Z.lxor x y.
Proof.
  intros Ha. change (2 ^ 8 * Z.lxor x y) with (0 + 256 * Z.lxor x y). apply Z.bits_inj'. intros i Hi.
  rewrite Z.lxor_spec, !digit_bits by lia. case_decide; [by rewrite xorb_nilpotent, Z.bits_0|]. by rewrite Z.lxor_spec.
Qed.

Lemma lxor_differ a b x y : 0 ≤ a < 256 → 0 ≤ b < 256 → a ≠ b → Z.lxor (a + 256 * x) (b + 256 * y) mod 2 ^ 8 ≠ 0.
Proof.
  intros Ha Hb Hne E. apply Hne. apply Z.bits_inj'. intros i Hi. destruct (decide (i < 8)).
  - apply (f_equal (λ v, Z.testbit v i)) in E. rewrite Z.mod_pow2_bits_low, Z.bits_0, Z.lxor_spec, !digit_bits in E by lia.
    rewrite !decide_True in E by done. by destruct (Z.testbit a i), (Z.testbit b i).
  - rewrite <- (Z.mod_small a (2 ^ 8)), <- (Z.mod_small b (2 ^ 8)) by lia. by rewrite !Z.mod_pow2_bits_high by lia.
Qed.

(** [ctz] of the difference counts the common bytes. *)
Lemma ctz_common x : ∀ y k, length x = length y → x ≠ y →
  Z.shiftr (ctz (8 * length x + k) (Z.lxor (le x) (le y))) 3 = common x y.
Proof.
  induction x as [|b x IH]; intros [|c y] k; try done. intros [= Hl] Hne. cbn [le common length].
  pose proof (b2z_range b). pose proof (b2z_range c). replace (8 * S (length x) + k)%nat with (8 + (8 * length x + k))%nat by lia.
  rewrite Z.shiftr_div_pow2 by lia. change (2 ^ 3) with 8. case_decide as Hb.
  - subst c. rewrite lxor_same by done. rewrite (ctz_shift 8). specialize (IH y k Hl ltac:(congruence)).
    rewrite Z.shiftr_div_pow2 in IH by lia. change (2 ^ 3) with 8 in IH. rewrite <- IH.
    replace (Z.of_nat 8) with (1 * 8) by lia. rewrite Z.div_add_l; lia.
  - assert (Hd : b2z b ≠ b2z c) by (intros E; by apply Hb, b2z_inj).
    pose proof (ctz_low 8 (8 * length x + k) _ (lxor_differ (b2z b) (b2z c) (le x) (le y) ltac:(done) ltac:(done) Hd)). apply Z.div_small. lia.
Qed.

Lemma NbCommonBytes_ok x y : length x = 8%nat → length y = 8%nat → x ≠ y → LZ4_NbCommonBytes (Z.lxor (le x) (le y)) = common x y.
Proof. intros Hx Hy Hne. unfold LZ4_NbCommonBytes. pose proof (ctz_common x y 0 ltac:(congruence) Hne) as E. by rewrite Hx in E. Qed.

(** ** Counting *)
Section Count.
Variables (src : bytes) (d : Z).
Hypothesis Hd : 0 < d.

(** The source repeats at distance [d] from [p] up to [q]. *)
Definition repeats (p q : Z) : Prop := ∀ i, p ≤ i < q → byte_at src i = byte_at src (i - d).

Lemma repeats_trans p q r : repeats p q → repeats q r → repeats p r.
Proof. intros H1 H2 i Hi. destruct (decide (i < q)); [apply H1|apply H2]; lia. Qed.

(** [k] bytes at [p] and [d] before are equal. *)
Lemma le_eq_repeats p k : d ≤ p → 0 ≤ k → p + k ≤ zlen src →
  (le (read_at src (p - d) k) =? le (read_at src p k)) = bool_decide (read_at src (p - d) k = read_at src p k).
Proof.
  intros Hp Hk Hl. pose proof (zlen_read_at src (p - d) k ltac:(lia) Hk ltac:(lia)). pose proof (zlen_read_at src p k ltac:(lia) Hk Hl).
  case_bool_decide as E; [rewrite E; apply Z.eqb_refl|]. apply Z.eqb_neq. intros E2. apply E, le_inj; [unfold zlen in *; lia|done].
Qed.

Lemma read_eq_repeats p k : d ≤ p → 0 ≤ k → p + k ≤ zlen src → read_at src (p - d) k = read_at src p k ↔ repeats p (p + k).
Proof.
  intros Hp Hk Hl. pose proof (zlen_read_at src (p - d) k ltac:(lia) Hk ltac:(lia)) as L1. pose proof (zlen_read_at src p k ltac:(lia) Hk Hl) as L2.
  split.
  - intros E i Hi. apply (f_equal (λ b, byte_at b (i - p))) in E. rewrite !byte_at_read in E by lia.
    replace (p + (i - p)) with i in E by lia. by replace (p - d + (i - p)) with (i - d) in E by lia.
  - intros Hr. apply bytes_eq; [lia|]. rewrite L1. intros i Hi. rewrite !byte_at_read by lia. rewrite (Hr (p + i)) by lia. f_equal. lia.
Qed.

(** [e] is where the repetition that starts at [p] ends. *)
Definition ends (lim p e : Z) : Prop := p ≤ e ≤ lim ∧ repeats p e ∧ (e < lim → byte_at src e ≠ byte_at src (e - d)).

Lemma ends_exists lim p : p ≤ lim → ∃ e, ends lim p e.
Proof.
  intros Hp. remember (Z.to_nat (lim - p)) as k eqn:Hk. revert p Hp Hk. induction k as [|k IH]; intros p Hp Hk.
  - exists p. split; [lia|]. split; [intros i Hi; lia|lia].
  - destruct (decide (byte_at src p = byte_at src (p - d))) as [E|].
    + destruct (IH (p + 1)) as (e & He & Hr & Hn); [lia..|]. exists e. split; [lia|]. split; [|done].
      apply (repeats_trans _ (p + 1)); [|done]. intros i Hi. by replace i with p by lia.
    + exists p. split; [lia|]. split; [intros i Hi; lia|done].
Qed.

(** Whether the next [k] bytes repeat tells where the end is. *)
Lemma ends_probe lim p e k : ends lim p e → 0 ≤ k → p + k ≤ lim → repeats p (p + k) ↔ p + k ≤ e.
Proof.
  intros (He & Hr & Hn) Hk Hl. split.
  - intros Hp. destruct (decide (p + k ≤ e)); [done|]. exfalso. apply Hn; [lia|]. apply Hp. lia.
  - intros Hp i Hi. apply Hr. lia.
Qed.

Lemma ends_skip lim p e q : ends lim p e → p ≤ q ≤ e → ends lim q e.
Proof. intros (He & Hr & Hn) Hq. split; [lia|]. split; [intros i Hi; apply Hr; lia|done]. Qed.

Lemma word_ok {S} p k (c : S) : 0 ≤ p → 0 ≤ k → p + k ≤ zlen src → (x ← load src p k; mret (le x)) c = (Ok (le (read_at src p k)), c).
Proof. intros Hp Hk Hl. by mstep (load_ok src p k c Hp Hk Hl). Qed.

Lemma count_loop_ok fuel lim c : ∀ p e, ends lim p e → d ≤ p → lim ≤ zlen src → lim - p < Z.of_nat fuel →
  (∃ m, count_loop src fuel p (p - d) lim c = (Ok (true, e, m), c))
  ∨ ∃ q, count_loop src fuel p (p - d) lim c = (Ok (false, q, q - d), c) ∧ p ≤ q ∧ ends lim q e ∧ lim < q + 8.
Proof.
  induction fuel as [|fuel IH]; intros p e He Hp Hl Hf; [destruct He; lia|]. cbn [count_loop].
  destruct (Z.ltb_spec p (lim - (8 - 1))); [|right; exists p; split; [done|]; split; [lia|]; split; [done|lia]].
  assert (E : diff8 src (p - d) p c = (Ok (Z.lxor (le (read_at src (p - d) 8)) (le (read_at src p 8))), c)).
  { unfold diff8, LZ4_read_ARCH. mstep (word_ok (p - d) 8 c ltac:(lia) ltac:(lia) ltac:(lia)).
    by mstep (word_ok p 8 c ltac:(lia) ltac:(lia) ltac:(lia)). }
  mstep E. clear E.
  pose proof (zlen_read_at src (p - d) 8 ltac:(lia) ltac:(lia) ltac:(lia)) as L1.
  pose proof (zlen_read_at src p 8 ltac:(lia) ltac:(lia) ltac:(lia)) as L2.
  assert (LL : length (read_at src (p - d) 8) = length (read_at src p 8)) by (unfold zlen in *; lia).
  destruct (decide (read_at src (p - d) 8 = read_at src p 8)) as [Eq|Ne].
  - rewrite Eq, Z.lxor_nilpotent. cbn [Z.eqb]. apply read_eq_repeats in Eq; [|lia..].
    apply (ends_probe lim p e 8 He) in Eq; [|lia..]. replace (p - d + 8) with (p + 8 - d) by lia.
    destruct (IH (p + 8) e) as [[m Hm]|(q & Hq & ? & ?)]; [apply (ends_skip lim p); [done|lia]|lia..| |].
    + left. by exists m.
    + right. exists q. split; [done|]. split; [lia|done].
  - destruct (Z.eqb_spec (Z.lxor (le (read_at src (p - d) 8)) (le (read_at src p 8))) 0) as [E0|_].
    { apply Z.lxor_eq in E0. by destruct (Ne (le_inj _ _ LL E0)). }
    rewrite NbCommonBytes_ok; [|unfold zlen in *; lia..|done].
    destruct (common_spec _ _ LL Ne) as (C1 & C2 & C3). rewrite L1 in C1.
    set (k := common _ _) in *. left. exists (p - d). cut (p + k = e); [by intros ->|].
    assert (Hk : repeats p (p + k)).
    { intros i Hi. specialize (C2 (i - p) ltac:(lia)). rewrite !byte_at_read in C2 by lia.
      replace (p + (i - p)) with i in C2 by lia. by replace (p - d + (i - p)) with (i - d) in C2 by lia. }
    apply (ends_probe lim p e k He) in Hk; [|lia..]. destruct (decide (p + k < e)); [|lia].
    destruct He as (_ & Hr & _). specialize (Hr (p + k) ltac:(lia)). rewrite !byte_at_read in C3 by lia.
    exfalso. apply C3. rewrite Hr. f_equal. lia.
Qed.

(** A comparison of [k] bytes before the last ones: [p] moves on when they are
    equal, and the end is less than [k] bytes further. *)
Lemma probe_ok {C} k lim p e (c : C) : ends lim p e → d ≤ p → lim ≤ zlen src → 0 < k → e < p + 2 * k →
  ∃ q, (if p <? lim - (k - 1) then
      a ← (x ← load src (p - d) k; mret (le x)); b ← (x ← load src p k; mret (le x));
      mret (if a =? b then (p + k, p - d + k) else (p, p - d))
    else mret (p, p - d)) c = (Ok (q, q - d), c) ∧ p ≤ q ∧ ends lim q e ∧ e < q + k.
Proof.
  intros He Hp Hl Hk Hlt. pose proof He as (Hpe & _ & _). destruct (Z.ltb_spec p (lim - (k - 1))).
  - mstep (word_ok (p - d) k c ltac:(lia) ltac:(lia) ltac:(lia)). mstep (word_ok p k c ltac:(lia) ltac:(lia) ltac:(lia)).
    rewrite le_eq_repeats by lia. case_bool_decide as E.
    + apply read_eq_repeats in E; [|lia..]. apply (ends_probe lim p e k He) in E; [|lia..]. exists (p + k).
      split; [unfold mret, M_ret; do 3 f_equal; lia|]. split; [lia|]. split; [eapply ends_skip; [done|lia]|lia].
    + exists p. split; [done|]. split; [lia|]. split; [done|]. destruct (decide (e < p + k)); [done|]. exfalso. apply E.
      apply read_eq_repeats; [lia..|]. apply (ends_probe lim p e k He); lia.
  - exists p. split; [done|]. split; [lia|]. split; [done|]. lia.
Qed.

Lemma count_ok lim p e c : ends lim p e → d ≤ p → lim ≤ zlen src → LZ4_count src p (p - d) lim c = (Ok (e - p), c).
Proof.
  intros He Hp Hl. unfold LZ4_count. destruct (count_loop_ok (S (Z.to_nat (lim - p))) lim c p e) as [[m E]|(q & E & Hq & Hqe & Hlt)]; [done|lia..| |].
  - mstep E. done.
  - mstep E. pose proof Hqe as (Hqe' & _ & _).
    destruct (probe_ok 4 lim q e c Hqe) as (q4 & E4 & ? & He4 & ?); [lia..|]. unfold LZ4_read32. mstep E4.
    destruct (probe_ok 2 lim q4 e c He4) as (q2 & E2 & ? & He2 & ?); [lia..|]. unfold LZ4_readLE16. mstep E2.
    destruct He2 as (Hq2 & Hr2 & Hn2).
    assert (E1 : (if q2 <? lim then a ← load8 src (q2 - d); b ← load8 src q2; mret (if a =? b then q2 + 1 else q2) else mret q2) c = (Ok e, c)).
    { destruct (Z.ltb_spec q2 lim).
      - mstep (load8_ok src (q2 - d) c ltac:(lia)). mstep (load8_ok src q2 c ltac:(lia)).
        destruct (Z.eqb_spec (b2z (byte_at src (q2 - d))) (b2z (byte_at src q2))) as [Eb|Eb].
        + apply b2z_inj in Eb. unfold mret, M_ret. do 2 f_equal. destruct (decide (e = q2)) as [->|]; [by specialize (Hn2 ltac:(lia))|lia].
        + unfold mret, M_ret. do 2 f_equal. destruct (decide (q2 < e)); [|lia]. rewrite (Hr2 q2) in Eb by lia. done.
      - unfold mret, M_ret. do 2 f_equal. lia. }
    mstep E1. done.
Qed.
End Count.

(** ** The hash table *)
Section Search.
Variables (src : bytes) (ty : tableType_t).
Local Abbreviation n := (zlen src).
(** The size is one the compressor accepts, and the table fits it. *)
Hypotheses (Hn : n < 2 ^ 31) (Hty : ty = byU16 ∧ n < LZ4_64Klimit ∨ ty = byU32).

Lemma hashPosition_ok p (c : cstate) : 0 ≤ p → p + 8 ≤ n →
  ∃ h, LZ4_hashPosition src p ty c = (Ok h, c) ∧ 0 ≤ h < table_size ty.
Proof.
  intros Hp Hl. unfold LZ4_hashPosition. destruct Hty as [[-> _]| ->].
  - change (table_size byU16) with 8192. rewrite decide_True by done. unfold LZ4_read32. mstep (word_ok src p 4 c Hp ltac:(lia) ltac:(lia)). eexists. split; [done|].
    unfold LZ4_hash4. rewrite decide_True by done. change (MINMATCH * 8 - (LZ4_HASHLOG + 1)) with 19. rewrite Z.shiftr_div_pow2 by lia.
    pose proof (u32_range (le (read_at src p 4) * 2654435761)). split; [apply Z.div_pos; lia|]. apply Z.div_lt_upper_bound; lia.
  - change (table_size byU32) with 4096. rewrite decide_False by done. unfold LZ4_read_ARCH. mstep (word_ok src p 8 c Hp ltac:(lia) ltac:(lia)). eexists. split; [done|].
    unfold LZ4_hash5. rewrite decide_False by done. change (64 - LZ4_HASHLOG) with 52. rewrite Z.shiftr_div_pow2 by lia.
    pose proof (u64_range (u64 (Z.shiftl (le (read_at src p 8)) 24) * 889523592379)) as Hr. set (v := u64 _) in *.
    pose proof (Z.div_pos v (2 ^ 52) ltac:(lia) ltac:(lia)). pose proof (Z.div_lt_upper_bound v (2 ^ 52) (2 ^ 12) ltac:(lia) ltac:(lia)).
    rewrite u32_small by lia. lia.
Qed.

(** No entry of the table lies beyond [q]. *)
Definition below (q : Z) (c : cstate) : Prop := ∀ h v, hashTable (c_ctx c) !! h = Some v → 0 ≤ v ≤ q.

Lemma getIndex_ok q h c : below q c → 0 ≤ q → 0 ≤ h < table_size ty →
  ∃ v, LZ4_getIndexOnHash h ty c = (Ok v, c) ∧ 0 ≤ v ≤ q.
Proof.
  intros Hb Hq Hh. unfold LZ4_getIndexOnHash. rewrite decide_True by done. eexists. split; [done|].
  destruct (hashTable (c_ctx c) !! h) eqn:E; [by apply Hb in E|]. simpl. lia.
Qed.

Lemma putIndex_ok q idx h c : below q c → 0 ≤ idx ≤ q → idx + 12 ≤ n → 0 ≤ h < table_size ty →
  ∃ c', LZ4_putIndexOnHash idx h ty c = (Ok tt, c') ∧ c_dst c' = c_dst c ∧ below q c'.
Proof.
  intros Hb Hi Hin Hh. unfold LZ4_putIndexOnHash. rewrite decide_True by done. eexists. split; [done|]. split; [done|].
  intros h' v. simpl. rewrite lookup_insert_Some. intros [[_ <-]|[_ E]]; [|by apply Hb in E].
  unfold LZ4_64Klimit, MFLIMIT in Hty. case_decide; [rewrite Z.mod_small; [done|]|rewrite u32_small; lia].
  destruct Hty as [[_ ?]|]; [|congruence]. lia.
Qed.

(** A match the format can express: at a distance below 2^16, from [ip] up to [q + 4]. *)
Definition found (ip m q : Z) : Prop := 0 ≤ m < ip ∧ ip - m ≤ 65535 ∧ ip ≤ q ∧ q + 12 ≤ n ∧ repeats src (ip - m) ip (q + 4).

Lemma read32_eq m ip (c : cstate) : 0 ≤ m < ip → ip + 4 ≤ n →
  ∃ a b, LZ4_read32 src m c = (Ok a, c) ∧ LZ4_read32 src ip c = (Ok b, c) ∧ ((a =? b) = true → repeats src (ip - m) ip (ip + 4)).
Proof.
  intros Hm Hl. unfold LZ4_read32. eexists _, _. split; [apply word_ok; lia|]. split; [apply word_ok; lia|].
  pose proof (le_eq_repeats src (ip - m) ltac:(lia) ip 4) as He. replace (ip - (ip - m)) with m in He by lia. rewrite He by lia.
  intros E%bool_decide_eq_true. apply read_eq_repeats; [lia..|]. by replace (ip - (ip - m)) with m by lia.
Qed.

Lemma dist_ok v ip : 0 ≤ v < ip → ip + 12 ≤ n → bool_decide (ty = byU16) = true ∨ ip ≤ v + LZ4_DISTANCE_MAX → ip - v ≤ 65535.
Proof.
  intros Hv Hip [E%bool_decide_eq_true|?]; unfold LZ4_DISTANCE_MAX, LZ4_64Klimit, MFLIMIT in *; [|lia].
  destruct Hty as [[_ ?]|]; [lia|congruence].
Qed.

Lemma find_match_ok fuel : ∀ fip step nb h c, below (fip - 1) c → 1 ≤ fip → fip + 11 ≤ n → 1 ≤ step → 64 ≤ nb →
  0 ≤ h < table_size ty → n - fip < Z.of_nat fuel →
  ∃ r c', find_match src n ty 0 fuel fip step nb h c = (Ok r, c') ∧ c_dst c' = c_dst c ∧
    match r with Some (ip, m) => fip ≤ ip ∧ found ip m ip ∧ below ip c' | None => True end.
Proof.
  induction fuel as [|fuel IH]; intros fip step nb h c Hb Hf Hfn Hs Hnb Hh Hfu; [lia|]. cbn [find_match].
  destruct (getIndex_ok (fip - 1) h c Hb ltac:(lia) Hh) as (v & Ev & Hv). mstep Ev.
  change (mflimitPlusOne n) with (n - 12 + 1). rewrite Z.gtb_ltb. destruct (Z.ltb_spec (n - 12 + 1) (fip + step)); [by exists None, c|].
  destruct (hashPosition_ok (fip + step) c ltac:(lia) ltac:(lia)) as (h' & Eh & Hh'). mstep Eh.
  rewrite Z.add_0_r, Z.sub_0_r, u32_small by lia.
  assert (Hb' : below fip c) by (intros h1 v1 E1; apply Hb in E1; lia).
  destruct (putIndex_ok fip fip h c Hb' ltac:(lia) ltac:(lia) Hh) as (c1 & Ep & Hd1 & Hb1). mstep Ep.
  assert (Hstep : 1 ≤ Z.shiftr nb LZ4_skipTrigger).
  { change LZ4_skipTrigger with 6. rewrite Z.shiftr_div_pow2 by lia. apply Z.div_le_lower_bound; lia. }
  assert (Hnext : ∃ r c', find_match src n ty 0 fuel (fip + step) (Z.shiftr nb LZ4_skipTrigger) (nb + 1) h' c1 = (Ok r, c') ∧ c_dst c' = c_dst c ∧
    match r with Some (ip, m) => fip ≤ ip ∧ found ip m ip ∧ below ip c' | None => True end).
  { destruct (IH (fip + step) (Z.shiftr nb LZ4_skipTrigger) (nb + 1) h' c1) as (r & c' & E & Hd & Hr); [|lia..|done|lia|].
    - intros h1 v1 E1. apply Hb1 in E1. lia.
    - exists r, c'. split; [done|]. split; [congruence|]. destruct r as [[ip m]|]; [|done]. destruct Hr as (? & ? & ?). split; [lia|done]. }
  destruct (negb (bool_decide (ty = byU16)) && (v + LZ4_DISTANCE_MAX <? fip)) eqn:Edist; [done|].
  destruct (read32_eq v fip c1 ltac:(lia) ltac:(lia)) as (a & b & Ea & Eb & Hab). mstep Ea. mstep Eb.
  destruct (a =? b); [|done]. exists (Some (fip, v)), c1. split; [done|]. split; [done|]. split; [lia|]. split; [|done].
  split; [lia|]. split; [|split; [lia|]; split; [lia|by apply Hab]]. apply dist_ok; [lia..|].
  apply andb_false_iff in Edist as [E%negb_false_iff|E%Z.ltb_ge]; auto.
Qed.

(** ** Extending a match backwards *)
Lemma same_before_ok ip m (c : cstate) : 0 < m < ip → ip ≤ n →
  same_before src ip m c = (Ok (b2z (byte_at src (ip - 1)) =? b2z (byte_at src (m - 1))), c).
Proof. intros Hm Hip. unfold same_before. mstep (load8_ok src (ip - 1) c ltac:(lia)). by mstep (load8_ok src (m - 1) c ltac:(lia)). Qed.

Lemma found_back ip m q : found ip m q → 0 < m → b2z (byte_at src (ip - 1)) = b2z (byte_at src (m - 1)) → found (ip - 1) (m - 1) q.
Proof.
  intros (Hm & Hd & Hq & Hl & Hr) H0 E%b2z_inj. split; [lia|]. split; [lia|]. split; [lia|]. split; [lia|].
  replace (ip - 1 - (m - 1)) with (ip - m) by lia. intros i Hi. destruct (decide (i = ip - 1)) as [->|]; [|apply Hr; lia].
  rewrite E. f_equal. lia.
Qed.

Lemma catch_up_loop_ok fuel anchor q c : ∀ ip m, found ip m q → 0 < m → anchor < ip → ip < Z.of_nat fuel →
  b2z (byte_at src (ip - 1)) = b2z (byte_at src (m - 1)) →
  ∃ ip' m', catch_up_loop src fuel anchor ip m c = (Ok (ip', m'), c) ∧ found ip' m' q ∧ anchor ≤ ip'.
Proof.
  induction fuel as [|fuel IH]; intros ip m Hf Hm Ha Hfu Heq; [destruct Hf; lia|]. cbn [catch_up_loop].
  assert (Hf' := found_back ip m q Hf Hm Heq). destruct Hf as (? & ? & ? & ? & _). rewrite !Z.gtb_ltb.
  destruct ((anchor <? ip - 1) && (0 <? m - 1)) eqn:E; [|exists (ip - 1), (m - 1); split; [done|]; split; [done|lia]].
  apply andb_prop in E as [?%Z.ltb_lt ?%Z.ltb_lt]. mstep (same_before_ok (ip - 1) (m - 1) c ltac:(lia) ltac:(lia)).
  destruct (Z.eqb_spec (b2z (byte_at src (ip - 1 - 1))) (b2z (byte_at src (m - 1 - 1)))).
  - apply IH; try done; lia.
  - exists (ip - 1), (m - 1). split; [done|]. split; [done|lia].
Qed.

Lemma catch_up_ok anchor ip m q c : found ip m q → anchor < ip →
  ∃ ip' m', catch_up src anchor ip m c = (Ok (ip', m'), c) ∧ found ip' m' q ∧ anchor ≤ ip'.
Proof.
  intros Hf Ha. pose proof Hf as (? & ? & ? & ? & _). unfold catch_up. rewrite Z.gtb_ltb.
  destruct (Z.ltb_spec 0 m); [|exists ip, m; split; [done|]; split; [done|lia]].
  mstep (same_before_ok ip m c ltac:(lia) ltac:(lia)).
  destruct (Z.eqb_spec (b2z (byte_at src (ip - 1))) (b2z (byte_at src (m - 1)))).
  - apply (catch_up_loop_ok _ anchor q c ip m); try done; lia.
  - exists ip, m. split; [done|]. split; [done|lia].
Qed.
End Search.
