(* ===== verification/Lz4EncRefine.v ===== *)
(** * The LZ4 compressor writes the format

    What each part of [LZ4_compress_generic_validated] appends to the
    destination, and the invariant of its main loop: the bytes written so far,
    completed by any block for the rest of the source, are a block for the whole
    source, and they are not more than the bound allows. *)
From stdpp Require Import gmap.
From S2P Require Import Prelude Kernel Lz4 Lz4Ref Lz4DecProof Lz4DecRefine Lz4EncProof.

#[local] Ltac Zify.zify_post_hook ::= Z.div_mod_to_equations.

(** ** Appending to the destination *)
Section Append.
Variable oend : Z.
Local Abbreviation holds := (holds oend).

Lemma holds_prefix b out d : holds b (out ++ d) → holds b out.
Proof.
  intros (Hl & Ho & Hb). rewrite zlen_app in *. pose proof (zlen_nonneg d). split; [done|]. split; [lia|]. intros i Hi.
  rewrite Hb by lia. by rewrite byte_at_app, decide_True by lia.
Qed.

Lemma store_ok b out d : holds b out → zlen out + zlen d ≤ oend → ∃ b', dst_store (zlen out) d b = (Ok tt, b') ∧ holds b' (out ++ d).
Proof.
  intros (Hl & Ho & Hb) Hd. pose proof (zlen_nonneg out). rewrite dst_store_ok by lia. eexists. split; [done|].
  split; [rewrite zlen_write; lia|]. rewrite zlen_app. split; [lia|]. intros i Hi. rewrite byte_at_write, byte_at_app by lia.
  destruct (decide (i < zlen out)); [rewrite decide_False by lia; apply Hb; lia|]. by rewrite decide_True by lia.
Qed.

(** A byte over one of those already written. *)
Lemma overwrite_ok b out d q x : holds b (out ++ d) → 0 ≤ q ≤ zlen d → zlen out + q < oend →
  ∃ b', dst_store (zlen out + q) [x] b = (Ok tt, b') ∧ holds b' (out ++ take (Z.to_nat q) d ++ [x]).
Proof.
  intros Hh Hq Hl. rewrite <- (take_drop (Z.to_nat q) d), app_assoc in Hh. apply holds_prefix in Hh.
  assert (Hz : zlen (out ++ take (Z.to_nat q) d) = zlen out + q) by (rewrite zlen_app; unfold zlen in *; rewrite length_take; lia).
  destruct (store_ok b _ [x] Hh) as (b' & E & Hh'); [rewrite Hz; change (zlen [x]) with 1; lia|].
  rewrite Hz in E. exists b'. split; [done|]. by rewrite app_assoc.
Qed.

Lemma token_add_ok b out x rest v : holds b (out ++ x :: rest) →
  ∃ b', token_add (zlen out) v b = (Ok tt, b') ∧ holds b' (out ++ z2b (b2z x + v) :: rest).
Proof.
  intros (Hl & Ho & Hb). pose proof (zlen_nonneg out). pose proof (zlen_nonneg rest).
  assert (Hx : zlen (x :: rest) = zlen rest + 1) by (unfold zlen; simpl; lia). rewrite zlen_app, Hx in *.
  unfold token_add. mstep (dst_load_ok (zlen out) 1 b ltac:(lia) ltac:(lia) ltac:(lia)).
  change (nth 0 (read_at b (zlen out) 1) x00) with (byte_at (read_at b (zlen out) 1) 0). rewrite byte_at_read, Z.add_0_r by lia.
  rewrite (Hb (zlen out)), byte_at_app, decide_False, Z.sub_diag by lia. change (byte_at (x :: rest) 0) with x.
  set (y := z2b (b2z x + v)). rewrite dst_store_ok by (change (zlen [y]) with 1; lia). eexists. split; [done|].
  assert (Hy : zlen (y :: rest) = zlen rest + 1) by (unfold zlen; simpl; lia).
  split; [rewrite zlen_write; change (zlen [y]) with 1; lia|]. rewrite zlen_app, Hy. split; [lia|]. intros i Hi.
  rewrite byte_at_write by (change (zlen [y]) with 1; lia). change (zlen [y]) with 1. rewrite byte_at_app by lia.
  destruct (decide (i < zlen out)); [rewrite decide_False, Hb, byte_at_app, decide_True by lia; done|].
  destruct (decide (i = zlen out)) as [->|]; [rewrite decide_True, Z.sub_diag by lia; done|].
  rewrite decide_False, Hb, byte_at_app, decide_False by lia. by rewrite !byte_at_cons by lia.
Qed.

(** ** Lengths *)
Definition ff_bytes (len : Z) : bytes := replicate (Z.to_nat (len / 255)) xff ++ [z2b (len mod 255)].

Lemma zlen_ff_bytes len : 0 ≤ len → zlen (ff_bytes len) = len / 255 + 1.
Proof. intros Hl. pose proof (Z.div_pos len 255 Hl ltac:(lia)). unfold ff_bytes, zlen. rewrite length_app, length_replicate. simpl. lia. Qed.

Lemma len_bytes_long n : 15 ≤ n → len_bytes n = ff_bytes (n - 15).
Proof. intros Hn. unfold len_bytes. by rewrite (proj2 (Z.ltb_ge _ _)) by lia. Qed.

Lemma len_bytes_short n : n < 15 → len_bytes n = [].
Proof. intros Hn. unfold len_bytes. by rewrite (proj2 (Z.ltb_lt _ _)) by lia. Qed.

Lemma zlen_len_bytes n : 0 ≤ n → zlen (len_bytes n) = (n + 240) / 255.
Proof.
  intros Hn. destruct (decide (n < 15)).
  - rewrite len_bytes_short by done. change (zlen []) with 0. symmetry. apply Z.div_small. lia.
  - rewrite len_bytes_long, zlen_ff_bytes by lia. lia.
Qed.

Lemma ff_more len : 255 ≤ len → ff_bytes len = xff :: ff_bytes (len - 255).
Proof.
  intros Hl. unfold ff_bytes. replace (Z.to_nat (len / 255)) with (S (Z.to_nat ((len - 255) / 255))) by lia.
  replace ((len - 255) mod 255) with (len mod 255) by lia. done.
Qed.

Lemma write_len_ok fuel : ∀ b out len, holds b out → 0 ≤ len < Z.of_nat fuel → zlen out + len / 255 + 1 ≤ oend →
  ∃ b', write_len fuel (zlen out) len b = (Ok (zlen (out ++ ff_bytes len)), b') ∧ holds b' (out ++ ff_bytes len).
Proof.
  induction fuel as [|fuel IH]; intros b out len Hh Hl Ho; [lia|]. cbn [write_len]. rewrite Z.geb_leb.
  destruct (Z.leb_spec 255 len).
  - destruct (store_ok b out [xff] Hh) as (b1 & E1 & Hh1); [change (zlen [xff]) with 1; lia|]. mstep E1.
    assert (Hz : zlen (out ++ [xff]) = zlen out + 1) by (rewrite zlen_app; done).
    destruct (IH b1 (out ++ [xff]) (len - 255) Hh1) as (b2 & E2 & Hh2); [lia|rewrite Hz; lia|]. rewrite Hz in E2.
    exists b2. rewrite ff_more by done. by rewrite <- app_assoc in *.
  - assert (Hff : ff_bytes len = [z2b len]) by (unfold ff_bytes; by rewrite Z.div_small, Z.mod_small by lia). rewrite Hff.
    destruct (store_ok b out [z2b len] Hh) as (b1 & E1 & Hh1); [change (zlen [z2b len]) with 1; lia|]. mstep E1.
    exists b1. rewrite zlen_app. done.
Qed.

Lemma write_ff_ok fuel : ∀ b out mc, holds b (out ++ [xff; xff; xff; xff]) → 0 ≤ mc < Z.of_nat fuel → zlen out + mc / 255 + 4 ≤ oend →
  ∃ b', write_ff fuel (zlen out) mc b = (Ok (zlen (out ++ ff_bytes mc)), b') ∧ holds b' (out ++ ff_bytes mc).
Proof.
  induction fuel as [|fuel IH]; intros b out mc Hh Hl Ho; [lia|]. cbn [write_ff]. rewrite Z.geb_leb.
  set (f4 := [xff; xff; xff; xff]) in *. assert (Hz : zlen (out ++ f4) = zlen out + 4) by (rewrite zlen_app; done).
  destruct (Z.leb_spec (4 * 255) mc).
  - destruct (store_ok b (out ++ f4) f4 Hh) as (b1 & E1 & Hh1); [rewrite Hz; change (zlen f4) with 4; lia|]. rewrite Hz in E1. mstep E1.
    destruct (IH b1 (out ++ f4) (mc - 4 * 255) Hh1) as (b2 & E2 & Hh2); [lia|rewrite Hz; lia|]. rewrite Hz in E2. exists b2.
    assert (Hff : (out ++ f4) ++ ff_bytes (mc - 4 * 255) = out ++ ff_bytes mc).
    { rewrite <- app_assoc. f_equal. rewrite !(ff_more mc), (ff_more (mc - 255)), (ff_more (mc - 255 - 255)), (ff_more (mc - 255 - 255 - 255)) by lia.
      unfold f4. cbn [app]. do 4 f_equal. f_equal. lia. }
    by rewrite Hff in *.
  - pose proof (Z.div_pos mc 255 ltac:(lia) ltac:(lia)). assert (mc / 255 < 4) by (apply Z.div_lt_upper_bound; lia).
    destruct (overwrite_ok b out f4 (mc / 255) (z2b (mc mod 255)) Hh) as (b1 & E1 & Hh1); [change (zlen f4) with 4; lia|lia|].
    mstep E1. exists b1. unfold mret, M_ret. rewrite zlen_app, zlen_ff_bytes by lia. split; [do 2 f_equal; lia|].
    assert (Htake : take (Z.to_nat (mc / 255)) f4 = replicate (Z.to_nat (mc / 255)) xff).
    { assert (mc / 255 = 0 ∨ mc / 255 = 1 ∨ mc / 255 = 2 ∨ mc / 255 = 3) as Hc by lia. by destruct Hc as [->|[->|[->| ->]]]. }
    by rewrite Htake in Hh1.
Qed.
End Append.

(** ** The parts of the compressor *)
Section Encode.
Variables (src : bytes) (oend olimit : Z) (limited : bool).
Local Abbreviation n := (zlen src).
Local Abbreviation holds := (holds oend).
(** With a limited output the limit is the end of the buffer; without, the buffer
    is as large as [LZ4_compressBound] says. *)
Hypothesis (Hlim : if limited then olimit = oend else n + n / 255 + 16 ≤ oend).

(** A run that ends as [Q] says or, with a limited output, returns 0. *)
Definition run_ok {A} (r : res A * cstate) (Q : A → cstate → Prop) : Prop :=
  (∃ a c', r = (Ok a, c') ∧ Q a c') ∨ (limited = true ∧ ∃ c', r = (Err 0, c') ∧ zlen (c_dst c') = oend).

Lemma run_bind {A B} (m : M cstate A) (f : A → M cstate B) c (P : A → cstate → Prop) Q :
  run_ok (m c) P → (∀ a c', P a c' → run_ok (f a c') Q) → run_ok ((m ≫= f) c) Q.
Proof.
  intros [(a & c' & E & HP)|(Hl & c' & E & Hz)] Hf; [mstep E; by apply Hf|]. right. split; [done|]. exists c'.
  by rewrite (bind_err _ _ _ _ _ E).
Qed.

Lemma run_step {A B} (m : M cstate A) (f : A → M cstate B) c a c' Q :
  m c = (Ok a, c') → run_ok (f a c') Q → run_ok ((m ≫= f) c) Q.
Proof. intros E Hr. by mstep E. Qed.

Lemma run_ret {A} (a : A) c (Q : A → cstate → Prop) : Q a c → run_ok ((mret a : M cstate A) c) Q.
Proof. intros HQ. left. by exists a, c. Qed.

(** The check of the limit: past it, what is to be written fits. *)
Lemma run_check {A} (need : Z) (m : M cstate A) c Q : zlen (c_dst c) = oend →
  ((if limited then need ≤ oend else True) → run_ok (m c) Q) → run_ok ((if limited && (need >? olimit) then throw 0 else m) c) Q.
Proof.
  intros Hz Hm. destruct limited eqn:El; cbn [andb]; [|by apply Hm]. rewrite Z.gtb_ltb, Hlim. destruct (Z.ltb_spec oend need); [|by apply Hm].
  right. split; [done|]. by exists c.
Qed.

Lemma on_dst_ok {A} (m : M bytes A) c a b' : m (c_dst c) = (Ok a, b') → on_dst m c = (Ok a, CState (c_ctx c) b').
Proof. intros E. unfold on_dst. by rewrite E. Qed.

(** A token and the length of a run of [ll] literals. *)
Lemma run_header_ok b out ll : holds b out → 0 ≤ ll → zlen out + 1 + (ll + 240) / 255 ≤ oend →
  ∃ b', (if ll >=? RUN_MASK
         then dst_store (zlen out) [z2b (Z.shiftl RUN_MASK ML_BITS)];; write_len (S (Z.to_nat ll)) (zlen out + 1) (ll - RUN_MASK)
         else dst_store (zlen out) [z2b (Z.shiftl ll ML_BITS)];; mret (zlen out + 1)) b
      = (Ok (zlen out + 1 + (ll + 240) / 255), b')
    ∧ holds b' (out ++ z2b (16 * len_code ll + 0) :: len_bytes ll).
Proof.
  intros Hh Hll Hl. unfold RUN_MASK, ML_BITS, len_code. rewrite Z.geb_leb. set (t := z2b (16 * Z.min ll 15 + 0)).
  destruct (store_ok oend b out [t] Hh) as (b1 & E1 & Hh1); [change (zlen [t]) with 1; lia|].
  assert (Hz : zlen (out ++ [t]) = zlen out + 1) by (rewrite zlen_app; done).
  destruct (Z.leb_spec 15 ll).
  - change (Z.shiftl 15 4) with 240. replace (z2b 240) with t by (unfold t; f_equal; lia). mstep E1.
    destruct (write_len_ok oend (S (Z.to_nat ll)) b1 (out ++ [t]) (ll - 15) Hh1) as (b2 & E2 & Hh2); [lia|lia|]. rewrite Hz in E2. rewrite E2.
    exists b2. rewrite zlen_app, Hz, zlen_ff_bytes by lia. split; [do 2 f_equal; lia|]. rewrite len_bytes_long by lia. by rewrite <- app_assoc in Hh2.
  - replace (z2b (Z.shiftl ll 4)) with t by (unfold t; f_equal; rewrite Z.shiftl_mul_pow2 by lia; lia). mstep E1.
    exists b1. rewrite len_bytes_short by lia. split; [unfold mret, M_ret; do 2 f_equal; lia|done].
Qed.

Lemma zlen_run lits code : zlen (run_bytes lits code) = 1 + (zlen lits + 240) / 255 + zlen lits.
Proof.
  unfold run_bytes. change (z2b (16 * len_code (zlen lits) + code) :: len_bytes (zlen lits) ++ lits)
    with ([z2b (16 * len_code (zlen lits) + code)] ++ len_bytes (zlen lits) ++ lits).
  rewrite !zlen_app, zlen_len_bytes by apply zlen_nonneg. change (zlen [_]) with 1. lia.
Qed.

(** The literals from [anchor] to [ip]. *)
Definition lits (anchor ip : Z) : bytes := read_at src anchor (ip - anchor).
Lemma zlen_lits anchor ip : 0 ≤ anchor ≤ ip → ip ≤ n → zlen (lits anchor ip) = ip - anchor.
Proof. intros Ha Hip. apply zlen_read_at; lia. Qed.

Lemma encode_literals_ok c out anchor ip : holds (c_dst c) out → 0 ≤ anchor ≤ ip → ip + 12 ≤ n → zlen out ≤ anchor + anchor / 255 →
  run_ok (encode_literals src olimit limited anchor ip (zlen out) c) (λ op c', c_ctx c' = c_ctx c
    ∧ op = zlen (out ++ run_bytes (lits anchor ip) 0) ∧ holds (c_dst c') (out ++ run_bytes (lits anchor ip) 0) ∧ op + 7 ≤ oend).
Proof.
  intros Hh Ha Hip Hsz. pose proof (zlen_nonneg out). pose proof (zlen_lits anchor ip ltac:(lia) ltac:(lia)) as Hll.
  unfold encode_literals. change (2 + 1 + LASTLITERALS) with 8. apply run_check; [by destruct Hh|]. intros Hc.
  set (ll := ip - anchor) in *.
  assert (Hfit : zlen out + 1 + (ll + 240) / 255 + Z.max 8 (ll + 7) ≤ oend) by (destruct limited; lia). clear Hc.
  destruct (run_header_ok (c_dst c) out ll Hh) as (b1 & E1 & Hh1); [lia..|]. apply on_dst_ok in E1. eapply run_step; [done|].
  set (hd := z2b (16 * len_code ll + 0) :: len_bytes ll) in *.
  assert (Hz : zlen (out ++ hd) = zlen out + 1 + (ll + 240) / 255).
  { unfold hd. rewrite zlen_app. change (zlen (?x :: ?l)) with (zlen ([x] ++ l)). rewrite zlen_app, zlen_len_bytes by lia. change (zlen [_]) with 1. lia. }
  rewrite <- Hz. pose proof Hh1 as (Hb1 & _ & _).
  destruct (lits8 src anchor (zlen (out ++ hd)) b1 ll) as (b2 & E2 & F2); [lia..|].
  eapply run_step; [apply on_dst_ok; exact E2|]. apply run_ret. split; [done|].
  assert (Hrun : out ++ run_bytes (lits anchor ip) 0 = (out ++ hd) ++ read_at src anchor ll).
  { unfold run_bytes, hd. rewrite Hll. by rewrite <- app_assoc. }
  rewrite Hrun, (zlen_app (out ++ hd)). unfold lits in Hll. fold ll in Hll. rewrite Hll. split; [done|]. split; [|lia].
  apply (holds_literals src oend b1); [done|lia..|done].
Qed.
(** ** A match *)
Lemma encode_match_length_ok b out l rest mc : holds b (out ++ run_bytes l 0 ++ rest) → 0 ≤ mc →
  zlen (out ++ run_bytes l 0 ++ rest) + (mc + 240) / 255 + 3 ≤ oend →
  ∃ b', encode_match_length (zlen out) (zlen (out ++ run_bytes l 0 ++ rest)) mc b
      = (Ok (zlen (out ++ run_bytes l (len_code mc) ++ rest ++ len_bytes mc)), b')
    ∧ holds b' (out ++ run_bytes l (len_code mc) ++ rest ++ len_bytes mc).
Proof.
  intros Hh Hmc Hl. pose proof (zlen_nonneg l). pose proof (zlen_nonneg rest). pose proof (zlen_nonneg out).
  assert (Htok : ∀ v, 0 ≤ v ≤ 15 → ∃ b', token_add (zlen out) v b = (Ok tt, b') ∧ holds b' (out ++ run_bytes l v ++ rest)).
  { intros v Hv. unfold run_bytes in *. cbn [app] in *. destruct (token_add_ok _ _ _ _ _ v Hh) as (b' & E & Hh'). exists b'. split; [done|].
    replace (z2b (b2z (z2b (16 * len_code (zlen l) + 0)) + v)) with (z2b (16 * len_code (zlen l) + v)) in Hh'; [done|].
    rewrite b2z_z2b, Z.mod_small by (unfold len_code; lia). f_equal. lia. }
  assert (Hsame : ∀ v, zlen (out ++ run_bytes l v ++ rest) = zlen (out ++ run_bytes l 0 ++ rest)).
  { intros v. by rewrite !zlen_app, !zlen_run. }
  unfold encode_match_length, ML_MASK. rewrite Z.geb_leb. destruct (Z.leb_spec 15 mc).
  - destruct (Htok 15 ltac:(lia)) as (b1 & E1 & Hh1). mstep E1. rewrite <- (Hsame 15).
    destruct (store_ok oend b1 _ [xff; xff; xff; xff] Hh1) as (b2 & E2 & Hh2); [rewrite Hsame; change (zlen [_; _; _; _]) with 4; lia|].
    mstep E2. destruct (write_ff_ok oend (S (Z.to_nat (mc - 15))) b2 _ (mc - 15) Hh2) as (b3 & E3 & Hh3); [lia|rewrite Hsame; lia|].
    exists b3. unfold len_code. rewrite Z.min_r, len_bytes_long by lia. rewrite <- !app_assoc in *. done.
  - destruct (Htok mc ltac:(lia)) as (b1 & E1 & Hh1). mstep E1. exists b1. unfold len_code. rewrite Z.min_l, len_bytes_short, app_nil_r by lia.
    split; [by rewrite (Hsame mc)|done].
Qed.

(** What is written so far, [out], stands for the first [anchor] bytes, and is no
    larger than the bound. *)
Definition complete (anchor : Z) (out : bytes) : Prop :=
  (∀ s, blk (take (Z.to_nat anchor) src) s src → blk [] (out ++ s) src) ∧ zlen out ≤ anchor + anchor / 255.

Lemma complete_seq anchor ip off mc out : complete anchor out → 0 ≤ anchor ≤ ip → 1 ≤ off ≤ 65535 → off ≤ ip → 0 ≤ mc →
  ip + 12 ≤ n → ip + mc + 9 ≤ n → repeats src off ip (ip + mc + 4) →
  complete (ip + mc + 4) (out ++ seq_bytes (lits anchor ip) off mc).
Proof.
  intros [Hc Hsz] Ha Ho Hoi Hmc Hip Hend Hr. pose proof (zlen_lits anchor ip ltac:(lia) ltac:(lia)) as Hll.
  assert (Hz : zlen (take (Z.to_nat anchor) src) = anchor) by (unfold zlen in *; rewrite length_take; lia). split.
  - intros s Hs. rewrite <- app_assoc. apply Hc. apply blk_seq; rewrite ?Hll, ?Hz; [lia..|].
    assert (Htake : take (Z.to_nat anchor) src ++ lits anchor ip = take (Z.to_nat ip) src).
    { unfold lits, read_at. rewrite take_take_drop. f_equal. lia. }
    rewrite Htake, copy_from_src; [by replace (ip + (mc + 4)) with (ip + mc + 4) by lia|lia..|].
    intros i Hi. rewrite Hr by lia. f_equal. lia.
  - unfold seq_bytes. rewrite !zlen_app, zlen_run, Hll, zlen_len_bytes by done. change (zlen [_; _]) with 2. lia.
Qed.
(** ** The main loop *)
Variables (ty : tableType_t) (acceleration : Z).
Hypotheses (Hn : n < 2 ^ 31) (Hty : ty = byU16 ∧ n < LZ4_64Klimit ∨ ty = byU32) (Hacc : 1 ≤ acceleration).

(** The invariant at each label: [anchor] bytes are encoded, up to [op]. *)
Definition label_inv (l : label) (anchor op : Z) (c : cstate) : Prop :=
  match l with
  | Search ip h => ∃ out, holds (c_dst c) out ∧ op = zlen out ∧ complete anchor out ∧ 0 ≤ anchor < ip ∧ ip + 11 ≤ n
      ∧ below (ip - 1) c ∧ 0 ≤ h < table_size ty
  | NextMatch ip m token => ∃ out q, token = zlen out ∧ holds (c_dst c) (out ++ run_bytes (lits anchor ip) 0)
      ∧ op = zlen (out ++ run_bytes (lits anchor ip) 0) ∧ complete anchor out ∧ 0 ≤ anchor ≤ ip ∧ found src ip m q ∧ below q c
      ∧ op + 5 ≤ oend
  | LastLiterals => ∃ out, holds (c_dst c) out ∧ op = zlen out ∧ complete anchor out ∧ 0 ≤ anchor ≤ n
  end.

(** It decreases with every step. *)
Definition left (l : label) (anchor : Z) : Z :=
  match l with Search _ _ => 2 * (n - anchor) - 1 | NextMatch _ _ _ => 2 * (n - anchor) - 2 | LastLiterals => 0 end.

Definition step_post (l : label) (anchor : Z) (r : label * Z * Z) (c' : cstate) : Prop :=
  let '(l', anchor', op') := r in label_inv l' anchor' op' c' ∧ left l' anchor' < left l anchor.

Lemma search_step_ok ip h anchor op c : label_inv (Search ip h) anchor op c →
  run_ok (search_step src n olimit limited ty 0 acceleration ip h anchor op c) (step_post (Search ip h) anchor).
Proof.
  intros (out & Hh & -> & Hc & Ha & Hip & Hb & Hhash). unfold search_step.
  destruct (find_match_ok src ty Hn Hty (S (Z.to_nat n)) ip 1 (Z.shiftl acceleration LZ4_skipTrigger) h c Hb) as (r & c1 & E & Hd & Hr);
    [lia..|change LZ4_skipTrigger with 6; rewrite Z.shiftl_mul_pow2; lia|done|lia|].
  eapply run_step; [done|]. destruct r as [[ip1 m1]|].
  - destruct Hr as (Hip1 & Hf & Hb1).
    destruct (catch_up_ok src anchor ip1 m1 ip1 c1 Hf ltac:(lia)) as (ip2 & m2 & E2 & Hf2 & Ha2). eapply run_step; [done|].
    pose proof Hf2 as (? & ? & ? & ? & _). eapply run_bind.
    + apply encode_literals_ok; [by rewrite Hd|lia|lia|apply Hc].
    + intros op' c2 (Hctx & -> & Hh2 & Hfit). apply run_ret. split; [|simpl; lia]. exists out, ip1. split; [done|].
      split; [done|]. split; [done|]. split; [done|]. split; [lia|]. split; [done|]. split; [|lia]. unfold below in *. by rewrite Hctx.
  - apply run_ret. split; [|simpl; lia]. exists out. rewrite Hd. split; [done|]. split; [done|]. split; [done|lia].
Qed.

(** After a match up to [e]: the table is updated and the next position tried. *)
Definition after_match (e op : Z) : M cstate (label * Z * Z) :=
  if e >=? mflimitPlusOne n then mret (LastLiterals, e, op) else
  h ← LZ4_hashPosition src (e - 2) ty;
  LZ4_putIndexOnHash (u32 (e - 2 + 0)) h ty;;
  h ← LZ4_hashPosition src e ty;
  let current := u32 (e + 0) in
  matchIndex ← LZ4_getIndexOnHash h ty;
  let m := matchIndex - 0 in
  LZ4_putIndexOnHash current h ty;;
  hit ← (if bool_decide (ty = byU16) || (matchIndex + LZ4_DISTANCE_MAX >=? current)
         then a ← LZ4_read32 src m; b ← LZ4_read32 src e; mret (a =? b)
         else mret false);
  if (hit : bool) then
    on_dst (dst_store op [x00]);; mret (NextMatch e m op, e, op + 1)
  else
    forwardH ← LZ4_hashPosition src (e + 1) ty;
    mret (Search (e + 1) forwardH, e, op).

Lemma after_match_ok ip m token anchor e q out c : holds (c_dst c) out → complete e out → below q c → q < e → 4 ≤ e → anchor + 4 ≤ e → e + 5 ≤ n →
  zlen out + 6 ≤ oend → run_ok (after_match e (zlen out) c) (step_post (NextMatch ip m token) anchor).
Proof.
  intros Hh Hc Hb Hq He4 Han He5 Hfit. unfold after_match. change (mflimitPlusOne n) with (n - 12 + 1). rewrite Z.geb_leb.
  destruct (Z.leb_spec (n - 12 + 1) e). { apply run_ret. split; [|simpl; lia]. exists out. split; [done|]. split; [done|]. split; [done|lia]. }
  destruct (hashPosition_ok src ty Hty (e - 2) c) as (h1 & E1 & Hh1); [lia..|]. eapply run_step; [done|].
  assert (Hb1 : below (e - 1) c) by (intros h v E; apply Hb in E; lia). rewrite !Z.add_0_r, !u32_small by lia.
  destruct (putIndex_ok src ty Hn Hty (e - 1) (e - 2) h1 c Hb1) as (c2 & E2 & Hd2 & Hb2); [lia..|]. eapply run_step; [done|].
  destruct (hashPosition_ok src ty Hty e c2) as (h3 & E3 & Hh3); [lia..|]. eapply run_step; [done|].
  destruct (getIndex_ok ty (e - 1) h3 c2 Hb2) as (v & E4 & Hv); [lia..|]. eapply run_step; [done|].
  assert (Hb2' : below e c2) by (intros h x E; apply Hb2 in E; lia).
  destruct (putIndex_ok src ty Hn Hty e e h3 c2 Hb2') as (c5 & E5 & Hd5 & Hb5); [lia..|]. eapply run_step; [done|].
  rewrite Z.sub_0_r. assert (Hd : c_dst c5 = c_dst c) by congruence.
  assert (Hhit : ∃ hit, (if bool_decide (ty = byU16) || (v + LZ4_DISTANCE_MAX >=? e)
    then a ← LZ4_read32 src v; b ← LZ4_read32 src e; mret (a =? b) else mret false) c5 = (Ok hit, c5) ∧ (hit = true → found src e v e)).
  { destruct (bool_decide (ty = byU16) || (v + LZ4_DISTANCE_MAX >=? e)) eqn:Ed; [|by exists false].
    destruct (read32_eq src v e c5 ltac:(lia) ltac:(lia)) as (a & b & Ea & Eb & Hab). exists (a =? b). split; [by mstep Ea; mstep Eb|].
    intros Hr%Hab. split; [lia|]. split; [|split; [lia|]; split; [lia|done]]. apply (dist_ok src ty Hty); [lia..|].
    apply orb_prop in Ed as [Ed|Ed]; [by left|right]. rewrite Z.geb_leb in Ed. by apply Z.leb_le in Ed. }
  destruct Hhit as (hit & E6 & Hf). eapply run_step; [done|]. destruct hit.
  - destruct (store_ok oend (c_dst c5) out [x00]) as (b7 & E7 & Hh7); [by rewrite Hd|change (zlen [x00]) with 1; lia|].
    eapply run_step; [by apply on_dst_ok|]. apply run_ret. split; [|simpl; lia]. exists out, e.
    assert (Hrun : run_bytes (lits e e) 0 = [x00]) by (unfold lits; rewrite Z.sub_diag; done). rewrite Hrun.
    split; [done|]. split; [done|]. split; [by rewrite zlen_app|]. split; [done|]. split; [lia|]. split; [by apply Hf|]. split; [done|lia].
  - destruct (hashPosition_ok src ty Hty (e + 1) c5) as (h7 & E7 & Hh7); [lia..|]. eapply run_step; [done|]. apply run_ret.
    split; [|simpl; lia]. exists out. rewrite Hd. split; [done|]. split; [done|]. split; [done|]. split; [lia|]. split; [lia|].
    split; [by replace (e + 1 - 1) with e by lia|done].
Qed.

Lemma match_step_ok ip m token anchor op c : label_inv (NextMatch ip m token) anchor op c →
  run_ok (match_step src n olimit limited ty 0 ip m token op c) (step_post (NextMatch ip m token) anchor).
Proof.
  intros (out & q & -> & Hh & -> & Hc & Ha & (Hm & Hd & Hq & Hqn & Hr) & Hb & Hfit). unfold match_step.
  set (l := lits anchor ip) in *. set (off := ip - m) in *. pose proof (zlen_lits anchor ip ltac:(lia) ltac:(lia)) as Hll. fold l in Hll.
  replace (z2b (Z.shiftr (off mod 2 ^ 16) 8)) with (z2b (off / 256)) by (rewrite Z.mod_small, Z.shiftr_div_pow2 by lia; done).
  set (ob := [z2b off; z2b (off / 256)]).
  destruct (store_ok oend (c_dst c) _ ob Hh) as (b1 & E1 & Hh1); [change (zlen ob) with 2; lia|].
  eapply run_step; [by apply on_dst_ok|]. change (matchlimit n) with (n - 5). change MINMATCH with 4.
  destruct (ends_exists src off (n - 5) (ip + 4)) as (e & He); [lia|]. pose proof He as (He' & Hre & _).
  replace (m + 4) with (ip + 4 - off) by lia. eapply run_step; [apply (count_ok src off ltac:(lia) (n - 5) (ip + 4) e); [done|lia|lia]|].
  assert (Hqe : q + 4 ≤ e).
  { replace (q + 4) with (ip + 4 + (q - ip)) by lia. apply (ends_probe src off (n - 5) (ip + 4) e (q - ip) He); [lia..|].
    intros i Hi. apply Hr. lia. }
  assert (Hrep : repeats src off ip e).
  { apply (repeats_trans src off ip (ip + 4)); [|done]. intros i Hi. apply Hr. lia. }
  set (mc := e - (ip + 4)) in *. replace (ip + (mc + 4)) with e by lia. rewrite <- app_assoc in Hh1.
  assert (Hop : zlen (out ++ run_bytes l 0) + 2 = zlen (out ++ run_bytes l 0 ++ ob)) by (rewrite !zlen_app; change (zlen ob) with 2; lia).
  rewrite Hop. apply run_check; [by destruct Hh1|]. intros Hlimit. change (1 + LASTLITERALS) with 6 in Hlimit.
  assert (Hcs : complete e (out ++ seq_bytes l off mc)).
  { replace e with (ip + mc + 4) by lia. apply complete_seq; try done; try lia. by replace (ip + mc + 4) with e by lia. }
  assert (Hseq : out ++ run_bytes l (len_code mc) ++ ob ++ len_bytes mc = out ++ seq_bytes l off mc).
  { done. }
  assert (Hsz : zlen (out ++ seq_bytes l off mc) = zlen (out ++ run_bytes l 0 ++ ob) + (mc + 240) / 255).
  { rewrite <- Hseq, !zlen_app, !zlen_run, zlen_len_bytes by lia. lia. }
  assert (Hroom : zlen (out ++ seq_bytes l off mc) + 6 ≤ oend) by (destruct Hcs as [_ Hcs]; destruct limited; lia).
  destruct (encode_match_length_ok b1 out l ob mc Hh1) as (b2 & E2 & Hh2); [lia|lia|]. rewrite Hseq in E2, Hh2.
  eapply run_step; [apply on_dst_ok; exact E2|].
  apply (after_match_ok ip m (zlen out) anchor e q (out ++ seq_bytes l off mc)); try done; lia.
Qed.

Lemma main_loop_ok fuel : ∀ l anchor op c, label_inv l anchor op c → left l anchor < Z.of_nat fuel →
  run_ok (main_loop src n olimit limited ty 0 acceleration fuel l anchor op c) (λ '(a, o) c', label_inv LastLiterals a o c').
Proof.
  induction fuel as [|fuel IH]; intros l anchor op c Hinv Hf.
  { destruct l; simpl in Hf; [destruct Hinv as (? & ? & ? & ? & ? & ? & ?)|destruct Hinv as (? & ? & ? & ? & ? & ? & ? & (? & ? & ? & ? & ?) & ?)|]; lia. }
  cbn [main_loop]. destruct l as [ip h|ip m token|]; [..|by apply run_ret].
  - eapply run_bind; [by apply search_step_ok|]. intros [[l' a'] o'] c' [Hinv' Hlt]. apply IH; [done|lia].
  - eapply run_bind; [by apply match_step_ok|]. intros [[l' a'] o'] c' [Hinv' Hlt]. apply IH; [done|lia].
Qed.
(** ** The last literals, and the whole block *)
Definition block_post (r : Z) (c' : cstate) : Prop :=
  ∃ out, holds (c_dst c') out ∧ r = zlen out ∧ blk [] out src ∧ r ≤ n + n / 255 + 16.

Lemma last_literals_ok anchor op c : label_inv LastLiterals anchor op c → run_ok (last_literals src n olimit limited anchor op c) block_post.
Proof.
  intros (out & Hh & -> & [Hc Hsz] & Ha). unfold last_literals. change (iend n) with n. apply run_check; [by destruct Hh|]. intros Hlimit.
  change RUN_MASK with 15 in Hlimit. pose proof (zlen_nonneg out). set (lr := n - anchor) in *.
  assert (Hfit : zlen out + 1 + (lr + 240) / 255 + lr ≤ oend) by (destruct limited; lia).
  destruct (run_header_ok (c_dst c) out lr Hh) as (b1 & E1 & Hh1); [lia|lia|]. eapply run_step; [apply on_dst_ok; exact E1|].
  set (hd := z2b (16 * len_code lr + 0) :: len_bytes lr) in *. pose proof (zlen_lits anchor n ltac:(lia) ltac:(lia)) as Hll. fold lr in Hll.
  assert (Hrun : (out ++ hd) ++ lits anchor n = out ++ run_bytes (lits anchor n) 0).
  { unfold run_bytes, hd. rewrite Hll. by rewrite <- app_assoc. }
  assert (Hz : zlen (out ++ hd) = zlen out + 1 + (lr + 240) / 255).
  { apply (f_equal zlen) in Hrun. rewrite (zlen_app (out ++ hd)), (zlen_app out (run_bytes _ _)), zlen_run, Hll in Hrun. lia. }
  rewrite <- Hz. pose proof Hh1 as (Hb1 & _ & _).
  destruct (lits_exact src anchor (zlen (out ++ hd)) b1 lr) as (b2 & E2 & F2); [lia..|]. eapply run_step; [apply on_dst_ok; exact E2|].
  apply run_ret. exists (out ++ run_bytes (lits anchor n) 0). rewrite <- Hrun, (zlen_app (out ++ hd)), Hll.
  split; [apply (holds_literals src oend b1); [done|lia..|done]|]. split; [done|]. split; [|lia]. rewrite Hrun. apply Hc.
  assert (Hsrc : take (Z.to_nat anchor) src ++ lits anchor n = src).
  { unfold lits, read_at. rewrite take_take_drop, take_ge; [done|]. unfold zlen in *. lia. }
  pose proof (blk_last (take (Z.to_nat anchor) src) (lits anchor n)) as Hlast. by rewrite Hsrc in Hlast.
Qed.

Lemma complete_nil : complete 0 [].
Proof. split; [done|]. change (zlen []) with 0. lia. Qed.

Lemma holds_nil b : zlen b = oend → holds b [].
Proof. intros Hb. pose proof (zlen_nonneg b). split; [done|]. change (zlen []) with 0. split; lia. Qed.

Lemma compress_body_ok c : zlen (c_dst c) = oend → below 0 c → run_ok (compress_body src n olimit limited ty 0 acceleration c) block_post.
Proof.
  intros Hz Hb. pose proof (zlen_nonneg src). unfold compress_body. eapply run_step; [done|]. set (c1 := CState _ _).
  assert (Hb1 : below 0 c1) by exact Hb. assert (Hz1 : zlen (c_dst c1) = oend) by exact Hz. clearbody c1.
  change LZ4_minLength with 13. destruct (Z.ltb_spec n 13).
  { apply last_literals_ok. exists []. split; [by apply holds_nil|]. split; [done|]. split; [apply complete_nil|lia]. }
  destruct (hashPosition_ok src ty Hty 0 c1) as (h & E1 & Hh); [lia..|]. eapply run_step; [done|].
  destruct (putIndex_ok src ty Hn Hty 0 0 h c1 Hb1) as (c2 & E2 & Hd2 & Hb2); [lia..|]. eapply run_step; [done|].
  destruct (hashPosition_ok src ty Hty 1 c2) as (h3 & E3 & Hh3); [lia..|]. eapply run_step; [done|].
  eapply run_bind; [apply main_loop_ok|intros [a o] c'; apply last_literals_ok].
  - exists []. rewrite Hd2. split; [by apply holds_nil|]. split; [done|]. split; [apply complete_nil|]. split; [lia|]. split; [lia|]. done.
  - simpl. lia.
Qed.

Lemma compress_generic_ok c : zlen (c_dst c) = oend → c_ctx c = LZ4_initStream → n ≤ LZ4_MAX_INPUT_SIZE →
  run_ok (LZ4_compress_generic src n olimit limited ty acceleration c) block_post.
Proof.
  intros Hz Hctx Hmax. pose proof (zlen_nonneg src). unfold LZ4_compress_generic. rewrite u32_small, Z.gtb_ltb by lia.
  rewrite (proj2 (Z.ltb_ge _ _)) by lia. destruct (Z.eqb_spec n 0) as [E0|].
  - assert (Hcap : limited && (olimit <=? 0) = false → 1 ≤ oend).
    { intros E. destruct limited; [cbn [andb] in E; apply Z.leb_gt in E|]; lia. }
    destruct (limited && (olimit <=? 0)) eqn:El; [right; split; [by destruct limited|by exists c]|]. specialize (Hcap eq_refl).
    destruct (store_ok oend (c_dst c) [] [x00]) as (b1 & E1 & Hh1); [by apply holds_nil|exact Hcap|].
    eapply run_step; [apply on_dst_ok; exact E1|]. apply run_ret. exists [x00]. split; [done|]. split; [done|]. split; [|lia].
    replace src with (@nil byte) by (destruct src; [done|]; unfold zlen in E0; simpl in E0; lia). apply (blk_last [] []).
  - unfold LZ4_compress_generic_validated. eapply run_step; [done|]. rewrite Hctx. apply compress_body_ok; [done|].
    intros h v. rewrite Hctx. cbn [hashTable LZ4_initStream]. by rewrite lookup_empty.
Qed.
End Encode.

Lemma holds_take oend b out : holds oend b out → take (length out) b = out.
Proof.
  intros (Hl & Ho & Hb). assert (Hz : zlen (take (length out) b) = zlen out) by (unfold zlen in *; rewrite length_take; lia).
  apply bytes_eq; [done|]. intros i Hi. rewrite Hz in Hi. rewrite <- Hb by done. unfold byte_at, zlen in *.
  by rewrite !nth_lookup, lookup_take_lt by lia.
Qed.

Lemma blk_not_nil out s fin : blk out s fin → 0 < zlen s.
Proof. by destruct 1. Qed.

(** What a call of the compressor does, whatever its state held before. *)
Lemma compress_extState_ok src c cap acceleration : zlen src ≤ LZ4_MAX_INPUT_SIZE → zlen (c_dst c) = cap →
  ∃ r c', LZ4_compress_fast_extState src (zlen src) cap acceleration c = (Ok r, c') ∧ zlen (c_dst c') = cap ∧
    (r = 0 ∧ cap < LZ4_compressBound (zlen src)
     ∨ 0 < r ≤ Z.min cap (LZ4_compressBound (zlen src)) ∧ blk [] (take (Z.to_nat r) (c_dst c')) src).
Proof.
  intros Hmax Hcap. pose proof (zlen_nonneg src). pose proof Hmax as Hmax'. unfold LZ4_MAX_INPUT_SIZE in Hmax'.
  assert (Hbound : LZ4_compressBound (zlen src) = zlen src + zlen src / 255 + 16).
  { unfold LZ4_compressBound. rewrite u32_small, Z.gtb_ltb by lia. by rewrite (proj2 (Z.ltb_ge _ _)) by lia. }
  unfold LZ4_compress_fast_extState. rewrite Hbound.
  set (ty := if zlen src <? LZ4_64Klimit then byU16 else byU32). set (c0 := CState LZ4_initStream (c_dst c)).
  assert (Hty : ty = byU16 ∧ zlen src < LZ4_64Klimit ∨ ty = byU32).
  { unfold ty. destruct (Z.ltb_spec (zlen src) LZ4_64Klimit); [by left|by right]. }
  set (acc := if _ >? LZ4_ACCELERATION_MAX then _ else _). rewrite Z.geb_leb.
  assert (Hacc : 1 ≤ acc).
  { unfold acc, LZ4_ACCELERATION_MAX, LZ4_ACCELERATION_DEFAULT. rewrite Z.gtb_ltb. repeat zcase; lia. }
  assert (Hpost : ∀ olimit (limited : bool), (if limited then olimit = cap else zlen src + zlen src / 255 + 16 ≤ cap) →
    run_ok cap limited (LZ4_compress_generic src (zlen src) olimit limited ty acc c0) (block_post src cap)).
  { intros olimit limited Hlim. apply compress_generic_ok; try done; lia. }
  assert (Hdone : ∀ r c', block_post src cap r c' → zlen (c_dst c') = cap ∧ (r = 0 ∧ cap < zlen src + zlen src / 255 + 16
      ∨ 0 < r ≤ Z.min cap (zlen src + zlen src / 255 + 16) ∧ blk [] (take (Z.to_nat r) (c_dst c')) src)).
  { intros r c' (out & Hh & -> & Hb & Hr). pose proof (blk_not_nil _ _ _ Hb). pose proof Hh as (Hl & Ho & _). split; [done|]. right.
    split; [lia|]. unfold zlen at 1. rewrite Nat2Z.id. by rewrite (holds_take cap). }
  destruct (Z.leb_spec (zlen src + zlen src / 255 + 16) cap).
  - destruct (Hpost 0 false) as [(r & c' & E & HP)|[? _]]; [lia| |done]. rewrite E. exists r, c'. split; [done|]. by apply Hdone.
  - destruct (Hpost cap true) as [(r & c' & E & HP)|(_ & c' & E & Hz)]; [done| |]; rewrite E.
    + exists r, c'. split; [done|]. by apply Hdone.
    + exists 0, c'. split; [done|]. split; [done|]. by left.
Qed.

(** An input above the maximum is refused at once. *)
Lemma compress_extState_large src c cap acceleration : LZ4_MAX_INPUT_SIZE < zlen src < 2 ^ 31 →
  LZ4_compress_fast_extState src (zlen src) cap acceleration c = (Ok 0, CState LZ4_initStream (c_dst c)).
Proof.
  intros Hl. unfold LZ4_compress_fast_extState.
  assert (E : ∀ cap limited ty acc, LZ4_compress_generic src (zlen src) cap limited ty acc (CState LZ4_initStream (c_dst c))
    = (Err 0, CState LZ4_initStream (c_dst c))).
  { intros. unfold LZ4_compress_generic, LZ4_MAX_INPUT_SIZE in *. rewrite u32_small, Z.gtb_ltb by lia. by rewrite (proj2 (Z.ltb_lt _ _)) by lia. }
  by destruct (cap >=? _); rewrite E.
Qed.
