(* ===== verification/Lz4Theorems.v ===== *)
(** * LZ4: theorems

    The decompressor is the reference decoder on every input, the compressor
    stays within its buffers and its bound, the two are inverse, and together
    they are the codec the driver and the tool are verified against. *)
From stdpp Require Import gmap.
From S2P Require Import Prelude Kernel Lz4 Lz4Ref Lz4DecProof Lz4DecRefine Lz4EncProof Lz4EncRefine.

(** ** The decompressor *)
Lemma decompress_safe_ok src dst saddr daddr : zlen src < 2 ^ 31 → 0 ≤ saddr ∧ saddr + zlen src < 2 ^ 64 →
  0 ≤ daddr ∧ daddr + zlen dst < 2 ^ 64 →
  ∃ r dst', LZ4_decompress_safe_c src saddr daddr (zlen src) (zlen dst) dst = (Ok r, dst') ∧ zlen dst' = zlen dst ∧
    match lz4_ref (zlen dst) src with Some out => r = zlen out ∧ take (length out) dst' = out | None => r < 0 end.
Proof.
  intros Hn Hs Hd. unfold LZ4_decompress_safe_c. pose proof (decompress_generic_ok src (zlen dst) saddr daddr Hn Hs Hd dst eq_refl) as H.
  destruct (lz4_ref (zlen dst) src) as [out|].
  - destruct H as (b' & E & Hh). rewrite E. exists (zlen out), b'. split; [done|]. split; [by destruct Hh|]. split; [done|]. by eapply holds_take.
  - destruct H as (e & b' & E & He & Hb'). rewrite E. by exists e, b'.
Qed.

(** C14: the decompressor equals the reference decoder on every source, malicious
    ones included, whatever the destination held: it returns the size of what
    the reference decodes, with those bytes at the start of the destination, and
    a negative value where the reference refuses.  It ends, and no access leaves
    its buffer, since those would be no result. *)
Theorem decompress_equals_reference src dst saddr daddr :
  zlen src < 2 ^ 31 → 0 ≤ saddr ∧ saddr + zlen src < 2 ^ 64 → 0 ≤ daddr ∧ daddr + zlen dst < 2 ^ 64 →
  ∃ r dst', LZ4_decompress_safe_c src saddr daddr (zlen src) (zlen dst) dst = (Ok r, dst') ∧ zlen dst' = zlen dst ∧
    match lz4_ref (zlen dst) src with Some out => r = zlen out ∧ take (length out) dst' = out | None => r < 0 end.
Proof. apply decompress_safe_ok. Qed.

Lemma decompress_equals_reference_witness :
  zlen [x30; x61; x62; x63] < 2 ^ 31 ∧ lz4_ref 8 [x30; x61; x62; x63] = Some [x61; x62; x63] ∧
  ∃ r dst', LZ4_decompress_safe_c [x30; x61; x62; x63] 4096 8192 (zlen [x30; x61; x62; x63]) (zlen (zeros 8)) (zeros 8) = (Ok r, dst')
    ∧ zlen dst' = zlen (zeros 8) ∧
    match lz4_ref (zlen (zeros 8)) [x30; x61; x62; x63] with Some out => r = zlen out ∧ take (length out) dst' = out | None => r < 0 end.
Proof.
  split; [reflexivity|]. split; [reflexivity|].
  apply decompress_equals_reference; [reflexivity|split; [lia|reflexivity]|split; [lia|reflexivity]].
Defined.

(** ** The compressor *)

(** C15: the compressor stays within its buffers whatever its state held: it
    returns a size that fits the destination and is at most
    [LZ4_compressBound], and 0 only when the destination is smaller than that
    or the input larger than [LZ4_MAX_INPUT_SIZE], which leaves the destination
    alone. *)
Theorem compress_bounds src c acceleration : zlen src < 2 ^ 31 →
  ∃ r c', LZ4_compress_fast_extState src (zlen src) (zlen (c_dst c)) acceleration c = (Ok r, c')
    ∧ zlen (c_dst c') = zlen (c_dst c) ∧ 0 ≤ r ≤ zlen (c_dst c) ∧ r ≤ LZ4_compressBound (zlen src)
    ∧ (zlen src ≤ LZ4_MAX_INPUT_SIZE → LZ4_compressBound (zlen src) ≤ zlen (c_dst c) → 0 < r)
    ∧ (LZ4_MAX_INPUT_SIZE < zlen src → r = 0 ∧ c_dst c' = c_dst c).
Proof.
  intros Hn. pose proof (zlen_nonneg (c_dst c)). destruct (decide (zlen src ≤ LZ4_MAX_INPUT_SIZE)) as [Hm|Hm].
  - destruct (compress_extState_ok src c (zlen (c_dst c)) acceleration Hm eq_refl) as (r & c' & E & Hz & Hr).
    assert (0 ≤ LZ4_compressBound (zlen src)) by (destruct Hr as [[_ ?]|[? _]]; lia).
    exists r, c'. split; [done|]. split; [done|]. destruct Hr as [[-> Hr]|[Hr _]]; split_and!; lia.
  - rewrite compress_extState_large by lia. eexists _, _. split; [done|]. split; [done|]. split; [lia|]. split; [|split; [lia|done]].
    unfold LZ4_compressBound. rewrite u32_small by (pose proof (zlen_nonneg src); lia). rewrite Z.gtb_ltb. by rewrite (proj2 (Z.ltb_lt _ _)) by lia.
Qed.

Definition sample : bytes := replicate 40 x61.

Lemma compress_bounds_witness : zlen sample < 2 ^ 31 ∧
  ∃ r c', LZ4_compress_fast_extState sample (zlen sample) (zlen (zeros 24)) 1 (CState LZ4_initStream (zeros 24)) = (Ok r, c')
    ∧ zlen (c_dst c') = zlen (zeros 24) ∧ 0 ≤ r ≤ zlen (zeros 24) ∧ r ≤ LZ4_compressBound (zlen sample)
    ∧ (zlen sample ≤ LZ4_MAX_INPUT_SIZE → LZ4_compressBound (zlen sample) ≤ zlen (zeros 24) → 0 < r)
    ∧ (LZ4_MAX_INPUT_SIZE < zlen sample → r = 0 ∧ c_dst c' = zeros 24).
Proof. split; [reflexivity|]. apply (compress_bounds sample (CState LZ4_initStream (zeros 24)) 1). reflexivity. Defined.

(** ** Both *)
Lemma decompress_block src s dst saddr daddr : blk [] s src → zlen s < 2 ^ 31 → zlen src ≤ zlen dst →
  0 ≤ saddr ∧ saddr + zlen s < 2 ^ 64 → 0 ≤ daddr ∧ daddr + zlen dst < 2 ^ 64 →
  ∃ dst', LZ4_decompress_safe_c s saddr daddr (zlen s) (zlen dst) dst = (Ok (zlen src), dst') ∧ zlen dst' = zlen dst ∧ take (length src) dst' = src.
Proof.
  intros Hb Hs Hd Ha1 Ha2. destruct (decompress_safe_ok s dst saddr daddr Hs Ha1 Ha2) as (r & dst' & E & Hz & Hr).
  rewrite (blk_ref _ _ _ Hb Hd) in Hr. destruct Hr as [-> Hr]. by exists dst'.
Qed.

Lemma compressBound_int n : 0 ≤ n ≤ LZ4_MAX_INPUT_SIZE → LZ4_compressBound n < 2 ^ 31.
Proof.
  intros Hn. unfold LZ4_compressBound, LZ4_MAX_INPUT_SIZE in *. assert (n / 255 ≤ 8300000) by (apply Z.div_le_upper_bound; lia).
  rewrite u32_small by lia. destruct (n >? _); lia.
Qed.

(** What the compressor wrote. *)
Lemma compressed_block src c acceleration r c' : zlen src ≤ LZ4_MAX_INPUT_SIZE →
  LZ4_compress_fast_extState src (zlen src) (zlen (c_dst c)) acceleration c = (Ok r, c') → r ≠ 0 →
  blk [] (take (Z.to_nat r) (c_dst c')) src ∧ zlen (take (Z.to_nat r) (c_dst c')) = r ∧ 0 < r < 2 ^ 31.
Proof.
  intros Hm E Hr. pose proof (compressBound_int (zlen src) (conj (zlen_nonneg src) Hm)).
  destruct (compress_extState_ok src c (zlen (c_dst c)) acceleration Hm eq_refl) as (r' & c1 & E' & Hz & Hp).
  rewrite E in E'. injection E' as <- <-. destruct Hp as [[? _]|[Hp Hb]]; [done|]. split; [done|]. unfold zlen in *. rewrite length_take. lia.
Qed.

(** C13: decompression undoes compression: a block the compressor returns, with any
    acceleration and state, decompresses into any destination of the size of the
    source or more, wherever the buffers lie, to the source. *)
Theorem compress_decompress src c acceleration r c' dst saddr daddr :
  zlen src ≤ LZ4_MAX_INPUT_SIZE →
  LZ4_compress_fast_extState src (zlen src) (zlen (c_dst c)) acceleration c = (Ok r, c') → r ≠ 0 →
  zlen src ≤ zlen dst → 0 ≤ saddr ∧ saddr + r < 2 ^ 64 → 0 ≤ daddr ∧ daddr + zlen dst < 2 ^ 64 →
  ∃ dst', LZ4_decompress_safe_c (take (Z.to_nat r) (c_dst c')) saddr daddr r (zlen dst) dst = (Ok (zlen src), dst')
    ∧ zlen dst' = zlen dst ∧ take (length src) dst' = src.
Proof.
  intros Hm E Hr Hd Ha1 Ha2. destruct (compressed_block src c acceleration r c' Hm E Hr) as (Hb & Hz & Hlt).
  destruct (decompress_block src _ dst saddr daddr Hb) as (dst' & E' & H'); try done; rewrite ?Hz; [lia..|]. rewrite Hz in E'. by exists dst'.
Qed.

(** The context and the block of [sample]. *)
Definition sample_run : Z * cstate :=
  match LZ4_compress_fast_extState sample (zlen sample) (zlen (zeros 24)) 1 (CState LZ4_initStream (zeros 24)) with
  | (Ok r, c') => (r, c')
  | (_, c') => (0, c')
  end.

Lemma compress_decompress_witness : sample_run.1 = 11 ∧
  ∃ dst', LZ4_decompress_safe_c (take (Z.to_nat sample_run.1) (c_dst sample_run.2)) 4096 8192 sample_run.1 (zlen (zeros 48)) (zeros 48) = (Ok (zlen sample), dst')
    ∧ zlen dst' = zlen (zeros 48) ∧ take (length sample) dst' = sample.
Proof.
  split; [vm_compute; reflexivity|].
  apply (compress_decompress sample (CState LZ4_initStream (zeros 24)) 1 sample_run.1 sample_run.2 (zeros 48) 4096 8192);
    [vm_compute; discriminate|vm_compute; reflexivity|vm_compute; discriminate|vm_compute; discriminate|
     split; [lia|vm_compute; reflexivity]|split; [lia|vm_compute; reflexivity]].
Defined.

(** ** The codec of the driver *)

(** The calls of the driver and the tool: the sizes are [int]s. *)
Definition code_compress (src : bytes) (cap : Z) : bytes :=
  if decide (zlen src < 2 ^ 31 ∧ 0 ≤ cap < 2 ^ 31) then
    match LZ4_compress_fast_extState src (zlen src) cap 1 (CState LZ4_initStream (zeros cap)) with
    | (Ok r, c) => take (Z.to_nat r) (c_dst c)
    | _ => []
    end
  else [].
Definition code_decompress (src : bytes) (cap : Z) : option bytes :=
  if decide (zlen src < 2 ^ 31 ∧ 0 ≤ cap < 2 ^ 31) then
    match LZ4_decompress_safe_c src 4096 4096 (zlen src) cap (zeros cap) with
    | (Ok r, dst) => if r <? 0 then None else Some (take (Z.to_nat r) dst)
    | _ => None
    end
  else None.
Definition code_lz4 : LZ4Ops := {| LZ4_compress := code_compress; LZ4_decompress_safe := code_decompress |}.

Lemma code_compress_cases src cap : code_compress src cap = [] ∧ (0 ≤ cap < 2 ^ 31 → zlen src ≤ LZ4_MAX_INPUT_SIZE → cap < LZ4_compressBound (zlen src))
  ∨ blk [] (code_compress src cap) src ∧ 0 < zlen (code_compress src cap) ≤ cap ∧ cap < 2 ^ 31.
Proof.
  unfold code_compress. assert (Hm31 : LZ4_MAX_INPUT_SIZE < 2 ^ 31) by done. destruct (decide (zlen src < 2 ^ 31 ∧ 0 ≤ cap < 2 ^ 31)) as [[Hn Hc]|]; [|left; split; [done|lia]].
  set (c := CState LZ4_initStream (zeros cap)). assert (Hz : zlen (c_dst c) = cap) by (apply zlen_zeros; lia).
  destruct (decide (zlen src ≤ LZ4_MAX_INPUT_SIZE)) as [Hm|].
  - destruct (compress_extState_ok src c cap 1 Hm Hz) as (r & c' & E & Hz' & [[-> Hr]|[Hr Hb]]); rewrite E; [by left|].
    right. split; [done|]. split; [|lia]. unfold zlen in *. rewrite length_take. lia.
  - left. rewrite compress_extState_large by lia. split; [done|lia].
Qed.

Lemma code_decompress_spec src cap : zlen src < 2 ^ 31 → 0 ≤ cap < 2 ^ 31 → code_decompress src cap = lz4_ref cap src.
Proof.
  intros Hn Hc. unfold code_decompress. rewrite decide_True by done. pose proof (zlen_zeros cap ltac:(lia)) as Hz.
  destruct (decompress_safe_ok src (zeros cap) 4096 4096) as (r & dst' & E & Hz' & Hr); [lia..|]. rewrite Hz in *. rewrite E.
  destruct (lz4_ref cap src) as [out|]; [|by rewrite (proj2 (Z.ltb_lt _ _))].
  destruct Hr as [-> Hr]. rewrite (proj2 (Z.ltb_ge _ _)) by apply zlen_nonneg. unfold zlen. by rewrite Nat2Z.id, Hr.
Qed.

Lemma code_laws : @LZ4Laws code_lz4.
Proof.
  split; simpl.
  - intros src cap. destruct (code_compress_cases src cap) as [[-> _]|(_ & ? & _)]; [change (zlen []) with 0|]; lia.
  - intros src Hm. pose proof (compressBound_int (zlen src) (conj (zlen_nonneg src) Hm)).
    destruct (code_compress_cases src (LZ4_compressBound (zlen src))) as [[_ Hc]|(_ & Hz & _)]; [|intros E; rewrite E in Hz; change (zlen []) with 0 in Hz; lia].
    assert (0 ≤ LZ4_compressBound (zlen src)).
    { unfold LZ4_compressBound. pose proof (zlen_nonneg src). pose proof (Z.div_pos (zlen src) 255 ltac:(lia) ltac:(lia)). destruct (u32 _ >? _); lia. }
    specialize (Hc ltac:(lia) Hm). lia.
  - intros src cap n Hne Hn. destruct (code_compress_cases src cap) as [[? _]|(Hb & Hz & ?)]; [done|].
    pose proof (zlen_nonneg src). rewrite code_decompress_spec by lia. apply blk_ref; [done|lia].
  - intros src n d. unfold code_decompress. case_decide as Hc; [|done]. destruct Hc as [Hn Hc]. pose proof (zlen_zeros n ltac:(lia)) as Hz.
    destruct (decompress_safe_ok src (zeros n) 4096 4096) as (r & dst' & E & Hz' & _); [lia..|]. rewrite Hz in *. rewrite E.
    destruct (r <? 0); [done|]. intros [= <-]. unfold zlen in *. rewrite length_take. lia.
Qed.

(** C16: the LZ4 code meets the contract the driver and the tool rely on: its blocks
    fit, a destination of [LZ4_compressBound] bytes is enough, decompression
    gives the source back, and its output fits. *)
Theorem code_meets_contract : @LZ4Laws code_lz4.
Proof. exact code_laws. Qed.
